(* ===== verification/_CoqProject ===== *)
-Q . S2P
Prelude.v
CLib.v
HashTable.v
Util.v
Matching.v
Types.v
ProxyConfig.v
Socks5.v
Dns.v
Http.v
Process.v
Observer.v
Rules.v
Policy.v
ConnTrack.v
Workers.v
Relay.v
RelaySafety.v
RelayDrain.v
RelayPairs.v
UdpRelay.v
AssocHandles.v
Handler.v
Listeners.v
ProxyTest.v
DirectCache.v
ConnLog.v
FlowMap.v
CleanupWalk.v
PortBitmap.v
Packet.v
PacketSafety.v
PacketPolicy.v
PacketFamilies.v
PacketVerdicts.v
Engine.v
Lifecycle.v
Scenarios.v
Witnesses.v
FlowWitnesses.v
RelayWitnesses.v
EngineWitnesses.v
