(* ===== verification/Prelude.v ===== *)
(** * ProxyBridge: the traffic engine of the Windows library

    ProxyBridge (src/Windows/src) captures the packets of a host with a driver,
    decides per process and destination whether a connection goes direct, is
    blocked or goes through a proxy, redirects proxied TCP and UDP to two local
    relays, and carries it from there over SOCKS5 or HTTP CONNECT.  This library
    models the twelve C sources of that engine and proves what makes each part,
    and the parts together, correct.

    ** How the program works and which file models what

    - A captured packet: the packet thread receives batches from the driver,
      [packet_processor] of ProxyBridge.c.  [Packet] has the four handlers (TCP
      and UDP over IPv4 and IPv6, outbound and inbound) on the record [World],
      which holds every table the thread touches; [Engine.packet_batch] is the
      loop over one batch with the send buffer, [Engine.packet_processor] the
      thread.
    - The decision: [Policy] (check_process_rule of pb_rules.c) asks [Process]
      (pb_process.c) for the owner of the endpoint, [Rules] (pb_rules.c) for the
      first matching rule, which uses the patterns of [Matching], and
      [ProxyConfig] (pb_proxy.c) for the configuration.  Host names in rules come
      from the cache that [Dns] (pb_dns.c) fills from answers seen on the wire.
    - Memory of decisions: [ConnTrack] (the flow table of pb_conntrack.c with its
      two indexes), [DirectCache] (direct UDP flows), [PortBitmap] (decided TCP
      ports), [ConnLog] (what was reported, and the clean-up).  [FlowMap] is what
      the flow table promises, a finite map, and [CleanupWalk] the clean-up of
      flows cut where it gives up the lock.  A change
      of policy bumps the generation of [Types], which outdates them.
    - The owners: [Observer] (owner_event_processor of ProxyBridge.c) turns the
      reports of the driver into entries of the owner cache.
    - The relays of pb_relay.c: [Handler] accepts a redirected connection, finds
      its flow and connects it through [Socks5] (pb_socks5.c) or [Http]
      (pb_http.c); the bytes are then moved by the completion-port pool, [Relay],
      or by two blocking threads, [RelayPairs] and the end of [Handler];
      [Workers] counts the threads that do this.  [UdpRelay] is the loop of the
      UDP relay and [AssocHandles] the sockets of its associations.  [Listeners]
      has the two threads around all this, from their first socket to their last.
    - The test calls of the API (pb_proxy.c), which use the same clients:
      [ProxyTest].
    - Start, Stop and the other threads: [Lifecycle] has the handles and threads,
      [Engine] the tables at Start and Stop, the clean-up thread (whose walk over
      the flows goes section by section), loading and unloading (DllMain), and all
      components as one transition system over their common state.
    - Shared: this file (machine integers, lists, maps, tactics and the hint
      database [pb]), [CLib] (the C library functions in use, and the class
      [Platform] of what is not source: allocation, inet_pton, getaddrinfo),
      [HashTable] (the chains every cache is made of, behind the class
      [HashKey]), [Util] (pb_util.c).
    - [PacketSafety], [PacketPolicy], [PacketFamilies], [PacketVerdicts],
      [RelaySafety] and [RelayDrain] hold proofs about [Packet] and [Relay];
      [Scenarios], [Witnesses], [FlowWitnesses], [RelayWitnesses] and
      [EngineWitnesses] run the definitions on concrete inputs, on which the
      hypotheses of the theorems hold.

    Names are those of the source wherever they can be.  A C string is the list
    of its bytes, a pointer to a node the key of a heap, a [LONG] or [UINT32] a
    [Z] whose wrap-around is written out.

    ** What the theorems show

    - Decisions.  [check_process_rule] gives DIRECT for a loopback destination that
      is bypassed and else exactly what the relation [decides] allows, the
      rule loop is the search for the first enabled applicable rule, process
      patterns are case-blind globs ([Policy], [Rules], [Matching]).
    - Packets.  A new connection gets what was decided, as the overrides for
      special destinations leave it, and the SYNs that are let out without a
      decision are listed; no packet leaves
      unmodified or is dropped without one of the listed reasons; a packet of a
      redirected flow is turned to the relay and the relay's answer to it back; a
      UDP decision, of either family, that raced with
      a policy change is not used again ([PacketPolicy], [PacketFamilies],
      [PacketVerdicts]); a batch is decided in
      order and what passes is sent in order ([Engine]).
    - Tables.  Each table keeps its invariant; the flow table with its nodes and
      indexes refines a finite map, whatever sequence of its functions runs
      ([FlowMap]), and its clean-up keeps doing so between other threads as long
      as they free nothing ([CleanupWalk]); look-ups return what was put in, for as
      long as it is valid ([ConnTrack], [DirectCache], [Dns], [Rules],
      [Process]); an owner the event cache names was reported recently and not
      closed since ([Observer]).
    - Hostile input.  The DNS parser reads nothing outside the packet, ends, and
      adds answers only under the name asked for ([Dns]); only this host or the
      original destination can use a tracked flow ([Listeners]); the handshakes
      accept exactly a grant, however it is cut into segments, and say no more to
      the proxy than the configuration allows ([Socks5], [Handler]).
    - Relays.  What the pool sends is a prefix of what it received, nothing freed
      or closed is used in any interleaving, and an aborted pool drains in a
      bounded number of steps ([RelaySafety], [RelayDrain]); the same safety for
      the pairs of the blocking relay ([RelayPairs]) and the sockets of the UDP
      associations ([AssocHandles]); a client's datagram goes over the socket and to
      the address of an association of its flow's configuration, one granted
      just then if need be, and an answer to the flow towards its origin that was
      active last, which is another client's when two talk to one origin
      ([UdpRelay]); the test calls succeed exactly when the proxy grants the
      tunnel by its protocol ([ProxyTest]).
    - Life cycle.  No sequence of Starts and Stops loses a handle or closes one
      twice ([Lifecycle]); the relay threads report to Start once and release all
      they opened, the associations included ([Listeners]); Stop frees every flow once and forgets what was decided;
      from loading on, packets, owner reports, sections of the clean-up, relay
      passes, API calls and restarts in any order keep every table well formed,
      and nothing follows a dangling pointer or reads behind a packet except in
      the three cases that [hazard] of [Engine] describes.
    - Defects are theorems too: the lost done event ([Workers]), a DNS name that
      becomes a header and an answer that is read in one piece ([Http]), a live
      flow freed by the clean-up ([ConnTrack]) and the freed node it can run into
      ([CleanupWalk]), relayed packets let out by a connection of the other
      family ([PacketFamilies]), hashes that do not spread ([Process]).

    ** How it is modelled

    - Failure.  [None] as the result of an operation is what must not happen: a
      pointer to a freed node, a read outside a buffer ([Faulty] in the relays'
      transition systems).  Failures the code handles are ordinary results.
    - What the code asks the system is an argument: clocks, results of socket
      calls, allocations (a hint [Some p] is a fresh address, [None] a failure),
      the operating system's tables, what the driver reports.  The parser and the
      checksums of the driver library are the arguments [parse] and [write] of
      [Engine], with the laws [parses_well] (a parsed packet lies inside the
      buffer, its port is a port, its bytes are bytes) and [writes_in_place] (a
      rewritten packet keeps its length).  A UDP header may claim any length: an
      answer from port 53 on its way in that claims more payload than was
      captured ([overlong]) is a fault of the definitions, since the code reads
      behind it.  [env_good] asks that allocations are fresh and that the
      owner wait sees its deadline.
    - Ports are in host order throughout; the code converts at every access.
    - Concurrency.  A step of [Engine] is a whole batch, report, relay pass or call,
      a section of the clean-up's walk between two releases of the lock
      ([walk_step] of [CleanupWalk]), or all the sweeps behind that walk; what
      happens inside one packet between taking the generation and using it is an
      argument of the handlers ([udp_decision_race] uses it).  API calls
      are atomic, as the lock they hold makes them.  The relays and the worker
      count are broken down to single interlocked operations and completions.  In
      [Relay] the two first posts of a connection may interleave with everything
      else, which allows more orders than the code has; [relay_abort] is one step,
      although [relay_dir_end] calls it without the lock: an operation posted
      between its interlocked exchange and its last call is ended by
      [CancelIoEx], as one posted before is;
      [g_open] are the sockets the pool was given.
    - One counter, several copies: [ow_generation] of [World]'s owners is
      [g_udp_generation].  [rs_generation] and [ps_generation] are the counter as
      the rule and proxy stores see it; [Engine] bumps the shared one when a call
      moved them.
    - [cleanup_stale_connections] drops the lock to free each node it unlinked.
      [CleanupWalk] cuts it there, and [Engine] takes these sections as its steps
      ([EnCleanBegin], [EnCleanWalk]).  What the pass does afterwards, to the
      owner cache, the log and the names, is one step ([EnCleanEnd]).  The code
      sweeps these tables each under its own lock, and its loop over the owners of
      [cleanup_stale_connections] gives up the lock per freed entry as the walk
      over the flows does; that cut is left out.
    - [hazard] of [Engine] is what the code does not survive: the overlong answer
      above, the move of the only rule ([move_outcomes] of [Rules]), and a section
      of the clean-up whose saved link stood in a node that was freed meanwhile.
      The reachable states are those before the first of them.

    ** Recursion

    Loops over data are structural.  The others have fuel: a compressed DNS name
    [dst_len + 12] rounds (every round writes a byte or takes one of ten jumps),
    the growth of the scratch buffer 33 rounds (it doubles below 2^32), exact
    receives and sends one round per byte, tokenising one per character, walks
    over the relays' lists one per connection or pair.  That this is enough is
    part of the theorems: running out is a result of its own ([NameFuel]) or the
    [None] that is shown not to occur.  The owner wait takes the attempts of its
    run as a list and is shown to end at its deadline.

    ** Not modelled

    How messages are formatted, and what an option means to a socket (the calls
    are in [Util], the relays' models leave them out); what the capture filter
    means to the driver and the driver's parameters; the call that flushes the
    resolver cache; the release of [g_pidtbl_buf] at Stop; calls of the API that edit the configurations while a
    pass of the UDP relay runs (the code does not lock them either); the macOS extension (Swift), the graphical
    and command-line interfaces and the test programs, which are other programs
    around this engine. *)
From Stdlib Require Export ZArith Lia.
From Stdlib Require Import Ascii.
From stdpp Require Export base gmap list numbers strings.

#[global] Open Scope Z_scope.

(** ** Machine integers

    Unsigned wrap-around at the widths the C code uses, and the signed 32-bit
    reading of a word ([LONG], [int]). *)
Definition u8 (x : Z) : Z := x mod 2 ^ 8.
Definition u16 (x : Z) : Z := x mod 2 ^ 16.
Definition u32 (x : Z) : Z := x mod 2 ^ 32.
Definition u64 (x : Z) : Z := x mod 2 ^ 64.
Definition s32 (x : Z) : Z := (x + 2 ^ 31) mod 2 ^ 32 - 2 ^ 31.

(** Byte order: [ntohs]/[htons] and [ntohl]/[htonl] on a little-endian host. *)
Definition ntohs (x : Z) : Z :=
  Z.lor (Z.shiftl (Z.land x 0xFF) 8) (Z.land (Z.shiftr x 8) 0xFF).
Definition ntohl (x : Z) : Z :=
  Z.lor (Z.shiftl (Z.land x 0xFF) 24)
   (Z.lor (Z.shiftl (Z.land (Z.shiftr x 8) 0xFF) 16)
     (Z.lor (Z.shiftl (Z.land (Z.shiftr x 16) 0xFF) 8)
            (Z.land (Z.shiftr x 24) 0xFF))).

Abbreviation bytes := (list Z).

(** The bytes of a string literal. *)
Definition str (s : string) : bytes :=
  map (fun c => Z.of_nat (nat_of_ascii c)) (String.list_ascii_of_string s).

(** Byte equality of two buffers of the same length: [memcmp(a, b, n) == 0]. *)
Definition memeq (a b : bytes) : bool := bool_decide (a = b).

(** Three-way [memcmp] on buffers of equal length: unsigned lexicographic order. *)
Fixpoint memcmp (a b : bytes) : Z :=
  match a, b with
  | x :: a', y :: b' => if x =? y then memcmp a' b' else if x <? y then -1 else 1
  | _, _ => 0
  end.

(** ** Automation

    [pb] is the hint database of the development; [pb_simp] the rewriting base
    used by the tactic of the same name. *)
Create HintDb pb.
Create HintDb pb_simp.

(** Turn boolean tests in the context and the goal into propositions. *)
Ltac bool_prop :=
  repeat match goal with
  | H : (_ && _)%bool = true |- _ => apply andb_true_iff in H; destruct H
  | H : (_ || _)%bool = false |- _ => apply orb_false_iff in H; destruct H
  | H : negb _ = true |- _ => apply negb_true_iff in H
  | H : negb _ = false |- _ => apply negb_false_iff in H
  | H : (_ =? _) = true |- _ => apply Z.eqb_eq in H
  | H : (_ =? _) = false |- _ => apply Z.eqb_neq in H
  | H : (_ <? _) = true |- _ => apply Z.ltb_lt in H
  | H : (_ <? _) = false |- _ => apply Z.ltb_ge in H
  | H : (_ <=? _) = true |- _ => apply Z.leb_le in H
  | H : (_ <=? _) = false |- _ => apply Z.leb_gt in H
  | H : bool_decide _ = true |- _ => apply bool_decide_eq_true in H
  | H : bool_decide _ = false |- _ => apply bool_decide_eq_false in H
  end.

(** Split every [match]/[if] of the goal, keeping the equations. *)
Ltac split_matches := repeat (case_match; simplify_eq/=).

(** ** Integer lemmas *)

Lemma u32_range x : 0 <= u32 x < 2 ^ 32.
Proof. unfold u32. apply Z.mod_pos_bound. lia. Qed.

Lemma u16_range x : 0 <= u16 x < 2 ^ 16.
Proof. unfold u16. apply Z.mod_pos_bound. lia. Qed.

Lemma u64_range x : 0 <= u64 x < 2 ^ 64.
Proof. unfold u64. apply Z.mod_pos_bound. lia. Qed.

Lemma s32_range x : - 2 ^ 31 <= s32 x < 2 ^ 31.
Proof. unfold s32. pose proof (Z.mod_pos_bound (x + 2 ^ 31) (2 ^ 32)). lia. Qed.

Lemma u32_small x : 0 <= x < 2 ^ 32 -> u32 x = x.
Proof. intros. unfold u32. by apply Z.mod_small. Qed.

Lemma u64_small x : 0 <= x < 2 ^ 64 -> u64 x = x.
Proof. intros. unfold u64. by apply Z.mod_small. Qed.

Lemma s32_small x : - 2 ^ 31 <= x < 2 ^ 31 -> s32 x = x.
Proof. intros. unfold s32. rewrite Z.mod_small; lia. Qed.

(** A difference of tick counts that goes backwards is read as a huge age. *)
Lemma u64_sub_wrap a b : 0 <= a -> a < b -> b < 2 ^ 64 -> u64 (a - b) = a - b + 2 ^ 64.
Proof.
  intros. unfold u64. symmetry. apply (Z.mod_unique _ _ (-1)); lia.
Qed.

#[export] Hint Resolve u32_range u16_range u64_range s32_range : pb.

(** The low octet of a masked word. *)
Lemma land_255_range x : 0 <= Z.land x 255 < 256.
Proof.
  replace 255 with (Z.ones 8) by reflexivity.
  rewrite Z.land_ones by lia. apply Z.mod_pos_bound. lia.
Qed.

(** Octet [i] of a 32-bit word, least significant first. *)
Definition octet (i : Z) (ip : Z) : Z := Z.land (Z.shiftr ip (8 * i)) 0xFF.

Lemma octet_div i ip : 0 <= i -> octet i ip = (ip / 2 ^ (8 * i)) mod 256.
Proof.
  intros. unfold octet. rewrite Z.shiftr_div_pow2 by lia.
  replace 0xFF with (Z.ones 8) by reflexivity. by rewrite Z.land_ones by lia.
Qed.

Lemma octet_range i ip : 0 <= octet i ip < 256.
Proof. unfold octet. apply land_255_range. Qed.

Lemma land_shiftl_disjoint a b n :
  0 <= n -> 0 <= a < 2 ^ n -> Z.land a (Z.shiftl b n) = 0.
Proof.
  intros Hn Ha. apply Z.bits_inj'. intros i Hi. rewrite Z.land_spec, Z.bits_0.
  destruct (decide (i < n)).
  - rewrite Z.shiftl_spec_low by lia. by rewrite andb_false_r.
  - destruct (decide (a = 0)) as [->|]; [by rewrite Z.bits_0|].
    rewrite Z.bits_above_log2; [done|lia|]. apply Z.log2_lt_pow2; [lia|].
    eapply Z.lt_le_trans; [apply Ha|]. apply Z.pow_le_mono_r; lia.
Qed.

(** Joining fields with shifts and ors is positional notation. *)
Lemma lor_shiftl_disjoint a b n :
  0 <= n -> 0 <= a < 2 ^ n -> Z.lor a (Z.shiftl b n) = a + b * 2 ^ n.
Proof.
  intros Hn Ha. pose proof (land_shiftl_disjoint a b n Hn Ha) as Hd.
  rewrite <- Z.lxor_lor by done. rewrite <- Z.add_nocarry_lxor by done.
  by rewrite Z.shiftl_mul_pow2.
Qed.

(** Four octets, the first one in the low byte: an IPv4 address as the C code
    keeps it ([UINT32] in network byte order on a little-endian host). *)
Definition ipv4 (a b c d : Z) : Z :=
  Z.lor a (Z.lor (Z.shiftl b 8) (Z.lor (Z.shiftl c 16) (Z.shiftl d 24))).

Definition is_octet (x : Z) : Prop := 0 <= x < 256.

Lemma ipv4_sum a b c d :
  is_octet a -> is_octet b -> is_octet c -> is_octet d ->
  ipv4 a b c d = a + b * 2 ^ 8 + c * 2 ^ 16 + d * 2 ^ 24.
Proof.
  unfold is_octet, ipv4. intros. rewrite !Z.lor_assoc.
  rewrite (lor_shiftl_disjoint a b 8) by lia.
  rewrite (lor_shiftl_disjoint _ c 16) by lia.
  rewrite (lor_shiftl_disjoint _ d 24) by lia. lia.
Qed.

Lemma octets_ipv4 a b c d :
  is_octet a -> is_octet b -> is_octet c -> is_octet d ->
  octet 0 (ipv4 a b c d) = a /\ octet 1 (ipv4 a b c d) = b /\
  octet 2 (ipv4 a b c d) = c /\ octet 3 (ipv4 a b c d) = d.
Proof.
  intros Ha Hb Hc Hd. rewrite !octet_div by lia. rewrite ipv4_sum by done.
  unfold is_octet in *. change (2 ^ (8 * 0)) with 1. change (2 ^ (8 * 1)) with 256.
  change (2 ^ (8 * 2)) with 65536. change (2 ^ (8 * 3)) with 16777216.
  change (2 ^ 8) with 256. change (2 ^ 16) with 65536. change (2 ^ 24) with 16777216.
  Z.to_euclidean_division_equations; lia.
Qed.

Lemma ipv4_octets ip :
  0 <= ip < 2 ^ 32 -> ipv4 (octet 0 ip) (octet 1 ip) (octet 2 ip) (octet 3 ip) = ip.
Proof.
  intros. rewrite ipv4_sum by apply octet_range. rewrite !octet_div by lia.
  change (2 ^ (8 * 0)) with 1. change (2 ^ (8 * 1)) with 256.
  change (2 ^ (8 * 2)) with 65536. change (2 ^ (8 * 3)) with 16777216.
  change (2 ^ 32) with 4294967296 in *.
  change (2 ^ 8) with 256. change (2 ^ 16) with 65536. change (2 ^ 24) with 16777216.
  Z.to_euclidean_division_equations; lia.
Qed.

Lemma ipv4_range a b c d :
  is_octet a -> is_octet b -> is_octet c -> is_octet d -> 0 <= ipv4 a b c d < 2 ^ 32.
Proof. intros. rewrite ipv4_sum by done. unfold is_octet in *. lia. Qed.

(** [ntohl(ip) >> 24] is the first octet of the address. *)
Lemma ntohl_first ip : Z.shiftr (ntohl ip) 24 = octet 0 ip.
Proof.
  unfold ntohl, octet. rewrite !Z.shiftr_lor. change (8 * 0) with 0.
  rewrite Z.shiftr_0_r, Z.shiftr_shiftl_r by lia. change (24 - 24) with 0.
  rewrite Z.shiftr_0_r.
  assert (forall x n, 0 <= n <= 16 ->
            Z.shiftr (Z.shiftl (Z.land x 255) n) 24 = 0) as Hz.
  { intros x n Hn. rewrite Z.shiftr_div_pow2, Z.shiftl_mul_pow2 by lia.
    pose proof (land_255_range x). apply Z.div_small. split; [nia|].
    assert (2 ^ n <= 2 ^ 16) by (apply Z.pow_le_mono_r; lia). nia. }
  rewrite !Hz by lia. change (Z.land (Z.shiftr ip 24) 255) with (octet 3 ip).
  rewrite <- (Z.shiftl_0_r (octet 3 ip)). unfold octet at 1. rewrite Hz by lia.
  by rewrite !Z.lor_0_r.
Qed.
