(* ===== verification/CLib.v ===== *)
(** * The C library and the platform

    The string, number-scanning and tokenising functions of the C library that
    the sources call, and the platform calls that are parameters of the model.
    A C string is the list of its bytes before the terminating NUL. *)
From S2P Require Import Prelude.

(** ** Platform parameters

    [malloc_ok n] says whether an allocation of [n] bytes succeeds,
    [scan_overflow] is the value the library stores for a decimal number that
    does not fit its type (undefined in ISO C), and [inet_pton6] is Winsock's
    [inet_pton(AF_INET6, _, _)], [Some] of the 16 address bytes when it
    returns 1.  [getaddrinfo4] is [getaddrinfo] with an [AF_INET] hint: [Some]
    of the first result's address when the call succeeds with an IPv4 result. *)
Class Platform := {
  malloc_ok : Z -> bool;
  scan_overflow : Z -> Z;
  inet_pton6 : bytes -> option bytes;
  getaddrinfo4 : bytes -> option Z
}.

(** ** Characters *)

Definition tolower (c : Z) : Z := if (65 <=? c) && (c <=? 90) then c + 32 else c.
Definition is_space (c : Z) : bool := (c =? 32) || ((9 <=? c) && (c <=? 13)).
Definition is_digit (c : Z) : bool := (48 <=? c) && (c <=? 57).

Definition c_tab : Z := 9.
Definition c_blank : Z := 32.
Definition c_quote : Z := 34.
Definition c_star : Z := 42.
Definition c_comma : Z := 44.
Definition c_dash : Z := 45.
Definition c_dot : Z := 46.
Definition c_slash : Z := 47.
Definition c_colon : Z := 58.
Definition c_semi : Z := 59.
Definition c_backslash : Z := 92.

(** ** Strings *)

(** [strcmp(a, b) == 0] and [_stricmp(a, b) == 0]. *)
Definition strcmp0 (a b : bytes) : bool := bool_decide (a = b).
Definition stricmp0 (a b : bytes) : bool := bool_decide (map tolower a = map tolower b).

(** Index of the first and of the last occurrence of a character. *)
Fixpoint strchr (s : bytes) (c : Z) : option nat :=
  match s with
  | [] => None
  | x :: s' => if x =? c then Some O else S <$> strchr s' c
  end.
Fixpoint strrchr (s : bytes) (c : Z) : option nat :=
  match s with
  | [] => None
  | x :: s' =>
      match strrchr s' c with
      | Some n => Some (S n)
      | None => if x =? c then Some O else None
      end
  end.

Definition strnlen_s (s : bytes) (limit : Z) : Z := Z.min (Z.of_nat (length s)) limit.

(** [strncpy_s(dst, size, src, _TRUNCATE)]: the string left in [dst]. *)
Definition strncpy_trunc (size : Z) (src : bytes) : bytes := take (Z.to_nat (size - 1)) src.

Fixpoint drop_while (p : Z -> bool) (s : bytes) : bytes :=
  match s with
  | [] => []
  | c :: s' => if p c then drop_while p s' else s
  end.
Fixpoint span (p : Z -> bool) (s : bytes) : bytes * bytes :=
  match s with
  | [] => ([], [])
  | c :: s' => if p c then let '(w, r) := span p s' in (c :: w, r) else ([], s)
  end.

(** ** Decimal numbers *)

Fixpoint scan_digits (acc : Z) (s : bytes) : Z * bytes :=
  match s with
  | c :: s' => if is_digit c then scan_digits (acc * 10 + (c - 48)) s' else (acc, s)
  | [] => (acc, [])
  end.

(** Optional white space, optional sign, at least one digit: the exact value
    and the rest of the input. *)
Definition scan_number (s : bytes) : option (Z * bytes) :=
  let s1 := drop_while is_space s in
  let '(sign, s2) :=
    match s1 with
    | c :: r => if c =? c_dash then (-1, r) else if c =? 43 then (1, r) else (1, s1)
    | [] => (1, s1)
    end in
  match s2 with
  | c :: _ => if is_digit c then let '(v, r) := scan_digits 0 s2 in Some (sign * v, r) else None
  | [] => None
  end.

(** [atoi] of Microsoft's C library: 0 without digits, saturated on overflow. *)
Definition atoi (s : bytes) : Z :=
  match scan_number s with
  | Some (v, _) => Z.max (- 2 ^ 31) (Z.min (2 ^ 31 - 1) v)
  | None => 0
  end.

Section Scan.
Context `{Platform}.

(** What [%d] and [%u] store for a number of value [v]. *)
Definition store_int (v : Z) : Z :=
  if (- 2 ^ 31 <=? v) && (v <? 2 ^ 31) then v else s32 (scan_overflow v).
Definition store_uint (v : Z) : Z :=
  if Z.abs v <? 2 ^ 32 then u32 v else u32 (scan_overflow v).

(** [sscanf(s, "%x.%x.%x.%x", ...) == 4] with the conversion [store]. *)
Definition sscanf_quad (store : Z -> Z) (s : bytes) : option (Z * Z * Z * Z) :=
  let dot s := match s with c :: r => if c =? c_dot then Some r else None | [] => None end in
  '(a, s) ← scan_number s; s ← dot s;
  '(b, s) ← scan_number s; s ← dot s;
  '(c, s) ← scan_number s; s ← dot s;
  '(d, s) ← scan_number s;
  Some (store a, store b, store c, store d).
End Scan.

(** ** Tokenising *)

Definition in_set (set : bytes) (c : Z) : bool := bool_decide (c ∈ set).

(** One call of [strtok_s]: the next token and what the context pointer is left at. *)
Definition strtok_s (delims s : bytes) : option (bytes * bytes) :=
  match drop_while (in_set delims) s with
  | [] => None
  | s1 => let '(tok, rest) := span (fun c => negb (in_set delims c)) s1 in Some (tok, drop 1 rest)
  end.

(** The loop [token = strtok_s(..); while (token) { if (match(token)) return TRUE; token = strtok_s(..) }].
    The fuel bounds the number of tokens; [S (length s)] is always enough. *)
Fixpoint token_loop (fuel : nat) (delims : bytes) (f : bytes -> bool) (s : bytes) : bool :=
  match fuel with
  | O => false
  | S fuel =>
      match strtok_s delims s with
      | None => false
      | Some (tok, rest) => if f tok then true else token_loop fuel delims f rest
      end
  end.

(** Reference: the non-empty pieces of [s] between delimiters. *)
Fixpoint split_on (d : Z -> bool) (s : bytes) : list bytes :=
  match s with
  | [] => [[]]
  | c :: s' =>
      if d c then [] :: split_on d s'
      else match split_on d s' with
           | w :: ws => (c :: w) :: ws
           | [] => [[c]]
           end
  end.
Definition tokens (delims s : bytes) : list bytes :=
  filter (fun w => w <> []) (split_on (in_set delims) s).

(** ** Lemmas *)

Lemma drop_while_length p s : (length (drop_while p s) <= length s)%nat.
Proof. induction s as [|c s IH]; simpl; [lia|]. case_match; simpl; lia. Qed.

Lemma span_length p s w r : span p s = (w, r) -> (length s = length w + length r)%nat.
Proof.
  revert w r. induction s as [|c s IH]; simpl; intros w r Hs; simplify_eq; [done|].
  split_matches; [|done]. rewrite (IH _ _ eq_refl). lia.
Qed.

Lemma split_on_span d s w r :
  span (fun c => negb (d c)) s = (w, r) ->
  split_on d s = w :: match r with [] => [] | _ :: r' => split_on d r' end.
Proof.
  revert w r. induction s as [|c s IH]; simpl; intros w r Hs; simplify_eq; [done|].
  destruct (d c); simplify_eq/=; [done|].
  destruct (span _ s) as [w' r'] eqn:E; simplify_eq. by rewrite (IH _ _ eq_refl).
Qed.

Lemma tokens_drop delims s : tokens delims (drop_while (in_set delims) s) = tokens delims s.
Proof.
  unfold tokens. induction s as [|c s IH]; simpl; [done|].
  destruct (in_set delims c) eqn:E; simpl; [|by rewrite E].
  rewrite filter_cons_False by (intros []; done). done.
Qed.

Lemma span_head_nonempty d c s w r :
  d c = false -> span (fun c => negb (d c)) (c :: s) = (w, r) -> w <> [].
Proof. simpl. intros ->. simpl. intros. by split_matches. Qed.

Lemma drop_while_head p s c s' : drop_while p s = c :: s' -> p c = false.
Proof.
  induction s as [|x s IH]; simpl; [done|]. destruct (p x) eqn:E; intros; [eauto|].
  by simplify_eq.
Qed.

(** [strtok_s] takes the first token of the reference list. *)
Lemma strtok_tokens delims s :
  match strtok_s delims s with
  | None => tokens delims s = []
  | Some (tok, rest) => tokens delims s = tok :: tokens delims rest /\ (length rest < length s)%nat
  end.
Proof.
  unfold strtok_s. pose proof (tokens_drop delims s) as Ht.
  pose proof (drop_while_length (in_set delims) s) as Hl.
  destruct (drop_while _ s) as [|c s1] eqn:E; [by rewrite <- Ht|].
  apply drop_while_head in E.
  destruct (span _ (c :: s1)) as [w r] eqn:Es.
  pose proof (span_head_nonempty _ _ _ _ _ E Es) as Hw.
  pose proof (span_length _ _ _ _ Es) as Hlen.
  split.
  - rewrite <- Ht. unfold tokens. rewrite (split_on_span _ _ _ _ Es).
    rewrite filter_cons_True by done. by destruct r.
  - destruct w; [done|]. rewrite length_drop. simpl in *. lia.
Qed.

(** With enough fuel the tokenising loop is a search over the reference tokens. *)
Lemma token_loop_spec fuel delims f s :
  (length s < fuel)%nat -> token_loop fuel delims f s = existsb f (tokens delims s).
Proof.
  revert s. induction fuel as [|fuel IH]; intros s Hf; [lia|]. simpl.
  pose proof (strtok_tokens delims s) as Hs.
  destruct (strtok_s delims s) as [[tok rest]|]; [|by rewrite Hs].
  destruct Hs as [-> Hr]. simpl. destruct (f tok); [done|]. apply IH. lia.
Qed.

(** *** Printing and scanning digits *)

(** [%d]/[%u] of a non-negative number; 20 digits hold every 64-bit value. *)
Fixpoint dec_digits (fuel : nat) (n : Z) (acc : bytes) : bytes :=
  match fuel with
  | O => acc
  | S fuel =>
      let acc := (48 + n mod 10) :: acc in
      if n <? 10 then acc else dec_digits fuel (n / 10) acc
  end.
Definition print_dec (n : Z) : bytes := dec_digits 20 n [].
Arguments print_dec : simpl never.

Definition digits_value (ds : bytes) : Z := fold_left (fun a c => a * 10 + (c - 48)) ds 0.

(** [s] does not continue a number. *)
Definition no_digit_head (s : bytes) : Prop :=
  match s with [] => True | c :: _ => is_digit c = false end.

Lemma scan_digits_app acc ds rest :
  Forall (fun c => is_digit c = true) ds -> no_digit_head rest ->
  scan_digits acc (ds ++ rest) = (fold_left (fun a c => a * 10 + (c - 48)) ds acc, rest).
Proof.
  revert acc. induction ds as [|c ds IH]; simpl; intros acc Hd Hr.
  - destruct rest; simpl in *; [done|]. by rewrite Hr.
  - apply Forall_cons in Hd as [Hc Hd]. rewrite Hc. by apply IH.
Qed.

Lemma is_digit_plain c :
  is_digit c = true -> is_space c = false /\ (c =? c_dash) = false /\ (c =? 43) = false.
Proof. unfold is_digit, is_space, c_dash. intros. bool_prop. lia. Qed.

Lemma scan_number_digits ds rest :
  ds <> [] -> Forall (fun c => is_digit c = true) ds -> no_digit_head rest ->
  scan_number (ds ++ rest) = Some (digits_value ds, rest).
Proof.
  intros Hne Hd Hr. destruct ds as [|c ds]; [done|]. pose proof Hd as Hd'.
  apply Forall_cons in Hd as [Hc _]. destruct (is_digit_plain c Hc) as (Hs & Hm & Hp).
  unfold scan_number. change ((c :: ds) ++ rest) with (c :: (ds ++ rest)).
  cbn [drop_while]. rewrite Hs, Hm, Hp, Hc.
  change (c :: (ds ++ rest)) with ((c :: ds) ++ rest). rewrite scan_digits_app by done.
  f_equal. f_equal. unfold digits_value. lia.
Qed.

Lemma dec_digits_digits fuel n acc :
  Forall (fun c => is_digit c = true) acc ->
  Forall (fun c => is_digit c = true) (dec_digits fuel n acc).
Proof.
  revert n acc. induction fuel as [|fuel IH]; intros n acc Ha; simpl; [done|].
  assert (Forall (fun c => is_digit c = true) ((48 + n mod 10) :: acc)).
  { constructor; [|done]. unfold is_digit. pose proof (Z.mod_pos_bound n 10). lia. }
  case_match; auto.
Qed.

Lemma dec_digits_not_nil fuel n acc : acc <> [] -> dec_digits fuel n acc <> [].
Proof.
  revert n acc. induction fuel as [|fuel IH]; intros n acc Ha; simpl; [done|].
  case_match; [done|]. by apply IH.
Qed.

Lemma dec_digits_value fuel n acc :
  (0 < fuel)%nat -> 0 <= n < 10 ^ Z.of_nat fuel ->
  fold_left (fun a c => a * 10 + (c - 48)) (dec_digits fuel n acc) 0 =
  fold_left (fun a c => a * 10 + (c - 48)) acc n.
Proof.
  revert n acc. induction fuel as [|fuel IH]; intros n acc Hf Hn; [lia|]. simpl.
  destruct (Z.ltb_spec n 10).
  - simpl. f_equal. rewrite Z.mod_small by lia. lia.
  - rewrite Nat2Z.inj_succ, Z.pow_succ_r in Hn by lia.
    assert (fuel <> O) by (intros ->; simpl in Hn; lia).
    rewrite IH by (try lia; Z.to_euclidean_division_equations; lia). simpl. f_equal.
    Z.to_euclidean_division_equations; lia.
Qed.

Lemma dec_digits_length k fuel n acc :
  0 <= n < 10 ^ Z.of_nat (S k) -> (length (dec_digits fuel n acc) <= length acc + S k)%nat.
Proof.
  revert k n acc. induction fuel as [|fuel IH]; intros k n acc Hn; simpl; [lia|].
  destruct (Z.ltb_spec n 10); simpl; [lia|].
  destruct k as [|k]; [change (10 ^ Z.of_nat 1) with 10 in Hn; lia|].
  rewrite Nat2Z.inj_succ, Z.pow_succ_r in Hn by lia.
  specialize (IH k (n / 10) ((48 + n mod 10) :: acc)). simpl in IH.
  etrans; [apply IH|lia]. Z.to_euclidean_division_equations; lia.
Qed.

Lemma dec_digits_S_not_nil fuel n acc : dec_digits (S fuel) n acc <> [].
Proof. simpl. case_match; [done|]. by apply dec_digits_not_nil. Qed.

Lemma print_dec_ok n :
  0 <= n < 10 ^ 20 ->
  print_dec n <> [] /\ Forall (fun c => is_digit c = true) (print_dec n) /\
  digits_value (print_dec n) = n.
Proof.
  intros Hn. unfold print_dec, digits_value. split_and!.
  - apply dec_digits_S_not_nil.
  - by apply dec_digits_digits.
  - by rewrite dec_digits_value by (simpl; lia).
Qed.

Lemma scan_print_dec n rest :
  0 <= n < 10 ^ 20 -> no_digit_head rest -> scan_number (print_dec n ++ rest) = Some (n, rest).
Proof.
  intros Hn Hr. destruct (print_dec_ok n Hn) as (H1 & H2 & H3).
  rewrite scan_number_digits by done. by rewrite H3.
Qed.

Lemma atoi_print_dec n rest :
  0 <= n < 2 ^ 31 -> no_digit_head rest -> atoi (print_dec n ++ rest) = n.
Proof. intros Hn Hr. unfold atoi. rewrite scan_print_dec by (done || lia). lia. Qed.

Lemma no_digit_forall ds c :
  Forall (fun c => is_digit c = true) ds -> is_digit c = false -> c ∉ ds.
Proof. intros Hd Hc Hin. rewrite Forall_forall in Hd. specialize (Hd _ Hin). congruence. Qed.

Lemma strchr_None s c : c ∉ s -> strchr s c = None.
Proof.
  induction s as [|x s IH]; simpl; [done|]. rewrite not_elem_of_cons. intros [Hx Hs].
  rewrite (proj2 (Z.eqb_neq _ _)) by congruence. by rewrite IH.
Qed.

Lemma strchr_app s c r : c ∉ s -> strchr (s ++ c :: r) c = Some (length s).
Proof.
  induction s as [|x s IH]; simpl; [by rewrite Z.eqb_refl|]. rewrite not_elem_of_cons.
  intros [Hx Hs]. rewrite (proj2 (Z.eqb_neq _ _)) by congruence. by rewrite IH.
Qed.

Lemma strchr_split s c i : strchr s c = Some i -> exists l r, s = l ++ (c :: r) /\ (c ∉ l) /\ i = length l.
Proof.
  revert i. induction s as [|x s IH]; intros i; [done|]. cbn [strchr]. destruct (Z.eqb_spec x c) as [->|Hx].
  - intros [= <-]. exists [], s. by split_and!; [|apply not_elem_of_nil|].
  - destruct (strchr s c) as [j|]; [|done]. intros [= <-]. destruct (IH j eq_refl) as (l & r & -> & Hl & ->).
    exists (x :: l), r. split_and!; [done|apply not_elem_of_cons; by split|done].
Qed.

Lemma strchr_Some_elem s c i : strchr s c = Some i -> c ∈ s.
Proof.
  revert i. induction s as [|x s IH]; simpl; intros i; [done|].
  destruct (Z.eqb_spec x c) as [->|]; [intros _; left|].
  destruct (strchr s c); simpl; [|done]. intros _. right. by eapply IH.
Qed.
