(* ===== verification/HashTable.v ===== *)
(** * Chained hash tables

    The caches of the program ([g_dns_cache], [g_dns_cache_v6], [pid_cache])
    are arrays of singly linked chains searched by key.  This file has the
    operations those chains undergo and their laws once, for any entry type
    with a key: search, update in place or prepend, unlink, sweep. *)
From S2P Require Import Prelude.

(** ** Chains *)
Section Chain.
Context {A : Type}.

(** Update the first node that satisfies [p]. *)
Fixpoint update_first (p : A -> bool) (f : A -> A) (l : list A) : list A :=
  match l with
  | [] => []
  | x :: l' => if p x then f x :: l' else x :: update_first p f l'
  end.

(** Unlink the first node that satisfies [p]. *)
Fixpoint remove_first (p : A -> bool) (l : list A) : list A :=
  match l with
  | [] => []
  | x :: l' => if p x then l' else x :: remove_first p l'
  end.

Lemma elem_of_update_first p f l x :
  x ∈ update_first p f l -> x ∈ l \/ exists y, y ∈ l /\ p y = true /\ x = f y.
Proof.
  induction l as [|y l IH]; simpl; [by intros ?%elem_of_nil|].
  destruct (p y) eqn:E; intros [->|Hx]%elem_of_cons.
  - right. exists y. split; [left|done].
  - left. by right.
  - left. left.
  - destruct (IH Hx) as [?|(z & ? & ? & ?)].
    + left. by right.
    + right. exists z. split; [by right|done].
Qed.

Lemma elem_of_remove_first p l x : x ∈ remove_first p l -> x ∈ l.
Proof.
  induction l as [|y l IH]; simpl; [done|].
  destruct (p y); rewrite ?elem_of_cons; [tauto|]. intros [->|?]; [tauto|]. right. auto.
Qed.

(** In-place updates that keep the projection [g] keep the list of projections. *)
Lemma update_first_fmap {B} (g : A -> B) p f l :
  (forall x, p x = true -> g (f x) = g x) -> g <$> update_first p f l = g <$> l.
Proof.
  intros Hg. induction l as [|y l IH]; simpl; [done|].
  destruct (p y) eqn:E; simpl; f_equal; auto.
Qed.

Lemma remove_first_sublist p l : remove_first p l `sublist_of` l.
Proof.
  induction l as [|y l IH]; simpl; [done|].
  destruct (p y); [by apply sublist_cons|by apply sublist_skip].
Qed.

Lemma find_None_forall (p : A -> bool) l : List.find p l = None -> forall x, x ∈ l -> p x = false.
Proof. intros Hf x Hx. apply (List.find_none _ _ Hf). by apply list_elem_of_In. Qed.

Lemma find_Some_elem (p : A -> bool) l x : List.find p l = Some x -> x ∈ l /\ p x = true.
Proof. intros [? ?]%List.find_some. by rewrite list_elem_of_In. Qed.
End Chain.

(** ** Bucket arrays *)

Definition bucket {A} (t : list (list A)) (h : Z) : list A := default [] (t !! Z.to_nat h).
Definition set_bucket {A} (t : list (list A)) (h : Z) (c : list A) : list (list A) :=
  <[Z.to_nat h := c]> t.

Lemma bucket_set_eq {A} (t : list (list A)) h c :
  0 <= h < Z.of_nat (length t) -> bucket (set_bucket t h c) h = c.
Proof. intros. unfold bucket, set_bucket. rewrite list_lookup_insert_eq by lia. done. Qed.

Lemma bucket_set_ne {A} (t : list (list A)) h h' c :
  0 <= h -> 0 <= h' -> h <> h' -> bucket (set_bucket t h c) h' = bucket t h'.
Proof. intros. unfold bucket, set_bucket. rewrite list_lookup_insert_ne by lia. done. Qed.

Lemma length_set_bucket {A} (t : list (list A)) h c : length (set_bucket t h c) = length t.
Proof. apply length_insert. Qed.

Lemma bucket_map {A} (f : list A -> list A) t h :
  f [] = [] -> bucket (map f t) h = f (bucket t h).
Proof.
  intros Hf. unfold bucket. change (map f t) with (f <$> t). rewrite list_lookup_fmap.
  destruct (t !! _); simpl; congruence.
Qed.

Lemma bucket_replicate {A} n h : bucket (replicate n ([] : list A)) h = [].
Proof.
  unfold bucket. destruct (_ !! _) eqn:E; simpl; [|done].
  by apply lookup_replicate in E as [-> _].
Qed.

(** ** Keyed tables *)

Class HashKey (A K : Type) `{EqDecision K} := {
  key_of : A -> K;
  hash_of : K -> Z;
  n_buckets : Z;
  n_buckets_pos : 0 < n_buckets;
  hash_range : forall k, 0 <= hash_of k < n_buckets
}.

Section HashTable.
Context {A K : Type} `{HK : HashKey A K}.
Implicit Types (t : list (list A)) (l : list A) (k : K) (e : A).

Definition is_key (k : K) (e : A) : bool := bool_decide (key_of e = k).

Definition ht_empty : list (list A) := replicate (Z.to_nat n_buckets) [].

Definition ht_find (t : list (list A)) (k : K) : option A :=
  List.find (is_key k) (bucket t (hash_of k)).

(** Update the entry of [k] in place; without one, prepend [new] when the
    allocation succeeds. *)
Definition ht_put (alloc : bool) (t : list (list A)) (k : K) (upd : A -> A) (new : A)
  : list (list A) :=
  let c := bucket t (hash_of k) in
  match List.find (is_key k) c with
  | Some _ => set_bucket t (hash_of k) (update_first (is_key k) upd c)
  | None => if alloc then set_bucket t (hash_of k) (new :: c) else t
  end.

Definition ht_remove (t : list (list A)) (k : K) : list (list A) :=
  set_bucket t (hash_of k) (remove_first (is_key k) (bucket t (hash_of k))).

(** The sweeps: every bucket keeps the nodes that satisfy [keep]. *)
Definition ht_sweep (keep : A -> bool) (t : list (list A)) : list (list A) :=
  map (List.filter keep) t.

(** Every entry is in the bucket of its key and a key occurs once. *)
Record ht_wf (t : list (list A)) : Prop := {
  ht_wf_length : Z.of_nat (length t) = n_buckets;
  ht_wf_hash : forall h e, 0 <= h -> e ∈ bucket t h -> hash_of (key_of e) = h;
  ht_wf_nodup : forall h, 0 <= h -> NoDup (key_of <$> bucket t h)
}.

Lemma is_key_true k e : is_key k e = true <-> key_of e = k.
Proof. unfold is_key. apply bool_decide_eq_true. Qed.

Lemma is_key_false k e : is_key k e = false <-> key_of e <> k.
Proof. unfold is_key. apply bool_decide_eq_false. Qed.

Lemma ht_empty_wf : ht_wf ht_empty.
Proof.
  pose proof n_buckets_pos. unfold ht_empty. split.
  - rewrite length_replicate. lia.
  - intros h e _. rewrite bucket_replicate. by intros ?%elem_of_nil.
  - intros h _. rewrite bucket_replicate. constructor.
Qed.

Lemma ht_find_key t k e : ht_find t k = Some e -> key_of e = k.
Proof. intros [_ ?%is_key_true]%find_Some_elem. done. Qed.

Lemma find_update_first_eq k f l e :
  key_of (f e) = k -> List.find (is_key k) l = Some e ->
  List.find (is_key k) (update_first (is_key k) f l) = Some (f e).
Proof.
  intros Hf. induction l as [|x l IH]; simpl; [done|].
  destruct (is_key k x) eqn:E; intros ?; simplify_eq; simpl; [|by rewrite E; auto].
  by rewrite (proj2 (is_key_true _ _) eq_refl).
Qed.

Lemma find_update_first_ne k k' f l :
  k <> k' -> (forall e, key_of (f e) = key_of e) ->
  List.find (is_key k') (update_first (is_key k) f l) = List.find (is_key k') l.
Proof.
  intros Hk Hf. induction l as [|x l IH]; simpl; [done|].
  destruct (is_key k x) eqn:E; simpl.
  - apply is_key_true in E.
    by rewrite !(proj2 (is_key_false k' _)) by (rewrite ?Hf; congruence).
  - by rewrite IH.
Qed.

Lemma find_remove_first_ne k k' l :
  k <> k' -> List.find (is_key k') (remove_first (is_key k) l) = List.find (is_key k') l.
Proof.
  intros Hk. induction l as [|x l IH]; simpl; [done|].
  destruct (is_key k x) eqn:E; simpl.
  - apply is_key_true in E. by rewrite (proj2 (is_key_false k' _)) by congruence.
  - by rewrite IH.
Qed.

Lemma find_nodup_filter k keep (l : list A) :
  NoDup (key_of <$> l) ->
  List.find (is_key k) (List.filter keep l) =
  match List.find (is_key k) l with
  | Some e => if keep e then Some e else None
  | None => None
  end.
Proof.
  induction l as [|x l IH]; simpl; [done|]. intros [Hx Hl]%NoDup_cons.
  destruct (is_key k x) eqn:E, (keep x) eqn:Ek; simpl; rewrite ?E; auto.
  rewrite (IH Hl). destruct (List.find _ l) as [e|] eqn:Ef; [|done].
  apply find_Some_elem in Ef as [He Hek]. apply is_key_true in Hek, E.
  destruct Hx. apply list_elem_of_fmap. exists e. split; [congruence|done].
Qed.

Lemma find_remove_first_eq k l :
  NoDup (key_of <$> l) -> List.find (is_key k) (remove_first (is_key k) l) = None.
Proof.
  induction l as [|x l IH]; simpl; [done|]. intros [Hx Hl]%NoDup_cons.
  destruct (is_key k x) eqn:E; simpl; [|by rewrite E; auto].
  destruct (List.find _ l) as [e|] eqn:Ef; [|done].
  apply find_Some_elem in Ef as [He Hek]. apply is_key_true in Hek, E.
  destruct Hx. apply list_elem_of_fmap. exists e. split; [congruence|done].
Qed.

(** *** The abstract map of a table

    Writing, unlinking and sweeping a table are the corresponding changes of
    the partial function [ht_find t]. *)

Lemma bucket_set_hash t k k' c :
  Z.of_nat (length t) = n_buckets ->
  bucket (set_bucket t (hash_of k) c) (hash_of k') =
  if decide (hash_of k = hash_of k') then c else bucket t (hash_of k').
Proof.
  intros Hl. pose proof (hash_range k). pose proof (hash_range k').
  case_decide as E; [rewrite <- E; apply bucket_set_eq; lia|]. apply bucket_set_ne; lia.
Qed.

Lemma ht_find_put alloc t k upd new k' :
  Z.of_nat (length t) = n_buckets ->
  (forall e, key_of (upd e) = key_of e) -> key_of new = k ->
  ht_find (ht_put alloc t k upd new) k' =
  if decide (k = k') then
    match ht_find t k with
    | Some e => Some (upd e)
    | None => if alloc then Some new else None
    end
  else ht_find t k'.
Proof.
  intros Hl Hu Hn. unfold ht_put, ht_find.
  destruct (List.find (is_key k) (bucket t (hash_of k))) as [e|] eqn:Ef.
  - rewrite bucket_set_hash by done. repeat case_decide; simplify_eq; try done.
    + apply find_update_first_eq; [|done]. rewrite Hu.
      by apply find_Some_elem in Ef as [_ ?%is_key_true].
    + rewrite find_update_first_ne by done. congruence.
  - destruct alloc; [|case_decide; simplify_eq; done].
    rewrite bucket_set_hash by done. repeat case_decide; simplify_eq; try done.
    + simpl. by rewrite (proj2 (is_key_true _ _) eq_refl).
    + simpl. rewrite (proj2 (is_key_false _ _)) by done. congruence.
Qed.

Lemma ht_find_remove t k k' :
  ht_wf t ->
  ht_find (ht_remove t k) k' = if decide (k = k') then None else ht_find t k'.
Proof.
  intros [Hl _ Hnd]. unfold ht_remove, ht_find. rewrite bucket_set_hash by done.
  pose proof (hash_range k) as Hk.
  repeat case_decide; simplify_eq; try done.
  - apply find_remove_first_eq, Hnd. lia.
  - rewrite find_remove_first_ne by done. congruence.
Qed.

Lemma ht_find_sweep keep t k :
  ht_wf t ->
  ht_find (ht_sweep keep t) k =
  match ht_find t k with
  | Some e => if keep e then Some e else None
  | None => None
  end.
Proof.
  intros [Hl _ Hnd]. unfold ht_sweep, ht_find. rewrite bucket_map by done.
  apply find_nodup_filter, Hnd. pose proof (hash_range k). lia.
Qed.

(** *** Preservation of well-formedness *)

Lemma set_bucket_wf t k c :
  ht_wf t ->
  (forall e, e ∈ c -> hash_of (key_of e) = hash_of k) -> NoDup (key_of <$> c) ->
  ht_wf (set_bucket t (hash_of k) c).
Proof.
  intros [Hl Hh Hn] Hc Hnd. pose proof (hash_range k). split.
  - by rewrite length_set_bucket.
  - intros h e ?. destruct (decide (hash_of k = h)) as [<-|].
    + rewrite bucket_set_eq by lia. apply Hc.
    + rewrite bucket_set_ne by lia. by apply Hh.
  - intros h ?. destruct (decide (hash_of k = h)) as [<-|].
    + by rewrite bucket_set_eq by lia.
    + rewrite bucket_set_ne by lia. by apply Hn.
Qed.

Lemma ht_put_wf alloc t k upd new :
  ht_wf t -> (forall e, key_of (upd e) = key_of e) -> key_of new = k ->
  ht_wf (ht_put alloc t k upd new).
Proof.
  intros Hwf Hu Hn. unfold ht_put. destruct (hash_range k) as [Hk _].
  pose proof (ht_wf_hash _ Hwf (hash_of k)) as Hh.
  pose proof (ht_wf_nodup _ Hwf (hash_of k) Hk) as Hnd.
  destruct (List.find _ _) as [e|] eqn:Ef; [|destruct alloc; [|done]].
  - apply set_bucket_wf; [done| |by rewrite update_first_fmap].
    intros x [Hx|(y & Hy & _ & ->)]%elem_of_update_first; rewrite ?Hu; apply Hh; auto; lia.
  - apply set_bucket_wf; [done| |].
    + intros x [->|Hx]%elem_of_cons; [by rewrite Hn|apply Hh; [lia|done]].
    + simpl. apply NoDup_cons. split; [|done].
      rewrite list_elem_of_fmap. intros (x & Hx & Hin).
      pose proof (find_None_forall _ _ Ef _ Hin) as E. apply is_key_false in E. congruence.
Qed.

Lemma ht_remove_wf t k : ht_wf t -> ht_wf (ht_remove t k).
Proof.
  intros Hwf. unfold ht_remove. pose proof (hash_range k). apply set_bucket_wf; [done| |].
  - intros e He%elem_of_remove_first. apply (ht_wf_hash _ Hwf); [lia|done].
  - eapply sublist_NoDup; [apply (ht_wf_nodup _ Hwf (hash_of k)); lia|].
    apply fmap_sublist, remove_first_sublist.
Qed.

Lemma filter_sublist (keep : A -> bool) l : List.filter keep l `sublist_of` l.
Proof.
  induction l as [|x l IH]; simpl; [done|].
  destruct (keep x); [by apply sublist_skip|by apply sublist_cons].
Qed.

Lemma ht_sweep_wf keep t : ht_wf t -> ht_wf (ht_sweep keep t).
Proof.
  intros [Hl Hh Hn]. unfold ht_sweep. split.
  - by rewrite length_map.
  - intros h e ?. rewrite bucket_map by done. intros He.
    apply Hh; [done|]. eapply elem_of_sublist, filter_sublist. done.
  - intros h ?. rewrite bucket_map by done. eapply sublist_NoDup; [by apply (Hn h)|].
    apply fmap_sublist, filter_sublist.
Qed.
End HashTable.

#[export] Hint Resolve ht_empty_wf ht_put_wf ht_remove_wf ht_sweep_wf : pb.
