(* ===== verification/Util.v ===== *)
(** * Utilities (pb_util.c)

    File-name extraction, dotted-quad printing and parsing, the token-list
    walker every rule filter goes through, the exact-length socket loops, the
    socket options and the log. *)
From S2P Require Import Prelude CLib.

(** ** Strings *)

(** Pointer comparison of two [strrchr] results, NULL below everything. *)
Definition later (a b : option nat) : option nat :=
  match a, b with
  | Some i, Some j => if (j <? i)%nat then a else b
  | Some _, None => a
  | None, _ => b
  end.

Definition extract_filename (path : option bytes) : bytes :=
  match path with
  | None => []
  | Some path =>
      let last_backslash := strrchr path c_backslash in
      let last_slash := strrchr path c_slash in
      match later last_backslash last_slash with
      | Some i => drop (S i) path
      | None => path
      end
  end.

Definition is_blank (c : Z) : bool := (c =? c_blank) || (c =? c_tab).
Definition skip_whitespace (s : bytes) : bytes := drop_while is_blank s.

(** ** Dotted quads *)

Definition format_ip_address (ip : Z) (size : Z) : bytes :=
  strncpy_trunc size
    (print_dec (octet 0 ip) ++ [c_dot] ++ print_dec (octet 1 ip) ++ [c_dot] ++
     print_dec (octet 2 ip) ++ [c_dot] ++ print_dec (octet 3 ip)).

Section Util.
Context `{Platform}.

Definition parse_ipv4 (ip : bytes) : Z :=
  match sscanf_quad store_uint ip with
  | None => 0
  | Some (a, b, c, d) =>
      if (255 <? a) || (255 <? b) || (255 <? c) || (255 <? d) then 0
      else u32 (ipv4 a b c d)
  end.

Definition resolve_hostname (hostname : option bytes) : Z :=
  match hostname with
  | None | Some [] => 0
  | Some h =>
      let ip := parse_ipv4 h in
      if negb (ip =? 0) then ip
      else match getaddrinfo4 h with
           | None => 0
           | Some resolved_ip => resolved_ip
           end
  end.

(** ** Token lists *)

Definition MAX_LIST_SIZE : Z := 65536.

(** The writable copy of a list: a 256-byte stack buffer for short lists, a
    heap block otherwise; [None] when the block cannot be allocated. *)
Definition list_copy (list : bytes) : option bytes :=
  let len := strnlen_s list MAX_LIST_SIZE + 1 in
  if len <=? 256 then Some (strncpy_trunc 256 list)
  else if malloc_ok len then Some (strncpy_trunc len list)
  else None.

Definition parse_token_list (list : option bytes) (delimiters : bytes)
    (match_func : bytes -> bool) : bool :=
  match list with
  | None => true
  | Some list =>
      if (match list with [] => true | _ => false end) || strcmp0 list (str "*") then true
      else match list_copy list with
           | None => false
           | Some copy =>
               token_loop (S (length copy)) delimiters
                 (fun token => match_func (skip_whitespace token)) copy
           end
  end.
End Util.

(** ** Exact-length socket loops

    The receive side of a stream socket is the list of segments that [recv]
    will hand out one at a time; an empty segment is an end of stream or an
    error, after which nothing is read.  The send side is the list of values
    the successive [send] calls return. *)

Definition recv (n : nat) (s : list bytes) : bytes * list bytes :=
  match s with
  | [] => ([], [])
  | seg :: rest =>
      if (length seg <=? n)%nat then (seg, rest) else (take n seg, drop n seg :: rest)
  end.

(** [recv_n]: [n] is the number of bytes still wanted, also the fuel. *)
Fixpoint recv_loop (fuel : nat) (n : nat) (s : list bytes) : option bytes * list bytes :=
  match n with
  | O => (Some [], s)
  | _ =>
      match fuel with
      | O => (None, s)
      | S fuel =>
          match recv n s with
          | ([], s') => (None, s')
          | (b, s') =>
              let '(r, s'') := recv_loop fuel (n - length b) s' in
              ((fun r => b ++ r) <$> r, s'')
          end
      end
  end.
Definition recv_n (s : list bytes) (n : nat) : option bytes * list bytes := recv_loop n n s.

(** [send_all]: the value returned ([None] for [SOCKET_ERROR]), the bytes that
    went out and the results of [send] not consumed. *)
Fixpoint send_loop (fuel : nat) (results : list Z) (buf : bytes)
  : option unit * bytes * list Z :=
  match buf with
  | [] => (Some tt, [], results)
  | _ =>
      match fuel, results with
      | S fuel, n :: results =>
          if n <=? 0 then (None, [], results)
          else
            let '(r, out, results') := send_loop fuel results (drop (Z.to_nat n) buf) in
            (r, take (Z.to_nat n) buf ++ out, results')
      | _, _ => (None, [], results)
      end
  end.
Definition send_all (results : list Z) (buf : bytes) : option unit * bytes * list Z :=
  send_loop (length buf) results buf.

(** What becomes of the non-blocking connect: done at once, an error other than
    [WSAEWOULDBLOCK], or the result of [select], the exception set and the
    pending error of the socket. *)
Inductive connect_outcome := AtOnce | ConnectError | Selected (sel : Z) (except : bool) (so_err : Z).

(** Whether it returns 0. *)
Definition connect_with_timeout (o : connect_outcome) : bool :=
  match o with
  | AtOnce => true
  | ConnectError => false
  | Selected sel except so_err => negb ((sel <=? 0) || except) && (so_err =? 0)
  end.

(** The seconds and microseconds [select] waits at most. *)
Definition connect_timeval (timeout_ms : Z) : Z * Z := (timeout_ms ÷ 1000, Z.rem timeout_ms 1000 * 1000).

(** ** Socket options and the log

    The option calls, whose results the code ignores, in their order.  [S] is
    the state of the system's socket, [setsockopt] what a call does to it;
    [SIO_UDP_CONNRESET] is the control code of [WSAIoctl]. *)
Inductive sockopt := TCP_NODELAY | SO_RCVBUF | SO_SNDBUF | SO_RCVTIMEO | SO_SNDTIMEO | SIO_UDP_CONNRESET.

#[export] Instance sockopt_eq_dec : EqDecision sockopt.
Proof. solve_decision. Defined.

Section SocketOptions.
Context {S : Type} (setsockopt : S -> sockopt -> Z -> S).

Definition configure_tcp_socket (sock : S) (bufsize timeout : Z) : S :=
  let sock := setsockopt sock TCP_NODELAY 1 in
  let sock := setsockopt sock SO_RCVBUF bufsize in
  let sock := setsockopt sock SO_SNDBUF bufsize in
  let sock := setsockopt sock SO_RCVTIMEO timeout in
  setsockopt sock SO_SNDTIMEO timeout.

Definition configure_udp_socket (sock : S) (bufsize timeout : Z) : S :=
  let sock := setsockopt sock SO_RCVBUF bufsize in
  let sock := setsockopt sock SO_SNDBUF bufsize in
  let sock := setsockopt sock SO_RCVTIMEO timeout in
  let sock := setsockopt sock SO_SNDTIMEO timeout in
  setsockopt sock SIO_UDP_CONNRESET 0.
End SocketOptions.

Definition LOG_BUFFER_SIZE : Z := 1024.

(** [text] is the format with its arguments put in; what the callback is given,
    when there is one: [vsnprintf] keeps what the buffer holds. *)
Definition log_message (callback : bool) (text : bytes) : option bytes :=
  if callback then Some (take (Z.to_nat LOG_BUFFER_SIZE - 1) text) else None.

(** ** Properties *)

(** A call that succeeds sets its option and no other; one that fails, none.
    Whichever calls fail, the others take effect. *)
Section SocketOptionProperties.
Context {S : Type} (setsockopt : S -> sockopt -> Z -> S) (getsockopt : S -> sockopt -> Z) (fails : sockopt -> bool).
Context (set_get : forall s o v o', getsockopt (setsockopt s o v) o' =
           if bool_decide (o = o') && negb (fails o) then v else getsockopt s o').

Theorem sockets_configured s bufsize timeout o :
  fails o = false ->
  getsockopt (configure_tcp_socket setsockopt s bufsize timeout) o =
    match o with
    | TCP_NODELAY => 1
    | SO_RCVBUF | SO_SNDBUF => bufsize
    | SO_RCVTIMEO | SO_SNDTIMEO => timeout
    | SIO_UDP_CONNRESET => getsockopt s o
    end /\
  getsockopt (configure_udp_socket setsockopt s bufsize timeout) o =
    match o with
    | SIO_UDP_CONNRESET => 0
    | SO_RCVBUF | SO_SNDBUF => bufsize
    | SO_RCVTIMEO | SO_SNDTIMEO => timeout
    | TCP_NODELAY => getsockopt s o
    end.
Proof.
  intros Hf. unfold configure_tcp_socket, configure_udp_socket. rewrite !set_get.
  destruct o; rewrite ?Hf; split; reflexivity.
Qed.
End SocketOptionProperties.

(** A message and its end fit the buffer. *)
Lemma log_message_fits callback text m :
  log_message callback text = Some m -> Z.of_nat (length m) + 1 <= LOG_BUFFER_SIZE /\ m `prefix_of` text.
Proof.
  unfold log_message, LOG_BUFFER_SIZE. destruct callback; [|done]. intros [= <-].
  rewrite length_take. split; [lia|apply prefix_take].
Qed.

(** The wait is the timeout, to the microsecond, and normalised. *)
Lemma connect_timeval_exact timeout_ms :
  0 <= timeout_ms ->
  let '(sec, usec) := connect_timeval timeout_ms in sec * 1000000 + usec = timeout_ms * 1000 /\ 0 <= usec < 1000000.
Proof.
  intros Ht. unfold connect_timeval. pose proof (Z.quot_rem' timeout_ms 1000). pose proof (Z.rem_bound_pos timeout_ms 1000). lia.
Qed.

Lemma scan_octet n rest :
  is_octet n -> no_digit_head rest -> scan_number (print_dec n ++ rest) = Some (n, rest).
Proof. unfold is_octet. intros. apply scan_print_dec; [lia|done]. Qed.

Lemma length_print_octet n : is_octet n -> (length (print_dec n) <= 3)%nat.
Proof. unfold is_octet. intros. apply (dec_digits_length 2). simpl. lia. Qed.

Section UtilProperties.
Context `{Platform}.

Lemma store_uint_octet n : is_octet n -> store_uint n = n.
Proof.
  unfold is_octet, store_uint. intros. rewrite (proj2 (Z.ltb_lt _ _)) by lia.
  apply u32_small. lia.
Qed.

Definition print_quad (a b c d : Z) : bytes :=
  print_dec a ++ [c_dot] ++ print_dec b ++ [c_dot] ++ print_dec c ++ [c_dot] ++ print_dec d.

Lemma sscanf_quad_print store a b c d :
  is_octet a -> is_octet b -> is_octet c -> is_octet d ->
  sscanf_quad store (print_quad a b c d) = Some (store a, store b, store c, store d).
Proof.
  intros Ha Hb Hc Hd. unfold sscanf_quad, print_quad.
  rewrite scan_octet by done. simpl. rewrite scan_octet by done. simpl.
  rewrite scan_octet by done. simpl.
  rewrite <- (app_nil_r (print_dec d)), scan_octet by done. done.
Qed.

Lemma length_print_quad a b c d :
  is_octet a -> is_octet b -> is_octet c -> is_octet d -> (length (print_quad a b c d) <= 15)%nat.
Proof.
  intros H0%length_print_octet H1%length_print_octet H2%length_print_octet H3%length_print_octet.
  unfold print_quad. rewrite !length_app. change (length [c_dot]) with 1%nat. lia.
Qed.

Theorem parse_format_ipv4 ip size :
  0 <= ip < 2 ^ 32 -> 16 <= size -> parse_ipv4 (format_ip_address ip size) = ip.
Proof.
  intros Hip Hs. unfold parse_ipv4, format_ip_address, strncpy_trunc.
  fold (print_quad (octet 0 ip) (octet 1 ip) (octet 2 ip) (octet 3 ip)).
  pose proof (fun i => octet_range i ip) as Ho.
  pose proof (length_print_quad _ _ _ _ (Ho 0) (Ho 1) (Ho 2) (Ho 3)).
  rewrite take_ge, sscanf_quad_print by (apply Ho || lia).
  rewrite !store_uint_octet by apply Ho.
  rewrite !(proj2 (Z.ltb_ge _ _)) by (pose proof (Ho 0); pose proof (Ho 1);
    pose proof (Ho 2); pose proof (Ho 3); lia).
  simpl. rewrite ipv4_octets by done. by apply u32_small.
Qed.

(** The copy holds the list up to the 65536-byte limit. *)
Lemma list_copy_full list :
  (forall n, malloc_ok n = true) -> list_copy list = Some (take (Z.to_nat MAX_LIST_SIZE) list).
Proof.
  intros Hm. unfold list_copy, strnlen_s, strncpy_trunc, MAX_LIST_SIZE. rewrite Hm.
  case_match; bool_prop.
  - f_equal. rewrite !take_ge by lia. done.
  - f_equal. destruct (decide (Z.of_nat (length list) <= 65536)).
    + rewrite !take_ge by lia. done.
    + f_equal. lia.
Qed.

(** A token list accepts when one of its tokens, stripped of leading blanks, is
    accepted; only the first 65536 bytes of the list count. *)
Theorem parse_token_list_spec list delims f :
  (forall n, malloc_ok n = true) -> list <> [] -> list <> str "*" ->
  parse_token_list (Some list) delims f =
  existsb (fun t => f (skip_whitespace t)) (tokens delims (take (Z.to_nat MAX_LIST_SIZE) list)).
Proof.
  intros Hm Hne Hs. unfold parse_token_list. rewrite list_copy_full by done.
  unfold strcmp0. rewrite bool_decide_false by done. destruct list; [done|].
  simpl orb. cbv iota. by rewrite token_loop_spec by lia.
Qed.
End UtilProperties.

(** *** Exact-length reads *)

Lemma recv_spec n s b s' :
  (0 < n)%nat -> s <> [] -> Forall (fun seg => seg <> []) s -> recv n s = (b, s') ->
  b <> [] /\ (length b <= n)%nat /\ concat s = b ++ concat s' /\ Forall (fun seg => seg <> []) s'.
Proof.
  intros Hn Hs Hf. destruct s as [|seg s]; [done|]. simpl.
  apply Forall_cons in Hf as [Hseg Hf].
  destruct (Nat.leb_spec (length seg) n); intros ?; simplify_eq/=; [done|].
  split_and!.
  - destruct seg, n; simpl in *; done || lia.
  - rewrite length_take. lia.
  - by rewrite (assoc_L (++)), take_drop.
  - constructor; [|done]. intros ?%(f_equal length). rewrite length_drop in *. simpl in *. lia.
Qed.

Lemma recv_loop_spec fuel n s :
  (n <= fuel)%nat -> Forall (fun seg => seg <> []) s -> (n <= length (concat s))%nat ->
  exists s', recv_loop fuel n s = (Some (take n (concat s)), s') /\
             concat s' = drop n (concat s) /\ Forall (fun seg => seg <> []) s'.
Proof.
  revert n s. induction fuel as [|fuel IH]; intros n s Hfu Hf Hn.
  { assert (n = O) as -> by lia. exists s. by simpl. }
  destruct n as [|n]; [exists s; by simpl|]. cbn [recv_loop].
  destruct (recv (S n) s) as [b s1] eqn:Er.
  assert (s <> []) as Hs by (intros ->; simpl in Hn; lia).
  destruct (recv_spec (S n) s b s1 (Nat.lt_0_succ n) Hs Hf Er) as (Hb & Hlb & Hc & Hf1).
  rewrite Hc in *. rewrite length_app in Hn.
  destruct (IH (S n - length b)%nat s1) as (s' & Hl & Hc' & Hf'); [destruct b; simpl in *; [done|lia]|done|lia|].
  exists s'. destruct b as [|x b]; [done|]. rewrite Hl. simpl fmap. split_and!; [|..|done].
  - f_equal. by rewrite (take_app_ge _ _ (S n)).
  - by rewrite (drop_app_ge _ _ (S n)).
Qed.

Theorem recv_n_exact s n :
  Forall (fun seg => seg <> []) s -> (n <= length (concat s))%nat ->
  exists s', recv_n s n = (Some (take n (concat s)), s') /\ concat s' = drop n (concat s).
Proof.
  intros Hf Hn. destruct (recv_loop_spec n n s ltac:(done) Hf Hn) as (s' & ? & ? & _). eauto.
Qed.

Lemma recv_short fuel n s :
  (length (concat s) < n)%nat -> Forall (fun seg => seg <> []) s ->
  fst (recv_loop fuel n s) = None.
Proof.
  revert n s. induction fuel as [|fuel IH]; intros n s Hn Hf; destruct n as [|n]; try lia; try done.
  cbn [recv_loop]. destruct (recv (S n) s) as [b s1] eqn:Er.
  destruct s as [|seg s]; [by simplify_eq/=|].
  destruct (recv_spec (S n) (seg :: s) b s1 (Nat.lt_0_succ n) ltac:(done) Hf Er)
    as (Hb & Hlb & Hc & Hf1).
  destruct b as [|x b]; [done|].
  specialize (IH (S n - length (x :: b))%nat s1). rewrite Hc, length_app in Hn.
  destruct (recv_loop fuel _ s1) as [r s2]. simpl in *. rewrite IH; [done|lia|done].
Qed.

(** *** Complete sends *)

Lemma send_loop_prefix fuel results buf r out results' :
  send_loop fuel results buf = (r, out, results') ->
  out `prefix_of` buf /\ (r = Some tt -> out = buf).
Proof.
  revert results buf r out results'. induction fuel as [|fuel IH]; intros results buf r out results'.
  { destruct buf; simpl; intros; simplify_eq; (split; [apply prefix_nil|done]). }
  destruct buf as [|c buf]; simpl; [intros; by simplify_eq|].
  destruct results as [|n results]; [intros; simplify_eq; split; [apply prefix_nil|done]|].
  destruct (n <=? 0); [intros; simplify_eq; split; [apply prefix_nil|done]|].
  destruct (send_loop fuel results _) as [[r1 out1] results1] eqn:E. intros ?; simplify_eq.
  destruct (IH _ _ _ _ _ E) as [Hp He]. split.
  - rewrite <- (take_drop (Z.to_nat n) (c :: buf)) at 2. by apply prefix_app.
  - intros ->. rewrite He by done. by rewrite take_drop.
Qed.

(** What has gone out is a prefix of the buffer, the whole of it on success. *)
Theorem send_all_prefix results buf r out results' :
  send_all results buf = (r, out, results') ->
  out `prefix_of` buf /\ (r = Some tt -> out = buf).
Proof. apply send_loop_prefix. Qed.

Lemma send_loop_total fuel results buf :
  (length buf <= fuel)%nat -> (length buf <= length results)%nat ->
  Forall (fun n => 0 < n) results -> fst (fst (send_loop fuel results buf)) = Some tt.
Proof.
  revert results buf. induction fuel as [|fuel IH]; intros results buf Hf Hl Hp.
  { by destruct buf; simpl in *; [|lia]. }
  destruct buf as [|c buf]; [done|]. destruct results as [|n results]; simpl in *; [lia|].
  apply Forall_cons in Hp as [Hn Hp]. rewrite (proj2 (Z.leb_gt _ _)) by lia.
  assert (length (drop (Z.to_nat n) (c :: buf)) <= length buf)%nat
    by (rewrite length_drop; simpl; lia).
  specialize (IH results (drop (Z.to_nat n) (c :: buf)) ltac:(lia) ltac:(lia) Hp).
  by destruct (send_loop fuel results _) as [[? ?] ?].
Qed.

(** *** File names *)

Lemma strrchr_None s c : strrchr s c = None -> c ∉ s.
Proof.
  induction s as [|x s IH]; simpl; [by intros _ ?%elem_of_nil|].
  destruct (strrchr s c); [done|]. destruct (Z.eqb_spec x c); [done|].
  intros _ [->|?]%elem_of_cons; [done|]. by apply IH.
Qed.

Lemma strrchr_Some s c i : strrchr s c = Some i -> s !! i = Some c /\ c ∉ drop (S i) s.
Proof.
  revert i. induction s as [|x s IH]; simpl; intros i; [done|].
  destruct (strrchr s c) as [j|] eqn:E.
  - intros ?; simplify_eq. destruct (IH j eq_refl). done.
  - destruct (Z.eqb_spec x c); [|done]. intros ?; simplify_eq. simpl. split; [done|].
    by apply strrchr_None.
Qed.

(** The base name follows the last separator of either kind. *)
Theorem extract_filename_spec path :
  exists dir, path = dir ++ extract_filename (Some path) /\
    (dir = [] \/ last dir = Some c_backslash \/ last dir = Some c_slash) /\
    (c_backslash ∉ extract_filename (Some path)) /\ (c_slash ∉ extract_filename (Some path)).
Proof.
  assert (forall i c d, path !! i = Some c -> (forall j, strrchr path d = Some j -> (j <= i)%nat) ->
            c ∉ drop (S i) path -> d ∉ drop (S i) path) as Hother.
  { intros i c d Hi Hd _ Hin. destruct (strrchr path d) as [j|] eqn:E.
    - destruct (strrchr_Some _ _ _ E) as [_ Hn]. specialize (Hd j eq_refl). apply Hn.
      replace (drop (S i) path) with (drop (i - j) (drop (S j) path)) in Hin
        by (rewrite drop_drop; f_equal; lia).
      by eapply elem_of_sublist, sublist_drop.
    - apply strrchr_None in E. apply E. by eapply elem_of_sublist, sublist_drop. }
  assert (forall i c, path !! i = Some c -> last (take (S i) path) = Some c) as Hlast.
  { intros i c Hi. rewrite (take_S_r _ _ _ Hi). by rewrite last_snoc. }
  simpl. unfold later.
  destruct (strrchr path c_backslash) as [i|] eqn:E1, (strrchr path c_slash) as [j|] eqn:E2.
  - destruct (strrchr_Some _ _ _ E1) as [Hi Hni], (strrchr_Some _ _ _ E2) as [Hj Hnj].
    destruct (Nat.ltb_spec j i).
    + exists (take (S i) path). rewrite take_drop. split_and!; auto. eapply (Hother i c_backslash); eauto.
      intros; simplify_eq; lia.
    + exists (take (S j) path). rewrite take_drop. split_and!; auto.
      eapply (Hother j c_slash); eauto. intros; simplify_eq; lia.
  - destruct (strrchr_Some _ _ _ E1) as [Hi Hni].
    exists (take (S i) path). rewrite take_drop. split_and!; auto. eapply (Hother i c_backslash); eauto.
    intros; simplify_eq.
  - destruct (strrchr_Some _ _ _ E2) as [Hj Hnj].
    exists (take (S j) path). rewrite take_drop. split_and!; auto.
    eapply (Hother j c_slash); eauto. intros; simplify_eq.
  - exists []. split_and!; auto using strrchr_None.
Qed.
