(* ===== verification/Matching.v ===== *)
(** * Pattern matching (pb_rules.c)

    The matchers a routing rule is made of: IPv4 and IPv6 host patterns, port
    patterns, process-name patterns with wildcards, and domain patterns, each
    with its list form, and the address classes the packet path exempts. *)
From S2P Require Import Prelude CLib Util.

(** ** Address classes *)

Definition loopback6 : bytes := [0;0;0;0; 0;0;0;0; 0;0;0;0; 0;0;0;1].
Definition mapped_prefix : bytes := [0;0;0;0; 0;0;0;0; 0;0;255;255].
Definition unspec6 : bytes := replicate 16 0.

(** Byte [i] of an array. *)
Definition byte_at (a : bytes) (i : Z) : Z := nth (Z.to_nat i) a 0.

Definition make_v4_mapped_address (ip : Z) : bytes :=
  mapped_prefix ++ [octet 0 ip; octet 1 ip; octet 2 ip; octet 3 ip].

Definition is_loopback_v4 (ip : Z) : bool := Z.shiftr (ntohl ip) 24 =? 127.

Definition is_loopback_v6 (ip : bytes) : bool :=
  memeq (take 16 ip) loopback6 ||
  (memeq (take 12 ip) mapped_prefix && (byte_at ip 12 =? 127)).

Definition is_ipv6_multicast_or_linklocal (ip6 : bytes) : bool :=
  if byte_at ip6 0 =? 0xFF then true
  else if (byte_at ip6 0 =? 0xFE) && (Z.land (byte_at ip6 1) 0xC0 =? 0x80) then true
  else if (byte_at ip6 0 =? 0xFE) && (Z.land (byte_at ip6 1) 0xC0 =? 0xC0) then true
  else memeq (take 16 ip6) unspec6.

Definition is_broadcast_or_multicast (ip : Z) : bool :=
  let first_octet := octet 0 ip in
  let second_octet := octet 1 ip in
  if (first_octet =? 169) && (second_octet =? 254) then true
  else if ip =? 0xFFFFFFFF then true
  else if Z.land ip 0xFF000000 =? 0xFF000000 then true
  else (224 <=? first_octet) && (first_octet <=? 239).

(** ** IPv4 host patterns *)

(** The byte swap written out in [match_ip_pattern]. *)
Definition swap_be (ip : Z) : Z :=
  u32 (Z.lor (Z.shiftl (Z.land ip 0xFF) 24)
        (Z.lor (Z.shiftl (Z.land ip 0xFF00) 8)
          (Z.lor (Z.shiftr (Z.land ip 0xFF0000) 8) (Z.shiftr (Z.land ip 0xFF000000) 24)))).

(** The octet loop: at most four octets of at most 15 characters; [cur] is the
    octet being collected, [acc] the finished ones. *)
Fixpoint pattern_octets (s cur : bytes) (acc : list bytes) : list bytes :=
  if (4 <=? length acc)%nat then acc
  else match s with
       | [] => acc ++ [cur]
       | c :: s' =>
           if c =? c_dot then pattern_octets s' [] (acc ++ [cur])
           else pattern_octets s' (if (length cur <? 15)%nat then cur ++ [c] else cur) acc
       end.

Section Match.
Context `{Platform}.

Definition match_ip_range (pattern : bytes) (dash : nat) (ip : Z) : bool :=
  if (64 <=? dash)%nat then false
  else
    let start_ip_str := take dash pattern in
    let end_ip_str := strncpy_trunc 64 (drop (S dash) pattern) in
    match sscanf_quad store_int start_ip_str, sscanf_quad store_int end_ip_str with
    | Some (s1, s2, s3, s4), Some (e1, e2, e3, e4) =>
        let start_ip := u32 (ipv4 s1 s2 s3 s4) in
        let end_ip := u32 (ipv4 e1 e2 e3 e4) in
        (swap_be start_ip <=? swap_be ip) && (swap_be ip <=? swap_be end_ip)
    | _, _ => false
    end.

Definition match_octet (pattern : bytes) (ip_octet : Z) : bool :=
  strcmp0 pattern (str "*") || (atoi pattern =? ip_octet).

Definition match_ip_pattern (pattern : option bytes) (ip : Z) : bool :=
  match pattern with
  | None => true
  | Some pattern =>
      if strcmp0 pattern (str "*") then true
      else match strchr pattern c_dash with
           | Some dash => match_ip_range pattern dash ip
           | None =>
               match pattern_octets (strncpy_trunc 256 pattern) [] [] with
               | [p0; p1; p2; p3] =>
                   match_octet p0 (octet 0 ip) && match_octet p1 (octet 1 ip) &&
                   match_octet p2 (octet 2 ip) && match_octet p3 (octet 3 ip)
               | _ => false
               end
           end
  end.

Definition ip_match_wrapper (ip : Z) (token : bytes) : bool := match_ip_pattern (Some token) ip.
Definition match_ip_list (ip_list : option bytes) (ip : Z) : bool :=
  parse_token_list ip_list (str ";") (ip_match_wrapper ip).

(** ** Port patterns *)

Definition match_port_pattern (pattern : option bytes) (port : Z) : bool :=
  match pattern with
  | None => true
  | Some pattern =>
      if strcmp0 pattern (str "*") then true
      else match strchr pattern c_dash with
           | Some dash =>
               let start_port := atoi pattern in
               let end_port := atoi (drop (S dash) pattern) in
               (start_port <=? port) && (port <=? end_port)
           | None => port =? atoi pattern
           end
  end.

Definition port_match_wrapper (port : Z) (token : bytes) : bool :=
  match_port_pattern (Some token) port.
Definition match_port_list (port_list : option bytes) (port : Z) : bool :=
  parse_token_list port_list (str ",;") (port_match_wrapper port).

(** ** IPv6 host patterns *)

Definition match_cidr_v6 (network ip6 : bytes) (prefix_len : Z) : bool :=
  let full_bytes := prefix_len / 8 in
  let rem_bits := prefix_len mod 8 in
  let n := Z.to_nat full_bytes in
  if (0 <? full_bytes) && negb (memeq (take n ip6) (take n network)) then false
  else if 0 <? rem_bits then
    let mask := u8 (Z.shiftl 0xFF (8 - rem_bits)) in
    Z.land (byte_at ip6 full_bytes) mask =? Z.land (byte_at network full_bytes) mask
  else true.

Definition match_ip_pattern_v6 (pattern : option bytes) (ip6 : bytes) : bool :=
  match pattern with
  | None => true
  | Some pattern =>
      if strcmp0 pattern (str "*") then true
      else match strchr pattern c_colon with
      | None => false
      | Some _ =>
          let pat_copy := strncpy_trunc 128 pattern in
          match strchr pat_copy c_slash with
          | Some slash =>
              let prefix_len := atoi (drop (S slash) pat_copy) in
              if (prefix_len <? 0) || (128 <? prefix_len) then false
              else match inet_pton6 (take slash pat_copy) with
                   | None => false
                   | Some network => match_cidr_v6 network ip6 prefix_len
                   end
          | None =>
              match strchr pat_copy c_dash with
              | Some dash =>
                  match inet_pton6 (take dash pat_copy), inet_pton6 (drop (S dash) pat_copy) with
                  | Some start6, Some end6 =>
                      (0 <=? memcmp ip6 start6) && (memcmp ip6 end6 <=? 0)
                  | _, _ => false
                  end
              | None =>
                  match inet_pton6 pattern with
                  | None => false
                  | Some addr6 => memcmp ip6 addr6 =? 0
                  end
              end
          end
      end
  end.

Definition ip_match_wrapper_v6 (ip6 : bytes) (token : bytes) : bool :=
  match_ip_pattern_v6 (Some token) ip6.
Definition match_ip_list_v6 (ip_list : option bytes) (ip6 : bytes) : bool :=
  parse_token_list ip_list (str ";") (ip_match_wrapper_v6 ip6).

(** ** Wildcards and process names *)

Definition skip_stars (p : bytes) : bytes := drop_while (fun c => c =? c_star) p.

(** [while ( *text != 0) { if (f(text)) return TRUE; text++; } return FALSE;] *)
Fixpoint any_suffix (f : bytes -> bool) (text : bytes) : bool :=
  match text with
  | [] => false
  | _ :: text' => if f text then true else any_suffix f text'
  end.

(** Every recursive call is on a shorter pattern, so the pattern's length is
    enough fuel. *)
Fixpoint wildcard_loop (fuel : nat) (pattern text : bytes) : bool :=
  match fuel with
  | O => false
  | S fuel =>
      match text with
      | [] => match skip_stars pattern with [] => true | _ => false end
      | c :: text' =>
          match pattern with
          | [] => false
          | x :: pattern' =>
              if x =? c_star then
                match skip_stars pattern with
                | [] => true
                | p' => any_suffix (wildcard_loop fuel p') text
                end
              else if tolower x =? tolower c then wildcard_loop fuel pattern' text'
              else false
          end
      end
  end.
Definition wildcard_match (pattern text : bytes) : bool :=
  wildcard_loop (S (length pattern)) pattern text.

Definition has_char (s : bytes) (c : Z) : bool :=
  match strchr s c with Some _ => true | None => false end.

Definition match_process_pattern (pattern : option bytes) (process_full_path : bytes) : bool :=
  match pattern with
  | None => true
  | Some pattern =>
      if strcmp0 pattern (str "*") then true
      else
        let filename :=
          match strrchr process_full_path c_backslash with
          | Some i => drop (S i) process_full_path
          | None => process_full_path
          end in
        let is_full_path_pattern := has_char pattern c_backslash || has_char pattern c_slash in
        let match_target := if is_full_path_pattern then process_full_path else filename in
        if has_char pattern c_star then wildcard_match pattern match_target
        else stricmp0 pattern match_target
  end.

(** Trailing blanks cut off. *)
Definition trim_end (s : bytes) : bytes := rev (drop_while is_blank (rev s)).

(** The body of the token loop of [match_process_list]: trim, then unquote. *)
Definition process_token (token : bytes) : bytes :=
  let token := trim_end (skip_whitespace token) in
  match token with
  | q :: t =>
      if (q =? c_quote) && (1 <? strnlen_s token MAX_LIST_SIZE) then
        match strchr t c_quote with Some i => take i t | None => t end
      else token
  | [] => token
  end.

Definition match_process_list (process_list : option bytes) (process_name : bytes) : bool :=
  match process_list with
  | None => true
  | Some l =>
      if (match l with [] => true | _ => false end) || strcmp0 l (str "*") then true
      else match list_copy l with
           | None => false
           | Some copy =>
               token_loop (S (length copy)) (str ",;")
                 (fun token => match_process_pattern (Some (process_token token)) process_name) copy
           end
  end.

(** ** Domains *)

Definition match_domain_pattern (pattern domain : option bytes) : bool :=
  match pattern with
  | None | Some [] => true
  | Some pattern =>
      if strcmp0 pattern (str "*") then true
      else match domain with
           | None | Some [] => false
           | Some domain =>
               let apex :=
                 match pattern with
                 | s :: d :: rest =>
                     (s =? c_star) && (d =? c_dot) &&
                     match rest with [] => false | _ => stricmp0 rest domain end
                 | _ => false
                 end in
               if apex then true
               else if has_char pattern c_star then wildcard_match pattern domain
               else stricmp0 pattern domain
           end
  end.

Definition domain_token (token : bytes) : bytes := trim_end (skip_whitespace token).

Definition match_domain_list (domain_list domain : option bytes) : bool :=
  match domain_list with
  | None => true
  | Some l =>
      if (match l with [] => true | _ => false end) || strcmp0 l (str "*") then true
      else match domain with
           | None | Some [] => false
           | Some _ =>
               match list_copy l with
               | None => false
               | Some copy =>
                   token_loop (S (length copy)) (str ",;")
                     (fun token =>
                        let t := domain_token token in
                        match t with
                        | [] => false
                        | _ => match_domain_pattern (Some t) domain
                        end) copy
               end
           end
  end.
End Match.

(** ** Specification of wildcards

    [glob p t]: the text is the pattern with every [*] replaced by some
    sequence of characters, letters compared without case. *)
Inductive glob : bytes -> bytes -> Prop :=
| glob_nil : glob [] []
| glob_skip p t : glob p t -> glob (c_star :: p) t
| glob_take p c t : glob (c_star :: p) t -> glob (c_star :: p) (c :: t)
| glob_char x p c t :
    x <> c_star -> tolower x = tolower c -> glob p t -> glob (x :: p) (c :: t).
#[export] Hint Constructors glob : pb.

Lemma glob_star p t : glob (c_star :: p) t <-> exists t1 t2, t = t1 ++ t2 /\ glob p t2.
Proof.
  split.
  - remember (c_star :: p) as q eqn:Eq. induction 1; simplify_eq.
    + by exists [], t.
    + destruct IHglob as (t1 & t2 & -> & ?); [done|]. by exists (c :: t1), t2.
  - intros (t1 & t2 & -> & Hg). induction t1; simpl; eauto with pb.
Qed.

Lemma glob_skip_stars p t :
  glob (c_star :: skip_stars p) t <-> glob (c_star :: p) t.
Proof.
  revert t. unfold skip_stars. induction p as [|x p IH]; intros t; simpl; [done|].
  destruct (Z.eqb_spec x c_star) as [->|]; [|done]. rewrite IH. split.
  - apply glob_skip.
  - rewrite !glob_star. intros (t1 & t2 & -> & (t3 & t4 & -> & ?)%glob_star).
    exists (t1 ++ t3), t4. by rewrite (assoc_L (++)).
Qed.

Lemma glob_empty_text p : glob p [] <-> skip_stars p = [].
Proof.
  unfold skip_stars. induction p as [|x p IH]; simpl; [split; eauto with pb|].
  destruct (Z.eqb_spec x c_star) as [->|Hx].
  - rewrite <- IH. split; [|eauto with pb].
    intros (t1 & t2 & Ht & ?)%glob_star. by destruct t1, t2.
  - split; [|done]. inversion 1; congruence.
Qed.

Lemma skip_stars_length p : (length (skip_stars p) <= length p)%nat.
Proof. apply drop_while_length. Qed.

(** A wildcard match found at some suffix of the text. *)
Lemma glob_star_cons p c t :
  skip_stars p <> [] ->
  glob (c_star :: p) (c :: t) <->
  glob (skip_stars p) (c :: t) \/ glob (c_star :: p) t.
Proof.
  intros Hp. rewrite <- !(glob_skip_stars p). split.
  - inversion 1; subst; auto; done.
  - intros [?|?]; eauto with pb.
Qed.

Lemma wildcard_loop_glob fuel p t :
  (length p < fuel)%nat -> wildcard_loop fuel p t = true <-> glob p t.
Proof.
  revert p t. induction fuel as [|fuel IH]; intros p t Hf; [lia|]. cbn [wildcard_loop].
  destruct t as [|c t].
  { rewrite glob_empty_text. by destruct (skip_stars p). }
  destruct p as [|x p]; [split; [done|inversion 1]|].
  destruct (Z.eqb_spec x c_star) as [->|Hx].
  - unfold skip_stars. cbn [drop_while]. rewrite Z.eqb_refl.
    change (drop_while _ p) with (skip_stars p). pose proof (skip_stars_length p) as Hl.
    destruct (skip_stars p) as [|y q] eqn:E.
    + rewrite <- glob_skip_stars, E. split; [|done]. intros _. apply glob_star.
      exists (c :: t), []. rewrite app_nil_r. eauto with pb.
    + assert (skip_stars p <> []) as Hne by (by rewrite E).
      simpl in Hf, Hl. generalize (c :: t). clear c t. intros t.
      induction t as [|c t IHt].
      * split; [done|]. rewrite <- glob_skip_stars, E. intros Hg.
        apply glob_empty_text in Hg. unfold skip_stars in Hg. simpl in Hg.
        apply drop_while_head in E. by rewrite E in Hg.
      * rewrite glob_star_cons, <- IHt by done. rewrite E.
        rewrite <- (IH (y :: q)) by (simpl; lia). simpl.
        destruct (wildcard_loop fuel (y :: q) (c :: t)); intuition congruence.
  - simpl in Hf. destruct (Z.eqb_spec (tolower x) (tolower c)).
    + rewrite IH by lia. split; [eauto with pb|]. by inversion 1.
    + split; [done|]. by inversion 1.
Qed.

Theorem wildcard_match_glob p t : wildcard_match p t = true <-> glob p t.
Proof. apply wildcard_loop_glob. lia. Qed.

(** A pattern without stars is a case-insensitive comparison. *)
Lemma glob_literal p t : c_star ∉ p -> glob p t <-> map tolower p = map tolower t.
Proof.
  revert t. induction p as [|x p IH]; intros t Hp.
  { destruct t; simpl; split; try done; [eauto with pb|inversion 1]. }
  apply not_elem_of_cons in Hp as [Hx Hp]. split.
  - inversion 1; subst; try done. simpl. f_equal; [done|]. by apply IH.
  - destruct t as [|c t]; [done|]. simpl. intros [=]. constructor; [congruence|done|].
    by apply IH.
Qed.

Lemma has_char_true s c : has_char s c = true <-> c ∈ s.
Proof.
  unfold has_char. destruct (strchr s c) as [i|] eqn:E.
  - apply strchr_Some_elem in E. naive_solver.
  - split; [done|]. intros Hin. destruct (decide (c ∈ s)) as [|Hn]; [|done].
    exfalso. revert E Hin. clear. induction s as [|x s IH]; simpl; [by rewrite elem_of_nil|].
    destruct (Z.eqb_spec x c); [done|]. destruct (strchr s c); [done|].
    intros _ [->|?]%elem_of_cons; auto.
Qed.

(** What a rule's process pattern is compared with: the full path when the
    pattern names a directory, the file name otherwise. *)
Definition process_target (pattern path : bytes) : bytes :=
  if bool_decide (c_backslash ∈ pattern \/ c_slash ∈ pattern) then path
  else match strrchr path c_backslash with Some i => drop (S i) path | None => path end.

(** C33: A process pattern accepts a path exactly when it matches it as a glob,
    without regard to case. *)
Theorem match_process_pattern_glob pattern path :
  pattern <> str "*" ->
  match_process_pattern (Some pattern) path = true <-> glob pattern (process_target pattern path).
Proof.
  intros Hs. unfold match_process_pattern, strcmp0. rewrite bool_decide_false by done.
  assert ((has_char pattern c_backslash || has_char pattern c_slash)%bool =
          bool_decide (c_backslash ∈ pattern \/ c_slash ∈ pattern)) as ->.
  { apply Bool.eq_iff_eq_true. rewrite orb_true_iff, !has_char_true, bool_decide_eq_true. done. }
  fold (process_target pattern path).
  change (if bool_decide _ then path else _) with (process_target pattern path).
  destruct (has_char pattern c_star) eqn:E; [apply wildcard_match_glob|].
  unfold stricmp0. rewrite bool_decide_eq_true. symmetry. apply glob_literal.
  intros Hin%has_char_true. congruence.
Qed.

(** [*.d] accepts [d] itself and every name that ends in [.d]. *)
Theorem match_domain_suffix d domain :
  d <> [] -> c_star ∉ d -> domain <> [] ->
  match_domain_pattern (Some (str "*." ++ d)) (Some domain) = true <->
  map tolower domain = map tolower d \/
  exists pre, map tolower domain = pre ++ c_dot :: map tolower d.
Proof.
  intros Hd Hs Hdom. destruct d as [|d0 d]; [done|]. destruct domain as [|x domain]; [done|].
  set (D := d0 :: d) in *. set (X := x :: domain) in *.
  assert (c_star ∉ [c_dot] ++ D) as Hn
    by (rewrite elem_of_app, list_elem_of_singleton; intros [?|?]; done).
  assert (glob (str "*." ++ D) X <-> exists pre, map tolower X = pre ++ c_dot :: map tolower D) as Hg.
  { change (str "*." ++ D) with (c_star :: ([c_dot] ++ D)). rewrite glob_star. split.
    - intros (t1 & t2 & -> & Hg). apply glob_literal in Hg; [|done].
      exists (map tolower t1). rewrite map_app, <- Hg. done.
    - intros (pre & Hp). exists (take (length pre) X), (drop (length pre) X).
      split; [by rewrite take_drop|]. apply glob_literal; [done|].
      change (map tolower (drop (length pre) X)) with (tolower <$> drop (length pre) X).
      rewrite fmap_drop. change (tolower <$> X) with (map tolower X). rewrite Hp, drop_app_length.
      done. }
  assert (has_char (str "*." ++ D) c_star = true) as Hc by done.
  unfold match_domain_pattern. change (str "*." ++ D) with (c_star :: c_dot :: D) in *.
  cbv iota. rewrite !Z.eqb_refl, Hc. unfold strcmp0, X at 1. rewrite bool_decide_false by done.
  unfold D at 1. cbv iota. fold D X. cbn [andb]. unfold stricmp0.
  case_bool_decide as E; [by split; [left|]|]. rewrite wildcard_match_glob, Hg.
  split; [by right|]. intros [?|?]; [congruence|done].
Qed.

(** ** Numeric meaning of the host and port patterns *)

(** Big-endian value of a byte string: the numeric order of addresses. *)
Definition be_value (l : bytes) : Z := fold_left (fun a b => a * 256 + b) l 0.

Lemma shiftl_land_shiftr x m n :
  0 <= n -> Z.shiftl (Z.land (Z.shiftr x n) m) n = Z.land x (Z.shiftl m n).
Proof.
  intros Hn. apply Z.bits_inj'. intros i Hi. rewrite Z.land_spec, !Z.shiftl_spec by lia.
  destruct (decide (i < n)).
  - rewrite !(Z.testbit_neg_r _ (i - n)) by lia. by rewrite andb_false_r.
  - rewrite Z.land_spec, Z.shiftr_spec by lia. by replace (i - n + n) with i by lia.
Qed.

Lemma swap_be_octets ip :
  swap_be ip = u32 (ipv4 (octet 3 ip) (octet 2 ip) (octet 1 ip) (octet 0 ip)).
Proof.
  unfold swap_be, ipv4, octet.
  change 0xFF00 with (Z.shiftl 0xFF 8). change 0xFF0000 with (Z.shiftl 0xFF 16).
  change 0xFF000000 with (Z.shiftl 0xFF 24).
  rewrite <- !shiftl_land_shiftr by lia. change (8 * 0) with 0. change (8 * 1) with 8.
  change (8 * 2) with 16. change (8 * 3) with 24.
  rewrite Z.shiftr_0_r, Z.shiftl_shiftl by lia. change (8 + 8) with 16.
  rewrite !Z.shiftr_shiftl_l by lia.
  change (16 - 8) with 8. change (24 - 24) with 0. rewrite Z.shiftl_0_r.
  f_equal. rewrite !Z.lor_assoc.
  rewrite (Z.lor_comm _ (Z.land (Z.shiftr ip 24) 255)), !Z.lor_assoc.
  rewrite <- !Z.lor_assoc. f_equal.
  rewrite !Z.lor_assoc, Z.lor_comm, !Z.lor_assoc. rewrite <- !Z.lor_assoc. f_equal. apply Z.lor_comm.
Qed.

Lemma swap_be_value a b c d :
  is_octet a -> is_octet b -> is_octet c -> is_octet d ->
  swap_be (ipv4 a b c d) = be_value [a; b; c; d].
Proof.
  intros Ha Hb Hc Hd. rewrite swap_be_octets.
  destruct (octets_ipv4 a b c d) as (-> & -> & -> & ->); [done..|].
  rewrite u32_small by (by apply ipv4_range). rewrite ipv4_sum by done. unfold be_value. simpl. lia.
Qed.

Section MatchNumeric.
Context `{Platform}.

Lemma store_int_octet n : is_octet n -> store_int n = n.
Proof.
  unfold is_octet, store_int. intros.
  rewrite (proj2 (Z.leb_le _ _)), (proj2 (Z.ltb_lt _ _)) by lia. done.
Qed.

Lemma print_dec_no c n : 0 <= n < 10 ^ 20 -> is_digit c = false -> c ∉ print_dec n.
Proof. intros Hn Hc. destruct (print_dec_ok n Hn) as (_ & Hd & _). by eapply no_digit_forall. Qed.

Lemma print_quad_no_dash a b c d :
  is_octet a -> is_octet b -> is_octet c -> is_octet d -> c_dash ∉ print_quad a b c d.
Proof.
  unfold is_octet, print_quad. intros. rewrite !not_elem_of_app, !list_elem_of_singleton.
  split_and!; try done; (apply print_dec_no; [lia|done]).
Qed.

(** An IPv4 range [s-e] matches exactly the addresses between its ends. *)
Theorem match_ip_range_spec s1 s2 s3 s4 e1 e2 e3 e4 a b c d :
  Forall is_octet [s1; s2; s3; s4; e1; e2; e3; e4; a; b; c; d] ->
  match_ip_pattern (Some (print_quad s1 s2 s3 s4 ++ c_dash :: print_quad e1 e2 e3 e4))
                   (ipv4 a b c d) =
  (be_value [s1; s2; s3; s4] <=? be_value [a; b; c; d]) &&
  (be_value [a; b; c; d] <=? be_value [e1; e2; e3; e4]).
Proof.
  intros Hf. repeat (apply Forall_cons in Hf as [? Hf]).
  set (S := print_quad s1 s2 s3 s4). set (E := print_quad e1 e2 e3 e4).
  assert (length S <= 15)%nat by (by apply length_print_quad).
  assert (length E <= 15)%nat by (by apply length_print_quad).
  unfold match_ip_pattern, strcmp0.
  rewrite bool_decide_false.
  2:{ intros Heq. assert (c_dash ∈ str "*") as Hin; [|by apply list_elem_of_singleton in Hin].
      rewrite <- Heq, elem_of_app. right. left. }
  rewrite strchr_app by (by apply print_quad_no_dash).
  unfold match_ip_range. rewrite (proj2 (Nat.leb_gt _ _)) by lia.
  rewrite take_app_length. replace (drop (Datatypes.S (length S)) (S ++ c_dash :: E)) with E.
  2:{ change (c_dash :: E) with ([c_dash] ++ E). rewrite (assoc_L (++)).
      rewrite drop_app_length'; [done|]. rewrite length_app. simpl. lia. }
  unfold strncpy_trunc. rewrite take_ge by lia. unfold S, E.
  rewrite !sscanf_quad_print by done. rewrite !store_int_octet by done.
  rewrite !u32_small by (by apply ipv4_range). by rewrite !swap_be_value.
Qed.

(** *** Ports *)

Theorem match_port_range_spec lo hi port :
  0 <= lo < 65536 -> 0 <= hi < 65536 ->
  match_port_pattern (Some (print_dec lo ++ c_dash :: print_dec hi)) port =
  (lo <=? port) && (port <=? hi).
Proof.
  intros Hl Hh. unfold match_port_pattern, strcmp0. rewrite bool_decide_false.
  2:{ intros Heq. assert (c_dash ∈ str "*") as Hin; [|by apply list_elem_of_singleton in Hin].
      rewrite <- Heq, elem_of_app. right. left. }
  rewrite strchr_app by (apply print_dec_no; [lia|done]).
  rewrite atoi_print_dec by (done || lia).
  change (c_dash :: print_dec hi) with ([c_dash] ++ print_dec hi). rewrite (assoc_L (++)).
  rewrite drop_app_length' by (rewrite length_app; simpl; lia).
  rewrite <- (app_nil_r (print_dec hi)), atoi_print_dec by (done || lia). done.
Qed.
End MatchNumeric.

(** *** Octet patterns with wildcards *)

(** An octet pattern: [None] is [*], [Some n] a number. *)
Definition render_octet (o : option Z) : bytes :=
  match o with None => [c_star] | Some n => print_dec n end.
Definition octet_ok (o : option Z) : Prop := match o with None => True | Some n => is_octet n end.
Definition octet_accepts (o : option Z) (x : Z) : bool :=
  match o with None => true | Some n => n =? x end.

Lemma render_octet_ok o :
  octet_ok o ->
  (length (render_octet o) <= 3)%nat /\ (c_dot ∉ render_octet o) /\ (c_dash ∉ render_octet o).
Proof.
  destruct o as [n|]; simpl; intros Ho.
  - pose proof (length_print_octet n Ho). unfold is_octet in Ho.
    split_and!; [done|apply print_dec_no; [lia|done]..].
  - split_and!; [simpl; lia|by rewrite list_elem_of_singleton..].
Qed.

Lemma pattern_octets_word w s cur acc :
  (length acc < 4)%nat -> (length cur + length w <= 15)%nat -> c_dot ∉ w ->
  pattern_octets (w ++ c_dot :: s) cur acc = pattern_octets s [] (acc ++ [cur ++ w]).
Proof.
  revert cur. induction w as [|c w IH]; intros cur Ha Hl Hd; cbn [app pattern_octets].
  - rewrite (proj2 (Nat.leb_gt _ _)) by lia. rewrite Z.eqb_refl, app_nil_r. done.
  - apply not_elem_of_cons in Hd as [Hc Hd]. simpl in Hl.
    rewrite (proj2 (Nat.leb_gt _ _)) by lia.
    rewrite (proj2 (Z.eqb_neq _ _)) by congruence. rewrite (proj2 (Nat.ltb_lt _ _)) by lia.
    rewrite IH; [by rewrite <- (assoc_L (++))|done|rewrite length_app; simpl; lia|done].
Qed.

Lemma pattern_octets_end w cur acc :
  (length acc < 4)%nat -> (length cur + length w <= 15)%nat -> c_dot ∉ w ->
  pattern_octets w cur acc = acc ++ [cur ++ w].
Proof.
  revert cur. induction w as [|c w IH]; intros cur Ha Hl Hd; cbn [pattern_octets].
  - rewrite (proj2 (Nat.leb_gt _ _)) by lia. by rewrite app_nil_r.
  - apply not_elem_of_cons in Hd as [Hc Hd]. simpl in Hl.
    rewrite (proj2 (Nat.leb_gt _ _)) by lia.
    rewrite (proj2 (Z.eqb_neq _ _)) by congruence. rewrite (proj2 (Nat.ltb_lt _ _)) by lia.
    rewrite IH; [by rewrite <- (assoc_L (++))|done|rewrite length_app; simpl; lia|done].
Qed.

Lemma match_render_octet o x : octet_ok o -> match_octet (render_octet o) x = octet_accepts o x.
Proof.
  unfold match_octet, strcmp0. destruct o as [n|]; simpl; [|done]. intros Ho. unfold is_octet in Ho.
  rewrite bool_decide_false.
  - rewrite <- (app_nil_r (print_dec n)), atoi_print_dec by (done || lia). done.
  - intros Heq. apply (print_dec_no c_star n); [lia|done|]. rewrite Heq. left.
Qed.

(** A dotted pattern with [*] octets matches octet by octet. *)
Theorem match_ip_quad_spec `{Platform} o0 o1 o2 o3 ip :
  Forall octet_ok [o0; o1; o2; o3] ->
  match_ip_pattern
    (Some (render_octet o0 ++ c_dot :: render_octet o1 ++ c_dot :: render_octet o2 ++
           c_dot :: render_octet o3)) ip =
  octet_accepts o0 (octet 0 ip) && octet_accepts o1 (octet 1 ip) &&
  octet_accepts o2 (octet 2 ip) && octet_accepts o3 (octet 3 ip).
Proof.
  intros Hf. repeat (apply Forall_cons in Hf as [? Hf]).
  destruct (render_octet_ok o0) as (L0 & D0 & N0), (render_octet_ok o1) as (L1 & D1 & N1),
    (render_octet_ok o2) as (L2 & D2 & N2), (render_octet_ok o3) as (L3 & D3 & N3); [done..|].
  set (P := _ ++ _). unfold match_ip_pattern, strcmp0. rewrite bool_decide_false.
  2:{ intros Heq. assert (c_dot ∈ str "*") as Hin; [|by apply list_elem_of_singleton in Hin].
      rewrite <- Heq. unfold P. rewrite elem_of_app. right. left. }
  rewrite strchr_None.
  2:{ unfold P. rewrite !not_elem_of_app, !not_elem_of_cons, !not_elem_of_app,
        !not_elem_of_cons, !not_elem_of_app, !not_elem_of_cons. done. }
  unfold strncpy_trunc. rewrite take_ge.
  2:{ unfold P. rewrite !length_app. simpl. rewrite !length_app. simpl. rewrite !length_app. simpl. lia. }
  unfold P. rewrite pattern_octets_word by (done || simpl; lia).
  rewrite pattern_octets_word by (done || simpl; lia).
  rewrite pattern_octets_word by (done || simpl; lia).
  rewrite pattern_octets_end by (done || simpl; lia). simpl app. cbv iota.
  by rewrite !match_render_octet.
Qed.

(** *** IPv6 prefixes and ranges *)

Lemma be_value_acc l a : fold_left (fun a b => a * 256 + b) l a = a * 256 ^ Z.of_nat (length l) + be_value l.
Proof.
  unfold be_value. revert a. induction l as [|x l IH]; intros a; cbn [fold_left length].
  - rewrite Z.pow_0_r. lia.
  - rewrite IH, (IH (0 * 256 + x)). rewrite Nat2Z.inj_succ, Z.pow_succ_r by lia. lia.
Qed.

Lemma be_value_app l1 l2 : be_value (l1 ++ l2) = be_value l1 * 256 ^ Z.of_nat (length l2) + be_value l2.
Proof. unfold be_value at 1. rewrite fold_left_app. apply be_value_acc. Qed.

Lemma be_value_cons x l : be_value (x :: l) = x * 256 ^ Z.of_nat (length l) + be_value l.
Proof. apply (be_value_app [x] l). Qed.

Lemma be_value_range l : Forall is_octet l -> 0 <= be_value l < 256 ^ Z.of_nat (length l).
Proof.
  induction 1 as [|x l Hx Hl IH]; [done|]. unfold is_octet in Hx. rewrite be_value_cons.
  cbn [length]. rewrite Nat2Z.inj_succ, Z.pow_succ_r by lia. nia.
Qed.

(** [memcmp] on addresses is the order of their numeric values. *)
Lemma memcmp_be_value a b :
  length a = length b -> Forall is_octet a -> Forall is_octet b ->
  memcmp a b = match be_value a ?= be_value b with Lt => -1 | Eq => 0 | Gt => 1 end.
Proof.
  revert b. induction a as [|x a IH]; intros [|y b]; try done; [].
  intros [= Hl] [Hx Ha]%Forall_cons [Hy Hb]%Forall_cons. simpl memcmp.
  pose proof (be_value_range a Ha) as Ra. pose proof (be_value_range b Hb) as Rb.
  rewrite !be_value_cons, Hl. rewrite Hl in Ra.
  destruct (Z.eqb_spec x y) as [->|Hne].
  - rewrite IH by done. by rewrite Z.add_compare_mono_l.
  - destruct (Z.ltb_spec x y); symmetry.
    + assert (x * 256 ^ Z.of_nat (length b) + be_value a < y * 256 ^ Z.of_nat (length b) + be_value b)
        as Hlt by nia.
      rewrite (proj2 (Z.compare_lt_iff _ _) Hlt). done.
    + assert (y * 256 ^ Z.of_nat (length b) + be_value b < x * 256 ^ Z.of_nat (length b) + be_value a)
        as Hlt by nia.
      rewrite (proj2 (Z.compare_gt_iff _ _) Hlt). done.
Qed.

Lemma be_value_inj a b :
  length a = length b -> Forall is_octet a -> Forall is_octet b -> be_value a = be_value b -> a = b.
Proof.
  revert b. induction a as [|x a IH]; intros [|y b]; try done; [].
  intros [= Hl] [Hx Ha]%Forall_cons [Hy Hb]%Forall_cons. rewrite !be_value_cons, Hl.
  pose proof (be_value_range a Ha) as Ra. pose proof (be_value_range b Hb) as Rb.
  rewrite Hl in Ra. intros Heq. assert (x = y) by nia. subst. f_equal. apply IH; auto. lia.
Qed.

(** The mask of [rem] leading bits of a byte drops the low [8 - rem] bits. *)
Lemma byte_mask rem x :
  1 <= rem <= 7 -> is_octet x ->
  Z.land x (u8 (Z.shiftl 0xFF (8 - rem))) = x / 2 ^ (8 - rem) * 2 ^ (8 - rem).
Proof.
  intros Hr Hx.
  assert (forallb (fun r => forallb (fun x =>
    Z.land x (u8 (Z.shiftl 0xFF (8 - r))) =? x / 2 ^ (8 - r) * 2 ^ (8 - r)) (seqZ 0 256)) (seqZ 1 7)
    = true) as Hall by (vm_compute; reflexivity).
  rewrite forallb_forall in Hall. specialize (Hall rem).
  rewrite <- list_elem_of_In, elem_of_seqZ in Hall. specialize (Hall ltac:(lia)).
  rewrite forallb_forall in Hall. specialize (Hall x).
  rewrite <- list_elem_of_In, elem_of_seqZ in Hall. unfold is_octet in Hx.
  apply Z.eqb_eq, Hall. lia.
Qed.

Lemma byte_mask_eq rem x y :
  1 <= rem <= 7 -> is_octet x -> is_octet y ->
  (Z.land x (u8 (Z.shiftl 0xFF (8 - rem))) =? Z.land y (u8 (Z.shiftl 0xFF (8 - rem)))) =
  (x / 2 ^ (8 - rem) =? y / 2 ^ (8 - rem)).
Proof.
  intros Hr Hx Hy. rewrite !byte_mask by done.
  assert (0 < 2 ^ (8 - rem)) by (apply Z.pow_pos_nonneg; lia).
  apply Bool.eq_iff_eq_true. rewrite !Z.eqb_eq. split; [nia|congruence].
Qed.

(** Split an address at a byte: prefix, the byte, the rest. *)
Lemma split_at_byte (l : bytes) n :
  (n < length l)%nat -> l = take n l ++ byte_at l (Z.of_nat n) :: drop (S n) l.
Proof.
  intros Hn. unfold byte_at. rewrite Nat2Z.id.
  destruct (lookup_lt_is_Some_2 l n Hn) as [x Hx].
  rewrite (nth_lookup_Some _ _ _ _ Hx). symmetry. by apply take_drop_middle.
Qed.

Lemma cidr_quotient l n k :
  (n < length l)%nat -> Forall is_octet l -> 0 < k <= 8 ->
  be_value l / (2 ^ k * 256 ^ (Z.of_nat (length l) - Z.of_nat n - 1)) =
  be_value (take n l) * 2 ^ (8 - k) + byte_at l (Z.of_nat n) / 2 ^ k.
Proof.
  intros Hn Hl Hk. pose proof (split_at_byte l n Hn) as Hs.
  set (A := take n l) in *. set (x := byte_at l (Z.of_nat n)) in *. set (R := drop (S n) l) in *.
  assert (is_octet x /\ Forall is_octet R) as [Hx HR].
  { rewrite Hs in Hl. apply Forall_app in Hl as [_ ?]. by apply Forall_cons. }
  assert (Z.of_nat (length R) = Z.of_nat (length l) - Z.of_nat n - 1) as HlR
    by (unfold R; rewrite length_drop; lia).
  pose proof (be_value_range R HR) as RR. rewrite HlR in RR.
  rewrite Hs at 1. rewrite be_value_app, be_value_cons. cbn [length].
  rewrite Nat2Z.inj_succ, Z.pow_succ_r by lia. rewrite HlR.
  set (W := 256 ^ _) in *. set (K := 2 ^ k). assert (0 < K) by (apply Z.pow_pos_nonneg; lia).
  assert (256 = 2 ^ (8 - k) * K) as H256.
  { unfold K. rewrite <- Z.pow_add_r by lia. by replace (8 - k + k) with 8 by lia. }
  symmetry. apply (Z.div_unique _ _ _ (x mod K * W + be_value R)).
  - left. pose proof (Z.mod_pos_bound x K). nia.
  - rewrite (Z.div_mod x K) at 1 by lia. rewrite H256. ring.
Qed.

(** The first [8 * f + r] bits of an address: whole bytes and part of the next. *)
Lemma cidr_split f r l :
  0 <= f < 16 -> 0 <= r < 8 -> length l = 16%nat -> Forall is_octet l ->
  be_value l / 2 ^ (128 - (8 * f + r)) =
    be_value (take (Z.to_nat f) l) * 2 ^ r + byte_at l f / 2 ^ (8 - r).
Proof.
  intros Hf Hr Hl Hl'. set (n := Z.to_nat f). pose proof (cidr_quotient l n (8 - r) ltac:(lia) Hl' ltac:(lia)) as Hc.
  replace (Z.of_nat n) with f in Hc by lia. replace (8 - (8 - r)) with r in Hc by lia.
  rewrite <- Hc. f_equal. rewrite Hl.
  change 256 with (2 ^ 8). rewrite <- Z.pow_mul_r, <- Z.pow_add_r by lia. f_equal. lia.
Qed.

Lemma cidr_byte f r l :
  0 <= f < 16 -> 0 <= r < 8 -> length l = 16%nat -> Forall is_octet l ->
  is_octet (byte_at l f) /\ 0 <= byte_at l f / 2 ^ (8 - r) < 2 ^ r.
Proof.
  intros Hf Hr Hl Hl'. assert (is_octet (byte_at l f)) as Hb.
  { rewrite Forall_forall in Hl'. apply Hl'. unfold byte_at. apply list_elem_of_In, nth_In. lia. }
  split; [done|]. unfold is_octet in Hb.
  assert (256 = 2 ^ r * 2 ^ (8 - r)) by (rewrite <- Z.pow_add_r by lia; by replace (r + (8 - r)) with 8 by lia).
  assert (0 < 2 ^ (8 - r)) by (apply Z.pow_pos_nonneg; lia).
  split; [apply Z.div_pos; lia|apply Z.div_lt_upper_bound; lia].
Qed.

(** A CIDR pattern accepts an address iff the first [p] bits agree. *)
Theorem match_cidr_v6_spec network ip6 p :
  0 <= p <= 128 -> length network = 16%nat -> length ip6 = 16%nat ->
  Forall is_octet network -> Forall is_octet ip6 ->
  match_cidr_v6 network ip6 p =
  (be_value ip6 / 2 ^ (128 - p) =? be_value network / 2 ^ (128 - p)).
Proof.
  intros Hp Ln Li Hn Hi. unfold match_cidr_v6.
  set (f := p / 8). set (r := p mod 8).
  assert (0 <= f <= 16 /\ 0 <= r < 8 /\ p = 8 * f + r) as (Hf & Hr & Hpe)
    by (unfold f, r; Z.to_euclidean_division_equations; lia).
  clearbody f r. subst p. set (n := Z.to_nat f).
  assert (length (take n ip6) = length (take n network)) as Lt by (rewrite !length_take; lia).
  assert (forall l, Forall is_octet l -> Forall is_octet (take n l)) as Ht
    by (intros; by apply Forall_take).
  destruct (decide (f = 16)) as [->|Hf16].
  { (* the whole address *)
    assert (r = 0) as -> by lia. simpl. change n with 16%nat. rewrite !take_ge by lia.
    rewrite !Z.div_1_r. apply Bool.eq_iff_eq_true. unfold memeq.
    destruct (bool_decide_reflect (ip6 = network)) as [->|Hne]; simpl.
    - by rewrite Z.eqb_refl.
    - split; [done|]. rewrite Z.eqb_eq. intros. by destruct Hne; apply be_value_inj; try lia. }
  unfold n in *. rewrite !cidr_split by (done || lia). clear n. set (n := Z.to_nat f) in *.
  destruct (cidr_byte f r ip6) as [B1 X1]; [lia|lia|done..|].
  destruct (cidr_byte f r network) as [B2 X2]; [lia|lia|done..|].
  apply Bool.eq_iff_eq_true. rewrite Z.eqb_eq.
  assert ((0 <? f) && negb (memeq (take n ip6) (take n network)) = negb (memeq (take n ip6) (take n network))) as ->.
  { destruct (Z.ltb_spec 0 f); [done|]. unfold memeq. unfold n. replace (Z.to_nat f) with O by lia. done. }
  unfold memeq. destruct (bool_decide_reflect (take n ip6 = take n network)) as [He|Hne]; simpl.
  - rewrite He. destruct (Z.ltb_spec 0 r).
    + rewrite byte_mask_eq by (auto || lia). rewrite Z.eqb_eq. lia.
    + assert (r = 0) as -> by lia. change (2 ^ 0) with 1 in *. lia.
  - split; [done|]. intros Heq. destruct Hne. apply be_value_inj; auto. nia.
Qed.
