(* ===== verification/Types.v ===== *)
(** * Shared types and the policy generation

    The enumerations of ProxyBridge.h and the generation counter of
    pb_conntrack.c that every policy change bumps. *)
From S2P Require Import Prelude.

Inductive ProxyType := PROXY_TYPE_HTTP | PROXY_TYPE_SOCKS5.
Inductive RuleAction := RULE_ACTION_PROXY | RULE_ACTION_DIRECT | RULE_ACTION_BLOCK.
Inductive RuleProtocol := RULE_PROTOCOL_TCP | RULE_PROTOCOL_UDP | RULE_PROTOCOL_BOTH.

#[export] Instance ProxyType_eq_dec : EqDecision ProxyType.
Proof. solve_decision. Defined.
#[export] Instance RuleAction_eq_dec : EqDecision RuleAction.
Proof. solve_decision. Defined.
#[export] Instance RuleProtocol_eq_dec : EqDecision RuleProtocol.
Proof. solve_decision. Defined.

(** A socket handle; [INVALID_SOCKET] is all ones. *)
Definition INVALID_SOCKET : Z := 2 ^ 64 - 1.

(** [g_udp_generation] is a [LONG]: the increment wraps at 32 bits. *)
Definition invalidate_udp_decisions (g_udp_generation : Z) : Z := s32 (g_udp_generation + 1).

(** A bumped generation differs from the one before, whatever its value. *)
Lemma invalidate_changes g : - 2 ^ 31 <= g < 2 ^ 31 -> invalidate_udp_decisions g <> g.
Proof.
  unfold invalidate_udp_decisions, s32. intros Hg Heq.
  destruct (decide (g + 1 < 2 ^ 31)).
  - rewrite Z.mod_small in Heq by lia. lia.
  - assert (g = 2 ^ 31 - 1) as -> by lia. vm_compute in Heq. done.
Qed.

(** [k] bumps fewer than a full turn of the counter never come back to [g]. *)
Lemma generation_no_reuse (k : nat) g :
  - 2 ^ 31 <= g < 2 ^ 31 -> (0 < k)%nat -> Z.of_nat k < 2 ^ 32 ->
  Nat.iter k invalidate_udp_decisions g <> g.
Proof.
  intros Hg Hk Hk2.
  assert (Nat.iter k invalidate_udp_decisions g = s32 (g + Z.of_nat k)) as ->.
  { clear Hk Hk2. induction k as [|k IH].
    - simpl. rewrite Z.add_0_r. symmetry. by apply s32_small.
    - rewrite Nat.iter_succ, IH. unfold invalidate_udp_decisions, s32.
      rewrite Nat2Z.inj_succ.
      replace ((g + Z.of_nat k + 2 ^ 31) mod 2 ^ 32 - 2 ^ 31 + 1 + 2 ^ 31)
        with ((g + Z.of_nat k + 2 ^ 31) mod 2 ^ 32 + 1) by lia.
      rewrite Zplus_mod_idemp_l. do 2 f_equal. lia. }
  unfold s32. intros Heq.
  destruct (decide (g + Z.of_nat k + 2 ^ 31 < 2 ^ 32)).
  - rewrite Z.mod_small in Heq by lia. lia.
  - rewrite <- (Z.mod_unique (g + Z.of_nat k + 2 ^ 31) (2 ^ 32) 1
      (g + Z.of_nat k + 2 ^ 31 - 2 ^ 32)) in Heq by lia. lia.
Qed.
