(* ===== verification/ProxyConfig.v ===== *)
(** * Proxy configurations (pb_proxy.c)

    The table of configured proxies, its lookup with fall-back to the first
    entry, and the add, edit and delete operations of the API. *)
From S2P Require Import Prelude CLib Util Types.

Record PROXY_CONFIG := mkPROXY_CONFIG {
  config_id : Z;
  pc_type : ProxyType;
  host : bytes;
  pc_port : Z;
  send_domain_to_proxy : bool;
  resolved_ip : Z;
  last_udp_attempt : Z;
  udp_tcp_ctrl : Z;
  udp_send_sock : Z;
  udp_relay_addr : Z * Z;          (* sin_addr, sin_port in network byte order *)
  udp_connected : bool
}.

(** [g_proxy_configs[0 .. g_proxy_config_count - 1]], the next id, the policy
    generation and the sockets closed so far. *)
Record ProxyStore := mkProxyStore {
  g_proxy_configs : list PROXY_CONFIG;
  g_next_config_id : Z;
  ps_generation : Z;
  ps_closed : list Z
}.

Definition MAX_PROXY_CONFIGS : Z := 16.
Definition g_proxy_config_count (s : ProxyStore) : Z := Z.of_nat (length (g_proxy_configs s)).

Definition find_proxy_config (cfgs : list PROXY_CONFIG) (id : Z) : option PROXY_CONFIG :=
  match List.find (fun c => config_id c =? id) cfgs with
  | Some c => Some c
  | None => match cfgs with c :: _ => Some c | [] => None end
  end.

Definition is_empty (s : bytes) : bool := match s with [] => true | _ => false end.

Definition any_socks5_config (cfgs : list PROXY_CONFIG) : bool :=
  existsb (fun c => bool_decide (pc_type c = PROXY_TYPE_SOCKS5) && negb (is_empty (host c)) &&
                    negb (pc_port c =? 0)) cfgs.

(** [s != NULL && s[0] != 0] *)
Definition given (s : option bytes) : bool :=
  match s with Some (_ :: _) => true | _ => false end.

(** The C enumeration argument: 0 is HTTP, everything else is taken as SOCKS5. *)
Definition type_of_arg (type : Z) : ProxyType :=
  if type =? 0 then PROXY_TYPE_HTTP else PROXY_TYPE_SOCKS5.

(** Closing the UDP sockets of a configuration, recording the handles closed. *)
Definition close_udp (c : PROXY_CONFIG) (closed : list Z) : list Z :=
  let closed := if udp_tcp_ctrl c =? INVALID_SOCKET then closed else closed ++ [udp_tcp_ctrl c] in
  if udp_send_sock c =? INVALID_SOCKET then closed else closed ++ [udp_send_sock c].

Section Api.
Context `{Platform}.

Definition ProxyBridge_AddProxyConfig (s : ProxyStore) (type : Z) (proxy_ip : option bytes)
    (proxy_port : Z) (username password : option bytes) (send_domain : bool)
  : ProxyStore * Z :=
  if negb (given proxy_ip) || (proxy_port =? 0) then (s, 0)
  else if given username || given password then (s, 0)
  else if resolve_hostname proxy_ip =? 0 then (s, 0)
  else if MAX_PROXY_CONFIGS <=? g_proxy_config_count s then (s, 0)
  else
    let cfg := {| config_id := g_next_config_id s;
                  pc_type := type_of_arg type;
                  host := strncpy_trunc 256 (default [] proxy_ip);
                  pc_port := proxy_port;
                  send_domain_to_proxy := send_domain;
                  resolved_ip := resolve_hostname proxy_ip;
                  last_udp_attempt := 0;
                  udp_tcp_ctrl := INVALID_SOCKET;
                  udp_send_sock := INVALID_SOCKET;
                  udp_relay_addr := (0, 0);
                  udp_connected := false |} in
    ({| g_proxy_configs := g_proxy_configs s ++ [cfg];
        g_next_config_id := u32 (g_next_config_id s + 1);
        ps_generation := invalidate_udp_decisions (ps_generation s);
        ps_closed := ps_closed s |}, config_id cfg).

(** The edited entry: the UDP association is dropped, the attempt time and the
    relay address stay. *)
Definition edit_config (c : PROXY_CONFIG) (type : Z) (proxy_ip : bytes) (proxy_port : Z)
    (send_domain : bool) (resolved : Z) : PROXY_CONFIG :=
  {| config_id := config_id c;
     pc_type := type_of_arg type;
     host := strncpy_trunc 256 proxy_ip;
     pc_port := proxy_port;
     send_domain_to_proxy := send_domain;
     resolved_ip := resolved;
     last_udp_attempt := last_udp_attempt c;
     udp_tcp_ctrl := INVALID_SOCKET;
     udp_send_sock := INVALID_SOCKET;
     udp_relay_addr := udp_relay_addr c;
     udp_connected := false |}.

(** The loop over the table: change the first entry with the id. *)
Fixpoint edit_first (cfgs : list PROXY_CONFIG) (id : Z) (f : PROXY_CONFIG -> PROXY_CONFIG)
  : option (list PROXY_CONFIG * PROXY_CONFIG) :=
  match cfgs with
  | [] => None
  | c :: cfgs' =>
      if config_id c =? id then Some (f c :: cfgs', c)
      else '(l, old) ← edit_first cfgs' id f; Some (c :: l, old)
  end.

Definition ProxyBridge_EditProxyConfig (s : ProxyStore) (id type : Z) (proxy_ip : option bytes)
    (proxy_port : Z) (username password : option bytes) (send_domain : bool)
  : ProxyStore * bool :=
  if negb (given proxy_ip) || (proxy_port =? 0) then (s, false)
  else if given username || given password then (s, false)
  else
    let resolved := resolve_hostname proxy_ip in
    if resolved =? 0 then (s, false)
    else match edit_first (g_proxy_configs s) id
                 (fun c => edit_config c type (default [] proxy_ip) proxy_port send_domain resolved) with
         | None => (s, false)
         | Some (l, old) =>
             ({| g_proxy_configs := l;
                 g_next_config_id := g_next_config_id s;
                 ps_generation := invalidate_udp_decisions (ps_generation s);
                 ps_closed := close_udp old (ps_closed s) |}, true)
         end.
End Api.

(** Deletion shifts the entries behind the deleted one down. *)
Fixpoint delete_first (cfgs : list PROXY_CONFIG) (id : Z) : option (list PROXY_CONFIG * PROXY_CONFIG) :=
  match cfgs with
  | [] => None
  | c :: cfgs' =>
      if config_id c =? id then Some (cfgs', c)
      else '(l, old) ← delete_first cfgs' id; Some (c :: l, old)
  end.

Definition ProxyBridge_DeleteProxyConfig (s : ProxyStore) (id : Z) : ProxyStore * bool :=
  match delete_first (g_proxy_configs s) id with
  | None => (s, false)
  | Some (l, old) =>
      ({| g_proxy_configs := l;
          g_next_config_id := g_next_config_id s;
          ps_generation := invalidate_udp_decisions (ps_generation s);
          ps_closed := close_udp old (ps_closed s) |}, true)
  end.

(** ** Properties *)

Lemma edit_first_spec cfgs id f l old :
  edit_first cfgs id f = Some (l, old) ->
  exists l1 l2, cfgs = l1 ++ old :: l2 /\ l = l1 ++ f old :: l2 /\ config_id old = id /\
                Forall (fun c => config_id c <> id) l1.
Proof.
  revert l. induction cfgs as [|c cfgs IH]; simpl; intros l He; [done|].
  destruct (Z.eqb_spec (config_id c) id).
  - simplify_eq. exists [], cfgs. eauto.
  - destruct (edit_first cfgs id f) as [[l' old']|]; simplify_eq/=.
    destruct (IH _ eq_refl) as (l1 & l2 & -> & -> & ? & ?). exists (c :: l1), l2. eauto.
Qed.

Lemma delete_first_spec cfgs id l old :
  delete_first cfgs id = Some (l, old) ->
  exists l1 l2, cfgs = l1 ++ old :: l2 /\ l = l1 ++ l2 /\ config_id old = id.
Proof.
  revert l. induction cfgs as [|c cfgs IH]; simpl; intros l He; [done|].
  destruct (Z.eqb_spec (config_id c) id).
  - simplify_eq. by exists [], l.
  - destruct (delete_first cfgs id) as [[l' old']|]; simplify_eq/=.
    destruct (IH _ eq_refl) as (l1 & l2 & -> & -> & ?). by exists (c :: l1), l2.
Qed.

(** A configuration the relay can use. *)
Definition cfg_usable (c : PROXY_CONFIG) : Prop :=
  host c <> [] /\ pc_port c <> 0 /\ resolved_ip c <> 0.

Record store_wf (s : ProxyStore) : Prop := {
  wf_bounded : g_proxy_config_count s <= MAX_PROXY_CONFIGS;
  wf_usable : Forall cfg_usable (g_proxy_configs s);
  wf_ids : NoDup (config_id <$> g_proxy_configs s);
  wf_fresh : Forall (fun c => 0 < config_id c < g_next_config_id s) (g_proxy_configs s);
  wf_next : 0 < g_next_config_id s
}.

Definition store_init : ProxyStore := mkProxyStore [] 1 1 [].

Inductive store_op :=
| OpAdd (type : Z) (ip : option bytes) (port : Z) (user pass : option bytes) (dom : bool)
| OpEdit (id type : Z) (ip : option bytes) (port : Z) (user pass : option bytes) (dom : bool)
| OpDelete (id : Z).

Section StoreProperties.
Context `{Platform}.

Definition apply_store_op (s : ProxyStore) (op : store_op) : ProxyStore :=
  match op with
  | OpAdd t ip p u w d => fst (ProxyBridge_AddProxyConfig s t ip p u w d)
  | OpEdit id t ip p u w d => fst (ProxyBridge_EditProxyConfig s id t ip p u w d)
  | OpDelete id => fst (ProxyBridge_DeleteProxyConfig s id)
  end.

Lemma truncated_host_given ip : given ip = true -> strncpy_trunc 256 (default [] ip) <> [].
Proof. destruct ip as [[|c ip]|]; done. Qed.

Lemma add_wf s t ip p u w d :
  store_wf s -> g_next_config_id s < 2 ^ 32 - 1 ->
  store_wf (fst (ProxyBridge_AddProxyConfig s t ip p u w d)) /\
  g_next_config_id (fst (ProxyBridge_AddProxyConfig s t ip p u w d)) <= g_next_config_id s + 1.
Proof.
  intros Hwf Hn. pose proof (wf_next _ Hwf). unfold ProxyBridge_AddProxyConfig.
  repeat (case_match; [by (split; [|simpl; lia])|]). bool_prop. simpl.
  rewrite u32_small by lia. split; [|lia]. destruct Hwf as [Hb Hu Hi Hf Hx].
  unfold g_proxy_config_count in *. split; simpl; unfold g_proxy_config_count; simpl.
  - rewrite length_app. simpl. lia.
  - apply Forall_app. split; [done|]. repeat constructor; simpl; auto using truncated_host_given.
  - rewrite fmap_app. apply NoDup_app. split_and!; [done| |apply NoDup_singleton].
    intros x Hin Hx'%list_elem_of_singleton. simpl in Hx'. subst x.
    apply list_elem_of_fmap in Hin as (c & Hc & Hin). rewrite Forall_forall in Hf.
    specialize (Hf _ Hin). lia.
  - apply Forall_app. split; [|repeat constructor; simpl; lia].
    eapply Forall_impl; [done|]. simpl. lia.
  - lia.
Qed.

Lemma edit_wf s id t ip p u w d :
  store_wf s ->
  store_wf (fst (ProxyBridge_EditProxyConfig s id t ip p u w d)) /\
  g_next_config_id (fst (ProxyBridge_EditProxyConfig s id t ip p u w d)) = g_next_config_id s.
Proof.
  intros Hwf. unfold ProxyBridge_EditProxyConfig.
  repeat (case_match; [done|]). bool_prop.
  destruct (edit_first _ _ _) as [[l old]|] eqn:E; [|done].
  apply edit_first_spec in E as (l1 & l2 & Hl & -> & Ho & _).
  destruct Hwf as [Hb Hu Hi Hf Hx]. split; [|done]. unfold g_proxy_config_count in *.
  rewrite Hl in *. rewrite Forall_app, Forall_cons in Hu, Hf.
  split; simpl; unfold g_proxy_config_count; simpl.
  - rewrite length_app in *. simpl in *. done.
  - rewrite Forall_app, Forall_cons. split_and!; try tauto.
    repeat constructor; simpl; auto using truncated_host_given.
  - rewrite fmap_app in *. done.
  - rewrite Forall_app, Forall_cons. done.
  - done.
Qed.

Lemma delete_wf s id :
  store_wf s ->
  store_wf (fst (ProxyBridge_DeleteProxyConfig s id)) /\
  g_next_config_id (fst (ProxyBridge_DeleteProxyConfig s id)) = g_next_config_id s.
Proof.
  intros Hwf. unfold ProxyBridge_DeleteProxyConfig.
  destruct (delete_first _ _) as [[l old]|] eqn:E; [|done].
  apply delete_first_spec in E as (l1 & l2 & Hl & -> & Ho).
  destruct Hwf as [Hb Hu Hi Hf Hx]. split; [|done]. unfold g_proxy_config_count in *.
  rewrite Hl in *. rewrite Forall_app, Forall_cons in Hu, Hf.
  split; simpl; unfold g_proxy_config_count; simpl; try done.
  - rewrite length_app in *. simpl in *. lia.
  - rewrite Forall_app. tauto.
  - eapply sublist_NoDup; [exact Hi|]. apply fmap_sublist. apply sublist_app; [done|].
    by apply sublist_cons.
  - rewrite Forall_app. tauto.
Qed.

(** Whatever the sequence of API calls, the table stays within its 16 slots,
    its ids stay distinct and every entry has a host, a port and an address. *)
Theorem store_reachable_wf ops :
  Z.of_nat (length ops) < 2 ^ 32 - 2 -> store_wf (fold_left apply_store_op ops store_init).
Proof.
  intros Hl.
  enough (forall ops s, store_wf s -> g_next_config_id s + Z.of_nat (length ops) <= 2 ^ 32 - 1 ->
            store_wf (fold_left apply_store_op ops s)) as Hgen.
  { apply Hgen; [|simpl; lia]. split; unfold g_proxy_config_count; simpl; try done; constructor. }
  clear ops Hl. induction ops as [|op ops IH]; intros s Hwf Hb; simpl; [done|]. simpl in Hb.
  destruct op; simpl; apply IH.
  - apply add_wf; [done|lia].
  - pose proof (proj2 (add_wf s type ip port user pass dom Hwf ltac:(lia))). lia.
  - by apply edit_wf.
  - rewrite (proj2 (edit_wf s id type ip port user pass dom Hwf)). lia.
  - by apply delete_wf.
  - rewrite (proj2 (delete_wf s id Hwf)). lia.
Qed.

(** Credentials are refused by both entry points, and nothing changes. *)
Theorem credentials_rejected s id t ip p u w d :
  given u = true \/ given w = true ->
  ProxyBridge_AddProxyConfig s t ip p u w d = (s, 0) /\
  ProxyBridge_EditProxyConfig s id t ip p u w d = (s, false).
Proof.
  intros Hc. assert ((given u || given w)%bool = true) as E by (apply orb_true_iff; done).
  unfold ProxyBridge_AddProxyConfig, ProxyBridge_EditProxyConfig. rewrite E.
  by destruct (negb (given ip) || (p =? 0)).
Qed.

(** The id an add returns finds the added entry. *)
Theorem add_then_find s t ip p u w d s' id :
  store_wf s -> ProxyBridge_AddProxyConfig s t ip p u w d = (s', id) -> id <> 0 ->
  exists c, find_proxy_config (g_proxy_configs s') id = Some c /\ config_id c = id /\
            pc_port c = p /\ pc_type c = type_of_arg t /\
            host c = strncpy_trunc 256 (default [] ip) /\ resolved_ip c = resolve_hostname ip.
Proof.
  intros Hwf. unfold ProxyBridge_AddProxyConfig.
  repeat (case_match; [by intros; simplify_eq|]). intros ? Hid; simplify_eq/=.
  unfold find_proxy_config.
  set (c := mkPROXY_CONFIG _ _ _ _ _ _ _ _ _ _ _). exists c.
  assert (List.find (fun c => config_id c =? g_next_config_id s) (g_proxy_configs s ++ [c]) = Some c) as ->; [|done].
  pose proof (wf_fresh _ Hwf) as Hf. clear Hwf.
  induction (g_proxy_configs s) as [|x l IH]; simpl; [by rewrite Z.eqb_refl|].
  apply Forall_cons in Hf as [? Hf]. rewrite (proj2 (Z.eqb_neq _ _)) by lia. by apply IH.
Qed.

(** A deleted id is gone from the table. *)
Theorem delete_removes s id s' :
  store_wf s -> ProxyBridge_DeleteProxyConfig s id = (s', true) ->
  Forall (fun c => config_id c <> id) (g_proxy_configs s') /\
  S (length (g_proxy_configs s')) = length (g_proxy_configs s).
Proof.
  intros Hwf. unfold ProxyBridge_DeleteProxyConfig.
  destruct (delete_first _ _) as [[l old]|] eqn:E; intros; simplify_eq/=.
  apply delete_first_spec in E as (l1 & l2 & Hl & -> & Ho). pose proof (wf_ids _ Hwf) as Hi.
  rewrite Hl in *. rewrite fmap_app, fmap_cons in Hi. subst id. split.
  - apply Forall_forall. intros c Hc Heq. apply NoDup_app in Hi as (_ & Hd & Hi).
    apply NoDup_cons in Hi as [Hn _]. apply elem_of_app in Hc as [Hc|Hc].
    + eapply Hd; [by apply list_elem_of_fmap_2, Hc|]. rewrite Heq. left.
    + apply Hn. rewrite <- Heq. by apply list_elem_of_fmap_2.
  - rewrite !length_app. simpl. lia.
Qed.
End StoreProperties.

(** The lookup returns the entry with the id when there is one, otherwise the
    first entry of the table, and nothing only for an empty table. *)
Theorem find_proxy_config_spec cfgs id :
  match find_proxy_config cfgs id with
  | Some c => c ∈ cfgs /\ (config_id c = id \/
                Forall (fun c => config_id c <> id) cfgs /\ head cfgs = Some c)
  | None => cfgs = []
  end.
Proof.
  unfold find_proxy_config. destruct (List.find _ cfgs) as [c|] eqn:E.
  - apply List.find_some in E as [Hin He]. bool_prop. split; [by apply list_elem_of_In|by left].
  - destruct cfgs as [|c cfgs]; [done|]. split; [left|]. right. split; [|done].
    apply Forall_forall. intros x Hx%list_elem_of_In. pose proof (List.find_none _ _ E x Hx).
    bool_prop. simpl in *. lia.
Qed.

(** An id that is in no entry stands for the first one. *)
Lemma find_proxy_config_absent cfgs id :
  Forall (fun c => config_id c <> id) cfgs -> find_proxy_config cfgs id = head cfgs.
Proof.
  intros Hn. pose proof (find_proxy_config_spec cfgs id) as Hs. destruct (find_proxy_config cfgs id) as [c|]; [|by subst].
  destruct Hs as [Hin [Hi|[_ Hh]]]; [|done]. rewrite Forall_forall in Hn. by destruct (Hn c Hin).
Qed.
