(* ===== verification/Socks5.v ===== *)
(** * The SOCKS5 client (pb_socks5.c)

    The handshake with a proxy as a function of the segments the proxy sends
    and of the results of [send]; CONNECT for the three address types, UDP
    ASSOCIATE, and the sockets of an association. *)
From S2P Require Import Prelude CLib Util Types ProxyConfig.

(** ** Sockets

    What [recv] will hand out (the end of the list is the end of the stream, an
    error or a timeout), what the calls of [send] will return, and what has
    gone out. *)
Record Sock := mkSock { sk_in : list bytes; sk_send : list Z; sk_out : bytes }.

(** A step of a handshake: it fails or gives a value. *)
Definition IO (A : Type) : Type := Sock -> Sock * option A.

#[export] Instance io_ret : MRet IO := fun A a s => (s, Some a).
#[export] Instance io_bind : MBind IO := fun A B f m s =>
  match m s with
  | (s, Some a) => f a s
  | (s, None) => (s, None)
  end.

Definition io_fail {A} : IO A := fun s => (s, None).
Definition io_check (b : bool) : IO unit := fun s => (s, if b then Some tt else None).

Definition sock_send_all (buf : bytes) : IO unit := fun s =>
  let '(r, out, results) := send_all (sk_send s) buf in
  (mkSock (sk_in s) results (sk_out s ++ out), r).

Definition sock_recv_n (n : nat) : IO bytes := fun s =>
  let '(r, rest) := recv_n (sk_in s) n in
  (mkSock rest (sk_send s) (sk_out s), r).

(** ** Messages *)

Definition SOCKS5_VERSION : Z := 5.
Definition SOCKS5_CMD_CONNECT : Z := 1.
Definition SOCKS5_CMD_UDP_ASSOCIATE : Z := 3.
Definition SOCKS5_ATYP_IPV4 : Z := 1.
Definition SOCKS5_ATYP_DOMAIN : Z := 3.
Definition SOCKS5_ATYP_IPV6 : Z := 4.
Definition SOCKS5_AUTH_NONE : Z := 0.

(** [(port >> 8) & 0xFF, (port >> 0) & 0xFF] *)
Definition port_be (port : Z) : bytes := [Z.land (Z.shiftr port 8) 0xFF; Z.land port 0xFF].

Definition ip_octets (ip : Z) : bytes := [octet 0 ip; octet 1 ip; octet 2 ip; octet 3 ip].

Definition greeting : bytes := [SOCKS5_VERSION; 1; SOCKS5_AUTH_NONE].

Definition connect_request (atyp : Z) (addr : bytes) (port : Z) : bytes :=
  [SOCKS5_VERSION; SOCKS5_CMD_CONNECT; 0; atyp] ++ addr ++ port_be port.

Definition associate_request : bytes :=
  [SOCKS5_VERSION; SOCKS5_CMD_UDP_ASSOCIATE; 0; SOCKS5_ATYP_IPV4; 0; 0; 0; 0; 0; 0].

(** Byte [i] of a received buffer. *)
Definition at_ (b : bytes) (i : nat) : Z := nth i b 0.

Definition socks5_negotiate_no_auth : IO unit :=
  _ ← sock_send_all greeting;
  reply ← sock_recv_n 2;
  io_check ((at_ reply 0 =? SOCKS5_VERSION) && (at_ reply 1 =? SOCKS5_AUTH_NONE)).

(** How much of the bound address and port follows the reply header. *)
Definition reply_drain (atyp : Z) : IO nat :=
  if atyp =? SOCKS5_ATYP_IPV4 then mret (4 + 2)%nat
  else if atyp =? SOCKS5_ATYP_IPV6 then mret (16 + 2)%nat
  else if atyp =? SOCKS5_ATYP_DOMAIN then
    dlen ← sock_recv_n 1; mret (Z.to_nat (at_ dlen 0) + 2)%nat
  else io_fail.

(** The value is the reply code stored in [*reply], -1 when no header was read,
    and whether the CONNECT was granted. *)
Definition socks5_read_connect_reply (s : Sock) : Sock * (Z * bool) :=
  match sock_recv_n 4 s with
  | (s, None) => (s, (-1, false))
  | (s, Some hdr) =>
      if negb (at_ hdr 0 =? SOCKS5_VERSION) || negb (at_ hdr 1 =? 0) then (s, (at_ hdr 1, false))
      else match (drain ← reply_drain (at_ hdr 3); sock_recv_n drain) s with
           | (s, None) => (s, (at_ hdr 1, false))
           | (s, Some _) => (s, (at_ hdr 1, true))
           end
  end.

(** ** CONNECT *)

(** What a CONNECT comes to: [Refused] carries the reply code that is logged. *)
Inductive connect_result := Connected | NotConnected | Refused (reply : Z).

Definition connect_exchange (request : bytes) (s : Sock) : Sock * connect_result :=
  match (_ ← socks5_negotiate_no_auth; sock_send_all request) s with
  | (s, None) => (s, NotConnected)
  | (s, Some _) =>
      match socks5_read_connect_reply s with
      | (s, (reply, true)) => (s, Connected)
      | (s, (reply, false)) => (s, Refused reply)
      end
  end.

Definition socks5_connect_domain (hostname : bytes) (dest_port : Z) (s : Sock) : Sock * connect_result :=
  let hlen := strnlen_s hostname 256 in
  if (hlen =? 0) || (255 <? hlen) then (s, NotConnected)
  else connect_exchange (connect_request SOCKS5_ATYP_DOMAIN (hlen :: take (Z.to_nat hlen) hostname) dest_port) s.

Definition socks5_connect (dest_ip dest_port : Z) (s : Sock) : Sock * connect_result :=
  connect_exchange (connect_request SOCKS5_ATYP_IPV4 (ip_octets dest_ip) dest_port) s.

Definition socks5_connect_v6 (dest_ip6 : bytes) (dest_port : Z) (s : Sock) : Sock * connect_result :=
  connect_exchange (connect_request SOCKS5_ATYP_IPV6 dest_ip6 dest_port) s.

(** ** The log of failed CONNECTs

    Identical lines within five seconds are counted instead of written. *)
Record FailureLog := mkFailureLog { fl_last : bytes; fl_last_tick : Z; fl_suppressed : Z }.

Definition failure_log_init : FailureLog := mkFailureLog [] 0 0.

Inductive failure_message := RepeatedTimes (n : Z) | FailureLine (line : bytes).

Definition hex_digit (d : Z) : Z := if d <? 10 then 48 + d else 55 + d.

Definition reply_text (reply : Z) : bytes :=
  if reply =? 1 then str "general failure"
  else if reply =? 2 then str "not allowed by ruleset"
  else if reply =? 3 then str "network unreachable"
  else if reply =? 4 then str "host unreachable"
  else if reply =? 5 then str "connection refused"
  else if reply =? 6 then str "TTL expired"
  else if reply =? 7 then str "command not supported"
  else if reply =? 8 then str "address type not supported"
  else str "unknown error".

Definition failure_why (reply : Z) : bytes :=
  if reply <? 0
  then str "the proxy closed the connection or did not answer (it may be unable to reach this destination)"
  else str "proxy replied 0x" ++ [hex_digit (reply / 16); hex_digit (reply mod 16)] ++
       str " (" ++ reply_text reply ++ str ")".

Definition failure_line (kind dest : bytes) (port reply : Z) : bytes :=
  strncpy_trunc 512
    (str "SOCKS5 " ++ kind ++ str ": CONNECT to " ++ dest ++ str ":" ++ print_dec port ++
     str " failed - " ++ strncpy_trunc 160 (failure_why reply)).

Definition socks5_log_connect_failure (now : Z) (st : FailureLog) (kind dest : bytes) (port reply : Z)
  : FailureLog * list failure_message :=
  let line := failure_line kind dest port reply in
  if strcmp0 line (fl_last st) && (u64 (now - fl_last_tick st) <? 5000)
  then (mkFailureLog (fl_last st) (fl_last_tick st) (fl_suppressed st + 1), [])
  else
    let n := fl_suppressed st in
    (mkFailureLog (strncpy_trunc 512 line) now 0,
     (if 0 <? n then [RepeatedTimes n] else []) ++ [FailureLine line]).

(** ** UDP ASSOCIATE *)

(** The relay address as the reply carries it: both parts in network order. *)
Definition socks5_udp_associate_with_config : IO (Z * Z) :=
  _ ← socks5_negotiate_no_auth;
  _ ← sock_send_all associate_request;
  rep ← sock_recv_n 4;
  _ ← io_check ((at_ rep 0 =? SOCKS5_VERSION) && (at_ rep 1 =? 0));
  _ ← io_check (at_ rep 3 =? SOCKS5_ATYP_IPV4);
  ap ← sock_recv_n 6;
  mret (ipv4 (at_ ap 0) (at_ ap 1) (at_ ap 2) (at_ ap 3), Z.lor (at_ ap 4) (Z.shiftl (at_ ap 5) 8)).

(** ** The sockets of an association

    Handles opened, closed and otherwise used, in order. *)
Inductive handle_event := Opened (h : Z) | Closed (h : Z) | Used (h : Z).

(** The surroundings of one attempt: the clock, the handle [socket] gives (or
    [INVALID_SOCKET]) for each of the two sockets, what becomes of the bounded
    connect, and the stream of the proxy. *)
Record AssocEnv := mkAssocEnv {
  ae_now : Z; ae_tcp : Z; ae_connect : connect_outcome; ae_stream : Sock; ae_udp : Z }.

Definition close_event (h : Z) : list handle_event := if h =? INVALID_SOCKET then [] else [Closed h].

(** [closesocket] on both sockets of a configuration, and both set to invalid. *)
Definition close_assoc (c : PROXY_CONFIG) : PROXY_CONFIG * list handle_event :=
  (mkPROXY_CONFIG (config_id c) (pc_type c) (host c) (pc_port c) (send_domain_to_proxy c) (resolved_ip c)
     (last_udp_attempt c) INVALID_SOCKET INVALID_SOCKET (udp_relay_addr c) (udp_connected c),
   close_event (udp_tcp_ctrl c) ++ close_event (udp_send_sock c)).

Definition set_attempt (c : PROXY_CONFIG) (now : Z) : PROXY_CONFIG :=
  mkPROXY_CONFIG (config_id c) (pc_type c) (host c) (pc_port c) (send_domain_to_proxy c) (resolved_ip c)
    now (udp_tcp_ctrl c) (udp_send_sock c) (udp_relay_addr c) (udp_connected c).

Definition set_assoc (c : PROXY_CONFIG) (tcp udp : Z) (addr : Z * Z) (connected : bool) : PROXY_CONFIG :=
  mkPROXY_CONFIG (config_id c) (pc_type c) (host c) (pc_port c) (send_domain_to_proxy c) (resolved_ip c)
    (last_udp_attempt c) tcp udp addr connected.

(** The relay address used: 0.0.0.0 stands for the address of the proxy. *)
Definition relay_address (a : Z * Z) (proxy_ip : Z) : Z * Z := if fst a =? 0 then (proxy_ip, snd a) else a.

Section Associate.
Context `{Platform}.

Definition establish_udp_associate_for_config (e : AssocEnv) (c : PROXY_CONFIG)
  : PROXY_CONFIG * bool * list handle_event :=
  if is_empty (host c) || (pc_port c =? 0) then (c, false, [])
  else if negb (bool_decide (pc_type c = PROXY_TYPE_SOCKS5)) then (c, false, [])
  else if u64 (ae_now e - last_udp_attempt c) <? 1000 then (c, false, [])
  else
    let '(c, closed) := close_assoc (set_attempt c (ae_now e)) in
    if ae_tcp e =? INVALID_SOCKET then (c, false, closed)
    else
      let ev := closed ++ [Opened (ae_tcp e)] in
      let socks5_ip := resolve_hostname (Some (host c)) in
      if socks5_ip =? 0 then (c, false, ev ++ [Closed (ae_tcp e)])
      else if negb (connect_with_timeout (ae_connect e)) then (c, false, ev ++ [Closed (ae_tcp e)])
      else match snd (socks5_udp_associate_with_config (ae_stream e)) with
           | None => (c, false, ev ++ [Closed (ae_tcp e)])
           | Some addr =>
               let addr := relay_address addr socks5_ip in
               if ae_udp e =? INVALID_SOCKET
               then (set_assoc c INVALID_SOCKET INVALID_SOCKET addr false, false, ev ++ [Closed (ae_tcp e)])
               else (set_assoc c (ae_tcp e) (ae_udp e) addr true, true, ev ++ [Opened (ae_udp e)])
           end.
End Associate.

(** ** The exchange on a working connection *)

Definition incoming (s : Sock) : bytes := concat (sk_in s).

(** The stream holds what the proxy sent, in any segmentation, and [send]
    makes progress for at least [n] bytes. *)
Record sock_ok (n : nat) (s : Sock) : Prop := {
  so_segments : Forall (fun seg => seg <> []) (sk_in s);
  so_sends : Forall (fun r => 0 < r) (sk_send s);
  so_enough : (n <= length (sk_send s))%nat
}.

Lemma recv_step k n s :
  sock_ok k s ->
  exists s', sock_recv_n n s =
      (s', if (n <=? length (incoming s))%nat then Some (take n (incoming s)) else None) /\
    sk_out s' = sk_out s /\
    ((n <= length (incoming s))%nat -> incoming s' = drop n (incoming s) /\ sock_ok k s').
Proof.
  intros [Hseg Hs Hk]. unfold sock_recv_n, incoming, recv_n.
  destruct (Nat.leb_spec n (length (concat (sk_in s)))) as [Hn|Hn].
  - destruct (recv_loop_spec n n (sk_in s) ltac:(done) Hseg Hn) as (r & -> & Hr & Hf).
    eexists. split; [done|]. split; [done|]. intros _. split; [done|]. by split.
  - pose proof (recv_short n n (sk_in s) Hn Hseg) as Hr.
    destruct (recv_loop n n (sk_in s)) as [o r]. simpl in Hr. subst o.
    eexists. split; [done|]. split; [done|]. intros. lia.
Qed.

Lemma send_loop_uses fuel results buf :
  (length buf <= fuel)%nat -> (length buf <= length results)%nat -> Forall (fun n => 0 < n) results ->
  exists j, (j <= length buf)%nat /\ send_loop fuel results buf = (Some tt, buf, drop j results).
Proof.
  revert results buf. induction fuel as [|fuel IH]; intros results buf Hf Hl Hp.
  { destruct buf; simpl in *; [|lia]. by exists 0%nat. }
  destruct buf as [|c buf]; [by exists 0%nat|]. destruct results as [|n results]; simpl in *; [lia|].
  apply Forall_cons in Hp as [Hn Hp]. rewrite (proj2 (Z.leb_gt _ _)) by lia.
  assert (length (drop (Z.to_nat n) (c :: buf)) <= length buf)%nat
    by (rewrite length_drop; simpl; lia).
  destruct (IH results (drop (Z.to_nat n) (c :: buf))) as (j & Hj & ->); [lia|lia|done|].
  exists (S j). split; [lia|]. by rewrite take_drop.
Qed.

Lemma send_step k buf s :
  sock_ok (length buf + k) s ->
  exists s', sock_send_all buf s = (s', Some tt) /\ incoming s' = incoming s /\ sock_ok k s' /\
    sk_out s' = sk_out s ++ buf.
Proof.
  intros [Hseg Hs Hk]. unfold sock_send_all, send_all.
  destruct (send_loop_uses (length buf) (sk_send s) buf) as (j & Hj & ->); [lia|lia|done|].
  eexists. split; [done|]. split; [done|]. split; [|done].
  split; [done|by apply Forall_drop|]. simpl. rewrite length_drop. lia.
Qed.

(** What a proxy has to answer, by RFC 1928: the method is accepted, the reply
    code is zero and the bound address is complete.  The value is what follows. *)
Definition bound_length (atyp : Z) (r : bytes) : option nat :=
  if atyp =? 1 then Some 6%nat
  else if atyp =? 4 then Some 18%nat
  else if atyp =? 3 then match r with n :: _ => Some (1 + Z.to_nat n + 2)%nat | [] => None end
  else None.

(** What follows the bound address and port, when it is complete. *)
Definition bound_rest (atyp : Z) (r : bytes) : option bytes :=
  n ← bound_length atyp r; if (n <=? length r)%nat then Some (drop n r) else None.

Definition reply_rest (input : bytes) : option bytes :=
  match input with
  | v :: rep :: _ :: atyp :: r =>
      if (v =? 5) && (rep =? 0) then bound_rest atyp r else None
  | _ => None
  end.

Definition granted (input : bytes) : option bytes :=
  match input with
  | v :: m :: r => if (v =? 5) && (m =? 0) then reply_rest r else None
  | _ => None
  end.

Lemma drain_fixed k n s :
  sock_ok k s ->
  exists s' o, sock_recv_n n s = (s', o) /\ sk_out s' = sk_out s /\
    if (n <=? length (incoming s))%nat
    then is_Some o /\ incoming s' = drop n (incoming s) /\ sock_ok k s' else o = None.
Proof.
  intros Hs. destruct (recv_step k n s Hs) as (s' & Hr & Ho & Hd). do 2 eexists.
  split; [exact Hr|]. split; [done|].
  destruct (Nat.leb_spec n (length (incoming s))); [|done]. split; [by eexists|]. by apply Hd.
Qed.

Lemma drain_spec k atyp s :
  sock_ok k s ->
  exists s' o, (drain ← reply_drain atyp; sock_recv_n drain) s = (s', o) /\ sk_out s' = sk_out s /\
    match bound_rest atyp (incoming s) with
    | Some rest => is_Some o /\ incoming s' = rest /\ sock_ok k s'
    | None => o = None
    end.
Proof.
  intros Hs. unfold reply_drain, bound_rest, bound_length, SOCKS5_ATYP_IPV4, SOCKS5_ATYP_IPV6, SOCKS5_ATYP_DOMAIN.
  destruct (atyp =? 1); [|destruct (atyp =? 4)]; [..|destruct (atyp =? 3)].
  - destruct (drain_fixed k 6 s Hs) as (s' & o & Hr & Ho & Hd). exists s', o.
    split; [exact Hr|]. split; [done|]. cbn [mbind option_bind]. by case_match.
  - destruct (drain_fixed k 18 s Hs) as (s' & o & Hr & Ho & Hd). exists s', o.
    split; [exact Hr|]. split; [done|]. cbn [mbind option_bind]. by case_match.
  - unfold mbind at 1, io_bind at 1. unfold mbind at 1, io_bind at 1.
    destruct (recv_step k 1 s Hs) as (s1 & -> & Ho1 & Hd1).
    destruct (incoming s) as [|n r]; cbn [length Nat.leb mbind option_bind]; [by exists s1, None|].
    destruct Hd1 as [Hi1 Hs1]; [simpl; lia|]. cbn [drop] in Hi1.
    destruct (drain_fixed k (Z.to_nat n + 2) s1 Hs1) as (s' & o & Hr & Ho & Hd). exists s', o.
    split; [exact Hr|]. split; [congruence|]. rewrite Hi1 in Hd. rewrite drop_0 in Hd.
    replace (1 + Z.to_nat n + 2)%nat with (S (Z.to_nat n + 2)) by lia. cbn [length Nat.leb drop]. by case_match.
  - by exists s, None.
Qed.

Lemma read_reply_spec k s :
  sock_ok k s ->
  exists s' reply ok, socks5_read_connect_reply s = (s', (reply, ok)) /\ sk_out s' = sk_out s /\
    match reply_rest (incoming s) with
    | Some rest => ok = true /\ incoming s' = rest /\ sock_ok k s'
    | None => ok = false
    end.
Proof.
  intros Hs. unfold socks5_read_connect_reply.
  destruct (recv_step k 4 s Hs) as (s1 & -> & Ho1 & H1).
  destruct (incoming s) as [|v [|rep [|rsv [|atyp r]]]]; cbn [length Nat.leb];
    [by exists s1, (-1), false..|].
  destruct H1 as [Hi1 Hs1]; [simpl; lia|]. cbn [drop] in Hi1. rewrite drop_0 in Hi1.
  unfold at_. cbn [nth take reply_rest].
  replace (negb (v =? SOCKS5_VERSION) || negb (rep =? 0)) with (negb ((v =? 5) && (rep =? 0)))
    by (unfold SOCKS5_VERSION; by destruct (v =? 5), (rep =? 0)).
  destruct ((v =? 5) && (rep =? 0)); cbn [negb]; [|by exists s1, rep, false].
  destruct (drain_spec k atyp s1 Hs1) as (s' & o & -> & Ho & Hd). rewrite Hi1 in Hd.
  destruct (bound_rest atyp r) as [rest|].
  - destruct Hd as ([b ->] & ? & ?). exists s', rep, true. split; [done|]. split; [congruence|done].
  - subst o. exists s', rep, false. split; [done|]. split; [congruence|done].
Qed.

Lemma negotiate_spec k s :
  sock_ok (3 + k) s ->
  exists s' o, socks5_negotiate_no_auth s = (s', o) /\ sk_out s' = sk_out s ++ greeting /\
    match incoming s with
    | v :: m :: r => if (v =? 5) && (m =? 0) then o = Some tt /\ incoming s' = r /\ sock_ok k s' else o = None
    | _ => o = None
    end.
Proof.
  intros Hs. unfold socks5_negotiate_no_auth. unfold mbind at 1, io_bind at 1.
  destruct (send_step k greeting s Hs) as (s1 & -> & Hi1 & Hs1 & Ho1).
  unfold mbind, io_bind. destruct (recv_step k 2 s1 Hs1) as (s2 & -> & Ho2 & H2). rewrite Hi1 in *.
  destruct (incoming s) as [|v [|m r]]; cbn [length Nat.leb]; try (exists s2, None; by rewrite Ho2, Ho1).
  destruct H2 as [Hi2 Hs2]; [simpl; lia|]. cbn [drop] in Hi2. rewrite drop_0 in Hi2.
  unfold io_check, at_. cbn [nth take]. unfold SOCKS5_VERSION, SOCKS5_AUTH_NONE.
  destruct ((v =? 5) && (m =? 0)); (do 2 eexists; split; [done|]; split; [by rewrite Ho2, Ho1|done]).
Qed.

(** A CONNECT on a working connection. *)
Lemma connect_exchange_ok request s :
  sock_ok (3 + length request) s ->
  let '(s', r) := connect_exchange request s in
  match granted (incoming s) with
  | Some rest => r = Connected /\ incoming s' = rest /\ sk_out s' = sk_out s ++ greeting ++ request
  | None => r <> Connected
  end.
Proof.
  intros Hs. unfold connect_exchange. unfold mbind, io_bind at 1.
  destruct (negotiate_spec (length request) s Hs) as (s1 & o & -> & Ho1 & H1). unfold granted.
  destruct (incoming s) as [|v [|m r]]; [by subst o..|].
  destruct ((v =? 5) && (m =? 0)); [|by subst o]. destruct H1 as (-> & Hi1 & Hs1).
  destruct (send_step 0 request s1) as (s2 & -> & Hi2 & Hs2 & Ho2); [by rewrite Nat.add_0_r|].
  destruct (read_reply_spec 0 s2 Hs2) as (s3 & reply & ok & -> & Ho3 & H3). rewrite Hi2, Hi1 in H3.
  destruct (reply_rest r) as [rest|].
  - destruct H3 as (-> & ? & _). split; [done|]. split; [done|]. by rewrite Ho3, Ho2, Ho1, <- (assoc_L (++)).
  - by subst ok.
Qed.

(** C24: On a working connection a CONNECT succeeds exactly when the proxy accepts
    the method, grants the request and completes its reply; then the request
    was sent once, whole, and not a byte behind the reply was taken from the
    tunnel, however the answers were cut into segments. *)
Theorem connect_exchange_granted request s :
  sock_ok (3 + length request) s ->
  let '(s', r) := connect_exchange request s in
  match granted (incoming s) with
  | Some rest => r = Connected /\ incoming s' = rest /\ sk_out s' = sk_out s ++ greeting ++ request
  | None => r <> Connected
  end.
Proof. apply connect_exchange_ok. Qed.

(** ** What may go out *)

Lemma sock_send_out buf s s' o :
  sock_send_all buf s = (s', o) ->
  exists p, sk_out s' = sk_out s ++ p /\ p `prefix_of` buf /\ (o = Some tt -> p = buf) /\ sk_in s' = sk_in s.
Proof.
  unfold sock_send_all. destruct (send_all (sk_send s) buf) as [[r out] results] eqn:E.
  intros ?; simplify_eq. destruct (send_all_prefix _ _ _ _ _ E) as [Hp Hr]. by exists out.
Qed.

Lemma sock_recv_out n s s' o : sock_recv_n n s = (s', o) -> sk_out s' = sk_out s.
Proof. unfold sock_recv_n. destruct (recv_n _ _). intros. by simplify_eq. Qed.

Lemma drain_out atyp s s' o :
  (drain ← reply_drain atyp; sock_recv_n drain) s = (s', o) -> sk_out s' = sk_out s.
Proof.
  unfold reply_drain, mbind, io_bind, mret, io_ret, io_fail. intros.
  repeat (case_match; simplify_eq/=);
    repeat match goal with H : sock_recv_n _ _ = _ |- _ => apply sock_recv_out in H end; congruence.
Qed.

Lemma read_reply_out s : sk_out (fst (socks5_read_connect_reply s)) = sk_out s.
Proof.
  unfold socks5_read_connect_reply. destruct (sock_recv_n 4 s) as [s1 [hdr|]] eqn:E1; [|by apply sock_recv_out in E1].
  apply sock_recv_out in E1. case_match; [done|].
  destruct ((drain ← reply_drain (at_ hdr 3); sock_recv_n drain) s1) as [s2 []] eqn:E2;
    apply drain_out in E2; simpl; congruence.
Qed.

(** Whatever the proxy answers and however the connection fails, only a prefix
    of the greeting and the request ever goes out, the request only to a proxy
    that took the method without authentication: no credentials are sent. *)
Lemma connect_exchange_out request s :
  let s' := fst (connect_exchange request s) in
  exists p, sk_out s' = sk_out s ++ p /\
    (p `prefix_of` greeting \/
     p `prefix_of` greeting ++ request /\
     exists reply, fst (recv_n (sk_in s) 2) = Some reply /\
       at_ reply 0 = SOCKS5_VERSION /\ at_ reply 1 = SOCKS5_AUTH_NONE).
Proof.
  unfold connect_exchange, socks5_negotiate_no_auth, mbind, io_bind.
  destruct (sock_send_all greeting s) as [s1 o1] eqn:E1.
  destruct (sock_send_out _ _ _ _ E1) as (p1 & Ho1 & Hp1 & Hf1 & Hin).
  destruct o1 as [[]|]; [|exists p1; auto]. specialize (Hf1 eq_refl) as ->.
  destruct (sock_recv_n 2 s1) as [s2 o2] eqn:E2. pose proof (sock_recv_out _ _ _ _ E2) as Ho2.
  destruct o2 as [reply|]; [|exists greeting; simpl; split; [congruence|auto]].
  assert (fst (recv_n (sk_in s) 2) = Some reply) as Hr
    by (unfold sock_recv_n in E2; rewrite Hin in E2; destruct (recv_n _ 2); by simplify_eq).
  unfold io_check. destruct (_ && _) eqn:Eg; [|exists greeting; simpl; split; [congruence|auto]].
  bool_prop. destruct (sock_send_all request s2) as [s3 o3] eqn:E3.
  destruct (sock_send_out _ _ _ _ E3) as (p3 & Ho3 & Hp3 & _ & _). exists (greeting ++ p3).
  assert (sk_out s3 = sk_out s ++ greeting ++ p3) as Hout by (rewrite (assoc_L (++)); congruence).
  split; [|right; split; [by apply prefix_app|eauto]].
  destruct o3; [|done]. pose proof (read_reply_out s3) as Hrr.
  destruct (socks5_read_connect_reply s3) as [s4 [? []]]; simpl in *; congruence.
Qed.

(** ** A proxy reads the request it was meant to *)

Inductive socks_dest := DestV4 (ip : Z) | DestV6 (ip6 : bytes) | DestDomain (name : bytes).

(** The CONNECT request by RFC 1928: the destination, the port and what follows. *)
Definition parse_port (r : bytes) : option (Z * bytes) :=
  match r with a :: b :: r => Some (a * 256 + b, r) | _ => None end.

Definition parse_request (r : bytes) : option (socks_dest * Z * bytes) :=
  match r with
  | 5 :: 1 :: 0 :: 1 :: a :: b :: c :: d :: r =>
      '(p, r) ← parse_port r; Some (DestV4 (ipv4 a b c d), p, r)
  | 5 :: 1 :: 0 :: 4 :: r =>
      '(p, r') ← parse_port (drop 16 r); Some (DestV6 (take 16 r), p, r')
  | 5 :: 1 :: 0 :: 3 :: n :: r =>
      '(p, r') ← parse_port (drop (Z.to_nat n) r); Some (DestDomain (take (Z.to_nat n) r), p, r')
  | _ => None
  end.

Lemma parse_port_be port r : 0 <= port < 2 ^ 16 -> parse_port (port_be port ++ r) = Some (port, r).
Proof.
  intros Hp. unfold port_be. simpl. do 2 f_equal.
  replace 255 with (Z.ones 8) by reflexivity. rewrite !Z.land_ones, Z.shiftr_div_pow2 by lia.
  change (2 ^ 8) with 256. rewrite (Z.mod_small (port / 256)); [|split; [apply Z.div_pos; lia|apply Z.div_lt_upper_bound; lia]].
  pose proof (Z.div_mod port 256). lia.
Qed.

#[local] Opaque port_be parse_port.

(** Each of the three requests is read by a proxy as the destination and port it
    was made from, and nothing more. *)
Theorem connect_request_roundtrip ip ip6 name port r :
  0 <= ip < 2 ^ 32 -> length ip6 = 16%nat -> (0 < length name < 256)%nat -> 0 <= port < 2 ^ 16 ->
  parse_request (connect_request SOCKS5_ATYP_IPV4 (ip_octets ip) port ++ r) = Some (DestV4 ip, port, r) /\
  parse_request (connect_request SOCKS5_ATYP_IPV6 ip6 port ++ r) = Some (DestV6 ip6, port, r) /\
  parse_request (connect_request SOCKS5_ATYP_DOMAIN (Z.of_nat (length name) :: name) port ++ r) =
    Some (DestDomain name, port, r).
Proof.
  intros Hip H6 Hn Hp. unfold connect_request, ip_octets. rewrite <- !(assoc_L (++)).
  split; [|split]; simpl; rewrite <- ?(assoc_L (++)).
  - rewrite parse_port_be by done. simpl. by rewrite ipv4_octets.
  - rewrite drop_app_length', parse_port_be, take_app_length' by done. done.
  - rewrite Nat2Z.id, drop_app_length, parse_port_be, take_app_length by done. done.
Qed.
#[local] Transparent port_be parse_port.

(** ** No failure goes unaccounted *)

Record failure := mkFailure { f_now : Z; f_kind : bytes; f_dest : bytes; f_port : Z; f_reply : Z }.

Definition log_failure (st : FailureLog * list failure_message) (f : failure)
  : FailureLog * list failure_message :=
  let '(l, out) := st in
  let '(l', out') := socks5_log_connect_failure (f_now f) l (f_kind f) (f_dest f) (f_port f) (f_reply f) in
  (l', out ++ out').

Definition reported (m : failure_message) : Z := match m with RepeatedTimes n => n | FailureLine _ => 1 end.
Definition reported_all (l : list failure_message) : Z := fold_right (fun m n => reported m + n) 0 l.

Lemma reported_app l1 l2 : reported_all (l1 ++ l2) = reported_all l1 + reported_all l2.
Proof. induction l1 as [|m l1 IH]; simpl; [done|]. rewrite IH. lia. Qed.

(** Whatever fails and when, the failures so far are those written out, those
    a "repeated" line accounts for and those still being counted. *)
Theorem failure_log_accounts fs :
  let '(l, out) := fold_left log_failure fs (failure_log_init, []) in
  Z.of_nat (length fs) = reported_all out + fl_suppressed l /\ 0 <= fl_suppressed l.
Proof.
  enough (forall fs l out, 0 <= fl_suppressed l ->
    let '(l', out') := fold_left log_failure fs (l, out) in
    Z.of_nat (length fs) + reported_all out + fl_suppressed l = reported_all out' + fl_suppressed l' /\
    0 <= fl_suppressed l') as Hgen.
  { specialize (Hgen fs failure_log_init [] ltac:(done)). destruct (fold_left _ _ _). simpl in Hgen. lia. }
  clear fs. induction fs as [|f fs IH]; intros l out Hl; [simpl; lia|]. cbn [fold_left log_failure].
  destruct (socks5_log_connect_failure _ _ _ _ _ _) as [l1 out1] eqn:E.
  assert (0 <= fl_suppressed l1 /\ reported_all out1 + fl_suppressed l1 = fl_suppressed l + 1) as [H1 H2].
  { unfold socks5_log_connect_failure in E. case_match; simplify_eq/=; [lia|].
    rewrite reported_app. destruct (Z.ltb_spec 0 (fl_suppressed l)); simpl; lia. }
  specialize (IH l1 (out ++ out1) H1). destruct (fold_left _ _ _) as [l2 out2].
  rewrite reported_app in IH. cbn [length]. lia.
Qed.
