(* ===== verification/Dns.v ===== *)
(** * DNS snooping (pb_dns.c)

    The cache that maps intercepted A and AAAA answers back to host names, and
    the parser that fills it from response packets.  A read outside the packet
    is an explicit fault, so that its absence is a theorem. *)
From S2P Require Import Prelude CLib HashTable.

Definition DNS_CACHE_TTL_MS : Z := 300000.

Record DNS_CACHE_ENTRY := mkDNS { de_ip : Z; de_domain : bytes; de_expire : Z }.
Record DNS_CACHE_ENTRY_V6 := mkDNS6 { de6_ip : bytes; de6_domain : bytes; de6_expire : Z }.

Definition dns_bucket (ip : Z) : Z := Z.shiftr (u32 (ip * 2654435761)) (32 - 10).

Definition dns_bucket_v6 (ip6 : bytes) : Z :=
  Z.land (fold_left (fun h b => u32 (Z.lxor h b * 16777619)) (take 16 ip6) 2166136261) (1024 - 1).

Lemma dns_bucket_range ip : 0 <= dns_bucket ip < 1024.
Proof.
  unfold dns_bucket. pose proof (u32_range (ip * 2654435761)) as Hr.
  change (32 - 10) with 22. rewrite Z.shiftr_div_pow2 by lia.
  split; [apply Z.div_pos; lia|apply Z.div_lt_upper_bound; lia].
Qed.

Lemma dns_bucket_v6_range ip6 : 0 <= dns_bucket_v6 ip6 < 1024.
Proof.
  unfold dns_bucket_v6. change (1024 - 1) with (Z.ones 10). rewrite Z.land_ones by lia.
  apply Z.mod_pos_bound. lia.
Qed.

#[export] Instance dns_key : HashKey DNS_CACHE_ENTRY Z :=
  {| key_of := de_ip; hash_of := dns_bucket; n_buckets := 1024;
     n_buckets_pos := eq_refl; hash_range := dns_bucket_range |}.
#[export] Instance dns_key_v6 : HashKey DNS_CACHE_ENTRY_V6 bytes :=
  {| key_of := de6_ip; hash_of := dns_bucket_v6; n_buckets := 1024;
     n_buckets_pos := eq_refl; hash_range := dns_bucket_v6_range |}.

Record DnsCaches := mkDnsCaches {
  g_dns_cache : list (list DNS_CACHE_ENTRY);
  g_dns_cache_v6 : list (list DNS_CACHE_ENTRY_V6)
}.

Definition dns_cache_init : DnsCaches := mkDnsCaches ht_empty ht_empty.

(** ** Store and lookup

    [alloc] is the outcome of [malloc], [now] of [GetTickCount64]. *)

Definition dns_cache_store (alloc : bool) (now : Z) (s : DnsCaches) (ip : Z) (domain : bytes)
  : DnsCaches :=
  match domain with
  | [] => s
  | _ =>
      let d := strncpy_trunc 256 domain in
      let exp := u64 (now + DNS_CACHE_TTL_MS) in
      mkDnsCaches
        (ht_put alloc (g_dns_cache s) ip (fun e => mkDNS (de_ip e) d exp) (mkDNS ip d exp))
        (g_dns_cache_v6 s)
  end.

Definition dns_cache_store_v6 (alloc : bool) (now : Z) (s : DnsCaches) (ip6 domain : bytes)
  : DnsCaches :=
  match domain with
  | [] => s
  | _ =>
      let d := strncpy_trunc 256 domain in
      let exp := u64 (now + DNS_CACHE_TTL_MS) in
      mkDnsCaches (g_dns_cache s)
        (ht_put alloc (g_dns_cache_v6 s) ip6 (fun e => mkDNS6 (de6_ip e) d exp) (mkDNS6 ip6 d exp))
  end.

Definition dns_cache_lookup (now : Z) (s : DnsCaches) (ip : Z) (out_size : Z) : option bytes :=
  match List.find (fun e => (de_ip e =? ip) && (now <? de_expire e))
                  (bucket (g_dns_cache s) (dns_bucket ip)) with
  | Some e => Some (strncpy_trunc out_size (de_domain e))
  | None => None
  end.

Definition dns_cache_lookup_v6 (now : Z) (s : DnsCaches) (ip6 : bytes) (out_size : Z)
  : option bytes :=
  match List.find (fun e => memeq (de6_ip e) ip6 && (now <? de6_expire e))
                  (bucket (g_dns_cache_v6 s) (dns_bucket_v6 ip6)) with
  | Some e => Some (strncpy_trunc out_size (de6_domain e))
  | None => None
  end.

Definition cleanup_stale_dns_cache (now : Z) (s : DnsCaches) : DnsCaches :=
  mkDnsCaches (ht_sweep (fun e => negb (de_expire e <=? now)) (g_dns_cache s))
              (ht_sweep (fun e => negb (de6_expire e <=? now)) (g_dns_cache_v6 s)).

(** ** Name parser *)

(** A read of the packet; [None] is a read outside it. *)
Definition rd (msg : bytes) (i : Z) : option Z := if i <? 0 then None else msg !! Z.to_nat i.

(** A copy of [n] bytes of the packet. *)
Definition rdn (msg : bytes) (i n : Z) : option bytes :=
  if (0 <=? i) && (i + n <=? Z.of_nat (length msg))
  then Some (take (Z.to_nat n) (drop (Z.to_nat i) msg)) else None.

Inductive name_result :=
| NameOk (dst : bytes) (offset : Z)     (** TRUE, the bytes written before the NUL, the new offset *)
| NameFail                              (** FALSE *)
| NameFault                             (** a read outside [msg] *)
| NameFuel.                             (** the loop did not end within the fuel *)

Fixpoint name_loop (fuel : nat) (msg : bytes) (dst_len : Z)
    (pos : Z) (dst : bytes) (jumps : Z) (jumped_end : option Z) : name_result :=
  match fuel with
  | O => NameFuel
  | S fuel =>
      if Z.of_nat (length msg) <=? pos then NameFail
      else match rd msg pos with
      | None => NameFault
      | Some b =>
          if b =? 0 then
            NameOk dst (match jumped_end with None => pos + 1 | Some e => e end)
          else if Z.land b 0xC0 =? 0xC0 then
            if Z.of_nat (length msg) <=? pos + 1 then NameFail
            else match rd msg (pos + 1) with
                 | None => NameFault
                 | Some b2 =>
                     let jumped_end := match jumped_end with None => Some (pos + 2) | e => e end in
                     let pos := Z.lor (Z.shiftl (Z.land b 0x3F) 8) b2 in
                     if 10 <? jumps + 1 then NameFail
                     else name_loop fuel msg dst_len pos dst (jumps + 1) jumped_end
                 end
          else
            let label_len := b in
            let pos := pos + 1 in
            let out := Z.of_nat (length dst) in
            if Z.of_nat (length msg) <? pos + label_len then NameFail
            else if dst_len <=? out + label_len + 2 then NameFail
            else match rdn msg pos label_len with
                 | None => NameFault
                 | Some label =>
                     let dst := (if 0 <? out then dst ++ [c_dot] else dst) ++ label in
                     name_loop fuel msg dst_len (pos + label_len) dst jumps jumped_end
                 end
      end
  end.

(** Every iteration jumps, at most eleven times, or writes at least one byte. *)
Definition dns_parse_name (msg : bytes) (offset : Z) (dst_len : Z) : name_result :=
  name_loop (Z.to_nat dst_len + 12) msg dst_len offset [] 0 None.

(** The C string a buffer holds: the bytes before the first NUL. *)
Definition cstr (b : bytes) : bytes := fst (span (fun c => negb (c =? 0)) b).

(** ** Response snooping *)

Definition rd16 (msg : bytes) (i : Z) : option Z :=
  a ← rd msg i; b ← rd msg (i + 1); Some (Z.lor (Z.shiftl a 8) b).

(** The remaining questions: [Some (Some off)] to go on, [Some None] to return,
    [None] for a fault. *)
Fixpoint skip_questions (n : nat) (payload : bytes) (offset : Z) : option (option Z) :=
  match n with
  | O => Some (Some offset)
  | S n =>
      if offset <? Z.of_nat (length payload) then
        match dns_parse_name payload offset 256 with
        | NameOk _ offset => skip_questions n payload (offset + 4)
        | NameFail => Some None
        | NameFault | NameFuel => None
        end
      else Some (Some offset)
  end.

Section Snoop.
Context (alloc : bool) (now : Z) (payload qname : bytes).

Let payload_len : Z := Z.of_nat (length payload).

(** Store one resource record; [rdata] starts at [offset]. *)
Definition snoop_record (s : DnsCaches) (rtype rclass rdlen offset : Z) : option DnsCaches :=
  if (rtype =? 1) && (rclass =? 1) && (rdlen =? 4) then
    ip ← rdn payload offset 4;
    Some (dns_cache_store alloc now s
            (ipv4 (nth 0 ip 0) (nth 1 ip 0) (nth 2 ip 0) (nth 3 ip 0)) qname)
  else if (rtype =? 28) && (rclass =? 1) && (rdlen =? 16) then
    ip6 ← rdn payload offset 16;
    Some (dns_cache_store_v6 alloc now s ip6 qname)
  else Some s.

Fixpoint snoop_answers (n : nat) (s : DnsCaches) (offset : Z) : option DnsCaches :=
  match n with
  | O => Some s
  | S n =>
      if offset <? payload_len then
        match dns_parse_name payload offset 256 with
        | NameFail => Some s
        | NameFault | NameFuel => None
        | NameOk _ offset =>
            if payload_len <? offset + 10 then Some s
            else
              rtype ← rd16 payload offset;
              rclass ← rd16 payload (offset + 2);
              rdlen ← rd16 payload (offset + 8);
              let offset := offset + 10 in
              if payload_len <? offset + rdlen then Some s
              else
                s ← snoop_record s rtype rclass rdlen offset;
                snoop_answers n s (offset + rdlen)
        end
      else Some s
  end.
End Snoop.

(** [None] is a memory fault; otherwise the caches after the call. *)
Definition snoop_dns_response (alloc : bool) (now : Z) (s : DnsCaches) (payload : bytes)
  : option DnsCaches :=
  if Z.of_nat (length payload) <? 12 then Some s
  else
    flags ← rd16 payload 2;
    if Z.land flags 0x8000 =? 0 then Some s
    else if negb (Z.land flags 0x000F =? 0) then Some s
    else
      qdcount ← rd16 payload 4;
      ancount ← rd16 payload 6;
      if ancount =? 0 then Some s
      else match dns_parse_name payload 12 256 with
           | NameFail => Some s
           | NameFault | NameFuel => None
           | NameOk qname offset =>
               match skip_questions (Z.to_nat (qdcount - 1)) payload (offset + 4) with
               | None => None
               | Some None => Some s
               | Some (Some offset) =>
                   snoop_answers alloc now payload (cstr qname) (Z.to_nat ancount) s offset
               end
           end.

(** ** Safety of the parser *)

Lemma rd_some msg i :
  0 <= i < Z.of_nat (length msg) -> Forall is_octet msg -> exists b, rd msg i = Some b /\ is_octet b.
Proof.
  intros Hi Hm. unfold rd. rewrite (proj2 (Z.ltb_ge _ _)) by lia.
  destruct (lookup_lt_is_Some_2 msg (Z.to_nat i)) as [b Hb]; [lia|].
  exists b. split; [done|]. rewrite Forall_lookup in Hm. eauto.
Qed.

Lemma rd16_some msg i :
  0 <= i -> i + 2 <= Z.of_nat (length msg) -> Forall is_octet msg ->
  exists v, rd16 msg i = Some v /\ 0 <= v < 65536.
Proof.
  intros Hi Hl Hm. unfold rd16.
  destruct (rd_some msg i) as (a & -> & Ha); [lia|done|].
  destruct (rd_some msg (i + 1)) as (b & -> & Hb); [lia|done|]. simpl.
  eexists. split; [done|]. unfold is_octet in *. rewrite Z.lor_comm, lor_shiftl_disjoint by lia. lia.
Qed.

Lemma rdn_some msg i n :
  0 <= i -> 0 <= n -> i + n <= Z.of_nat (length msg) ->
  exists w, rdn msg i n = Some w /\ Z.of_nat (length w) = n.
Proof.
  intros Hi Hn Hl. unfold rdn. rewrite !(proj2 (Z.leb_le _ _)) by lia. simpl. eexists.
  split; [done|]. rewrite length_take, length_drop. lia.
Qed.

(** What a result of the name parser promises. *)
Definition name_result_ok (msg : bytes) (dst_len : Z) (r : name_result) : Prop :=
  match r with
  | NameOk dst off => Z.of_nat (length dst) < dst_len /\ 0 < off <= Z.of_nat (length msg)
  | NameFail => True
  | NameFault | NameFuel => False
  end.

Lemma name_loop_safe fuel msg dst_len pos dst jumps jumped_end :
  Forall is_octet msg -> 0 <= pos -> 0 <= jumps <= 10 -> Z.of_nat (length dst) < dst_len ->
  match jumped_end with Some e => 0 < e <= Z.of_nat (length msg) | None => True end ->
  (10 - jumps) + (dst_len - Z.of_nat (length dst)) < Z.of_nat fuel ->
  name_result_ok msg dst_len (name_loop fuel msg dst_len pos dst jumps jumped_end).
Proof.
  revert pos dst jumps jumped_end.
  induction fuel as [|fuel IH]; intros pos dst jumps jumped_end Hm Hp Hj Hd He Hf; [lia|].
  cbn [name_loop]. destruct (Z.leb_spec (Z.of_nat (length msg)) pos) as [|Hpos]; [done|].
  destruct (rd_some msg pos) as (b & -> & Hb); [lia|done|].
  destruct (Z.eqb_spec b 0) as [->|Hb0]; [simpl; destruct jumped_end; simpl; lia|].
  unfold is_octet in Hb. destruct (Z.eqb_spec (Z.land b 0xC0) 0xC0).
  - destruct (Z.leb_spec (Z.of_nat (length msg)) (pos + 1)); [done|].
    destruct (rd_some msg (pos + 1)) as (b2 & -> & Hb2); [lia|done|].
    destruct (Z.ltb_spec 10 (jumps + 1)); [done|].
    apply IH; try lia; [done| |].
    + unfold is_octet in Hb2. apply Z.lor_nonneg. split; [|lia].
      apply Z.shiftl_nonneg, Z.land_nonneg. lia.
    + destruct jumped_end; lia.
  - destruct (Z.ltb_spec (Z.of_nat (length msg)) (pos + 1 + b)); [done|].
    destruct (Z.leb_spec dst_len (Z.of_nat (length dst) + b + 2)); [done|].
    destruct (rdn_some msg (pos + 1) b) as (w & -> & Hw); [lia..|].
    set (dst' := if 0 <? Z.of_nat (length dst) then dst ++ [c_dot] else dst).
    assert (Z.of_nat (length dst) <= Z.of_nat (length dst') <= Z.of_nat (length dst) + 1) as Hd'.
    { unfold dst'. destruct (0 <? _); rewrite ?length_app; cbn [length]; lia. }
    apply IH; try done; rewrite ?length_app; lia.
Qed.

Lemma dns_parse_name_ok msg offset dst_len :
  Forall is_octet msg -> 0 <= offset -> 0 < dst_len ->
  name_result_ok msg dst_len (dns_parse_name msg offset dst_len).
Proof. intros. apply name_loop_safe; simpl; auto; lia. Qed.

(** C30: The parser of names stays inside the packet and the destination buffer and
    always ends, whatever the packet. *)
Theorem dns_parse_name_safe msg offset dst_len :
  Forall is_octet msg -> 0 <= offset -> 0 < dst_len ->
  dns_parse_name msg offset dst_len = NameFail \/
  exists dst off, dns_parse_name msg offset dst_len = NameOk dst off /\
    Z.of_nat (length dst) < dst_len /\ 0 < off <= Z.of_nat (length msg).
Proof.
  intros Hm Ho Hd. pose proof (dns_parse_name_ok msg offset dst_len Hm Ho Hd) as Hk.
  destruct (dns_parse_name msg offset dst_len); simpl in Hk; try done; [right; eauto|by left].
Qed.

Lemma skip_questions_safe n payload offset :
  Forall is_octet payload -> 0 <= offset ->
  exists r, skip_questions n payload offset = Some r /\ match r with Some o => 0 <= o | None => True end.
Proof.
  revert offset. induction n as [|n IH]; intros offset Hm Ho; simpl; [eauto|].
  case_match; [|eauto]. pose proof (dns_parse_name_ok payload offset 256 Hm Ho ltac:(lia)) as Hk.
  destruct (dns_parse_name payload offset 256); simpl in Hk; try done; [apply IH; [done|lia]|eauto].
Qed.

Lemma snoop_record_safe alloc now payload qname s rtype rclass rdlen offset :
  0 <= offset -> offset + rdlen <= Z.of_nat (length payload) ->
  exists s', snoop_record alloc now payload qname s rtype rclass rdlen offset = Some s'.
Proof.
  intros Ho Hl. unfold snoop_record. repeat case_match; bool_prop; eauto.
  - destruct (rdn_some payload offset 4) as (w & -> & _); [lia..|]. simpl. eauto.
  - destruct (rdn_some payload offset 16) as (w & -> & _); [lia..|]. simpl. eauto.
Qed.

Lemma snoop_answers_safe alloc now payload qname n s offset :
  Forall is_octet payload -> 0 <= offset ->
  exists s', snoop_answers alloc now payload qname n s offset = Some s'.
Proof.
  intros Hm. revert s offset. induction n as [|n IH]; intros s offset Ho; simpl; [eauto|].
  case_match; [|eauto].
  pose proof (dns_parse_name_ok payload offset 256 Hm Ho ltac:(lia)) as Hk.
  destruct (dns_parse_name payload offset 256) as [dst off| | |]; simpl in Hk; try done; [|eauto].
  destruct (Z.ltb_spec (Z.of_nat (length payload)) (off + 10)); [eauto|].
  destruct (rd16_some payload off) as (rt & -> & _); [lia|lia|done|]. simpl.
  destruct (rd16_some payload (off + 2)) as (rc & -> & _); [lia|lia|done|]. simpl.
  destruct (rd16_some payload (off + 8)) as (rl & -> & Hrl); [lia|lia|done|]. simpl.
  destruct (Z.ltb_spec (Z.of_nat (length payload)) (off + 10 + rl)); [eauto|].
  destruct (snoop_record_safe alloc now payload qname s rt rc rl (off + 10)) as (s' & ->);
    [lia..|]. simpl. apply IH. lia.
Qed.

Lemma snoop_total alloc now s payload :
  Forall is_octet payload -> exists s', snoop_dns_response alloc now s payload = Some s'.
Proof.
  intros Hm. unfold snoop_dns_response.
  destruct (Z.ltb_spec (Z.of_nat (length payload)) 12); [eauto|].
  destruct (rd16_some payload 2) as (fl & -> & _); [lia|lia|done|]. simpl.
  repeat (case_match; [by eauto|]).
  destruct (rd16_some payload 4) as (qd & -> & _); [lia|lia|done|]. simpl.
  destruct (rd16_some payload 6) as (an & -> & _); [lia|lia|done|]. simpl.
  case_match; [eauto|].
  pose proof (dns_parse_name_ok payload 12 256 Hm ltac:(lia) ltac:(lia)) as Hk.
  destruct (dns_parse_name payload 12 256) as [dst off| | |]; simpl in Hk; try done; [|eauto].
  destruct (skip_questions_safe (Z.to_nat (qd - 1)) payload (off + 4) Hm ltac:(lia))
    as ([o|] & -> & Ho); [|eauto]. by apply snoop_answers_safe.
Qed.

(** ** The caches as maps *)

Record dns_wf (s : DnsCaches) : Prop := {
  dns_wf_v4 : ht_wf (g_dns_cache s);
  dns_wf_v6 : ht_wf (g_dns_cache_v6 s)
}.

Lemma dns_init_wf : dns_wf dns_cache_init.
Proof. split; apply ht_empty_wf. Qed.

Lemma dns_store_wf alloc now s ip d : dns_wf s -> dns_wf (dns_cache_store alloc now s ip d).
Proof. intros [? ?]. destruct d; [done|]. split; [by apply ht_put_wf|done]. Qed.

Lemma dns_store_v6_wf alloc now s ip6 d :
  dns_wf s -> dns_wf (dns_cache_store_v6 alloc now s ip6 d).
Proof. intros [? ?]. destruct d; [done|]. split; [done|by apply ht_put_wf]. Qed.

Lemma dns_cleanup_wf now s : dns_wf s -> dns_wf (cleanup_stale_dns_cache now s).
Proof. intros [? ?]. split; by apply ht_sweep_wf. Qed.

#[export] Hint Resolve dns_init_wf dns_store_wf dns_store_v6_wf dns_cleanup_wf : pb.

(** In a chain with distinct keys, the search for a live entry of a key is the
    search for the key followed by the test. *)
Lemma find_key_and {A K} `{HashKey A K} (live : A -> bool) k (l : list A) :
  NoDup (key_of <$> l) ->
  List.find (fun e => is_key k e && live e) l =
  match List.find (is_key k) l with
  | Some e => if live e then Some e else None
  | None => None
  end.
Proof.
  intros Hl. rewrite <- (find_nodup_filter k live l Hl). clear Hl.
  induction l as [|x l IH]; simpl; [done|].
  destruct (is_key k x) eqn:E, (live x) eqn:E2; simpl; rewrite ?E; auto.
Qed.

Lemma find_ext {A} (p q : A -> bool) l : (forall x, p x = q x) -> List.find p l = List.find q l.
Proof. intros Hpq. induction l as [|x l IH]; simpl; [done|]. by rewrite Hpq, IH. Qed.

Lemma dns_lookup_find now s ip n :
  dns_wf s ->
  dns_cache_lookup now s ip n =
  match ht_find (g_dns_cache s) ip with
  | Some e => if now <? de_expire e then Some (strncpy_trunc n (de_domain e)) else None
  | None => None
  end.
Proof.
  intros [Hwf _]. unfold dns_cache_lookup, ht_find.
  rewrite (find_ext _ (fun e => is_key ip e && (now <? de_expire e))).
  - rewrite find_key_and; [|apply (ht_wf_nodup _ Hwf); apply dns_bucket_range].
    change (hash_of ip) with (dns_bucket ip).
    destruct (List.find (is_key ip) _) as [e|]; [|done]. cbn beta. by destruct (now <? de_expire e).
  - intros e. f_equal. unfold is_key. simpl.
    destruct (Z.eqb_spec (de_ip e) ip); symmetry; [by apply bool_decide_eq_true|].
    by apply bool_decide_eq_false.
Qed.

Lemma dns_lookup_v6_find now s ip6 n :
  dns_wf s ->
  dns_cache_lookup_v6 now s ip6 n =
  match ht_find (g_dns_cache_v6 s) ip6 with
  | Some e => if now <? de6_expire e then Some (strncpy_trunc n (de6_domain e)) else None
  | None => None
  end.
Proof.
  intros [_ Hwf]. unfold dns_cache_lookup_v6, ht_find.
  change (fun e => memeq (de6_ip e) ip6 && (now <? de6_expire e))
    with (fun e => is_key ip6 e && (now <? de6_expire e)).
  rewrite find_key_and; [|apply (ht_wf_nodup _ Hwf); apply dns_bucket_v6_range].
  change (hash_of ip6) with (dns_bucket_v6 ip6).
  destruct (List.find (is_key ip6) _) as [e|]; [|done]. cbn beta. by destruct (now <? de6_expire e).
Qed.

Lemma dns_store_find_eq now s ip d :
  dns_wf s -> d <> [] ->
  exists e, ht_find (g_dns_cache (dns_cache_store true now s ip d)) ip = Some e /\
            de_domain e = strncpy_trunc 256 d /\ de_expire e = u64 (now + DNS_CACHE_TTL_MS).
Proof.
  intros [Hwf _] Hd. destruct d as [|c d]; [done|]. cbn [dns_cache_store g_dns_cache].
  rewrite ht_find_put; [|apply Hwf|done|done]. rewrite decide_True by done.
  destruct (ht_find (g_dns_cache s) ip); eauto.
Qed.

Lemma dns_store_find_ne alloc now s ip ip' d :
  dns_wf s -> ip <> ip' ->
  ht_find (g_dns_cache (dns_cache_store alloc now s ip d)) ip' = ht_find (g_dns_cache s) ip'.
Proof.
  intros [Hwf _] Hne. destruct d as [|c d]; [done|]. cbn [dns_cache_store g_dns_cache].
  rewrite ht_find_put; [|apply Hwf|done|done]. by rewrite decide_False.
Qed.

(** A stored name is what a lookup of its address returns for five minutes,
    cut to the buffer of the caller, and not a moment longer. *)
Theorem dns_store_lookup now s ip d now' n :
  dns_wf s -> d <> [] -> 0 <= now -> now + DNS_CACHE_TTL_MS < 2 ^ 64 ->
  dns_cache_lookup now' (dns_cache_store true now s ip d) ip n =
  if now' <? now + DNS_CACHE_TTL_MS then Some (strncpy_trunc n (strncpy_trunc 256 d)) else None.
Proof.
  intros Hwf Hd H0 Hn. rewrite dns_lookup_find by auto with pb.
  destruct (dns_store_find_eq now s ip d Hwf Hd) as (e & -> & -> & ->).
  rewrite u64_small; [done|]. unfold DNS_CACHE_TTL_MS in *. lia.
Qed.

(** Storing a name for one address leaves the answers for the others alone. *)
Theorem dns_store_lookup_other alloc now s ip ip' d now' n :
  dns_wf s -> ip <> ip' ->
  dns_cache_lookup now' (dns_cache_store alloc now s ip d) ip' n = dns_cache_lookup now' s ip' n.
Proof.
  intros Hwf Hne. rewrite !dns_lookup_find by auto with pb. by rewrite dns_store_find_ne.
Qed.

(** The periodic clean-up never changes what a later lookup answers. *)
Theorem dns_cleanup_invisible now now' s ip ip6 n :
  dns_wf s -> now <= now' ->
  dns_cache_lookup now' (cleanup_stale_dns_cache now s) ip n = dns_cache_lookup now' s ip n /\
  dns_cache_lookup_v6 now' (cleanup_stale_dns_cache now s) ip6 n =
  dns_cache_lookup_v6 now' s ip6 n.
Proof.
  intros Hwf Hle. rewrite !dns_lookup_find, !dns_lookup_v6_find by auto with pb.
  simpl. rewrite !ht_find_sweep by apply Hwf. split.
  - destruct (ht_find (g_dns_cache s) ip) as [e|]; [|done].
    destruct (Z.leb_spec (de_expire e) now); simpl; [|done].
    by rewrite (proj2 (Z.ltb_ge _ _)) by lia.
  - destruct (ht_find (g_dns_cache_v6 s) ip6) as [e|]; [|done].
    destruct (Z.leb_spec (de6_expire e) now); simpl; [|done].
    by rewrite (proj2 (Z.ltb_ge _ _)) by lia.
Qed.

(** ** What a response can put in the caches *)

(** [s'] has the entries of [s] and entries for the name [q], nothing else. *)
Record dns_extends (q : bytes) (s s' : DnsCaches) : Prop := {
  ext_wf : dns_wf s';
  ext_v4 : forall ip e, ht_find (g_dns_cache s') ip = Some e ->
             ht_find (g_dns_cache s) ip = Some e \/ de_domain e = strncpy_trunc 256 q;
  ext_v6 : forall ip e, ht_find (g_dns_cache_v6 s') ip = Some e ->
             ht_find (g_dns_cache_v6 s) ip = Some e \/ de6_domain e = strncpy_trunc 256 q
}.

Lemma dns_extends_refl q s : dns_wf s -> dns_extends q s s.
Proof. intros. split; auto. Qed.

Lemma dns_extends_trans q s1 s2 s3 :
  dns_extends q s1 s2 -> dns_extends q s2 s3 -> dns_extends q s1 s3.
Proof.
  intros [_ H1 H2] [? H3 H4]. split; [done| |].
  - intros ip e [?|?]%H3; auto.
  - intros ip e [?|?]%H4; auto.
Qed.

Lemma dns_extends_store alloc now s ip q :
  dns_wf s -> dns_extends q s (dns_cache_store alloc now s ip q).
Proof.
  intros Hwf. split; [by auto with pb| |by destruct q; auto].
  destruct q as [|c q]; [auto|]. intros ip' e. cbn [dns_cache_store g_dns_cache].
  rewrite ht_find_put; [|apply Hwf|done|done]. case_decide; [|auto]. intros He. right.
  destruct (ht_find _ _), alloc; by simplify_eq/=.
Qed.

Lemma dns_extends_store_v6 alloc now s ip6 q :
  dns_wf s -> dns_extends q s (dns_cache_store_v6 alloc now s ip6 q).
Proof.
  intros Hwf. split; [by auto with pb|by destruct q; auto|].
  destruct q as [|c q]; [auto|]. intros ip' e. cbn [dns_cache_store_v6 g_dns_cache_v6].
  rewrite ht_find_put; [|apply Hwf|done|done]. case_decide; [|auto]. intros He. right.
  destruct (ht_find _ _), alloc; by simplify_eq/=.
Qed.

#[export] Hint Resolve dns_extends_refl dns_extends_store dns_extends_store_v6 : pb.

Lemma snoop_record_extends alloc now payload q s rt rc rl off s' :
  dns_wf s -> snoop_record alloc now payload q s rt rc rl off = Some s' -> dns_extends q s s'.
Proof.
  intros Hwf. unfold snoop_record. repeat case_match; intros He.
  - destruct (rdn payload off 4); simplify_eq/=. auto with pb.
  - destruct (rdn payload off 16); simplify_eq/=. auto with pb.
  - simplify_eq. auto with pb.
Qed.

Lemma snoop_answers_extends alloc now payload q n s off s' :
  dns_wf s -> snoop_answers alloc now payload q n s off = Some s' -> dns_extends q s s'.
Proof.
  revert s off. induction n as [|n IH]; intros s off Hwf; simpl; [intros; simplify_eq; auto with pb|].
  repeat (case_match; try (intros; simplify_eq; auto with pb; fail)).
  intros Hs. apply bind_Some in Hs as (rt & _ & Hs). apply bind_Some in Hs as (rc & _ & Hs).
  apply bind_Some in Hs as (rl & _ & Hs). case_match; [simplify_eq; auto with pb|].
  apply bind_Some in Hs as (s1 & Hr & Hs). apply snoop_record_extends in Hr; [|done].
  eapply dns_extends_trans; [exact Hr|]. eapply IH; [apply Hr|exact Hs].
Qed.

Lemma snoop_extends alloc now s payload s' :
  dns_wf s -> snoop_dns_response alloc now s payload = Some s' ->
  s' = s \/ exists q off, dns_parse_name payload 12 256 = NameOk q off /\ dns_extends (cstr q) s s'.
Proof.
  intros Hwf. unfold snoop_dns_response. case_match; [intros; simplify_eq; auto|].
  intros Hs. apply bind_Some in Hs as (fl & _ & Hs). do 2 (case_match; [simplify_eq; auto|]).
  apply bind_Some in Hs as (qd & _ & Hs). apply bind_Some in Hs as (an & _ & Hs).
  case_match; [simplify_eq; auto|]. case_match; try (simplify_eq; auto; fail).
  do 2 (case_match; try (simplify_eq; auto; fail)).
  right. do 2 eexists. split; [done|]. by eapply snoop_answers_extends.
Qed.

(** C29: Snooping any datagram reads only inside it and ends; whatever it holds, it
    keeps the caches well formed and can only add answers, for IPv4 and for IPv6
    addresses, with the name of its first question. *)
Theorem snoop_attribution alloc now s payload now' n d :
  dns_wf s -> Forall is_octet payload ->
  exists s', snoop_dns_response alloc now s payload = Some s' /\ dns_wf s' /\
    let asked := exists q off, dns_parse_name payload 12 256 = NameOk q off /\
                               d = strncpy_trunc n (strncpy_trunc 256 (cstr q)) in
    (forall ip, dns_cache_lookup now' s' ip n = Some d -> dns_cache_lookup now' s ip n = Some d \/ asked) /\
    (forall ip6, dns_cache_lookup_v6 now' s' ip6 n = Some d -> dns_cache_lookup_v6 now' s ip6 n = Some d \/ asked).
Proof.
  intros Hwf Hb. destruct (snoop_total alloc now s payload Hb) as (s' & Hs). exists s'. split; [done|].
  destruct (snoop_extends _ _ _ _ _ Hwf Hs) as [->|(q & off & Hp & Hx)]; [auto|].
  split; [apply Hx|]. cbv zeta. split; intros ip; rewrite ?dns_lookup_find, ?dns_lookup_v6_find; (done || apply Hx || idtac).
  - destruct (ht_find (g_dns_cache s') ip) as [e|] eqn:He; [|done]. intros Hd.
    destruct (ext_v4 _ _ _ Hx _ _ He) as [->|Hq]; [by left|].
    right. exists q, off. split; [done|]. rewrite <- Hq. by case_match; simplify_eq.
  - destruct (ht_find (g_dns_cache_v6 s') ip) as [e|] eqn:He; [|done]. intros Hd.
    destruct (ext_v6 _ _ _ Hx _ _ He) as [->|Hq]; [by left|].
    right. exists q, off. split; [done|]. rewrite <- Hq. by case_match; simplify_eq.
Qed.

(** ** Round trip of names *)

(** The wire form of a name: length-prefixed labels and a zero. *)
Fixpoint encode_name (labels : list bytes) : bytes :=
  match labels with
  | [] => [0]
  | l :: labels => Z.of_nat (length l) :: l ++ encode_name labels
  end.

(** The dotted form after some labels already written. *)
Fixpoint dotted (dst : bytes) (labels : list bytes) : bytes :=
  match labels with
  | [] => dst
  | l :: labels => dotted ((if 0 <? Z.of_nat (length dst) then dst ++ [c_dot] else dst) ++ l) labels
  end.

Definition label_ok (l : bytes) : Prop := (0 < length l < 64)%nat.

Lemma dotted_length dst labels : (length dst <= length (dotted dst labels))%nat.
Proof.
  revert dst. induction labels as [|l labels IH]; intros dst; simpl; [lia|].
  etransitivity; [|apply IH]. rewrite length_app. destruct (0 <? _); rewrite ?length_app; lia.
Qed.

Lemma drop_lookup {A} (l : list A) n x t : drop n l = x :: t -> l !! n = Some x.
Proof. intros Hd. pose proof (lookup_drop l n 0) as Hl. rewrite Hd, Nat.add_0_r in Hl. done. Qed.

Lemma drop_cons_S {A} (l : list A) n x t : drop n l = x :: t -> drop (S n) l = t.
Proof. intros Hd. by rewrite <- Nat.add_1_r, <- drop_drop, Hd. Qed.

Lemma drop_length_lt {A} (l : list A) n x t :
  drop n l = x :: t -> length l = (n + S (length t))%nat.
Proof. intros Hd. pose proof (length_drop l n) as Hl. rewrite Hd in Hl. simpl in Hl. lia. Qed.

Lemma rd_drop msg n x t : drop n msg = x :: t -> rd msg (Z.of_nat n) = Some x.
Proof.
  intros Hd. unfold rd. rewrite (proj2 (Z.ltb_ge _ _)) by lia. rewrite Nat2Z.id.
  by eapply drop_lookup.
Qed.

Lemma rdn_drop msg n w t :
  drop n msg = w ++ t -> (n <= length msg)%nat ->
  rdn msg (Z.of_nat n) (Z.of_nat (length w)) = Some w.
Proof.
  intros Hd Hn. unfold rdn. pose proof (length_drop msg n) as Hl. rewrite Hd, length_app in Hl.
  rewrite !(proj2 (Z.leb_le _ _)) by lia. simpl. rewrite !Nat2Z.id, Hd.
  by rewrite take_app_length.
Qed.

Lemma label_byte_plain l : label_ok l -> Z.land (Z.of_nat (length l)) 0xC0 = 0.
Proof.
  unfold label_ok. intros Hl. change 0xC0 with (Z.shiftl 3 6).
  apply land_shiftl_disjoint; simpl; lia.
Qed.

Lemma name_loop_labels labels fuel msg dst_len (pos : nat) dst jumps je suf :
  drop pos msg = encode_name labels ++ suf -> Forall label_ok labels ->
  Z.of_nat (length (dotted dst labels)) + 2 < dst_len -> (length labels < fuel)%nat ->
  name_loop fuel msg dst_len (Z.of_nat pos) dst jumps je =
  NameOk (dotted dst labels)
    (match je with Some e => e | None => Z.of_nat (pos + length (encode_name labels)) end).
Proof.
  revert fuel pos dst. induction labels as [|l labels IH]; intros fuel pos dst Hd Hok Hlen Hf.
  - destruct fuel as [|fuel]; [simpl in Hf; lia|]. simpl in Hd. cbn [name_loop].
    pose proof (drop_length_lt _ _ _ _ Hd). rewrite (proj2 (Z.leb_gt _ _)) by lia.
    rewrite (rd_drop _ _ _ _ Hd). simpl. destruct je; f_equal. lia.
  - destruct fuel as [|fuel]; [simpl in Hf; lia|]. cbn [encode_name app] in Hd. rewrite <- app_assoc in Hd.
    apply Forall_cons in Hok as [Hl Hok]. cbn [name_loop].
    pose proof (drop_length_lt _ _ _ _ Hd) as Hml. rewrite length_app in Hml.
    rewrite (proj2 (Z.leb_gt _ _)) by lia. rewrite (rd_drop _ _ _ _ Hd).
    rewrite (label_byte_plain l Hl). unfold label_ok in Hl.
    rewrite (proj2 (Z.eqb_neq (Z.of_nat (length l)) 0)) by lia. simpl (0 =? 0xC0).
    apply drop_cons_S in Hd. cbn iota. rewrite (proj2 (Z.ltb_ge _ _)) by lia.
    cbn [dotted] in *. pose proof (dotted_length
      ((if 0 <? Z.of_nat (length dst) then dst ++ [c_dot] else dst) ++ l) labels) as Hdl.
    rewrite length_app in Hdl.
    assert (length dst <= length (if Z.ltb 0 (Z.of_nat (length dst)) then dst ++ [c_dot] else dst))%nat
      by (destruct (Z.ltb 0 _); rewrite ?length_app; lia).
    rewrite (proj2 (Z.leb_gt _ _)) by lia.
    replace (Z.of_nat pos + 1) with (Z.of_nat (S pos)) by lia.
    rewrite (rdn_drop _ _ _ _ Hd) by lia.
    replace (Z.of_nat (S pos) + Z.of_nat (length l)) with (Z.of_nat (S pos + length l)) by lia.
    rewrite IH; [|by rewrite <- drop_drop, Hd, drop_app_length|done|done|simpl in Hf; lia].
    destruct je; [done|]. f_equal. cbn [encode_name length]. rewrite length_app. lia.
Qed.

Lemma dotted_labels_length labels dst :
  Forall label_ok labels -> (length dst + length labels <= length (dotted dst labels))%nat.
Proof.
  revert dst. induction labels as [|l labels IH]; intros dst Hok; simpl; [lia|].
  apply Forall_cons in Hok as [Hl Hok]. unfold label_ok in Hl.
  etransitivity; [|by apply IH]. rewrite length_app.
  destruct (Z.ltb 0 _); rewrite ?length_app; lia.
Qed.

Lemma parse_name_labels labels msg (pos : nat) dst_len suf :
  drop pos msg = encode_name labels ++ suf -> Forall label_ok labels ->
  Z.of_nat (length (dotted [] labels)) + 2 < dst_len ->
  dns_parse_name msg (Z.of_nat pos) dst_len =
  NameOk (dotted [] labels) (Z.of_nat (pos + length (encode_name labels))).
Proof.
  intros Hd Hok Hlen. unfold dns_parse_name.
  pose proof (dotted_labels_length labels [] Hok).
  by rewrite (name_loop_labels labels _ _ _ _ _ _ _ suf) by (done || lia).
Qed.

(** A compression pointer to offset [k]. *)
Definition pointer_to (k : nat) : bytes :=
  [Z.lor 0xC0 (Z.shiftr (Z.of_nat k) 8); Z.land (Z.of_nat k) 0xFF].

Lemma pointer_decode k :
  Z.of_nat k < 16384 ->
  Z.land (Z.lor 0xC0 (Z.shiftr (Z.of_nat k) 8)) 0xC0 = 0xC0 /\
  Z.lor (Z.shiftl (Z.land (Z.lor 0xC0 (Z.shiftr (Z.of_nat k) 8)) 0x3F) 8)
        (Z.land (Z.of_nat k) 0xFF) = Z.of_nat k.
Proof.
  intros Hk. set (x := Z.of_nat k). assert (0 <= x < 16384) as Hx by lia. clearbody x.
  assert (0 <= x / 256 < 64) as Hq by (split; [apply Z.div_pos|apply Z.div_lt_upper_bound]; lia).
  rewrite Z.shiftr_div_pow2 by lia. change (2 ^ 8) with 256.
  assert (Z.lor 0xC0 (x / 256) = x / 256 + 3 * 2 ^ 6) as ->.
  { rewrite Z.lor_comm. change 0xC0 with (Z.shiftl 3 6). apply lor_shiftl_disjoint; lia. }
  split.
  - rewrite <- lor_shiftl_disjoint by lia. rewrite Z.land_lor_distr_l.
    change 0xC0 with (Z.shiftl 3 6). rewrite land_shiftl_disjoint by lia. done.
  - replace 0x3F with (Z.ones 6) by done. rewrite Z.land_ones by lia.
    rewrite Z.mod_add by lia. rewrite (Z.mod_small (x / 256)) by lia.
    replace 0xFF with (Z.ones 8) by done. rewrite Z.land_ones by lia.
    rewrite Z.lor_comm, lor_shiftl_disjoint by (pose proof (Z.mod_pos_bound x (2 ^ 8)); lia).
    change (2 ^ 8) with 256. pose proof (Z_div_mod_eq_full x 256). lia.
Qed.

Lemma parse_name_pointer labels msg (k p : nat) dst_len suf suf' :
  drop k msg = encode_name labels ++ suf -> drop p msg = pointer_to k ++ suf' ->
  Z.of_nat k < 16384 -> Forall label_ok labels ->
  Z.of_nat (length (dotted [] labels)) + 2 < dst_len ->
  dns_parse_name msg (Z.of_nat p) dst_len = NameOk (dotted [] labels) (Z.of_nat p + 2).
Proof.
  intros Hk Hp Hk2 Hok Hlen. unfold dns_parse_name.
  destruct (pointer_decode k Hk2) as [Hp1 Hp2].
  assert (exists f, (Z.to_nat dst_len + 12)%nat = S f /\ length labels < f)%nat as (f & -> & Hf).
  { pose proof (dotted_labels_length labels [] Hok).
    exists (Z.to_nat dst_len + 11)%nat. simpl in *. lia. }
  cbn [pointer_to app] in Hp. cbn [name_loop].
  pose proof (drop_length_lt _ _ _ _ Hp) as Hml. simpl in Hml.
  rewrite (proj2 (Z.leb_gt _ _)) by lia. rewrite (rd_drop _ _ _ _ Hp).
  rewrite (proj2 (Z.eqb_neq _ 0)) by (intros E; rewrite E in Hp1; done).
  rewrite Hp1. simpl (0xC0 =? 0xC0). cbn iota.
  rewrite (proj2 (Z.leb_gt _ _)) by lia. replace (Z.of_nat p + 1) with (Z.of_nat (S p)) by lia.
  rewrite (rd_drop _ _ _ _ (drop_cons_S _ _ _ _ Hp)). rewrite Hp2. simpl (10 <? 0 + 1).
  cbn iota. by rewrite (name_loop_labels labels _ _ _ _ _ _ _ suf) by done.
Qed.

(** A name anywhere in a packet, written out or referred to by a compression
    pointer, is parsed back to its dotted form and the offset behind it. *)
Theorem dns_name_roundtrip labels pre mid suf dst_len :
  Forall label_ok labels -> Z.of_nat (length pre) < 16384 ->
  Z.of_nat (length (dotted [] labels)) + 2 < dst_len ->
  let msg := pre ++ encode_name labels ++ mid ++ pointer_to (length pre) ++ suf in
  let p := (length pre + length (encode_name labels) + length mid)%nat in
  dns_parse_name msg (Z.of_nat (length pre)) dst_len =
    NameOk (dotted [] labels) (Z.of_nat (length pre + length (encode_name labels))) /\
  dns_parse_name msg (Z.of_nat p) dst_len = NameOk (dotted [] labels) (Z.of_nat p + 2).
Proof.
  intros Hok Hpre Hlen msg p.
  assert (drop (length pre) msg =
          encode_name labels ++ mid ++ pointer_to (length pre) ++ suf) as Hd
    by (unfold msg; by rewrite drop_app_length).
  split; [by eapply parse_name_labels|].
  eapply (parse_name_pointer labels msg (length pre) p _ _ suf); try done.
  unfold msg, p. rewrite !app_assoc, <- (app_assoc _ _ suf).
  by rewrite drop_app_length' by (rewrite !length_app; lia).
Qed.

(** ** A whole response *)

Definition header_1_1 (id1 id2 : Z) : bytes := [id1; id2; 0x81; 0x80; 0; 1; 0; 1; 0; 0; 0; 0].

(** A response to an A query, its answer named by a pointer to the question. *)
Definition a_response (id1 id2 : Z) (labels : list bytes) (ttl : bytes) (a b c d : Z) : bytes :=
  header_1_1 id1 id2 ++ encode_name labels ++ [0; 1; 0; 1] ++
  pointer_to 12 ++ [0; 1; 0; 1] ++ ttl ++ [0; 4] ++ [a; b; c; d].

Lemma rd16_drop msg n a b t :
  drop n msg = a :: b :: t -> rd16 msg (Z.of_nat n) = Some (Z.lor (Z.shiftl a 8) b).
Proof.
  intros Hd. unfold rd16. rewrite (rd_drop _ _ _ _ Hd).
  replace (Z.of_nat n + 1) with (Z.of_nat (S n)) by lia.
  by rewrite (rd_drop _ _ _ _ (drop_cons_S _ _ _ _ Hd)).
Qed.

Lemma cstr_no_nul b : Forall (fun c => c <> 0) b -> cstr b = b.
Proof.
  unfold cstr. induction b as [|c b IH]; intros Hb; simpl; [done|].
  apply Forall_cons in Hb as [Hc Hb]. rewrite (proj2 (Z.eqb_neq _ _) Hc). simpl.
  specialize (IH Hb). destruct (span _ b). simpl in *. by subst.
Qed.

Lemma snoop_a_answer now s msg (o : nat) labels q ttl a b c d :
  drop 12 msg = encode_name labels ++ q ->
  drop o msg = pointer_to 12 ++ [0; 1; 0; 1] ++ ttl ++ [0; 4] ++ [a; b; c; d] ->
  length ttl = 4%nat -> Forall label_ok labels -> (length (dotted [] labels) < 254)%nat ->
  snoop_answers true now msg (dotted [] labels) 1 s (Z.of_nat o) =
  Some (dns_cache_store true now s (ipv4 a b c d) (dotted [] labels)).
Proof.
  intros Hq Hd Ht Hok Hlen. cbn [snoop_answers].
  assert (length msg = o + 16)%nat as Hml.
  { pose proof (length_drop msg o) as Hl. rewrite Hd in Hl. revert Hl.
    rewrite !length_app. simpl. lia. }
  rewrite (proj2 (Z.ltb_lt _ _)) by lia.
  rewrite (parse_name_pointer labels msg 12 o 256 q _ Hq Hd) by (done || lia).
  rewrite (proj2 (Z.ltb_ge _ _)) by lia.
  destruct ttl as [|t1 [|t2 [|t3 [|t4 [|]]]]]; try done. simpl in Hd.
  replace (Z.of_nat o + 2 + 8) with (Z.of_nat (o + 10)) by lia.
  replace (Z.of_nat o + 2 + 2) with (Z.of_nat (o + 4)) by lia.
  replace (Z.of_nat o + 2 + 10) with (Z.of_nat (o + 12)) by lia.
  replace (Z.of_nat o + 2) with (Z.of_nat (o + 2)) by lia.
  erewrite !rd16_drop; [|rewrite <- drop_drop, Hd; reflexivity..]. cbn [mbind option_bind].
  change (Z.lor (Z.shiftl 0 8) 1) with 1. change (Z.lor (Z.shiftl 0 8) 4) with 4.
  rewrite (proj2 (Z.ltb_ge _ _)) by lia. unfold snoop_record. simpl (_ && _)%bool. cbn iota.
  change 4 with (Z.of_nat (length [a; b; c; d])).
  erewrite (rdn_drop msg (o + 12) [a; b; c; d] []); [done| |lia].
  by rewrite <- drop_drop, Hd.
Qed.

Lemma dotted_no_nul dst labels :
  Forall (fun x => x <> 0) dst -> Forall (Forall (fun x => x <> 0)) labels ->
  Forall (fun x => x <> 0) (dotted dst labels).
Proof.
  revert dst. induction labels as [|l labels IH]; intros dst Hd Hl; simpl; [done|].
  apply Forall_cons in Hl as [? ?]. apply IH; [|done]. apply Forall_app. split; [|done].
  destruct (0 <? _); [|done]. apply Forall_app. split; [done|]. by repeat constructor.
Qed.

Lemma a_response_stores now s id1 id2 labels ttl a b c d :
  Forall label_ok labels -> Forall (Forall (fun x => x <> 0)) labels ->
  (length (dotted [] labels) < 254)%nat -> length ttl = 4%nat ->
  snoop_dns_response true now s (a_response id1 id2 labels ttl a b c d) =
  Some (dns_cache_store true now s (ipv4 a b c d) (dotted [] labels)).
Proof.
  intros Hok Hnz Hlen Ht. unfold snoop_dns_response.
  set (msg := a_response id1 id2 labels ttl a b c d).
  assert (exists q, drop 12 msg = encode_name labels ++ q /\
            drop (12 + length (encode_name labels) + 4) msg =
            pointer_to 12 ++ [0; 1; 0; 1] ++ ttl ++ [0; 4] ++ [a; b; c; d]) as (q & Hq & Ho).
  { eexists. split; [unfold msg, a_response, header_1_1; reflexivity|].
    assert (msg = (header_1_1 id1 id2 ++ encode_name labels ++ [0; 1; 0; 1]) ++
      pointer_to 12 ++ [0; 1; 0; 1] ++ ttl ++ [0; 4] ++ [a; b; c; d]) as ->
      by (unfold msg, a_response; by rewrite <- !app_assoc).
    rewrite drop_app_length'; [done|]. rewrite !length_app. simpl. lia. }
  rewrite (proj2 (Z.ltb_ge _ _)).
  2:{ pose proof (length_drop msg 12) as Hl. unfold msg, a_response in *.
      rewrite !length_app. simpl. lia. }
  change (rd16 msg 2) with (Some (Z.lor (Z.shiftl 0x81 8) 0x80)).
  change (rd16 msg 4) with (Some 1). change (rd16 msg 6) with (Some 1).
  cbn [mbind option_bind]. simpl (_ =? 0). cbn iota.
  change 12 with (Z.of_nat 12).
  rewrite (parse_name_labels labels msg 12 256 q Hq Hok) by lia.
  change (Z.to_nat (1 - 1)) with 0%nat. cbn [skip_questions].
  rewrite cstr_no_nul by (by apply dotted_no_nul).
  replace (Z.of_nat (12 + length (encode_name labels)) + 4)
    with (Z.of_nat (12 + length (encode_name labels) + 4)) by lia.
  change (Z.to_nat 1) with 1%nat. by eapply snoop_a_answer.
Qed.

(** A name stored is found again until it expires. *)
Lemma stored_lookup now now' s ip d :
  dns_wf s -> d <> [] -> (length d < 254)%nat -> 0 <= now -> now' < now + DNS_CACHE_TTL_MS < 2 ^ 64 ->
  dns_cache_lookup now' (dns_cache_store true now s ip d) ip 256 = Some d.
Proof.
  intros Hwf Hd Hlen H0 Hn. rewrite dns_lookup_find by auto with pb.
  destruct (dns_store_find_eq now s ip _ Hwf Hd) as (e & -> & -> & ->).
  rewrite u64_small by (unfold DNS_CACHE_TTL_MS in *; lia).
  rewrite (proj2 (Z.ltb_lt _ _)) by lia. unfold strncpy_trunc.
  change (Z.to_nat (256 - 1)) with 255%nat. by rewrite !take_ge by (rewrite ?length_take; lia).
Qed.

(** A well-formed answer to an A query makes a lookup of its address give the
    queried name. *)
Theorem snoop_then_lookup now now' s id1 id2 labels ttl a b c d :
  dns_wf s -> labels <> [] -> Forall label_ok labels -> Forall (Forall (fun x => x <> 0)) labels ->
  (length (dotted [] labels) < 254)%nat -> length ttl = 4%nat ->
  0 <= now -> now' < now + DNS_CACHE_TTL_MS < 2 ^ 64 ->
  exists s', snoop_dns_response true now s (a_response id1 id2 labels ttl a b c d) = Some s' /\
             dns_cache_lookup now' s' (ipv4 a b c d) 256 = Some (dotted [] labels).
Proof.
  intros Hwf Hne Hok Hnz Hlen Ht H0 Hn.
  pose proof (a_response_stores now s id1 id2 labels ttl a b c d Hok Hnz Hlen Ht) as Hs.
  eexists. split; [exact Hs|]. apply stored_lookup; [done| |done..].
  destruct labels as [|l labels]; [done|]. intros E.
  pose proof (dotted_labels_length _ [] Hok) as Hl. rewrite E in Hl. simpl in Hl. lia.
Qed.
