(* ===== verification/Http.v ===== *)
(** * The HTTP CONNECT client (pb_http.c)

    The request text and the reading of the answer: one [send] and one [recv]. *)
From S2P Require Import Prelude CLib Util Types ProxyConfig Socks5 Dns.

Definition HTTP_BUFFER_SIZE : Z := 1024.
Definition RESPONSE_SIZE : nat := 4096.

Definition crlf : bytes := [13; 10].

(** [host_part:port] *)
Definition authority (host_part : bytes) (port : Z) : bytes := host_part ++ [c_colon] ++ print_dec port.

Definition http_request (host_part : bytes) (port : Z) : bytes :=
  str "CONNECT " ++ authority host_part port ++ str " HTTP/1.1" ++ crlf ++
  str "Host: " ++ authority host_part port ++ crlf ++
  str "Proxy-Connection: keep-alive" ++ crlf ++ crlf.

(** [snprintf] into the request buffer; the text is sent with its full length,
    so one that was cut would be read behind its end. *)
Definition request_in_buffer (text : bytes) : option bytes :=
  if Z.of_nat (length text) <? HTTP_BUFFER_SIZE then Some text else None.

(** One [send]: its result, -1 when there is none left. *)
Definition sock_send (buf : bytes) (s : Sock) : Sock * Z :=
  match sk_send s with
  | [] => (s, -1)
  | n :: rest => (mkSock (sk_in s) rest (sk_out s ++ take (Z.to_nat n) buf), n)
  end.

(** One [recv] of at most [n] bytes. *)
Definition sock_recv (n : nat) (s : Sock) : Sock * bytes :=
  let '(b, rest) := recv n (sk_in s) in (mkSock rest (sk_send s) (sk_out s), b).

Definition HTTP_PREFIX : bytes := str "HTTP/1.".

(** The number behind the first blank; 0 when there is no blank. *)
Definition status_code (response : bytes) : Z :=
  match strchr response c_blank with
  | Some i => atoi (drop (S i) response)
  | None => 0
  end.

Definition status_ok_v4 (response : bytes) : bool :=
  bool_decide (take 7 response = HTTP_PREFIX) && (status_code response =? 200).
Definition status_ok_v6 (response : bytes) : bool := status_code response =? 200.

(** [HttpFault]: the request did not fit its buffer. *)
Inductive http_result := HttpFault | HttpReturns (rc : Z).

Definition http_exchange (request : option bytes) (status_ok : bytes -> bool) (s : Sock) : Sock * http_result :=
  match request with
  | None => (s, HttpFault)
  | Some request =>
      let '(s, n) := sock_send request s in
      if negb (n =? Z.of_nat (length request)) then (s, HttpReturns (-1))
      else
        let '(s, response) := sock_recv (RESPONSE_SIZE - 1) s in
        (s, HttpReturns
              (match response with
               | [] => -1
               | _ => if status_ok (cstr response) then 0 else -1
               end))
  end.

Definition http_host_v4 (now : Z) (dns : DnsCaches) (cfg : PROXY_CONFIG) (dest_ip : Z) : bytes :=
  match (if send_domain_to_proxy cfg then dns_cache_lookup now dns dest_ip 256 else None) with
  | Some cached_domain => cached_domain
  | None => format_ip_address dest_ip 32
  end.

Definition http_connect (now : Z) (dns : DnsCaches) (cfg : PROXY_CONFIG) (dest_ip dest_port : Z) (s : Sock)
  : Sock * http_result :=
  http_exchange (request_in_buffer (http_request (http_host_v4 now dns cfg dest_ip) dest_port)) status_ok_v4 s.

(** [inet_ntop6] is [inet_ntop(AF_INET6, _, _)]. *)
Section HttpV6.
Context (inet_ntop6 : bytes -> bytes).

Definition http_host_v6 (now : Z) (dns : DnsCaches) (cfg : PROXY_CONFIG) (dest_ip6 : bytes) : bytes :=
  match (if send_domain_to_proxy cfg then dns_cache_lookup_v6 now dns dest_ip6 256 else None) with
  | Some cached_domain => cached_domain
  | None => strncpy_trunc 270 ([91] ++ strncpy_trunc 64 (inet_ntop6 dest_ip6) ++ [93])
  end.

Definition http_connect_v6 (now : Z) (dns : DnsCaches) (cfg : PROXY_CONFIG) (dest_ip6 : bytes) (dest_port : Z)
    (s : Sock) : Sock * http_result :=
  http_exchange (request_in_buffer (http_request (http_host_v6 now dns cfg dest_ip6) dest_port)) status_ok_v6 s.
End HttpV6.

(** ** The request *)

Lemma http_request_length host_part port :
  0 <= port < 2 ^ 16 -> (length (http_request host_part port) <= 2 * length host_part + 79)%nat.
Proof.
  intros Hp. unfold http_request, authority, crlf. rewrite !length_app.
  assert (length (print_dec port) <= 5)%nat by (apply (dec_digits_length 4); simpl; lia).
  simpl. lia.
Qed.

Lemma lookup_name_length now dns ip d :
  dns_cache_lookup now dns ip 256 = Some d -> (length d <= 255)%nat.
Proof.
  unfold dns_cache_lookup. repeat case_match; intros; simplify_eq; unfold strncpy_trunc; rewrite length_take; lia.
Qed.

Lemma lookup_name_length_v6 now dns ip6 d :
  dns_cache_lookup_v6 now dns ip6 256 = Some d -> (length d <= 255)%nat.
Proof.
  unfold dns_cache_lookup_v6. repeat case_match; intros; simplify_eq; unfold strncpy_trunc; rewrite length_take; lia.
Qed.

Lemma http_host_length now dns cfg ip ntop ip6 :
  (length (http_host_v4 now dns cfg ip) <= 255)%nat /\ (length (http_host_v6 ntop now dns cfg ip6) <= 269)%nat.
Proof.
  unfold http_host_v4, http_host_v6. split.
  - destruct (send_domain_to_proxy cfg); [destruct (dns_cache_lookup _ _ _ _) eqn:E; [by apply lookup_name_length in E|]|];
      unfold format_ip_address, strncpy_trunc; rewrite length_take; lia.
  - destruct (send_domain_to_proxy cfg);
      [destruct (dns_cache_lookup_v6 _ _ _ _) eqn:E; [apply lookup_name_length_v6 in E; lia|]|];
      unfold strncpy_trunc at 1; rewrite length_take; lia.
Qed.

Lemma request_fits_buffer host_part port :
  (length host_part <= 269)%nat -> 0 <= port < 2 ^ 16 ->
  request_in_buffer (http_request host_part port) = Some (http_request host_part port).
Proof.
  intros Hl Hp. unfold request_in_buffer, HTTP_BUFFER_SIZE. pose proof (http_request_length host_part port Hp).
  by rewrite (proj2 (Z.ltb_lt _ _)) by lia.
Qed.

(** The request of either family always fits its 1024-byte buffer, whatever the
    name the proxy is given: the single [send] never reads behind it. *)
Theorem http_request_fits now dns cfg ip ntop ip6 port :
  0 <= port < 2 ^ 16 ->
  request_in_buffer (http_request (http_host_v4 now dns cfg ip) port) =
    Some (http_request (http_host_v4 now dns cfg ip) port) /\
  request_in_buffer (http_request (http_host_v6 ntop now dns cfg ip6) port) =
    Some (http_request (http_host_v6 ntop now dns cfg ip6) port).
Proof.
  intros Hp. destruct (http_host_length now dns cfg ip ntop ip6) as [H4 H6].
  split; apply request_fits_buffer; [lia|done..].
Qed.

(** C39: The name the proxy is given is the one a DNS response carried, byte for
    byte: a response whose name holds a line break puts a header line of the
    sender's choice into the request for its address. *)
Theorem http_header_injection now now' dns cfg id1 id2 line ttl a b c d port :
  dns_wf dns -> send_domain_to_proxy cfg = true ->
  Forall (fun x => x <> 0) line -> (length line < 48)%nat -> length ttl = 4%nat ->
  0 <= now -> now' < now + DNS_CACHE_TTL_MS < 2 ^ 64 ->
  exists dns' rest,
    snoop_dns_response true now dns
      (a_response id1 id2 [str "a HTTP/1.1" ++ crlf ++ line] ttl a b c d) = Some dns' /\
    http_request (http_host_v4 now' dns' cfg (ipv4 a b c d)) port =
      str "CONNECT a HTTP/1.1" ++ crlf ++ line ++ rest.
Proof.
  intros Hwf Hs Hnz Hl Ht H0 Hn. set (name := str "a HTTP/1.1" ++ crlf ++ line).
  assert (dotted [] [name] = name) as Hd by done.
  assert (length name = 12 + length line)%nat as Hlen by done.
  eexists (dns_cache_store true now dns (ipv4 a b c d) name), _. split.
  - rewrite <- Hd at 2. apply a_response_stores; [|..|rewrite Hd; lia|done].
    + constructor; [unfold label_ok; lia|done].
    + constructor; [|done]. repeat (constructor; [done|]). exact Hnz.
  - unfold http_host_v4. rewrite Hs, stored_lookup; [|done|done|lia|done|done].
    unfold http_request, authority, name. rewrite <- !(assoc_L (++)). reflexivity.
Qed.

(** ** The answer *)

(** The answer is what the first [recv] gives: the CONNECT succeeds exactly when
    the whole request was taken and that first piece starts with a status line
    of 200, and the tunnel then starts behind that piece, wherever the header
    ends: the bytes the application gets first are the peer's only if the
    header is exactly the first piece. *)
Theorem http_connect_takes_one_piece now dns cfg ip port n sends seg segs out :
  0 <= port < 2 ^ 16 -> seg <> [] -> (length seg < RESPONSE_SIZE)%nat ->
  let request := http_request (http_host_v4 now dns cfg ip) port in
  let '(s', r) := http_connect now dns cfg ip port (mkSock (seg :: segs) (n :: sends) out) in
  (r = HttpReturns 0 <-> n = Z.of_nat (length request) /\ status_ok_v4 (cstr seg) = true) /\
  (r = HttpReturns 0 -> sk_out s' = out ++ request /\ sk_in s' = segs /\
     forall header data, concat (seg :: segs) = header ++ data -> incoming s' = data <-> seg = header).
Proof.
  intros Hp Hseg Hlen request. unfold http_connect, http_exchange.
  destruct (http_host_length now dns cfg ip (fun a => a) []) as [Hhost _].
  rewrite request_fits_buffer by (try done; lia). fold request.
  unfold sock_send. cbn [sk_send sk_in sk_out].
  destruct (Z.eqb_spec n (Z.of_nat (length request))) as [->|Hn]; cbn [negb].
  2:{ split; [split; [done|by intros [? _]]|done]. }
  unfold sock_recv. cbn [sk_in recv]. rewrite (proj2 (Nat.leb_le _ _)) by lia. cbn [sk_in sk_out sk_send].
  destruct seg as [|x seg]; [done|]. destruct (status_ok_v4 (cstr (x :: seg))); [|split; [split; [done|by intros [_ ?]]|done]].
  split; [done|]. intros _. rewrite Nat2Z.id, take_ge by done. split; [done|]. split; [done|].
  intros header data Hc. unfold incoming. cbn [sk_in]. cbn [concat] in Hc. split.
  - intros <-. by apply app_inv_tail in Hc.
  - intros Hh. rewrite <- Hh in Hc. by apply app_inv_head in Hc.
Qed.
