(* ===== verification/Process.v ===== *)
(** * Process ownership (pb_process.c)

    From a local endpoint to the process that owns it: the cache of table
    lookups ([pid_cache]), the cache of owner events ([owner_cache]), the
    retrieval of the operating system's owner tables into the shared scratch
    buffer and the lookups in them.  [now] is the value [GetTickCount64]
    returns at the call and [alloc] the outcome of the allocation. *)
From S2P Require Import Prelude CLib HashTable Util Types Matching.

Definition PID_CACHE_TTL_MS : Z := 30000.
Definition OWNER_CACHE_TTL_MS : Z := 120000.

(** The age of an entry as the code computes it: an unsigned difference. *)
Definition age (now timestamp : Z) : Z := u64 (now - timestamp).

Record PID_CACHE_ENTRY := mkPid {
  pe_src_ip : Z; pe_src_port : Z; pe_is_udp : bool; pe_pid : Z; pe_timestamp : Z }.

Record OWNER_CACHE_ENTRY := mkOwner {
  oe_local_addr : bytes; oe_remote_addr : bytes; oe_local_port : Z; oe_remote_port : Z;
  oe_is_udp : bool; oe_endpoint_id : Z; oe_source_layer : Z; oe_pid : Z; oe_timestamp : Z }.

Definition pid_key : Type := Z * Z * bool.
Definition owner_key : Type := Z * Z * Z * Z * bool * bytes * bytes.

Definition pid_cache_hash (k : pid_key) : Z :=
  let '(src_ip, src_port, is_udp) := k in
  Z.lxor (Z.lxor src_ip (u32 (Z.shiftl src_port 16))) (if is_udp then 0x80000000 else 0) mod 1024.

Definition owner_cache_hash (local_port : Z) (is_udp : bool) : Z :=
  Z.lxor (u32 (Z.shiftl local_port 16)) (if is_udp then 0x9E3779B9 else 0x85EBCA6B) mod 2048.

Definition pid_key_of (e : PID_CACHE_ENTRY) : pid_key := (pe_src_ip e, pe_src_port e, pe_is_udp e).
Definition owner_key_of (e : OWNER_CACHE_ENTRY) : owner_key :=
  (oe_endpoint_id e, oe_source_layer e, oe_local_port e, oe_remote_port e, oe_is_udp e,
   oe_local_addr e, oe_remote_addr e).
Definition owner_key_hash (k : owner_key) : Z :=
  let '(_, _, lport, _, udp, _, _) := k in owner_cache_hash lport udp.

Lemma pid_cache_hash_range k : 0 <= pid_cache_hash k < 1024.
Proof. destruct k as [[ip port] udp]. apply Z.mod_pos_bound. lia. Qed.

Lemma owner_key_hash_range k : 0 <= owner_key_hash k < 2048.
Proof. destruct k as [[[[[[e l] lp] rp] udp] la] ra]. apply Z.mod_pos_bound. lia. Qed.

#[export] Instance pid_hashkey : HashKey PID_CACHE_ENTRY pid_key :=
  {| key_of := pid_key_of; hash_of := pid_cache_hash; n_buckets := 1024;
     n_buckets_pos := eq_refl; hash_range := pid_cache_hash_range |}.
#[export] Instance owner_hashkey : HashKey OWNER_CACHE_ENTRY owner_key :=
  {| key_of := owner_key_of; hash_of := owner_key_hash; n_buckets := 2048;
     n_buckets_pos := eq_refl; hash_range := owner_key_hash_range |}.

(** The two caches and the policy generation they bump. *)
Record Owners := mkOwners {
  pid_cache : list (list PID_CACHE_ENTRY);
  owner_cache : list (list OWNER_CACHE_ENTRY);
  ow_generation : Z
}.

Definition owners_init : Owners := mkOwners ht_empty ht_empty 1.

(** ** The PID cache *)

Definition get_cached_pid (now : Z) (s : Owners) (src_ip src_port : Z) (is_udp : bool) : Z :=
  match ht_find (pid_cache s) (src_ip, src_port, is_udp) with
  | Some e => if age now (pe_timestamp e) <? PID_CACHE_TTL_MS then pe_pid e else 0
  | None => 0
  end.

Definition cache_pid (alloc : bool) (now : Z) (s : Owners) (src_ip src_port pid : Z) (is_udp : bool)
  : Owners :=
  mkOwners
    (ht_put alloc (pid_cache s) (src_ip, src_port, is_udp)
       (fun e => mkPid (pe_src_ip e) (pe_src_port e) (pe_is_udp e) pid now)
       (mkPid src_ip src_port is_udp pid now))
    (owner_cache s) (ow_generation s).

Definition clear_pid_cache (s : Owners) : Owners :=
  mkOwners ht_empty (owner_cache s) (ow_generation s).

Definition remove_cached_pid (s : Owners) (src_ip src_port : Z) (is_udp : bool) : Owners :=
  mkOwners (ht_remove (pid_cache s) (src_ip, src_port, is_udp)) (owner_cache s) (ow_generation s).

Definition cleanup_stale_pid_cache (now : Z) (s : Owners) : Owners :=
  mkOwners (ht_sweep (fun e => negb (PID_CACHE_TTL_MS <=? age now (pe_timestamp e))) (pid_cache s))
           (owner_cache s) (ow_generation s).

(** ** The owner event cache *)

Definition address_is_unspecified (a : bytes) : bool := memeq a unspec6.

Section OwnerLookup.
Context (now : Z) (local_addr : bytes) (local_port : Z) (remote_addr : bytes) (remote_port : Z)
        (is_udp : bool).

(** The score of an entry, [None] when the loop skips it. *)
Definition owner_score (e : OWNER_CACHE_ENTRY) : option Z :=
  if negb (oe_local_port e =? local_port) || negb (Bool.eqb (oe_is_udp e) is_udp) ||
     (OWNER_CACHE_TTL_MS <=? age now (oe_timestamp e)) then None
  else
    let local_exact := memeq (oe_local_addr e) local_addr in
    let local_wildcard := address_is_unspecified (oe_local_addr e) in
    if negb local_exact && negb local_wildcard then None
    else
      let remote_exact := (oe_remote_port e =? remote_port) && memeq (oe_remote_addr e) remote_addr in
      let remote_wildcard := (oe_remote_port e =? 0) && address_is_unspecified (oe_remote_addr e) in
      if negb remote_exact && negb remote_wildcard then None
      else Some ((if local_exact then 2 else 0) + (if remote_exact then 2 else 0)).

Fixpoint owner_scan (l : list OWNER_CACHE_ENTRY) (best_score pid : Z) : Z :=
  match l with
  | [] => pid
  | e :: l =>
      match owner_score e with
      | None => owner_scan l best_score pid
      | Some score =>
          if best_score <? score then
            if score =? 4 then oe_pid e else owner_scan l score (oe_pid e)
          else owner_scan l best_score pid
      end
  end.

Definition get_owner_event_pid (s : Owners) : Z :=
  owner_scan (bucket (owner_cache s) (owner_cache_hash local_port is_udp)) (-1) 0.
End OwnerLookup.

Definition cache_owner_event (alloc : bool) (now : Z) (s : Owners) (local_addr : bytes)
    (local_port : Z) (remote_addr : bytes) (remote_port : Z) (is_udp : bool)
    (pid endpoint_id source_layer : Z) : Owners :=
  if (pid =? 0) || (local_port =? 0) then s
  else
    mkOwners (pid_cache s)
      (ht_put alloc (owner_cache s)
         (endpoint_id, source_layer, local_port, remote_port, is_udp, local_addr, remote_addr)
         (fun e => mkOwner (oe_local_addr e) (oe_remote_addr e) (oe_local_port e) (oe_remote_port e)
                     (oe_is_udp e) (oe_endpoint_id e) (oe_source_layer e) pid now)
         (mkOwner local_addr remote_addr local_port remote_port is_udp endpoint_id source_layer
            pid now))
      (if is_udp then invalidate_udp_decisions (ow_generation s) else ow_generation s).

Definition of_endpoint (endpoint_id source_layer : Z) (e : OWNER_CACHE_ENTRY) : bool :=
  (oe_endpoint_id e =? endpoint_id) && (oe_source_layer e =? source_layer).

(** What unlinking one entry does besides: a UDP entry bumps the generation and
    drops the table fallback entries of its port. *)
Definition unlink_owner (s : Owners) (e : OWNER_CACHE_ENTRY) : Owners :=
  if oe_is_udp e then
    mkOwners (ht_sweep (fun p => negb (pe_is_udp p && (pe_src_port p =? oe_local_port e))) (pid_cache s))
             (owner_cache s) (invalidate_udp_decisions (ow_generation s))
  else s.

Definition remove_owner_event_endpoint (s : Owners) (endpoint_id source_layer : Z) : Owners :=
  let gone := List.filter (of_endpoint endpoint_id source_layer) (concat (owner_cache s)) in
  let s' := fold_left unlink_owner gone s in
  mkOwners (pid_cache s')
           (ht_sweep (fun e => negb (of_endpoint endpoint_id source_layer e)) (owner_cache s))
           (ow_generation s').

Definition clear_owner_event_cache (s : Owners) : Owners :=
  mkOwners (pid_cache s) ht_empty (ow_generation s).

Definition cleanup_stale_owner_cache (now : Z) (s : Owners) : Owners :=
  mkOwners (pid_cache s)
           (ht_sweep (fun e => negb (OWNER_CACHE_TTL_MS <=? age now (oe_timestamp e))) (owner_cache s))
           (ow_generation s).

(** ** The owner tables

    A row of a TCP or UDP table; [row_port] is the [DWORD] of the system, whose
    low 16 bits are the port in network byte order.  IPv4 rows carry a [UINT32]
    address, IPv6 rows 16 bytes. *)
Record owner_row (A : Type) := mkRow { row_addr : A; row_port : Z; row_pid : Z }.
Arguments mkRow {A}.
Arguments row_addr {A}.
Arguments row_port {A}.
Arguments row_pid {A}.

Definition row_port_is {A} (src_port : Z) (r : owner_row A) : bool :=
  ntohs (u16 (row_port r)) =? src_port.

Definition pid_of_row {A} (r : option (owner_row A)) : Z :=
  match r with Some r => row_pid r | None => 0 end.

(** The table argument is what [owner_table_fetch] returned; [now] is read by
    the cache lookup, [now2] by the cache update. *)
Definition get_process_id_from_connection (alloc : bool) (now now2 : Z)
    (tcp_table : option (list (owner_row Z))) (s : Owners) (src_ip src_port : Z) : Owners * Z :=
  let cached_pid := get_cached_pid now s src_ip src_port false in
  if negb (cached_pid =? 0) then (s, cached_pid)
  else match tcp_table with
       | None => (s, 0)
       | Some rows =>
           let pid := pid_of_row (List.find (fun r => negb (row_pid r =? 0) &&
                        ((row_addr r =? src_ip) && row_port_is src_port r)) rows) in
           (if pid =? 0 then s else cache_pid alloc now2 s src_ip src_port pid false, pid)
       end.

Definition get_process_id_from_udp_connection (alloc : bool) (now now2 : Z)
    (udp_table : option (list (owner_row Z))) (s : Owners) (src_ip src_port : Z) : Owners * Z :=
  let cached_pid := get_cached_pid now s src_ip src_port true in
  if negb (cached_pid =? 0) then (s, cached_pid)
  else match udp_table with
       | None => (s, 0)
       | Some rows =>
           let pid := pid_of_row (List.find (fun r => (row_addr r =? src_ip) && row_port_is src_port r) rows) in
           let pid := if pid =? 0
                      then pid_of_row (List.find (fun r => (row_addr r =? 0) && row_port_is src_port r) rows)
                      else pid in
           (if pid =? 0 then s else cache_pid alloc now2 s src_ip src_port pid true, pid)
       end.

Definition get_process_id_from_connection_v6 (tcp_table : option (list (owner_row bytes)))
    (src_ip6 : bytes) (src_port : Z) : Z :=
  match tcp_table with
  | None => 0
  | Some rows => pid_of_row (List.find (fun r => negb (row_pid r =? 0) &&
                   (row_port_is src_port r && memeq (row_addr r) src_ip6)) rows)
  end.

Definition get_process_id_from_udp_connection_v6 (udp_table : option (list (owner_row bytes)))
    (src_ip6 : bytes) (src_port : Z) : Z :=
  match udp_table with
  | None => 0
  | Some rows => pid_of_row (List.find (fun r => row_port_is src_port r &&
                   (memeq (row_addr r) src_ip6 || memeq (row_addr r) unspec6)) rows)
  end.

(** ** Fetching a table into the scratch buffer

    The state of [g_pidtbl_buf]/[g_pidtbl_cap]: whether the buffer exists and
    its capacity. *)
Record Scratch := mkScratch { sc_buf : bool; g_pidtbl_cap : Z }.

Definition scratch_init : Scratch := mkScratch false 0.

Fixpoint grow_cap (fuel : nat) (newcap need : Z) : Z :=
  match fuel with
  | O => newcap
  | S fuel =>
      if newcap <? need then
        if 0xFFFFFFFF / 2 <? newcap then need else grow_cap fuel (u32 (newcap * 2)) need
      else newcap
  end.

(** Thirty-two doublings pass the width of a [DWORD]. *)
Definition pidtbl_reserve (realloc_ok : bool) (s : Scratch) (need : Z) : Scratch * bool :=
  if g_pidtbl_cap s <? need then
    let newcap := grow_cap 33 (if g_pidtbl_cap s =? 0 then 16384 else g_pidtbl_cap s) need in
    if realloc_ok then (mkScratch true newcap, true) else (s, false)
  else (s, sc_buf s).

Definition ERROR_INSUFFICIENT_BUFFER : Z := 122.

Inductive fetch_result (R : Type) :=
| Table (rows : list R)
| NoTable
| Overrun.     (** the system was told of more room than the buffer has *)
Arguments Table {R}.
Arguments NoTable {R}.
Arguments Overrun {R}.

Section Fetch.
Context {R : Type}.

(** The [k]-th call of [GetExtendedTcpTable]/[GetExtendedUdpTable] of a fetch:
    given the room, the code, the size it reports and the rows it wrote. *)
Context (owner_call : nat -> Z -> Z * Z * list R) (realloc_ok : nat -> bool).

Fixpoint fetch_attempts (n k : nat) (s : Scratch) (size : Z) : Scratch * fetch_result R :=
  match n with
  | O => (s, NoTable)
  | S n =>
      if 0xFFFFFFFF - size / 4 - 4096 <? size then (s, NoTable)
      else
        let size := size + (size / 4 + 4096) in
        let '(s, t) := pidtbl_reserve (realloc_ok k) s size in
        if negb t then (s, NoTable)
        else if g_pidtbl_cap s <? size then (s, Overrun)
        else
          let '(rc, got, rows) := owner_call k size in
          if rc =? 0 then (s, Table rows)
          else if negb (rc =? ERROR_INSUFFICIENT_BUFFER) then (s, NoTable)
          else fetch_attempts n (S k) s got
  end.

Definition owner_table_fetch (s : Scratch) : Scratch * fetch_result R :=
  if sc_buf s then
    let '(rc, size, rows) := owner_call 0%nat (g_pidtbl_cap s) in
    if rc =? 0 then (s, Table rows)
    else if negb (rc =? ERROR_INSUFFICIENT_BUFFER) then (s, NoTable)
    else fetch_attempts 4 1 s size
  else
    let '(rc, size, _) := owner_call 0%nat 0 in
    if negb (rc =? ERROR_INSUFFICIENT_BUFFER) && negb (rc =? 0) then (s, NoTable)
    else fetch_attempts 4 1 s size.
End Fetch.

(** ** Waiting for the owner *)

(** What the observer threads do to the caches while the lookup waits. *)
Inductive owner_event :=
| EvCache (alloc : bool) (now : Z) (local : bytes) (lport : Z) (remote : bytes) (rport : Z)
          (udp : bool) (pid endpoint layer : Z)
| EvRemove (endpoint layer : Z)
| EvCleanupPid (now : Z)
| EvCleanupOwner (now : Z).

Definition owner_event_step (s : Owners) (e : owner_event) : Owners :=
  match e with
  | EvCache a n l lp r rp u p ep la => cache_owner_event a n s l lp r rp u p ep la
  | EvRemove ep la => remove_owner_event_endpoint s ep la
  | EvCleanupPid n => cleanup_stale_pid_cache n s
  | EvCleanupOwner n => cleanup_stale_owner_cache n s
  end.

(** One turn of the lookup loop: the events before it, the clock at each of its
    readings, the table the system gives and the outcome of the allocation. *)
Record Turn (A : Type) := mkTurn {
  tn_events : list owner_event;
  tn_event_now : Z;
  tn_cache_now : Z;
  tn_store_now : Z;
  tn_table : option (list (owner_row A));
  tn_alloc : bool;
  tn_now : Z
}.
Arguments mkTurn {A}.
Arguments tn_events {A}.
Arguments tn_event_now {A}.
Arguments tn_cache_now {A}.
Arguments tn_store_now {A}.
Arguments tn_table {A}.
Arguments tn_alloc {A}.
Arguments tn_now {A}.

Definition OWNER_LOOKUP_TIMEOUT_MS : Z := 100.
Definition OWNER_LOOKUP_WAIT_SLICE_MS : Z := 10.

Inductive resolve_result :=
| Resolved (s : Owners) (pid : Z)      (** the loop returned *)
| Waiting (s : Owners).                (** still waiting when the turns ran out *)

(** The loop over the turns; the wait between two turns is at most ten
    milliseconds and is where the next turn's events happen. *)
Fixpoint resolve_loop {A} (lookup : Turn A -> Owners -> Owners * Z) (deadline : Z)
    (turns : list (Turn A)) (s : Owners) : resolve_result :=
  match turns with
  | [] => Waiting s
  | t :: turns =>
      let s := fold_left owner_event_step (tn_events t) s in
      let '(s, pid) := lookup t s in
      if negb (pid =? 0) then Resolved s pid
      else if deadline <=? tn_now t then Resolved s 0
      else resolve_loop lookup deadline turns s
  end.

Definition lookup_v4 (src_ip src_port dest_ip dest_port : Z) (is_udp : bool) (t : Turn Z) (s : Owners)
  : Owners * Z :=
  let pid := get_owner_event_pid (tn_event_now t) (make_v4_mapped_address src_ip) src_port
               (make_v4_mapped_address dest_ip) dest_port is_udp s in
  if pid =? 0 then
    if is_udp
    then get_process_id_from_udp_connection (tn_alloc t) (tn_cache_now t) (tn_store_now t)
           (tn_table t) s src_ip src_port
    else get_process_id_from_connection (tn_alloc t) (tn_cache_now t) (tn_store_now t)
           (tn_table t) s src_ip src_port
  else (s, pid).

Definition lookup_v6 (src_ip6 : bytes) (src_port : Z) (dest_ip6 : bytes) (dest_port : Z)
    (is_udp : bool) (t : Turn bytes) (s : Owners) : Owners * Z :=
  let pid := get_owner_event_pid (tn_event_now t) src_ip6 src_port dest_ip6 dest_port is_udp s in
  (s, if pid =? 0 then
        if is_udp then get_process_id_from_udp_connection_v6 (tn_table t) src_ip6 src_port
        else get_process_id_from_connection_v6 (tn_table t) src_ip6 src_port
      else pid).

(** [start] is the clock when the lookup begins. *)
Definition resolve_process_owner_v4 (start src_ip src_port dest_ip dest_port : Z) (is_udp : bool)
    (turns : list (Turn Z)) (s : Owners) : resolve_result :=
  resolve_loop (lookup_v4 src_ip src_port dest_ip dest_port is_udp)
    (u64 (start + OWNER_LOOKUP_TIMEOUT_MS)) turns s.

Definition resolve_process_owner_v6 (start : Z) (src_ip6 : bytes) (src_port : Z) (dest_ip6 : bytes)
    (dest_port : Z) (is_udp : bool) (turns : list (Turn bytes)) (s : Owners) : resolve_result :=
  resolve_loop (lookup_v6 src_ip6 src_port dest_ip6 dest_port is_udp)
    (u64 (start + OWNER_LOOKUP_TIMEOUT_MS)) turns s.

(** [OpenProcess], [QueryFullProcessImageNameW] and the conversion to UTF-8
    give the image path, or nothing. *)
Class ProcessImages := { image_utf8 : Z -> option bytes }.

Definition get_process_name_from_pid `{ProcessImages} (pid name_size : Z) : option bytes :=
  if pid =? 0 then None
  else if pid =? 4 then Some (strncpy_trunc name_size (str "System"))
  else match image_utf8 pid with
       | None => None
       | Some path => if Z.of_nat (length path) + 1 <=? name_size then Some path else None
       end.

(** ** The PID cache as a map *)

Record owners_wf (s : Owners) : Prop := {
  ow_pid : ht_wf (pid_cache s);
  ow_owner : ht_wf (owner_cache s);
  ow_pids : forall h e, e ∈ bucket (owner_cache s) h -> oe_pid e <> 0
}.

Lemma owners_init_wf : owners_wf owners_init.
Proof.
  split; [apply ht_empty_wf..|]. intros h e. cbn [owner_cache owners_init].
  unfold ht_empty. rewrite bucket_replicate. by intros ?%elem_of_nil.
Qed.

Lemma cache_pid_wf alloc now s ip port pid udp :
  owners_wf s -> owners_wf (cache_pid alloc now s ip port pid udp).
Proof. intros []. split; [by apply ht_put_wf|done|done]. Qed.

Lemma remove_cached_pid_wf s ip port udp : owners_wf s -> owners_wf (remove_cached_pid s ip port udp).
Proof. intros []. split; [by apply ht_remove_wf|done|done]. Qed.

Lemma cleanup_pid_wf now s : owners_wf s -> owners_wf (cleanup_stale_pid_cache now s).
Proof. intros []. split; [by apply ht_sweep_wf|done|done]. Qed.

Lemma bucket_neg {A} (t : list (list A)) h : h < 0 -> bucket t h = bucket t 0.
Proof. intros. unfold bucket. by replace (Z.to_nat h) with (Z.to_nat 0) by lia. Qed.

(** Entries of a table after a write, an unlink or a sweep. *)
Lemma elem_of_bucket_put {A K} `{HashKey A K} alloc t k upd new h (e : A) :
  Z.of_nat (length t) = n_buckets ->
  e ∈ bucket (ht_put alloc t k upd new) h ->
  e ∈ bucket t h \/ e = new \/ exists e0, e0 ∈ bucket t h /\ key_of e0 = k /\ e = upd e0.
Proof.
  intros Hl.
  assert (exists h', 0 <= h' /\ forall t : list (list A), bucket t h = bucket t h') as (h' & Hh & Hb).
  { destruct (decide (0 <= h)); [by exists h|]. exists 0. split; [done|].
    intros ?. apply bucket_neg. lia. }
  rewrite !Hb. clear Hb h. rename h' into h. pose proof (hash_range k) as Hk. unfold ht_put.
  destruct (List.find _ _); [|destruct alloc; [|by left]];
    (destruct (decide (hash_of k = h)) as [<-|];
     [rewrite bucket_set_eq by lia|rewrite bucket_set_ne by lia; by left]).
  - intros [?|(y & Hy & Hk' & ->)]%elem_of_update_first; [by left|].
    right. right. exists y. split; [done|]. split; [by apply is_key_true|done].
  - intros [->|?]%elem_of_cons; auto.
Qed.

Lemma elem_of_bucket_sweep {A K} `{HashKey A K} keep t h (e : A) :
  e ∈ bucket (ht_sweep keep t) h -> e ∈ bucket t h /\ keep e = true.
Proof.
  unfold ht_sweep. rewrite bucket_map by done.
  intros [? ?]%list_elem_of_In%List.filter_In. by rewrite list_elem_of_In.
Qed.

Lemma cache_owner_event_wf alloc now s l lp r rp u pid ep la :
  owners_wf s -> owners_wf (cache_owner_event alloc now s l lp r rp u pid ep la).
Proof.
  intros [Hp Ho Hz]. unfold cache_owner_event. case_match; [done|]. bool_prop.
  split; [done|by apply ht_put_wf|]. cbn [owner_cache]. intros h e He.
  apply elem_of_bucket_put in He as [?|[->|(e0 & _ & _ & ->)]]; [by eapply Hz|done|done|apply Ho].
Qed.

Lemma cleanup_owner_wf now s : owners_wf s -> owners_wf (cleanup_stale_owner_cache now s).
Proof.
  intros [Hp Ho Hz]. split; [done|by apply ht_sweep_wf|].
  intros h e [? _]%elem_of_bucket_sweep. eauto.
Qed.

Lemma unlink_owner_wf s e : ht_wf (pid_cache s) -> ht_wf (pid_cache (unlink_owner s e)).
Proof. unfold unlink_owner. case_match; simpl; auto with pb. Qed.

Lemma unlink_owners_wf gone s : ht_wf (pid_cache s) -> ht_wf (pid_cache (fold_left unlink_owner gone s)).
Proof.
  revert s. induction gone as [|e gone IH]; intros s Hs; simpl; [done|].
  apply IH. by apply unlink_owner_wf.
Qed.

Lemma remove_owner_wf s ep la : owners_wf s -> owners_wf (remove_owner_event_endpoint s ep la).
Proof.
  intros [Hp Ho Hz]. split; cbn [remove_owner_event_endpoint pid_cache owner_cache].
  - by apply unlink_owners_wf.
  - by apply ht_sweep_wf.
  - intros h e [? _]%elem_of_bucket_sweep. eauto.
Qed.

#[export] Hint Resolve owners_init_wf cache_pid_wf remove_cached_pid_wf cleanup_pid_wf
  cache_owner_event_wf cleanup_owner_wf remove_owner_wf : pb.

Lemma owner_event_step_wf s e : owners_wf s -> owners_wf (owner_event_step s e).
Proof. intros. destruct e; simpl; auto with pb. Qed.

(** An entry whose timestamp is not in the future has its plain age. *)
Lemma age_past now ts : 0 <= ts <= now -> now < 2 ^ 64 -> age now ts = now - ts.
Proof. intros. unfold age. apply u64_small. lia. Qed.

(** A timestamp later than the clock sample reads as an age near 2^64. *)
Lemma age_future now ts :
  0 <= now < ts -> ts < 2 ^ 64 -> ts <= now + 1000000 -> 2 ^ 64 - 1000000 <= age now ts.
Proof. intros. unfold age. rewrite u64_sub_wrap by lia. lia. Qed.

Lemma get_cached_pid_put alloc now s ip port pid udp now' ip' port' udp' :
  owners_wf s ->
  get_cached_pid now' (cache_pid alloc now s ip port pid udp) ip' port' udp' =
  if decide ((ip, port, udp) = (ip', port', udp')) then
    match ht_find (pid_cache s) (ip, port, udp) with
    | Some _ => if age now' now <? PID_CACHE_TTL_MS then pid else 0
    | None => if alloc then (if age now' now <? PID_CACHE_TTL_MS then pid else 0) else 0
    end
  else get_cached_pid now' s ip' port' udp'.
Proof.
  intros [Hp _ _]. unfold get_cached_pid, cache_pid. cbn [pid_cache].
  rewrite ht_find_put; [|apply Hp|done|done].
  case_decide; [|done]. destruct (ht_find _ _), alloc; done.
Qed.

(** A cached owner is returned for thirty seconds for exactly its endpoint, and
    is gone as soon as the endpoint is evicted. *)
Theorem pid_cache_spec now s ip port pid udp now' ip' port' udp' :
  owners_wf s -> 0 <= now <= now' -> now' < 2 ^ 64 ->
  get_cached_pid now' (cache_pid true now s ip port pid udp) ip' port' udp' =
    (if decide ((ip, port, udp) = (ip', port', udp'))
     then if now' <? now + PID_CACHE_TTL_MS then pid else 0
     else get_cached_pid now' s ip' port' udp') /\
  get_cached_pid now' (remove_cached_pid s ip port udp) ip' port' udp' =
    (if decide ((ip, port, udp) = (ip', port', udp')) then 0 else get_cached_pid now' s ip' port' udp').
Proof.
  intros Hwf Hn Hn'. split.
  - rewrite get_cached_pid_put by done. case_decide; [|done]. rewrite age_past by lia.
    assert ((now' - now <? PID_CACHE_TTL_MS) = (now' <? now + PID_CACHE_TTL_MS)) as ->.
    { apply Bool.eq_iff_eq_true. rewrite !Z.ltb_lt. lia. }
    by destruct (ht_find _ _).
  - unfold get_cached_pid, remove_cached_pid. cbn [pid_cache].
    rewrite ht_find_remove by apply Hwf. by case_decide.
Qed.

(** When no timestamp is ahead of the sampled clock, pruning the PID cache does
    not change what any later lookup returns. *)
Theorem pid_cleanup_invisible now now' s ip port udp :
  owners_wf s -> 0 <= now <= now' -> now' < 2 ^ 64 ->
  (forall k e, ht_find (pid_cache s) k = Some e -> 0 <= pe_timestamp e <= now) ->
  get_cached_pid now' (cleanup_stale_pid_cache now s) ip port udp = get_cached_pid now' s ip port udp.
Proof.
  intros [Hp _ _] Hn Hn' Hts. unfold get_cached_pid, cleanup_stale_pid_cache. cbn [pid_cache].
  rewrite ht_find_sweep by done. destruct (ht_find _ _) as [e|] eqn:He; [|done].
  apply Hts in He. rewrite (age_past now) by lia.
  destruct (Z.leb_spec PID_CACHE_TTL_MS (now - pe_timestamp e)); simpl; [|done].
  rewrite age_past by lia. by rewrite (proj2 (Z.ltb_ge _ _)) by lia.
Qed.

(** ** The best owner event *)
Section OwnerLookupSpec.
Context (now : Z) (local_addr : bytes) (local_port : Z) (remote_addr : bytes) (remote_port : Z)
        (is_udp : bool).

Abbreviation score := (owner_score now local_addr local_port remote_addr remote_port is_udp).
Abbreviation scan := (owner_scan now local_addr local_port remote_addr remote_port is_udp).

Lemma owner_score_bound e sc :
  score e = Some sc -> 0 <= sc <= 4 /\ oe_local_port e = local_port /\ oe_is_udp e = is_udp.
Proof.
  unfold owner_score. repeat case_match; intros; simplify_eq; bool_prop;
    (split; [lia|]); split; auto using eqb_prop.
Qed.

Lemma owner_scan_spec l best pid :
  ((forall e sc, e ∈ l -> score e = Some sc -> sc <= best) /\ scan l best pid = pid) \/
  (exists e sc, e ∈ l /\ score e = Some sc /\ best < sc /\ scan l best pid = oe_pid e /\
     forall e' sc', e' ∈ l -> score e' = Some sc' -> sc' <= sc).
Proof.
  revert best pid. induction l as [|x l IH]; intros best pid; simpl.
  { left. split; [|done]. by intros ? ? ?%elem_of_nil. }
  destruct (score x) as [sc|] eqn:Hx; [destruct (Z.ltb_spec best sc)|].
  - right. destruct (Z.eqb_spec sc 4) as [->|].
    + exists x, 4. split_and!; try done; [left|]. intros ? ? _ He. apply owner_score_bound in He. lia.
    + destruct (IH sc (oe_pid x)) as [[Hle ->]|(e & sc' & ? & ? & ? & -> & Hle)].
      * exists x, sc. split_and!; try done; [left|].
        intros e sc' [->|?]%elem_of_cons ?; [by simplify_eq|]. eauto.
      * exists e, sc'. split_and!; try done; [by right|lia|].
        intros e' s' [->|?]%elem_of_cons ?; [simplify_eq; lia|]. eauto.
  - destruct (IH best pid) as [[Hle ->]|(e & sc' & ? & ? & ? & -> & Hle)].
    + left. split; [|done]. intros e s' [->|?]%elem_of_cons ?; [by simplify_eq|]. eauto.
    + right. exists e, sc'. split_and!; try done; [by right|].
      intros e' s' [->|?]%elem_of_cons ?; [simplify_eq; lia|]. eauto.
  - destruct (IH best pid) as [[Hle ->]|(e & sc' & ? & ? & ? & -> & Hle)].
    + left. split; [|done]. intros e s' [->|?]%elem_of_cons ?; [by simplify_eq|]. eauto.
    + right. exists e, sc'. split_and!; try done; [by right|].
      intros e' s' [->|?]%elem_of_cons ?; [by simplify_eq|]. eauto.
Qed.

(** A candidate is always in the one bucket the lookup walks: the hash leaves
    the addresses out. *)
Lemma owner_candidate_bucket s h e sc :
  owners_wf s -> 0 <= h -> e ∈ bucket (owner_cache s) h -> score e = Some sc ->
  h = owner_cache_hash local_port is_udp.
Proof.
  intros [_ Ho _] Hh He Hs. apply owner_score_bound in Hs as (_ & <- & <-).
  symmetry. by apply (ht_wf_hash _ Ho).
Qed.

(** The event lookup finds an owner exactly when some live entry of the whole
    cache fits the endpoint, and then one with the best score: an exact local
    and remote address before a wildcard. *)
Theorem owner_event_best s :
  owners_wf s ->
  let pid := get_owner_event_pid now local_addr local_port remote_addr remote_port is_udp s in
  (pid = 0 <-> forall h e, 0 <= h -> e ∈ bucket (owner_cache s) h -> score e = None) /\
  (pid <> 0 -> exists e h sc, 0 <= h /\ e ∈ bucket (owner_cache s) h /\ score e = Some sc /\
     oe_pid e = pid /\
     forall e' h' sc', 0 <= h' -> e' ∈ bucket (owner_cache s) h' -> score e' = Some sc' -> sc' <= sc).
Proof.
  intros Hwf pid. set (hh := owner_cache_hash local_port is_udp).
  assert (0 <= hh) as Hhh by (apply Z.mod_pos_bound; lia).
  destruct (owner_scan_spec (bucket (owner_cache s) hh) (-1) 0)
    as [[Hle Hp]|(e & sc & He & Hsc & Hb & Hp & Hle)];
    change (owner_scan _ _ _ _ _ _ _ _ _) with pid in Hp; rewrite Hp.
  - split; [split; [|done]|done]. intros _ h e Hh He. destruct (score e) as [sc|] eqn:Hs; [|done].
    rewrite (owner_candidate_bucket _ _ _ _ Hwf Hh He Hs) in He.
    pose proof (Hle _ _ He Hs). apply owner_score_bound in Hs. lia.
  - pose proof (ow_pids _ Hwf _ _ He) as Hz. split.
    + split; [done|]. intros Hn. rewrite (Hn hh e Hhh He) in Hsc. done.
    + intros _. exists e, hh, sc. split_and!; try done. intros e' h' sc' Hh' He' Hs'.
      rewrite (owner_candidate_bucket _ _ _ _ Hwf Hh' He' Hs') in He'. eauto.
Qed.
End OwnerLookupSpec.

(** ** How the hashes spread *)

Lemma lxor_shiftl_low a b c n m :
  0 <= m <= n -> Z.lxor (Z.lxor a (u32 (Z.shiftl b n))) c mod 2 ^ m = Z.lxor a c mod 2 ^ m.
Proof.
  intros Hm. apply Z.bits_inj'. intros i Hi.
  destruct (decide (i < m)) as [Hlt|]; [|by rewrite !Z.mod_pow2_bits_high by lia].
  rewrite !Z.mod_pow2_bits_low by lia. rewrite !Z.lxor_spec. unfold u32.
  destruct (decide (i < 32)).
  - rewrite Z.mod_pow2_bits_low by lia. rewrite Z.shiftl_spec_low by lia. by rewrite xorb_false_r.
  - rewrite Z.mod_pow2_bits_high by lia. by rewrite xorb_false_r.
Qed.

(** C37: Both hashes shift the port out of the bits their modulus keeps.  The owner
    cache has one chain for all UDP and one for all TCP endpoints, and the PID
    cache one chain per local address: with a single address, every cached
    owner of the machine is in one list. *)
Theorem owner_hashes_collapse src_ip port udp :
  owner_cache_hash port udp = (if udp then 441 else 619) /\
  pid_cache_hash (src_ip, port, udp) = src_ip mod 1024.
Proof.
  unfold owner_cache_hash, pid_cache_hash. split.
  - change 2048 with (2 ^ 11).
    pose proof (lxor_shiftl_low 0 port (if udp then 0x9E3779B9 else 0x85EBCA6B) 16 11 ltac:(lia)) as H.
    rewrite !Z.lxor_0_l in H. rewrite H. by destruct udp.
  - change 1024 with (2 ^ 10). rewrite lxor_shiftl_low by lia.
    destruct udp; [|by rewrite Z.lxor_0_r].
    pose proof (lxor_shiftl_low src_ip 0x8000 0 16 10 ltac:(lia)) as H.
    change (u32 (Z.shiftl 32768 16)) with 0x80000000 in H. by rewrite !Z.lxor_0_r in H.
Qed.

(** ** Closing an endpoint *)

Lemma unlink_owners_find gone s k :
  ht_wf (pid_cache s) ->
  ht_find (pid_cache (fold_left unlink_owner gone s)) k =
  match ht_find (pid_cache s) k with
  | Some e => if pe_is_udp e && existsb (fun o => oe_is_udp o && (oe_local_port o =? pe_src_port e)) gone
              then None else Some e
  | None => None
  end.
Proof.
  revert s. induction gone as [|o gone IH]; intros s Hwf; simpl.
  { destruct (ht_find _ _); [|done]. by rewrite andb_false_r. }
  rewrite IH by (by apply unlink_owner_wf). unfold unlink_owner.
  destruct (oe_is_udp o); [|done]. cbn [pid_cache]. rewrite ht_find_sweep by done.
  destruct (ht_find _ _) as [e|]; [|done]. rewrite (Z.eqb_sym (oe_local_port o)).
  by destruct (pe_is_udp e) eqn:E1, (pe_src_port e =? oe_local_port o); simpl; rewrite ?E1.
Qed.

Lemma elem_of_concat_bucket {A} (t : list (list A)) h e : e ∈ bucket t h -> e ∈ concat t.
Proof.
  unfold bucket. destruct (t !! Z.to_nat h) as [c|] eqn:Ht; simpl; [|by intros ?%elem_of_nil].
  intros He. rewrite !list_elem_of_In in *. apply in_concat. exists c. split; [|done].
  apply list_elem_of_In. by eapply list_elem_of_lookup_2.
Qed.

Lemma unlink_owners_generation gone s :
  ow_generation (fold_left unlink_owner gone s) =
  Nat.iter (length (List.filter oe_is_udp gone)) invalidate_udp_decisions (ow_generation s).
Proof.
  revert s. induction gone as [|o gone IH]; intros s; simpl; [done|].
  rewrite IH. unfold unlink_owner. destruct (oe_is_udp o); simpl; [|done].
  by rewrite <- Nat.iter_succ_r.
Qed.

(** After a close event nothing is attributed to the endpoint any more; a UDP
    endpoint also loses the fallback entries of its port, and with them every
    UDP decision taken so far is out of date. *)
Theorem endpoint_close_forgets s ep la e h :
  owners_wf s -> - 2 ^ 31 <= ow_generation s < 2 ^ 31 ->
  Z.of_nat (length (concat (owner_cache s))) < 2 ^ 32 ->
  e ∈ bucket (owner_cache s) h -> of_endpoint ep la e = true ->
  let s' := remove_owner_event_endpoint s ep la in
  (forall h' e', e' ∈ bucket (owner_cache s') h' -> of_endpoint ep la e' = false) /\
  (oe_is_udp e = true ->
   (forall now ip, get_cached_pid now s' ip (oe_local_port e) true = 0) /\
   ow_generation s' <> ow_generation s).
Proof.
  intros Hwf Hg Hl He Hof s'. split.
  { intros h' e' [_ Hk]%elem_of_bucket_sweep. by bool_prop. }
  intros Hudp. assert (e ∈ List.filter (of_endpoint ep la) (concat (owner_cache s))) as Hin.
  { rewrite list_elem_of_In, List.filter_In, <- list_elem_of_In.
    split; [by eapply elem_of_concat_bucket|done]. }
  split.
  - intros now ip. unfold get_cached_pid. cbn [s' remove_owner_event_endpoint pid_cache].
    rewrite unlink_owners_find by apply Hwf. destruct (ht_find _ _) as [p|] eqn:Hp; [|done].
    apply ht_find_key in Hp. simpl in Hp. injection Hp as _ Hport Hud.
    rewrite Hud. simpl. rewrite (proj2 (existsb_exists _ _)); [done|].
    exists e. rewrite <- list_elem_of_In. split; [done|]. rewrite Hudp, Hport. apply Z.eqb_refl.
  - cbn [s' remove_owner_event_endpoint ow_generation]. rewrite unlink_owners_generation.
    apply generation_no_reuse; [done| |].
    + destruct (List.filter oe_is_udp _) eqn:Ef; [|simpl; lia].
      assert (e ∈ ([] : list OWNER_CACHE_ENTRY)) as ?%elem_of_nil; [|done].
      rewrite <- Ef, list_elem_of_In, List.filter_In, <- list_elem_of_In. done.
    + pose proof (filter_length_le oe_is_udp (List.filter (of_endpoint ep la) (concat (owner_cache s)))).
      pose proof (filter_length_le (of_endpoint ep la) (concat (owner_cache s))). lia.
Qed.

(** ** The scratch buffer *)

Lemma grow_cap_spec fuel newcap need :
  0 < newcap < 2 ^ 32 -> 0 <= need < 2 ^ 32 -> 2 ^ 32 <= newcap * 2 ^ Z.of_nat fuel ->
  need <= grow_cap fuel newcap need < 2 ^ 32 /\ newcap <= grow_cap fuel newcap need.
Proof.
  revert newcap. induction fuel as [|fuel IH]; intros newcap Hc Hn Hf; simpl grow_cap.
  { change (2 ^ Z.of_nat 0) with 1 in Hf. lia. }
  destruct (Z.ltb_spec newcap need); [|lia].
  change (0xFFFFFFFF / 2) with 2147483647. destruct (Z.ltb_spec 2147483647 newcap); [lia|].
  rewrite u32_small by lia. rewrite Nat2Z.inj_succ, Z.pow_succ_r in Hf by lia.
  destruct (IH (newcap * 2)); lia.
Qed.

Record scratch_wf (s : Scratch) : Prop := {
  sc_wf_cap : 0 <= g_pidtbl_cap s < 2 ^ 32;
  sc_wf_buf : sc_buf s = true <-> 0 < g_pidtbl_cap s
}.

Lemma pidtbl_reserve_spec ok s need s' t :
  scratch_wf s -> 0 < need < 2 ^ 32 -> pidtbl_reserve ok s need = (s', t) ->
  scratch_wf s' /\ g_pidtbl_cap s <= g_pidtbl_cap s' /\
  (t = true -> need <= g_pidtbl_cap s') /\ (ok = true -> t = true).
Proof.
  intros [Hc Hb] Hn. unfold pidtbl_reserve.
  destruct (Z.ltb_spec (g_pidtbl_cap s) need); intros He.
  - set (c0 := if g_pidtbl_cap s =? 0 then 16384 else g_pidtbl_cap s) in *.
    assert (0 < c0 < 2 ^ 32 /\ g_pidtbl_cap s <= c0) as [Hc0 Hc1]
      by (unfold c0; destruct (Z.eqb_spec (g_pidtbl_cap s) 0); lia).
    destruct (grow_cap_spec 33 c0 need) as [Hg1 Hg2]; [lia|lia|nia|].
    generalize dependent (grow_cap 33 c0 need). intros g Hg1 Hg2 He.
    destruct ok; simplify_eq; cbn [g_pidtbl_cap]; split_and!; try done; try lia.
    split; cbn [g_pidtbl_cap sc_buf]; [lia|]. split; [lia|done].
  - simplify_eq. split_and!; try done; try lia. intros _. apply Hb. lia.
Qed.

Section FetchProperties.
Context {R : Type} (owner_call : nat -> Z -> Z * Z * list R) (realloc_ok : nat -> bool).

(** The size the system reports is a [DWORD]. *)
Definition reports_dword : Prop :=
  forall k room, 0 <= snd (fst (owner_call k room)) < 2 ^ 32.

Lemma fetch_attempts_safe n k s size s' r :
  reports_dword -> scratch_wf s -> 0 <= size < 2 ^ 32 ->
  fetch_attempts owner_call realloc_ok n k s size = (s', r) ->
  r <> Overrun /\ scratch_wf s' /\ g_pidtbl_cap s <= g_pidtbl_cap s'.
Proof.
  intros Hr. revert k s size. induction n as [|n IH]; intros k s size Hs Hsz; simpl; [by intros; simplify_eq|].
  destruct (Z.ltb_spec (4294967295 - size / 4 - 4096) size) as [|Hov]; [by intros; simplify_eq|].
  assert (0 <= size / 4) by (apply Z.div_pos; lia).
  assert (0 < size + (size / 4 + 4096) < 2 ^ 32) as Hnd by lia.
  destruct (pidtbl_reserve _ _ _) as [s1 t] eqn:Hp.
  destruct (pidtbl_reserve_spec _ _ _ _ _ Hs Hnd Hp) as (Hs1 & Hle & Hcap & _).
  destruct t; simpl; [|by intros; simplify_eq]. specialize (Hcap eq_refl).
  rewrite (proj2 (Z.ltb_ge _ _)) by lia.
  pose proof (Hr k (size + (size / 4 + 4096))) as Hg.
  destruct (owner_call _ _) as [[rc got] rows]. simpl in Hg.
  destruct (rc =? 0); [by intros; simplify_eq|]. destruct (negb _); [by intros; simplify_eq|].
  intros Hrec. destruct (IH _ _ _ Hs1 Hg Hrec) as (? & ? & ?). split_and!; try done. lia.
Qed.

(** Whatever the system answers, a fetch never offers it more room than the
    scratch buffer has, and the buffer only grows. *)
Theorem owner_table_fetch_safe s s' r :
  reports_dword -> scratch_wf s -> owner_table_fetch owner_call realloc_ok s = (s', r) ->
  r <> Overrun /\ scratch_wf s' /\ g_pidtbl_cap s <= g_pidtbl_cap s'.
Proof.
  intros Hr Hs. unfold owner_table_fetch.
  destruct (sc_buf s).
  - pose proof (Hr 0%nat (g_pidtbl_cap s)) as Hg. destruct (owner_call _ _) as [[rc size] rows].
    repeat case_match; intros; simplify_eq; try done. by eapply fetch_attempts_safe.
  - pose proof (Hr 0%nat 0) as Hg. destruct (owner_call _ _) as [[rc size] rows].
    repeat case_match; intros; simplify_eq; try done. by eapply fetch_attempts_safe.
Qed.

(** The documented contract of the table calls: at call [k] the table needs
    [need k] bytes; it is written when the room suffices, otherwise the needed
    size is reported. *)
Definition table_contract (need : nat -> Z) (rows : nat -> list R) : Prop :=
  forall k room, (need k <= room -> owner_call k room = (0, need k, rows k)) /\
                 (room < need k -> fst (owner_call k room) = (ERROR_INSUFFICIENT_BUFFER, need k)).

Lemma fetch_first_attempt n s need rows :
  table_contract need rows -> scratch_wf s -> realloc_ok 1%nat = true ->
  0 <= need 0%nat -> need 0%nat + need 0%nat / 4 + 4096 < 2 ^ 32 ->
  need 1%nat <= need 0%nat + need 0%nat / 4 + 4096 ->
  snd (fetch_attempts owner_call realloc_ok (S n) 1 s (need 0%nat)) = Table (rows 1%nat).
Proof.
  intros Hc Hs Hok H0 Hm H1. cbn [fetch_attempts].
  assert (0 <= need 0%nat / 4) by (apply Z.div_pos; lia).
  rewrite (proj2 (Z.ltb_ge _ _)) by lia. rewrite Hok.
  assert (0 < need 0%nat + (need 0%nat / 4 + 4096) < 2 ^ 32) as Hnd by lia.
  destruct (pidtbl_reserve true s _) as [s1 t] eqn:Hp.
  destruct (pidtbl_reserve_spec _ _ _ _ _ Hs Hnd Hp) as (Hs1 & Hle & Hcap & Ht).
  rewrite (Ht eq_refl). simpl. rewrite (proj2 (Z.ltb_ge _ _)) by (specialize (Hcap (Ht eq_refl)); lia).
  rewrite (proj1 (Hc _ _)) by lia. done.
Qed.

(** A table that grows by less than a quarter and 4096 bytes between the two
    calls is always obtained, from an empty or from a full scratch buffer. *)
Theorem owner_table_fetch_succeeds s need rows :
  table_contract need rows -> scratch_wf s -> realloc_ok 1%nat = true ->
  0 <= need 0%nat -> need 0%nat + need 0%nat / 4 + 4096 < 2 ^ 32 ->
  need 1%nat <= need 0%nat + need 0%nat / 4 + 4096 ->
  exists k, snd (owner_table_fetch owner_call realloc_ok s) = Table (rows k).
Proof.
  intros Hc Hs Hok H0 Hm H1. unfold owner_table_fetch.
  set (room := if sc_buf s then g_pidtbl_cap s else 0).
  destruct (Hc 0%nat room) as [Hfit Hgrow].
  destruct (Z.le_gt_cases (need 0%nat) room) as [Hr|Hr].
  - specialize (Hfit Hr). unfold room in *. destruct (sc_buf s); rewrite Hfit.
    + by exists 0%nat.
    + exists 1%nat. by apply fetch_first_attempt.
  - specialize (Hgrow ltac:(lia)). unfold room in *.
    destruct (sc_buf s), (owner_call _ _) as [[rc size] rows']; simpl in Hgrow; simplify_eq;
      exists 1%nat; by apply fetch_first_attempt.
Qed.
End FetchProperties.

(** ** Table lookups *)

Lemma pid_of_find_zero {A} (p : owner_row A -> bool) rows :
  (forall r, p r = true -> row_pid r <> 0) ->
  (pid_of_row (List.find p rows) = 0 <-> forall r, r ∈ rows -> p r = false).
Proof.
  intros Hp. destruct (List.find p rows) as [r|] eqn:Hf; simpl.
  - apply find_Some_elem in Hf as [Hin Hr]. split.
    + intros. by apply Hp in Hr.
    + intros Hn. rewrite (Hn _ Hin) in Hr. done.
  - split; [|done]. intros _. by apply find_None_forall.
Qed.

(** A TCP endpoint is unowned only when no row of the table with an owner is
    its own: a leftover row without an owner never hides the live one. *)
Theorem tcp_lookup_spec alloc now now2 rows s ip port :
  get_cached_pid now s ip port false = 0 ->
  let pid := snd (get_process_id_from_connection alloc now now2 (Some rows) s ip port) in
  (pid = 0 <-> forall r, r ∈ rows -> row_addr r = ip -> row_port_is port r = true -> row_pid r = 0) /\
  (pid <> 0 -> exists r, r ∈ rows /\ row_addr r = ip /\ row_port_is port r = true /\ row_pid r = pid).
Proof.
  intros Hc. unfold get_process_id_from_connection. rewrite Hc. cbn.
  set (p := fun r : owner_row Z => (negb _ && _)%bool). split.
  - rewrite pid_of_find_zero by (intros r; unfold p; intros; bool_prop; done). unfold p. split.
    + intros Hn r Hin Ha Hp. specialize (Hn r Hin). rewrite (proj2 (Z.eqb_eq _ _) Ha), Hp in Hn.
      rewrite andb_true_r in Hn. by bool_prop.
    + intros Hn r Hin. destruct (Z.eqb_spec (row_addr r) ip), (row_port_is port r) eqn:E;
        rewrite ?andb_false_r; try done. by rewrite (Hn r).
  - destruct (List.find p rows) as [r|] eqn:Hf; simpl; [|done]. intros _.
    apply find_Some_elem in Hf as [Hin Hr]. unfold p in Hr. bool_prop. by exists r.
Qed.

(** A UDP endpoint takes the owner of its own address when there is one, else
    the owner of the port on 0.0.0.0. *)
Theorem udp_lookup_spec alloc now now2 rows s ip port :
  get_cached_pid now s ip port true = 0 ->
  let own a := pid_of_row (List.find (fun r => (row_addr r =? a) && row_port_is port r) rows) in
  snd (get_process_id_from_udp_connection alloc now now2 (Some rows) s ip port) =
  if own ip =? 0 then own 0 else own ip.
Proof.
  intros Hc own. unfold get_process_id_from_udp_connection. rewrite Hc. done.
Qed.

(** ** The bounded wait *)

(** The lookup ends as soon as a turn sees the deadline, whatever the observer
    threads do meanwhile; it gives up only then, and an owner it returns was
    found by the lookup of one of the turns. *)
Theorem resolve_bounded {A} (lookup : Turn A -> Owners -> Owners * Z) deadline turns s :
  (exists t, t ∈ turns /\ deadline <= tn_now t) ->
  exists s' pid, resolve_loop lookup deadline turns s = Resolved s' pid /\
    (pid = 0 -> exists t, t ∈ turns /\ deadline <= tn_now t /\ exists s0, lookup t s0 = (s', 0)) /\
    (pid <> 0 -> exists t s0, t ∈ turns /\ lookup t s0 = (s', pid)).
Proof.
  revert s. induction turns as [|t turns IH]; intros s (t0 & Hin & Hd); [by apply elem_of_nil in Hin|].
  simpl. destruct (lookup t _) as [s1 pid] eqn:Hl. destruct (Z.eqb_spec pid 0) as [->|Hz]; simpl.
  - destruct (Z.leb_spec deadline (tn_now t)) as [Hle|Hgt].
    + exists s1, 0. split_and!; [done| |done]. intros _. exists t. split_and!; [left|done|eauto].
    + apply elem_of_cons in Hin as [->|Hin]; [lia|].
      destruct (IH s1 (ex_intro _ t0 (conj Hin Hd))) as (s' & pid & -> & H0 & H1).
      exists s', pid. split_and!; [done| |].
      * intros Hp. destruct (H0 Hp) as (t1 & ? & ? & ?). exists t1. split_and!; [by right|done|done].
      * intros Hp. destruct (H1 Hp) as (t1 & s0 & ? & ?). exists t1, s0. split; [by right|done].
  - exists s1, pid. split_and!; [done|done|]. intros _. eexists t, _. split; [left|exact Hl].
Qed.

(** The lookup ends with well-formed caches when some turn reaches the deadline. *)
Lemma resolve_loop_total {A} (lookup : Turn A -> Owners -> Owners * Z) deadline turns s :
  (forall t s, owners_wf s -> owners_wf (fst (lookup t s))) ->
  (exists t, t ∈ turns /\ deadline <= tn_now t) -> owners_wf s ->
  exists s' pid, resolve_loop lookup deadline turns s = Resolved s' pid /\ owners_wf s'.
Proof.
  intros Hl. revert s. induction turns as [|t turns IH]; intros s (t0 & Hin & Hd) Hwf;
    [by apply elem_of_nil in Hin|]. simpl.
  assert (owners_wf (fold_left owner_event_step (tn_events t) s)) as Hwf1.
  { revert Hwf. generalize (tn_events t). intros evs. revert s. induction evs as [|ev evs IHe]; intros s Hwf;
      simpl; [done|]. apply IHe. by apply owner_event_step_wf. }
  pose proof (Hl t _ Hwf1) as Hwf2. destruct (lookup t _) as [s1 pid]. simpl in Hwf2.
  destruct (negb (pid =? 0)); [eauto|].
  destruct (Z.leb_spec deadline (tn_now t)); [eauto|].
  apply elem_of_cons in Hin as [->|Hin]; [lia|]. apply IH; [by exists t0|done].
Qed.

Lemma lookup_v4_wf ip port dip dport udp t s :
  owners_wf s -> owners_wf (fst (lookup_v4 ip port dip dport udp t s)).
Proof.
  intros Hwf. unfold lookup_v4. case_match; [|done].
  destruct udp; unfold get_process_id_from_udp_connection, get_process_id_from_connection;
    repeat case_match; simpl; auto with pb.
Qed.

Lemma lookup_v6_wf ip port dip dport udp t s :
  owners_wf s -> owners_wf (fst (lookup_v6 ip port dip dport udp t s)).
Proof. done. Qed.
