(* ===== verification/Observer.v ===== *)
(** * The owner observers (owner_event_processor of ProxyBridge.c)

    Two threads receive what the driver reports of sockets and flows and keep the
    cache of endpoint owners.  The events of both, in the order in which they
    take the lock, and the sweeps of the clean-up thread in between, are one
    list. *)
From S2P Require Import Prelude CLib HashTable Types Matching Process.

(** ** Events of the driver *)

Definition WINDIVERT_LAYER_FLOW : Z := 2.
Definition WINDIVERT_LAYER_SOCKET : Z := 3.
Definition WINDIVERT_EVENT_FLOW_DELETED : Z := 2.
Definition WINDIVERT_EVENT_SOCKET_CLOSE : Z := 7.
Definition IPPROTO_TCP : Z := 6.
Definition IPPROTO_UDP : Z := 17.

(** The address structure of a SOCKET or FLOW event; the addresses are four
    words in host order. *)
Record driver_event := mkDriverEvent {
  dv_layer : Z; dv_event : Z;
  dv_local : list Z; dv_remote : list Z;
  dv_local_port : Z; dv_remote_port : Z;
  dv_protocol : Z; dv_pid : Z; dv_endpoint : Z
}.

(** The layers that carry owner data; every other event is skipped. *)
Definition owner_layer (e : driver_event) : bool :=
  (dv_layer e =? WINDIVERT_LAYER_SOCKET) || (dv_layer e =? WINDIVERT_LAYER_FLOW).
Definition deleted (e : driver_event) : bool :=
  if dv_layer e =? WINDIVERT_LAYER_SOCKET then dv_event e =? WINDIVERT_EVENT_SOCKET_CLOSE
  else dv_event e =? WINDIVERT_EVENT_FLOW_DELETED.

Section Observer.
Context (hton_ipv6 : list Z -> bytes).   (* WinDivertHelperHtonIPv6Address *)

Definition owner_address_to_network_bytes (address : list Z) : bytes := hton_ipv6 address.

(** One event: the caches, and whether the update event is set. *)
Definition observe (alloc : bool) (now : Z) (e : driver_event) (s : Owners) : Owners * bool :=
  if negb (owner_layer e) then (s, false)
  else if deleted e then (remove_owner_event_endpoint s (dv_endpoint e) (dv_layer e), true)
  else if negb (dv_protocol e =? IPPROTO_TCP) && negb (dv_protocol e =? IPPROTO_UDP) then (s, false)
  else
    (cache_owner_event alloc now s (owner_address_to_network_bytes (dv_local e)) (dv_local_port e)
       (owner_address_to_network_bytes (dv_remote e)) (dv_remote_port e) (dv_protocol e =? IPPROTO_UDP)
       (dv_pid e) (dv_endpoint e) (dv_layer e), true).

(** A turn of a thread: the test of [running], then a failed receive, which
    ends the thread when the handle was closed, or an event. *)
Inductive turn_input := NotRunning | RecvFails (ends : bool) | RecvEvent (alloc : bool) (now : Z) (e : driver_event).

(** The thread: the caches, and whether it has returned. *)
Fixpoint owner_event_processor (turns : list turn_input) (s : Owners) : Owners * bool :=
  match turns with
  | [] => (s, false)
  | NotRunning :: _ | RecvFails true :: _ => (s, true)
  | RecvFails false :: turns => owner_event_processor turns s
  | RecvEvent alloc now e :: turns => owner_event_processor turns (fst (observe alloc now e s))
  end.

(** What happens to the cache while the engine runs. *)
Inductive cache_change := Observed (alloc : bool) (now : Z) (e : driver_event) | Swept (now : Z).
Definition change_cache (s : Owners) (c : cache_change) : Owners :=
  match c with
  | Observed alloc now e => fst (observe alloc now e s)
  | Swept now => cleanup_stale_owner_cache now s
  end.
Definition cache_history : list cache_change -> Owners -> Owners := fun l s => fold_left change_cache l s.

(** ** Where an entry comes from *)

Definition opens (e : driver_event) : bool :=
  owner_layer e && negb (deleted e) && ((dv_protocol e =? IPPROTO_TCP) || (dv_protocol e =? IPPROTO_UDP)).

(** The entry an opening event writes. *)
Definition entry_of (now : Z) (e : driver_event) : OWNER_CACHE_ENTRY :=
  mkOwner (hton_ipv6 (dv_local e)) (hton_ipv6 (dv_remote e)) (dv_local_port e) (dv_remote_port e)
    (dv_protocol e =? IPPROTO_UDP) (dv_endpoint e) (dv_layer e) (dv_pid e) now.

(** Event [i] of the history wrote it, and its endpoint was not closed since. *)
Definition produced (l : list cache_change) (x : OWNER_CACHE_ENTRY) : Prop :=
  exists i alloc now e, l !! i = Some (Observed alloc now e) /\ opens e = true /\ x = entry_of now e /\
    forall j alloc' now' e', (i < j)%nat -> l !! j = Some (Observed alloc' now' e') ->
      owner_layer e' = true -> deleted e' = true -> (dv_endpoint e', dv_layer e') <> (dv_endpoint e, dv_layer e).

Lemma produced_snoc l c x :
  produced l x ->
  (forall alloc now e, c = Observed alloc now e -> owner_layer e = true -> deleted e = true ->
     of_endpoint (dv_endpoint e) (dv_layer e) x = false) ->
  produced (l ++ [c]) x.
Proof.
  intros (i & alloc & now & e & Hi & Ho & -> & Hj) Hc. exists i, alloc, now, e.
  split; [by apply lookup_app_l_Some|]. split; [done|]. split; [done|].
  intros j a' n' e' Hlt Hl Hol Hd. apply lookup_app_Some in Hl as [Hl|[Hge Hl]]; [by eapply Hj|].
  apply list_lookup_singleton_Some in Hl as [_ ->]. specialize (Hc a' n' e' eq_refl Hol Hd).
  unfold of_endpoint in Hc. cbn [entry_of oe_endpoint_id oe_source_layer] in Hc.
  intros [= He Hl]. rewrite He, Hl, !Z.eqb_refl in Hc. done.
Qed.

Lemma observe_wf alloc now e s : owners_wf s -> owners_wf (fst (observe alloc now e s)).
Proof. intros Hs. unfold observe. repeat case_match; cbn [fst]; auto with pb. Qed.

Lemma change_cache_wf c s : owners_wf s -> owners_wf (change_cache s c).
Proof. destruct c; cbn [change_cache]; [apply observe_wf|]. auto with pb. Qed.

Lemma history_entries l h x :
  let s := cache_history l owners_init in
  owners_wf s /\ (x ∈ bucket (owner_cache s) h -> produced l x).
Proof.
  cbn zeta. revert x. induction l as [|c l IH] using rev_ind; intros x.
  { split; [apply owners_init_wf|]. cbn [cache_history fold_left owners_init owner_cache].
    unfold ht_empty. rewrite bucket_replicate. by intros ?%elem_of_nil. }
  assert (owners_wf (cache_history l owners_init)) as Hw by apply (IH x).
  assert (forall x, x ∈ bucket (owner_cache (cache_history l owners_init)) h -> produced l x) as Hin by (intros y; apply IH).
  clear IH. unfold cache_history in *. rewrite fold_left_app. cbn [fold_left].
  set (s := fold_left change_cache l owners_init) in *. split; [by apply change_cache_wf|].
  destruct c as [alloc now e|now]; cbn [change_cache].
  2:{ intros [Hx _]%elem_of_bucket_sweep. by apply produced_snoc; [apply Hin|]. }
  unfold observe. destruct (owner_layer e) eqn:Eo; cbn [negb fst].
  2:{ intros Hx. apply produced_snoc; [by apply Hin|]. intros ? ? ? [= <- <- <-]. congruence. }
  destruct (deleted e) eqn:Ed.
  { cbn [fst remove_owner_event_endpoint owner_cache]. intros [Hx Hk]%elem_of_bucket_sweep.
    apply produced_snoc; [by apply Hin|]. intros ? ? ? [= <- <- <-] _ _. by apply negb_true_iff. }
  assert (forall y, y ∈ bucket (owner_cache s) h -> produced (l ++ [Observed alloc now e]) y) as Hold.
  { intros y Hy. apply produced_snoc; [by apply Hin|]. intros ? ? ? [= <- <- <-]. congruence. }
  destruct (negb _ && negb _) eqn:Ep; [exact (Hold x)|]. unfold cache_owner_event. cbn [fst].
  destruct (_ || _); [exact (Hold x)|]. cbn [owner_cache]. intros Hx.
  assert (produced (l ++ [Observed alloc now e]) (entry_of now e)) as Hnew.
  { exists (length l), alloc, now, e. split; [by rewrite list_lookup_middle|]. split.
    - unfold opens. rewrite Eo, Ed. cbn. apply andb_false_iff in Ep as [E|E]; apply negb_false_iff in E; rewrite E; [done|apply orb_true_r].
    - split; [done|]. intros j ? ? ? Hlt Hj. apply lookup_lt_Some in Hj. rewrite length_app in Hj. simpl in Hj. lia. }
  apply elem_of_bucket_put in Hx as [Hx|[-> | (e0 & _ & Hk & ->)]]; [by apply Hold|exact Hnew| |apply Hw].
  assert (entry_of now e = mkOwner (oe_local_addr e0) (oe_remote_addr e0) (oe_local_port e0) (oe_remote_port e0)
    (oe_is_udp e0) (oe_endpoint_id e0) (oe_source_layer e0) (dv_pid e) now) as <-; [|done].
  cbn in Hk. unfold owner_key_of in Hk. injection Hk as -> -> -> -> -> -> ->. done.
Qed.

(** C12: An owner the cache names was reported for this very endpoint: some event of
    the history opened it for that process, with the protocol and the port asked
    for, with the local address and the remote endpoint asked for or none, less
    than two minutes ago by the clock of the lookup, and no event closed it since. *)
Theorem attribution_sound l now local_addr local_port remote_addr remote_port is_udp pid :
  get_owner_event_pid now local_addr local_port remote_addr remote_port is_udp (cache_history l owners_init) = pid ->
  pid <> 0 ->
  exists i alloc ts e, l !! i = Some (Observed alloc ts e) /\ opens e = true /\
    dv_pid e = pid /\ dv_local_port e = local_port /\ (dv_protocol e = IPPROTO_UDP <-> is_udp = true) /\
    (hton_ipv6 (dv_local e) = local_addr \/ hton_ipv6 (dv_local e) = unspec6) /\
    ((dv_remote_port e, hton_ipv6 (dv_remote e)) = (remote_port, remote_addr) \/
     (dv_remote_port e, hton_ipv6 (dv_remote e)) = (0, unspec6)) /\
    age now ts < OWNER_CACHE_TTL_MS /\
    forall j alloc' now' e', (i < j)%nat -> l !! j = Some (Observed alloc' now' e') ->
      owner_layer e' = true -> deleted e' = true -> (dv_endpoint e', dv_layer e') <> (dv_endpoint e, dv_layer e).
Proof.
  intros Hp Hn. set (s := cache_history l owners_init) in *.
  destruct (owner_scan_spec now local_addr local_port remote_addr remote_port is_udp
    (bucket (owner_cache s) (owner_cache_hash local_port is_udp)) (-1) 0) as [[_ H0]|(x & sc & Hx & Hs & _ & Hpid & _)].
  { unfold get_owner_event_pid in Hp. rewrite H0 in Hp. congruence. }
  unfold get_owner_event_pid in Hp. rewrite Hpid in Hp. clear Hpid.
  destruct (history_entries l (owner_cache_hash local_port is_udp) x) as [_ Hprod].
  destruct (Hprod Hx) as (i & alloc & ts & e & Hi & Ho & -> & Hj). exists i, alloc, ts, e.
  split; [done|]. split; [done|]. unfold owner_score in Hs.
  cbn [entry_of oe_local_addr oe_remote_addr oe_local_port oe_remote_port oe_is_udp oe_timestamp oe_pid] in *.
  destruct (negb _ || _ || _) eqn:E1; [done|]. apply orb_false_iff in E1 as [[Ep Eu]%orb_false_iff Et].
  destruct (negb _ && negb _) eqn:E2 in Hs; [done|]. destruct (negb _ && negb _) eqn:E3 in Hs; [done|].
  apply negb_false_iff in Ep, Eu. apply eqb_prop in Eu. split; [done|]. split; [lia|].
  split; [by rewrite <- Eu, Z.eqb_eq|].
  assert (forall a b, memeq a b = true -> a = b) as Hm by (intros a b H; by apply bool_decide_eq_true in H).
  split; [|split; [|split; [lia|done]]].
  - apply andb_false_iff in E2 as [E|E]; apply negb_false_iff in E; [left|right]; by apply Hm.
  - apply andb_false_iff in E3 as [E|E]; apply negb_false_iff, andb_true_iff in E as [E E']; [left|right];
      (apply Z.eqb_eq in E; apply Hm in E'; by rewrite E, E').
Qed.
End Observer.
