(* ===== verification/Rules.v ===== *)
(** * Rules (pb_rules.c): matching and management

    The ordered rule list, the matcher that selects the action for a process
    and a destination, and the management calls with the fast-path flags they
    maintain.  The management calls are atomic here: each holds the rules lock
    while it relinks the list. *)
From S2P Require Import Prelude CLib HashTable Util Types Matching Dns.

Record PROCESS_RULE := mkRule {
  rule_id : Z;
  process_name : bytes;
  target_hosts : bytes;
  target_ports : bytes;
  target_domains : option bytes;
  protocol : RuleProtocol;
  action : RuleAction;
  proxy_config_id : Z;
  enabled : bool
}.

Definition MAX_PROCESS_NAME : Z := 65536.

Definition s_star : bytes := [c_star].
Definition s_any : bytes := str "ANY".

Definition rule_has_domain_filter (rule : PROCESS_RULE) : bool :=
  match target_domains rule with
  | None => false
  | Some d => match d with [] => false | _ => negb (strcmp0 d s_star) end
  end.

Definition is_wildcard_process (rule : PROCESS_RULE) : bool :=
  strcmp0 (process_name rule) s_star || strcmp0 (process_name rule) s_any.

(** ** The matcher *)
Section MatchRule.
Context `{Platform}.

Definition match_domain_filter (rule : PROCESS_RULE) (domain : option bytes) : bool :=
  if negb (rule_has_domain_filter rule) then true
  else match domain with
       | None | Some [] => false
       | Some d => match_domain_list (target_domains rule) (Some d)
       end.

(** The address family enters only through the host matcher. *)
Context (match_hosts : bytes -> bool) (g_proxy_udp_dns_enabled : bool)
        (name : bytes) (dest_port : Z) (is_udp : bool) (dst_domain : option bytes).

Definition is_proxy_udp_dns (rule : PROCESS_RULE) : bool :=
  is_udp && (dest_port =? 53) && bool_decide (action rule = RULE_ACTION_PROXY).

Definition protocol_mismatch (rule : PROCESS_RULE) : bool :=
  match protocol rule with
  | RULE_PROTOCOL_BOTH => false
  | RULE_PROTOCOL_TCP => is_udp
  | RULE_PROTOCOL_UDP => negb is_udp
  end.

Definition filters_match (rule : PROCESS_RULE) : bool :=
  match_hosts (target_hosts rule) && match_port_list (Some (target_ports rule)) dest_port &&
  match_domain_filter rule dst_domain.

Definition has_filter (rule : PROCESS_RULE) : bool :=
  negb (strcmp0 (target_hosts rule) s_star) || negb (strcmp0 (target_ports rule) s_star) ||
  rule_has_domain_filter rule.

(** The walk over the list, with the wildcard rule saved for last; the result
    is the action and the proxy configuration id. *)
Fixpoint rule_loop (rules : list PROCESS_RULE) (wildcard_rule : option PROCESS_RULE)
  : RuleAction * Z :=
  match rules with
  | [] => match wildcard_rule with
          | Some w => (action w, proxy_config_id w)
          | None => (RULE_ACTION_DIRECT, 0)
          end
  | rule :: rules =>
      if negb (enabled rule) then rule_loop rules wildcard_rule
      else if is_proxy_udp_dns rule && negb g_proxy_udp_dns_enabled
      then rule_loop rules wildcard_rule
      else if negb (is_proxy_udp_dns rule) && protocol_mismatch rule
      then rule_loop rules wildcard_rule
      else if is_wildcard_process rule then
        if has_filter rule then
          if filters_match rule then (action rule, proxy_config_id rule)
          else rule_loop rules wildcard_rule
        else rule_loop rules (match wildcard_rule with None => Some rule | w => w end)
      else if match_process_list (Some (process_name rule)) name then
        if filters_match rule then (action rule, proxy_config_id rule)
        else rule_loop rules wildcard_rule
      else rule_loop rules wildcard_rule
  end.
End MatchRule.

(** ** The rule store

    [rs_flushes] counts the calls of [flush_dns_resolver_cache]. *)
Record RuleStore := mkRuleStore {
  rules_list : list PROCESS_RULE;
  g_next_rule_id : Z;
  g_has_active_rules : bool;
  g_has_domain_rules : bool;
  rs_generation : Z;
  rs_flushes : Z
}.

Definition rules_init : RuleStore := mkRuleStore [] 1 false false 1 0.

Section MatchRuleStore.
Context `{Platform}.

(** [now] is the clock of the cache lookup. *)
Definition match_rule_inner (dns_enabled : bool) (s : RuleStore) (caches : DnsCaches) (now : Z)
    (name : bytes) (dest_ip dest_port : Z) (is_udp : bool) : RuleAction * Z :=
  let dst_domain := if g_has_domain_rules s then dns_cache_lookup now caches dest_ip 256 else None in
  rule_loop (fun hosts => match_ip_list (Some hosts) dest_ip) dns_enabled name dest_port is_udp
    dst_domain (rules_list s) None.

Definition match_rule_v6_inner (dns_enabled : bool) (s : RuleStore) (caches : DnsCaches) (now : Z)
    (name : bytes) (dest_ip6 : bytes) (dest_port : Z) (is_udp : bool) : RuleAction * Z :=
  let dst_domain := if g_has_domain_rules s then dns_cache_lookup_v6 now caches dest_ip6 256 else None in
  rule_loop (fun hosts => match_ip_list_v6 (Some hosts) dest_ip6) dns_enabled name dest_port is_udp
    dst_domain (rules_list s) None.
End MatchRuleStore.

(** ** Management *)

(** The walk of [update_has_active_rules]: it stops once both flags are set. *)
Fixpoint active_flags (rules : list PROCESS_RULE) (has_active : bool) : bool * bool :=
  match rules with
  | [] => (has_active, false)
  | rule :: rules =>
      if enabled rule then
        if rule_has_domain_filter rule then (true, true) else active_flags rules true
      else active_flags rules has_active
  end.

Definition update_has_active_rules (running : bool) (s : RuleStore) : RuleStore :=
  let '(has_active, has_domain) := active_flags (rules_list s) false in
  {| rules_list := rules_list s;
     g_next_rule_id := g_next_rule_id s;
     g_has_active_rules := has_active;
     g_has_domain_rules := has_domain;
     rs_generation := invalidate_udp_decisions (rs_generation s);
     rs_flushes := if has_domain && negb (g_has_domain_rules s) && running
                   then rs_flushes s + 1 else rs_flushes s |}.

Definition set_rules (s : RuleStore) (l : list PROCESS_RULE) (next : Z) : RuleStore :=
  mkRuleStore l next (g_has_active_rules s) (g_has_domain_rules s) (rs_generation s) (rs_flushes s).

(** A copy of a list argument, "*" for a missing or empty one. *)
Definition list_or_star (arg : option bytes) : bytes :=
  match arg with
  | Some (c :: l) => strncpy_trunc (strnlen_s (c :: l) MAX_LIST_SIZE + 1) (c :: l)
  | _ => s_star
  end.

(** The outcomes of the four allocations, in the order they happen. *)
Record AddAllocs := mkAllocs { al_rule : bool; al_hosts : bool; al_ports : bool; al_domains : bool }.

Definition ProxyBridge_AddRule (running : bool) (al : AddAllocs) (s : RuleStore)
    (name hosts ports domains : option bytes) (proto : RuleProtocol) (act : RuleAction) (cfg : Z)
  : RuleStore * Z :=
  match name with
  | None | Some [] => (s, 0)
  | Some name =>
      if negb (al_rule al) then (s, 0)
      else
        let id := g_next_rule_id s in
        let next := u32 (id + 1) in
        if negb (al_hosts al && al_ports al && al_domains al)
        then (set_rules s (rules_list s) next, 0)
        else
          let rule := {| rule_id := id;
                         process_name := strncpy_trunc MAX_PROCESS_NAME name;
                         target_hosts := list_or_star hosts;
                         target_ports := list_or_star ports;
                         target_domains := Some (list_or_star domains);
                         protocol := proto; action := act; proxy_config_id := cfg;
                         enabled := true |} in
          (update_has_active_rules running (set_rules s (rules_list s ++ [rule]) next), id)
  end.

(** Change the first rule with the id; [None] when there is none. *)
Fixpoint change_rule (id : Z) (f : PROCESS_RULE -> PROCESS_RULE) (rules : list PROCESS_RULE)
  : option (list PROCESS_RULE) :=
  match rules with
  | [] => None
  | r :: rules => if rule_id r =? id then Some (f r :: rules)
                  else option_map (cons r) (change_rule id f rules)
  end.

Definition set_enabled (b : bool) (r : PROCESS_RULE) : PROCESS_RULE :=
  mkRule (rule_id r) (process_name r) (target_hosts r) (target_ports r) (target_domains r)
         (protocol r) (action r) (proxy_config_id r) b.

Definition after_change (running : bool) (s : RuleStore) (l : option (list PROCESS_RULE))
  : RuleStore * bool :=
  match l with
  | None => (s, false)
  | Some l => (update_has_active_rules running (set_rules s l (g_next_rule_id s)), true)
  end.

Definition ProxyBridge_EnableRule (running : bool) (s : RuleStore) (id : Z) : RuleStore * bool :=
  if id =? 0 then (s, false)
  else after_change running s (change_rule id (set_enabled true) (rules_list s)).

Definition ProxyBridge_DisableRule (running : bool) (s : RuleStore) (id : Z) : RuleStore * bool :=
  if id =? 0 then (s, false)
  else after_change running s (change_rule id (set_enabled false) (rules_list s)).

(** Unlink the first rule with the id: the rule and the list without it. *)
Fixpoint unlink_rule (id : Z) (rules : list PROCESS_RULE) : option (PROCESS_RULE * list PROCESS_RULE) :=
  match rules with
  | [] => None
  | r :: rules => if rule_id r =? id then Some (r, rules)
                  else '(x, l) ← unlink_rule id rules; Some (x, r :: l)
  end.

Definition ProxyBridge_DeleteRule (running : bool) (s : RuleStore) (id : Z) : RuleStore * bool :=
  if id =? 0 then (s, false)
  else after_change running s (snd <$> unlink_rule id (rules_list s)).

(** [dup] holds the outcomes of the three [_strdup] calls. *)
Definition ProxyBridge_EditRule (running : bool) (dup : bool * bool * bool) (s : RuleStore) (id : Z)
    (name hosts ports domains : option bytes) (proto : RuleProtocol) (act : RuleAction) (cfg : Z)
  : RuleStore * bool :=
  if id =? 0 then (s, false)
  else match name, hosts, ports with
       | Some name, Some hosts, Some ports =>
           let domains_in := match domains with Some (c :: d) => c :: d | _ => s_star end in
           let '(d1, d2, d3) := dup in
           if negb (d1 && d2 && d3) then (s, false)
           else after_change running s
                  (change_rule id
                     (fun r => mkRule (rule_id r) (strncpy_trunc MAX_PROCESS_NAME name) hosts ports
                                 (Some domains_in) proto act cfg (enabled r))
                     (rules_list s))
       | _, _, _ => (s, false)
       end.

Fixpoint position_from (id : Z) (rules : list PROCESS_RULE) (position : Z) : Z :=
  match rules with
  | [] => 0
  | r :: rules => if rule_id r =? id then position else position_from id rules (u32 (position + 1))
  end.

Definition ProxyBridge_GetRulePosition (s : RuleStore) (id : Z) : Z :=
  if id =? 0 then 0 else position_from id (rules_list s) 1.

(** Walk to the node to insert behind; [None] when the walk runs off the list. *)
Fixpoint insert_after (rules : list PROCESS_RULE) (pos new_position : Z) (rule : PROCESS_RULE)
  : option (list PROCESS_RULE) :=
  match rules with
  | [] => None
  | current :: rules =>
      if pos <? new_position - 1
      then option_map (cons current) (insert_after rules (pos + 1) new_position rule)
      else Some (current :: rule :: rules)
  end.

(** [MoveCrash] is the null dereference of the append to an empty list. *)
Inductive move_result :=
| Moved (s : RuleStore)
| NotMoved
| MoveCrash.

Definition ProxyBridge_MoveRuleToPosition (s : RuleStore) (id new_position : Z) : move_result :=
  if (id =? 0) || (new_position =? 0) then NotMoved
  else match unlink_rule id (rules_list s) with
       | None => NotMoved
       | Some (rule, rest) =>
           let done l := Moved (mkRuleStore l (g_next_rule_id s) (g_has_active_rules s)
                                  (g_has_domain_rules s) (invalidate_udp_decisions (rs_generation s))
                                  (rs_flushes s)) in
           if new_position =? 1 then done (rule :: rest)
           else match insert_after rest 1 new_position rule with
                | Some l => done l
                | None => match rest with
                          | [] => MoveCrash
                          | _ => done (rest ++ [rule])
                          end
                end
       end.

Definition is_proxy_config_referenced (s : RuleStore) (config_id : Z) : bool :=
  existsb (fun r => enabled r && bool_decide (action r = RULE_ACTION_PROXY) &&
                    ((proxy_config_id r =? config_id) || (proxy_config_id r =? 0)))
          (rules_list s).

(** ** First match *)

Arguments match_process_list : simpl never.
Arguments filters_match : simpl never.
Arguments has_filter : simpl never.
Arguments is_wildcard_process : simpl never.

Section FirstMatch.
Context `{Platform} (match_hosts : bytes -> bool) (dns_enabled : bool)
        (name : bytes) (dest_port : Z) (is_udp : bool).

(** The rules that take part: enabled, of a fitting protocol; for UDP DNS the
    switch of the caller decides about PROXY rules instead of the protocol. *)
Definition applicable (r : PROCESS_RULE) : bool :=
  enabled r &&
  if is_proxy_udp_dns dest_port is_udp r then dns_enabled else negb (protocol_mismatch is_udp r).

Definition names_process (r : PROCESS_RULE) : bool :=
  if is_wildcard_process r then has_filter r else match_process_list (Some (process_name r)) name.

(** A rule that decides where it stands. *)
Definition specific (dst_domain : option bytes) (r : PROCESS_RULE) : bool :=
  applicable r && names_process r && filters_match match_hosts dest_port dst_domain r.

(** A catch-all rule, which decides only when no other does. *)
Definition catch_all (r : PROCESS_RULE) : bool :=
  applicable r && is_wildcard_process r && negb (has_filter r).

(** The selection the matcher promises. *)
Definition selected_rule (dst_domain : option bytes) (rules : list PROCESS_RULE) : option PROCESS_RULE :=
  match List.find (specific dst_domain) rules with
  | Some r => Some r
  | None => List.find catch_all rules
  end.

Definition rule_outcome (r : option PROCESS_RULE) : RuleAction * Z :=
  match r with
  | Some r => (action r, proxy_config_id r)
  | None => (RULE_ACTION_DIRECT, 0)
  end.

Lemma rule_loop_select dst_domain rules w :
  rule_loop match_hosts dns_enabled name dest_port is_udp dst_domain rules w =
  rule_outcome (match List.find (specific dst_domain) rules with
                | Some r => Some r
                | None => match w with Some w => Some w | None => List.find catch_all rules end
                end).
Proof.
  revert w. induction rules as [|r rules IH]; intros w; simpl; [by destruct w|].
  assert (specific dst_domain r = (applicable r && names_process r &&
            filters_match match_hosts dest_port dst_domain r)%bool) as -> by done.
  assert (catch_all r = (applicable r && is_wildcard_process r && negb (has_filter r))%bool) as ->
    by done.
  unfold applicable, names_process.
  destruct (filters_match match_hosts dest_port dst_domain r), (enabled r),
    (is_proxy_udp_dns dest_port is_udp r), dns_enabled, (protocol_mismatch is_udp r),
    (is_wildcard_process r), (has_filter r), (match_process_list (Some (process_name r)) name);
    simpl; rewrite ?IH; try done; by destruct w.
Qed.
End FirstMatch.

Arguments selected_rule {_}.

(** ** The fast-path flags *)

Definition flags_ok (s : RuleStore) : Prop :=
  g_has_active_rules s = existsb enabled (rules_list s) /\
  g_has_domain_rules s = existsb (fun r => enabled r && rule_has_domain_filter r) (rules_list s).

Lemma active_flags_spec rules b :
  active_flags rules b =
  (b || existsb enabled rules, existsb (fun r => enabled r && rule_has_domain_filter r) rules)%bool.
Proof.
  revert b. induction rules as [|r rules IH]; intros b; simpl; [by rewrite orb_false_r|].
  destruct (enabled r), (rule_has_domain_filter r); simpl; rewrite ?IH, ?orb_true_r; done.
Qed.

Lemma update_flags running s :
  flags_ok (update_has_active_rules running s) /\
  rules_list (update_has_active_rules running s) = rules_list s /\
  g_next_rule_id (update_has_active_rules running s) = g_next_rule_id s /\
  rs_generation (update_has_active_rules running s) = invalidate_udp_decisions (rs_generation s).
Proof.
  unfold update_has_active_rules. rewrite active_flags_spec. by split_and!.
Qed.

(** Rules that do not filter by domain match alike whatever the domain is. *)
Lemma rule_loop_domain_irrelevant `{Platform} mh dns name port udp d1 d2 rules w :
  existsb (fun r => enabled r && rule_has_domain_filter r) rules = false ->
  rule_loop mh dns name port udp d1 rules w = rule_loop mh dns name port udp d2 rules w.
Proof.
  revert w. induction rules as [|r rules IH]; intros w Hd; simpl; [done|].
  simpl in Hd. apply orb_false_iff in Hd as [Hr Hd].
  assert (enabled r = true ->
          filters_match mh port d1 r = filters_match mh port d2 r) as Hf.
  { intros He. rewrite He in Hr. unfold filters_match, match_domain_filter. simpl in Hr. by rewrite Hr. }
  destruct (enabled r) eqn:He; simpl; [|by apply IH]. rewrite Hf by done.
  by repeat (case_match; [done || by apply IH|]); repeat case_match; auto.
Qed.

(** The fast path, which asks the DNS cache only when some rule needs it, does
    not change the outcome. *)
Lemma rule_loop_fast_path `{Platform} mh dns s name port udp (domain : option bytes) :
  flags_ok s ->
  rule_loop mh dns name port udp (if g_has_domain_rules s then domain else None) (rules_list s) None =
  rule_outcome (selected_rule mh dns name port udp domain (rules_list s)).
Proof.
  intros [_ Hd]. rewrite Hd.
  transitivity (rule_loop mh dns name port udp domain (rules_list s) None).
  - case_match; [done|]. by apply rule_loop_domain_irrelevant.
  - apply rule_loop_select.
Qed.

(** C8: The matcher selects the first rule that names the process or filters the
    destination, then the first catch-all rule, then DIRECT.  Its fast path,
    which asks the DNS cache only when some rule needs it, is invisible: the
    outcome is that of always asking. *)
Theorem match_rule_selects `{Platform} dns s caches now name ip port udp :
  flags_ok s ->
  match_rule_inner dns s caches now name ip port udp =
  rule_outcome (selected_rule (fun hosts => match_ip_list (Some hosts) ip) dns name port udp
                  (dns_cache_lookup now caches ip 256) (rules_list s)).
Proof. intros Hf. by apply rule_loop_fast_path. Qed.

(** The IPv6 matcher makes the same selection from the IPv6 cache. *)
Theorem match_rule_v6_selects `{Platform} dns s caches now name ip6 port udp :
  flags_ok s ->
  match_rule_v6_inner dns s caches now name ip6 port udp =
  rule_outcome (selected_rule (fun hosts => match_ip_list_v6 (Some hosts) ip6) dns name port udp
                  (dns_cache_lookup_v6 now caches ip6 256) (rules_list s)).
Proof. intros Hf. by apply rule_loop_fast_path. Qed.

(** ** List surgery *)

Lemma change_rule_spec id f rules l :
  change_rule id f rules = Some l ->
  exists l1 r l2, rules = l1 ++ r :: l2 /\ l = l1 ++ f r :: l2 /\ rule_id r = id /\
                  Forall (fun r => rule_id r <> id) l1.
Proof.
  revert l. induction rules as [|r rules IH]; simpl; intros l Hc; [done|].
  destruct (Z.eqb_spec (rule_id r) id).
  - simplify_eq. exists [], r, rules. by split_and!.
  - destruct (change_rule id f rules) as [l'|]; simplify_eq/=.
    destruct (IH _ eq_refl) as (l1 & r0 & l2 & -> & -> & ? & ?). exists (r :: l1), r0, l2. auto.
Qed.

Lemma change_rule_None id f rules :
  change_rule id f rules = None <-> Forall (fun r => rule_id r <> id) rules.
Proof.
  induction rules as [|r rules IH]; simpl; [done|]. rewrite Forall_cons.
  destruct (Z.eqb_spec (rule_id r) id); [naive_solver|].
  destruct (change_rule id f rules); simpl; naive_solver.
Qed.

Lemma unlink_rule_spec id rules r l :
  unlink_rule id rules = Some (r, l) ->
  exists l1 l2, rules = l1 ++ r :: l2 /\ l = l1 ++ l2 /\ rule_id r = id.
Proof.
  revert l. induction rules as [|x rules IH]; simpl; intros l Hc; [done|].
  destruct (Z.eqb_spec (rule_id x) id).
  - simplify_eq. by exists [], l.
  - destruct (unlink_rule id rules) as [[y l']|]; simplify_eq/=.
    destruct (IH _ eq_refl) as (l1 & l2 & -> & -> & ?). by exists (x :: l1), l2.
Qed.

Lemma unlink_rule_None id rules :
  unlink_rule id rules = None <-> Forall (fun r => rule_id r <> id) rules.
Proof.
  induction rules as [|r rules IH]; simpl; [done|]. rewrite Forall_cons.
  destruct (Z.eqb_spec (rule_id r) id); [naive_solver|].
  destruct (unlink_rule id rules) as [[]|]; simpl; naive_solver.
Qed.

Lemma insert_after_spec rules pos np rule :
  pos < np ->
  match insert_after rules pos np rule with
  | Some l => exists l1 l2, rules = l1 ++ l2 /\ l = l1 ++ rule :: l2 /\
                            Z.of_nat (length l1) = np - pos
  | None => Z.of_nat (length rules) < np - pos
  end.
Proof.
  revert pos. induction rules as [|c rules IH]; intros pos Hp; simpl; [lia|].
  destruct (Z.ltb_spec pos (np - 1)).
  - specialize (IH (pos + 1) ltac:(lia)). destruct (insert_after _ _ _ _) as [l|]; simpl in *; [|lia].
    destruct IH as (l1 & l2 & -> & -> & ?). exists (c :: l1), l2. simpl. split_and!; try done. lia.
  - exists [c], rules. simpl. split_and!; try done. lia.
Qed.

Lemma position_from_spec id l1 r l2 p :
  Forall (fun r => rule_id r <> id) l1 -> rule_id r = id -> 0 <= p ->
  p + Z.of_nat (length l1) < 2 ^ 32 ->
  position_from id (l1 ++ r :: l2) p = p + Z.of_nat (length l1).
Proof.
  revert p. induction l1 as [|x l1 IH]; intros p Hf Hr Hp Hl; simpl.
  - rewrite Hr, Z.eqb_refl. lia.
  - apply Forall_cons in Hf as [Hx Hf]. simpl in Hl. rewrite (proj2 (Z.eqb_neq _ _) Hx).
    rewrite u32_small by lia. rewrite IH; [lia|done|done|lia|lia].
Qed.

(** ** The invariant of the store *)

Record rules_wf (s : RuleStore) : Prop := {
  rw_ids : NoDup (rule_id <$> rules_list s);
  rw_fresh : Forall (fun r => 0 < rule_id r < g_next_rule_id s) (rules_list s);
  rw_next : 0 < g_next_rule_id s;
  rw_flags : flags_ok s;
  rw_gen : - 2 ^ 31 <= rs_generation s < 2 ^ 31
}.

Inductive rule_op :=
| OpAddRule (al : AddAllocs) (name hosts ports domains : option bytes) (proto : RuleProtocol)
            (act : RuleAction) (cfg : Z)
| OpEnableRule (id : Z)
| OpDisableRule (id : Z)
| OpDeleteRule (id : Z)
| OpEditRule (dup : bool * bool * bool) (id : Z) (name hosts ports domains : option bytes)
             (proto : RuleProtocol) (act : RuleAction) (cfg : Z)
| OpMoveRule (id position : Z).

(** One call of the API; [None] is the crash of the move. *)
Definition apply_rule_op (running : bool) (s : RuleStore) (op : rule_op) : option RuleStore :=
  match op with
  | OpAddRule al n h p d pr a c => Some (fst (ProxyBridge_AddRule running al s n h p d pr a c))
  | OpEnableRule id => Some (fst (ProxyBridge_EnableRule running s id))
  | OpDisableRule id => Some (fst (ProxyBridge_DisableRule running s id))
  | OpDeleteRule id => Some (fst (ProxyBridge_DeleteRule running s id))
  | OpEditRule dup id n h p d pr a c => Some (fst (ProxyBridge_EditRule running dup s id n h p d pr a c))
  | OpMoveRule id pos => match ProxyBridge_MoveRuleToPosition s id pos with
                         | Moved s' => Some s'
                         | NotMoved => Some s
                         | MoveCrash => None
                         end
  end.

(** Replacing the list and refreshing the flags keeps the invariant when ids
    stay distinct and fresh. *)
Lemma updated_wf running s l next :
  rules_wf s -> NoDup (rule_id <$> l) -> Forall (fun r => 0 < rule_id r < next) l -> 0 < next ->
  rules_wf (update_has_active_rules running (set_rules s l next)).
Proof.
  intros [] Hl Hf Hn. destruct (update_flags running (set_rules s l next)) as (Hfl & Hr & Hx & Hg).
  split; rewrite ?Hr, ?Hx, ?Hg; try done. apply s32_range.
Qed.

Lemma after_change_wf running s l :
  rules_wf s ->
  match l with Some l => (rule_id <$> l) `sublist_of` (rule_id <$> rules_list s) | None => True end ->
  rules_wf (fst (after_change running s l)).
Proof.
  intros Hwf Hl. destruct l as [l|]; simpl; [|done]. apply updated_wf; [done| | |apply Hwf].
  - eapply sublist_NoDup; [apply (rw_ids _ Hwf)|done].
  - apply Forall_forall. intros r Hr.
    assert (rule_id r ∈ rule_id <$> rules_list s) as (r' & -> & Hin)%list_elem_of_fmap.
    { eapply elem_of_sublist; [|exact Hl]. by apply list_elem_of_fmap_2. }
    pose proof (rw_fresh _ Hwf) as Hf. rewrite Forall_forall in Hf. by apply Hf.
Qed.

Lemma change_rule_ids id f rules :
  (forall r, rule_id (f r) = rule_id r) ->
  match change_rule id f rules with
  | Some l => (rule_id <$> l) `sublist_of` (rule_id <$> rules)
  | None => True
  end.
Proof.
  intros Hf. destruct (change_rule id f rules) as [l|] eqn:E; [|done].
  apply change_rule_spec in E as (l1 & r & l2 & -> & -> & _ & _).
  by rewrite !fmap_app, !fmap_cons, Hf.
Qed.

Lemma unlink_rule_ids id rules :
  match snd <$> unlink_rule id rules with
  | Some l => (rule_id <$> l) `sublist_of` (rule_id <$> rules)
  | None => True
  end.
Proof.
  destruct (unlink_rule id rules) as [[r l]|] eqn:E; [|done]. simpl.
  apply unlink_rule_spec in E as (l1 & l2 & -> & -> & _).
  apply fmap_sublist, sublist_app; [done|by apply sublist_cons].
Qed.

(** What a successful move does to the list. *)
Lemma move_spec s id np s' :
  0 <= np -> ProxyBridge_MoveRuleToPosition s id np = Moved s' ->
  exists r l1 l2 k1 k2,
    rules_list s = l1 ++ r :: l2 /\ rule_id r = id /\ rules_list s' = k1 ++ r :: k2 /\
    k1 ++ k2 = l1 ++ l2 /\ Z.of_nat (length k1) = Z.min np (Z.of_nat (length (rules_list s))) - 1 /\
    rs_generation s' = invalidate_udp_decisions (rs_generation s) /\
    g_next_rule_id s' = g_next_rule_id s /\ g_has_active_rules s' = g_has_active_rules s /\
    g_has_domain_rules s' = g_has_domain_rules s.
Proof.
  intros Hnp. unfold ProxyBridge_MoveRuleToPosition.
  destruct (Z.eqb_spec id 0), (Z.eqb_spec np 0); simpl; try done.
  destruct (unlink_rule id (rules_list s)) as [[r rest]|] eqn:E; [|done].
  apply unlink_rule_spec in E as (l1 & l2 & Hl & -> & Hid).
  assert (length (rules_list s) = S (length (l1 ++ l2))) as Hlen
    by (rewrite Hl, !length_app; simpl; lia).
  destruct (Z.eqb_spec np 1) as [->|].
  { intros ?; simplify_eq. exists r, l1, l2, [], (l1 ++ l2). simpl. split_and!; try done. lia. }
  pose proof (insert_after_spec (l1 ++ l2) 1 np r ltac:(lia)) as Hi.
  destruct (insert_after _ _ _ _) as [l|].
  - destruct Hi as (k1 & k2 & Hk & -> & Hlk). intros ?; simplify_eq.
    exists r, l1, l2, k1, k2. simpl. split_and!; try done.
    rewrite Hlen, Hk, length_app. lia.
  - destruct (l1 ++ l2) as [|x rest] eqn:Er; [done|]. intros ?; simplify_eq.
    exists r, l1, l2, (x :: rest), []. rewrite app_nil_r, Er. simpl rules_list.
    split_and!; try done. rewrite Hlen. simpl in *. lia.
Qed.

Lemma existsb_perm {A} (p : A -> bool) l l' : l ≡ₚ l' -> existsb p l = existsb p l'.
Proof.
  intros Hp. apply Bool.eq_iff_eq_true. rewrite !existsb_exists.
  split; intros (x & Hx & ?); exists x; (split; [|done]); rewrite <- list_elem_of_In in *;
    by rewrite ?Hp in *.
Qed.

Lemma move_wf s id np s' :
  0 <= np -> rules_wf s -> ProxyBridge_MoveRuleToPosition s id np = Moved s' ->
  rules_wf s' /\ rules_list s' ≡ₚ rules_list s /\ g_next_rule_id s' = g_next_rule_id s.
Proof.
  intros Hnp Hwf Hm.
  destruct (move_spec _ _ _ _ Hnp Hm) as (r & l1 & l2 & k1 & k2 & Hl & Hid & Hl' & Hk & _ & Hg & Hn & Ha & Hd).
  assert (rules_list s' ≡ₚ rules_list s) as Hp.
  { rewrite Hl, Hl'. rewrite <- !Permutation_middle. by rewrite Hk. }
  split; [|done]. destruct Hwf as [Hi Hf Hx [Hfa Hfd] _]. split.
  - by rewrite Hp.
  - by rewrite Hn, Hp.
  - by rewrite Hn.
  - split; [rewrite Ha, Hfa|rewrite Hd, Hfd]; by apply existsb_perm.
  - rewrite Hg. apply s32_range.
Qed.

Lemma add_rule_cases running al s n h p d pr a c :
  (ProxyBridge_AddRule running al s n h p d pr a c = (s, 0)) \/
  (ProxyBridge_AddRule running al s n h p d pr a c =
   (set_rules s (rules_list s) (u32 (g_next_rule_id s + 1)), 0)) \/
  exists r, ProxyBridge_AddRule running al s n h p d pr a c =
    (update_has_active_rules running
       (set_rules s (rules_list s ++ [r]) (u32 (g_next_rule_id s + 1))), g_next_rule_id s) /\
    rule_id r = g_next_rule_id s /\ enabled r = true /\ action r = a /\ protocol r = pr /\
    proxy_config_id r = c /\ target_hosts r = list_or_star h /\ target_ports r = list_or_star p /\
    target_domains r = Some (list_or_star d) /\
    process_name r = strncpy_trunc MAX_PROCESS_NAME (default [] n).
Proof.
  unfold ProxyBridge_AddRule. destruct n as [[|x n]|]; [by left| |by left].
  destruct (al_rule al); simpl; [|by left].
  destruct (al_hosts al && al_ports al && al_domains al)%bool; simpl; [|by right; left].
  right; right. eexists. split; [reflexivity|]. by split_and!.
Qed.

Lemma add_rule_wf running al s n h p d pr a c :
  rules_wf s -> g_next_rule_id s < 2 ^ 32 - 1 ->
  rules_wf (fst (ProxyBridge_AddRule running al s n h p d pr a c)) /\
  g_next_rule_id (fst (ProxyBridge_AddRule running al s n h p d pr a c)) <= g_next_rule_id s + 1.
Proof.
  intros Hwf Hn. pose proof (rw_next _ Hwf).
  destruct (add_rule_cases running al s n h p d pr a c) as [->|[->|(r & -> & Hr & _)]];
    cbn [fst]; rewrite ?u32_small by lia.
  - split; [done|lia].
  - split; [|simpl; lia]. destruct Hwf. split; simpl; try done; [|lia].
    eapply Forall_impl; [done|]. simpl. lia.
  - split; [|destruct (update_flags running (set_rules s (rules_list s ++ [r]) (g_next_rule_id s + 1)))
              as (_ & _ & -> & _); simpl; lia].
    pose proof (rw_fresh _ Hwf) as Hf. apply updated_wf; [done| | |lia].
    + rewrite fmap_app. apply NoDup_app. split_and!; [apply Hwf| |apply NoDup_singleton].
      intros x (r' & -> & Hin)%list_elem_of_fmap Hx%list_elem_of_singleton.
      rewrite Forall_forall in Hf. specialize (Hf _ Hin). lia.
    + apply Forall_app. split; [|repeat constructor; lia].
      eapply Forall_impl; [done|]. simpl. lia.
Qed.

Lemma after_change_next running s l : g_next_rule_id (fst (after_change running s l)) = g_next_rule_id s.
Proof.
  destruct l as [l|]; [|done]. simpl.
  by destruct (update_flags running (set_rules s l (g_next_rule_id s))) as (_ & _ & -> & _).
Qed.

Lemma enable_as_change running s id :
  (exists l, fst (ProxyBridge_EnableRule running s id) = fst (after_change running s l) /\
     match l with Some l => (rule_id <$> l) `sublist_of` (rule_id <$> rules_list s) | None => True end).
Proof.
  unfold ProxyBridge_EnableRule. case_match; [by exists None|].
  eexists. split; [reflexivity|]. by apply change_rule_ids.
Qed.

Lemma disable_as_change running s id :
  (exists l, fst (ProxyBridge_DisableRule running s id) = fst (after_change running s l) /\
     match l with Some l => (rule_id <$> l) `sublist_of` (rule_id <$> rules_list s) | None => True end).
Proof.
  unfold ProxyBridge_DisableRule. case_match; [by exists None|].
  eexists. split; [reflexivity|]. by apply change_rule_ids.
Qed.

Lemma delete_as_change running s id :
  (exists l, fst (ProxyBridge_DeleteRule running s id) = fst (after_change running s l) /\
     match l with Some l => (rule_id <$> l) `sublist_of` (rule_id <$> rules_list s) | None => True end).
Proof.
  unfold ProxyBridge_DeleteRule. case_match; [by exists None|].
  eexists. split; [reflexivity|]. apply unlink_rule_ids.
Qed.

Lemma edit_as_change running dup s id n h p d pr a c :
  (exists l, fst (ProxyBridge_EditRule running dup s id n h p d pr a c) = fst (after_change running s l) /\
     match l with Some l => (rule_id <$> l) `sublist_of` (rule_id <$> rules_list s) | None => True end).
Proof.
  unfold ProxyBridge_EditRule. destruct dup as [[d1 d2] d3].
  destruct (id =? 0); [by exists None|]. destruct n, h, p; try (by exists None).
  destruct (negb _); [by exists None|]. eexists. split; [reflexivity|]. by apply change_rule_ids.
Qed.

Definition op_position_ok (op : rule_op) : Prop :=
  match op with OpMoveRule _ p => 0 <= p | _ => True end.

Lemma apply_rule_op_wf running s op s' :
  rules_wf s -> g_next_rule_id s < 2 ^ 32 - 1 -> op_position_ok op ->
  apply_rule_op running s op = Some s' ->
  rules_wf s' /\ g_next_rule_id s' <= g_next_rule_id s + 1.
Proof.
  intros Hwf Hn Hop. destruct op; simpl; intros ?; simplify_eq; [by apply add_rule_wf|..].
  - destruct (enable_as_change running s id) as (l & -> & Hl).
    rewrite after_change_next. split; [by apply after_change_wf|lia].
  - destruct (disable_as_change running s id) as (l & -> & Hl).
    rewrite after_change_next. split; [by apply after_change_wf|lia].
  - destruct (delete_as_change running s id) as (l & -> & Hl).
    rewrite after_change_next. split; [by apply after_change_wf|lia].
  - destruct (edit_as_change running dup s id name hosts ports domains proto act cfg) as (l & -> & Hl).
    rewrite after_change_next. split; [by apply after_change_wf|lia].
  - destruct (ProxyBridge_MoveRuleToPosition s id position) as [s1| |] eqn:Hm; simplify_eq; [|lia || (split; [done|lia])].
    apply move_wf in Hm as (? & _ & ->); [|done|done]. split; [done|lia].
Qed.

(** The stores the API can produce from the empty one, in less than a full turn
    of the id counter. *)
Inductive rules_reach (running : bool) : nat -> RuleStore -> Prop :=
| reach_init : rules_reach running 0 rules_init
| reach_step n s op s' :
    rules_reach running n s -> op_position_ok op -> apply_rule_op running s op = Some s' ->
    rules_reach running (S n) s'.

Lemma rules_init_wf : rules_wf rules_init.
Proof. split; simpl; try constructor; done || lia. Qed.

(** C28: Whatever the calls, ids stay distinct and the fast-path flags say exactly
    whether an enabled rule and an enabled domain rule exist. *)
Theorem rules_reachable_wf running n s :
  rules_reach running n s -> Z.of_nat n < 2 ^ 32 - 2 -> rules_wf s.
Proof.
  intros Hr Hn.
  assert (rules_wf s /\ g_next_rule_id s <= 1 + Z.of_nat n) as [? _]; [|done].
  induction Hr as [|n s op s' Hr IH Hop Ha]; [split; [apply rules_init_wf|simpl; lia]|].
  destruct IH as [Hwf Hle]; [lia|].
  destruct (apply_rule_op_wf running s op s' Hwf ltac:(lia) Hop Ha). split; [done|lia].
Qed.

(** Every call that changes the rules makes all earlier UDP decisions stale. *)
Theorem rule_change_invalidates running s op s' :
  rules_wf s -> op_position_ok op -> apply_rule_op running s op = Some s' ->
  rules_list s' <> rules_list s -> rs_generation s' <> rs_generation s.
Proof.
  intros Hwf Hop Ha Hne. pose proof (invalidate_changes _ (rw_gen _ Hwf)) as Hg.
  assert (forall l, rules_list (fst (after_change running s l)) <> rules_list s ->
                    rs_generation (fst (after_change running s l)) <> rs_generation s) as Hc.
  { intros [l|]; [|done]. simpl.
    by destruct (update_flags running (set_rules s l (g_next_rule_id s))) as (_ & _ & _ & ->). }
  destruct op; simpl in Ha; simplify_eq.
  - destruct (add_rule_cases running al s name hosts ports domains proto act cfg)
      as [E|[E|(r & E & _)]]; rewrite E in *; simpl in *; try done.
    by destruct (update_flags running (set_rules s (rules_list s ++ [r]) (u32 (g_next_rule_id s + 1))))
      as (_ & _ & _ & ->).
  - destruct (enable_as_change running s id) as (l & E & _). rewrite E in *. by apply Hc.
  - destruct (disable_as_change running s id) as (l & E & _). rewrite E in *. by apply Hc.
  - destruct (delete_as_change running s id) as (l & E & _). rewrite E in *. by apply Hc.
  - destruct (edit_as_change running dup s id name hosts ports domains proto act cfg) as (l & E & _).
    rewrite E in *. by apply Hc.
  - destruct (ProxyBridge_MoveRuleToPosition s id position) as [s1| |] eqn:Hm; simplify_eq.
    destruct (move_spec _ _ _ _ Hop Hm) as (? & ? & ? & ? & ? & _ & _ & _ & _ & _ & -> & _). done.
Qed.

(** ** What each call does *)

Lemma position_absent id rules p :
  Forall (fun r => rule_id r <> id) rules -> position_from id rules p = 0.
Proof.
  revert p. induction rules as [|r rules IH]; intros p Hf; simpl; [done|].
  apply Forall_cons in Hf as [Hr Hf]. rewrite (proj2 (Z.eqb_neq _ _) Hr). by apply IH.
Qed.

Lemma NoDup_ids_split l1 r l2 :
  NoDup (rule_id <$> l1 ++ r :: l2) ->
  Forall (fun x => rule_id x <> rule_id r) l1 /\ Forall (fun x => rule_id x <> rule_id r) l2.
Proof.
  rewrite fmap_app, fmap_cons. intros (_ & Hd & Hr)%NoDup_app. apply NoDup_cons in Hr as [Hr _].
  split; apply Forall_forall; intros x Hx Heq.
  - apply (Hd (rule_id x)); [by apply list_elem_of_fmap_2|]. rewrite Heq. left.
  - apply Hr. rewrite <- Heq. by apply list_elem_of_fmap_2.
Qed.

(** A moved rule is found at the requested position, or at the end when that is
    beyond it; the other rules keep their order, and nothing is lost. *)
Theorem move_lands s id np s' :
  rules_wf s -> 0 <= np -> Z.of_nat (length (rules_list s)) < 2 ^ 32 ->
  ProxyBridge_MoveRuleToPosition s id np = Moved s' ->
  ProxyBridge_GetRulePosition s' id = Z.min np (Z.of_nat (length (rules_list s))) /\
  rules_list s' ≡ₚ rules_list s /\
  filter (fun r => rule_id r <> id) (rules_list s') = filter (fun r => rule_id r <> id) (rules_list s).
Proof.
  intros Hwf Hnp Hlen Hm.
  destruct (move_wf _ _ _ _ Hnp Hwf Hm) as ([Hnd Hf _ _ _] & Hp & _).
  destruct (move_spec _ _ _ _ Hnp Hm) as (r & l1 & l2 & k1 & k2 & Hl & Hid & Hl' & Hk & Hlk & _).
  assert (id <> 0) as Hid0.
  { rewrite Hl', Forall_app, Forall_cons in Hf. lia. }
  split_and!; [|done|].
  - unfold ProxyBridge_GetRulePosition. rewrite (proj2 (Z.eqb_neq _ _) Hid0), Hl'.
    rewrite Hl' in Hnd. apply NoDup_ids_split in Hnd as [Hk1 _]. rewrite Hid in Hk1.
    rewrite position_from_spec; [lia|done|done|lia|lia].
  - rewrite Hl, Hl', !filter_app, !filter_cons_False by (by intros []).
    by rewrite <- !filter_app, Hk.
Qed.

(** The move fails only for an unknown rule or a zero argument, and it crashes
    exactly when the list holds nothing but the moved rule and the position is
    beyond the first. *)
Theorem move_outcomes s id np :
  0 <= np ->
  (ProxyBridge_MoveRuleToPosition s id np = NotMoved <->
     id = 0 \/ np = 0 \/ Forall (fun r => rule_id r <> id) (rules_list s)) /\
  (ProxyBridge_MoveRuleToPosition s id np = MoveCrash <->
     id <> 0 /\ 2 <= np /\ exists r, rules_list s = [r] /\ rule_id r = id).
Proof.
  intros Hnp. unfold ProxyBridge_MoveRuleToPosition. rewrite <- unlink_rule_None.
  destruct (Z.eqb_spec id 0) as [->|Hi]; [split; split; [by left|done|done|by intros (? & _)]|].
  destruct (Z.eqb_spec np 0) as [->|Hz]; [split; split; [by right; left|done|done|lia]|]. simpl.
  destruct (unlink_rule id (rules_list s)) as [[r rest]|] eqn:E.
  2:{ split; split; auto; [done|]. intros (_ & _ & r & Hr & Hid).
      rewrite Hr in E. simpl in E. rewrite Hid, Z.eqb_refl in E. done. }
  apply unlink_rule_spec in E as (l1 & l2 & Hl & -> & Hid).
  assert (forall P : Prop, (exists x, rules_list s = [x] /\ rule_id x = id) <-> l1 ++ l2 = []) as Hone.
  { intros _. rewrite Hl. split.
    - intros (x & Hx & _). destruct l1 as [|? [|]], l2; by simplify_eq/=.
    - intros [-> ->]%app_nil. by exists r. }
  specialize (Hone True).
  destruct (Z.eqb_spec np 1); [split; split; try done; try lia; intros [?|[?|?]]; done|].
  pose proof (insert_after_spec (l1 ++ l2) 1 np r ltac:(lia)) as Hia.
  destruct (insert_after _ _ _ _) as [l|].
  - split; split; try done; [by intros [?|[?|?]]|]. intros (_ & _ & Hx%Hone).
    destruct Hia as (k1 & k2 & Hk & _ & Hlk). rewrite Hx in Hk.
    destruct k1; [simpl in Hlk; lia|done].
  - destruct (l1 ++ l2); split; split; try done; try (by intros [?|[?|?]]).
    + intros _. split_and!; [done|lia|by apply Hone].
    + by intros (_ & _ & ?%Hone).
Qed.

(** An added rule is enabled, is evaluated last, and holds its arguments cut to
    the buffer sizes, with "*" for the missing lists; a failed add leaves the
    rules alone. *)
Theorem add_rule_appends running al s n h p d pr a c s' id :
  rules_wf s -> Z.of_nat (length (rules_list s)) + 1 < 2 ^ 32 ->
  ProxyBridge_AddRule running al s n h p d pr a c = (s', id) ->
  if id =? 0 then rules_list s' = rules_list s
  else exists r, rules_list s' = rules_list s ++ [r] /\
         r = mkRule id (strncpy_trunc MAX_PROCESS_NAME (default [] n)) (list_or_star h)
               (list_or_star p) (Some (list_or_star d)) pr a c true /\
         ProxyBridge_GetRulePosition s' id = Z.of_nat (length (rules_list s)) + 1.
Proof.
  intros Hwf Hlen Ha. pose proof (rw_next _ Hwf).
  destruct (add_rule_cases running al s n h p d pr a c) as [E|[E|(r & E & Hid & ? & ? & ? & ? & ? & ? & ? & ?)]];
    rewrite E in Ha; simplify_eq; simpl; try done.
  rewrite (proj2 (Z.eqb_neq _ _)) by lia. exists r.
  destruct (update_flags running (set_rules s (rules_list s ++ [r]) (u32 (g_next_rule_id s + 1))))
    as (_ & Hr & _). rewrite Hr. simpl.
  split_and!; [done|by destruct r; simpl in *; subst|].
  unfold ProxyBridge_GetRulePosition. rewrite (proj2 (Z.eqb_neq _ _)) by lia. rewrite Hr. simpl.
  rewrite position_from_spec; [lia| |done|lia|lia].
  pose proof (rw_fresh _ Hwf) as Hf. eapply Forall_impl; [exact Hf|]. simpl. lia.
Qed.

Lemma filter_all {A} (P : A -> Prop) `{!forall x, Decision (P x)} l : Forall P l -> filter P l = l.
Proof. induction 1 as [|x l Hx _ IH]; [done|]. rewrite filter_cons_True by done. by rewrite IH. Qed.

(** Deletion takes out exactly the rule with the id. *)
Theorem delete_rule_removes running s id s' :
  rules_wf s -> ProxyBridge_DeleteRule running s id = (s', true) ->
  rules_list s' = filter (fun r => rule_id r <> id) (rules_list s) /\
  ProxyBridge_GetRulePosition s' id = 0.
Proof.
  intros Hwf. unfold ProxyBridge_DeleteRule. case_match; [done|]. bool_prop.
  destruct (unlink_rule id (rules_list s)) as [[r l]|] eqn:E; [|done]. simpl. intros Hd.
  apply unlink_rule_spec in E as (l1 & l2 & Hl & -> & Hid). simplify_eq.
  destruct (update_flags running (set_rules s (l1 ++ l2) (g_next_rule_id s))) as (_ & Hr & _).
  pose proof (rw_ids _ Hwf) as Hnd. rewrite Hl in Hnd. apply NoDup_ids_split in Hnd as [H1 H2].
  unfold ProxyBridge_GetRulePosition. rewrite Hr, (proj2 (Z.eqb_neq _ _)) by done. simpl.
  split; [|by apply position_absent, Forall_app].
  rewrite Hl, filter_app, filter_cons_False by (by intros []).
  by rewrite !filter_all.
Qed.

(** An edit keeps the id, the place and the enabled state of the rule and
    touches no other rule. *)
Theorem edit_rule_in_place running dup s id n h p d pr a c s' :
  rules_wf s -> ProxyBridge_EditRule running dup s id n h p d pr a c = (s', true) ->
  exists l1 r l2, rules_list s = l1 ++ r :: l2 /\ rule_id r = id /\
    rules_list s' =
      l1 ++ mkRule id (strncpy_trunc MAX_PROCESS_NAME (default [] n)) (default [] h) (default [] p)
              (Some (match d with Some (x :: d) => x :: d | _ => s_star end)) pr a c (enabled r) :: l2 /\
    ProxyBridge_GetRulePosition s' id = ProxyBridge_GetRulePosition s id.
Proof.
  intros Hwf. unfold ProxyBridge_EditRule. destruct dup as [[d1 d2] d3].
  destruct (Z.eqb_spec id 0) as [|Hz]; [done|]. destruct n as [n|], h as [h|], p as [p|]; try done.
  destruct (negb _); [done|]. destruct (change_rule _ _ _) as [l|] eqn:E; [|done]. simpl.
  apply change_rule_spec in E as (l1 & r & l2 & Hl & -> & Hid & Hf). intros ?; simplify_eq.
  exists l1, r, l2. unfold ProxyBridge_GetRulePosition. rewrite (proj2 (Z.eqb_neq _ _) Hz).
  match goal with |- context [update_has_active_rules ?b ?t] =>
    destruct (update_flags b t) as (_ & -> & _) end.
  split_and!; try done. simpl. rewrite Hl. generalize 1. clear -Hf.
  induction l1 as [|x l1 IH]; intros q; simpl; [by rewrite Z.eqb_refl|].
  apply Forall_cons in Hf as [Hx Hf]. rewrite (proj2 (Z.eqb_neq _ _) Hx). by apply IH.
Qed.

(** A disabled rule decides nothing. *)
Theorem disabled_never_selected `{Platform} running s id s' mh dns name port udp dom r :
  rules_wf s -> ProxyBridge_DisableRule running s id = (s', true) ->
  selected_rule mh dns name port udp dom (rules_list s') = Some r -> rule_id r <> id.
Proof.
  intros Hwf. unfold ProxyBridge_DisableRule. case_match; [done|]. bool_prop.
  destruct (change_rule _ _ _) as [l|] eqn:E; [|done]. intros Hd Hs Hid. simpl in Hd.
  apply change_rule_spec in E as (l1 & x & l2 & Hl & -> & Hx & _).
  match type of Hd with (update_has_active_rules ?b ?t, _) = _ =>
    destruct (update_flags b t) as (_ & Hr & _) end.
  simplify_eq. rewrite Hr in Hs. simpl in Hs.
  assert (enabled r = true /\ r ∈ l1 ++ set_enabled false x :: l2) as [He Hin].
  { unfold selected_rule in Hs. destruct (List.find (specific _ _ _ _ _ _) _) as [y|] eqn:Ey; simplify_eq.
    - apply find_Some_elem in Ey as [? Hy]. unfold specific, applicable in Hy. by bool_prop.
    - apply find_Some_elem in Hs as [? Hy]. unfold catch_all, applicable in Hy. by bool_prop. }
  pose proof (rw_ids _ Hwf) as Hnd. rewrite Hl in Hnd. apply NoDup_ids_split in Hnd as [H1 H2].
  rewrite !Forall_forall in *. apply elem_of_app in Hin as [Hin|Hin]; [by eapply H1|].
  apply elem_of_cons in Hin as [->|Hin]; [done|by eapply H2].
Qed.
