(* ===== verification/Policy.v ===== *)
(** * The decision for a connection (check_process_rule, check_process_rule_v6)

    Loopback bypass, owner resolution, image name, rule matching and the
    fail-closed checks of the proxy configuration, composed as in pb_rules.c. *)
From S2P Require Import Prelude CLib HashTable Util Types Matching ProxyConfig Dns Process Rules.

(** The switches of ProxyBridge.c that the decision reads. *)
Record Switches := mkSwitches {
  g_loopback_bypass_enabled : bool;
  g_fail_closed_on_unknown_owner : bool;
  g_proxy_udp_dns_enabled : bool;
  g_current_process_id : Z
}.

(** The shared state the decision reads; the owner caches are updated by it and
    passed apart. *)
Record PolicyState := mkPolicy {
  p_switches : Switches;
  p_rules : RuleStore;
  p_proxies : list PROXY_CONFIG;
  p_dns : DnsCaches
}.

Record decision := mkDecision { d_action : RuleAction; d_pid : Z; d_config : Z }.

Definition direct_or_block (sw : Switches) : RuleAction :=
  if g_fail_closed_on_unknown_owner sw then RULE_ACTION_BLOCK else RULE_ACTION_DIRECT.

Definition proxy_unusable (is_udp : bool) (cfg : option PROXY_CONFIG) : bool :=
  match cfg with
  | None => true
  | Some c => is_empty (host c) || (pc_port c =? 0) ||
              (is_udp && bool_decide (pc_type c = PROXY_TYPE_HTTP))
  end.

Section Check.
Context `{Platform} `{ProcessImages}.

(** From the owner on; [matcher] is the rule matcher of the address family. *)
Definition check_owner (p : PolicyState) (matcher : bytes -> RuleAction * Z) (is_udp : bool) (pid : Z)
  : decision :=
  if pid =? 0 then mkDecision (direct_or_block (p_switches p)) 0 0
  else if pid =? g_current_process_id (p_switches p) then mkDecision RULE_ACTION_DIRECT pid 0
  else match get_process_name_from_pid pid MAX_PROCESS_NAME with
       | None => mkDecision (direct_or_block (p_switches p)) pid 0
       | Some name =>
           let '(act, cfg_id) := matcher name in
           match act with
           | RULE_ACTION_PROXY =>
               if proxy_unusable is_udp (find_proxy_config (p_proxies p) cfg_id)
               then mkDecision RULE_ACTION_BLOCK pid 0
               else mkDecision act pid cfg_id
           | _ => mkDecision act pid cfg_id
           end
       end.

(** [None] while the bounded owner lookup still waits at the end of [turns];
    [start] is the clock at the call and [now] when the rules are matched. *)
Definition check_process_rule (p : PolicyState) (start now src_ip src_port dest_ip dest_port : Z)
    (is_udp : bool) (turns : list (Turn Z)) (ow : Owners) : option (Owners * decision) :=
  if g_loopback_bypass_enabled (p_switches p) && is_loopback_v4 src_ip && is_loopback_v4 dest_ip
  then Some (ow, mkDecision RULE_ACTION_DIRECT 0 0)
  else match resolve_process_owner_v4 start src_ip src_port dest_ip dest_port is_udp turns ow with
       | Waiting _ => None
       | Resolved ow pid =>
           Some (ow, check_owner p
                       (fun name => match_rule_inner (g_proxy_udp_dns_enabled (p_switches p))
                                      (p_rules p) (p_dns p) now name dest_ip dest_port is_udp)
                       is_udp pid)
       end.

Definition check_process_rule_v6 (p : PolicyState) (start now : Z) (src_ip6 : bytes) (src_port : Z)
    (dest_ip6 : bytes) (dest_port : Z) (is_udp : bool) (turns : list (Turn bytes)) (ow : Owners)
  : option (Owners * decision) :=
  if g_loopback_bypass_enabled (p_switches p) && is_loopback_v6 src_ip6 && is_loopback_v6 dest_ip6
  then Some (ow, mkDecision RULE_ACTION_DIRECT 0 0)
  else match resolve_process_owner_v6 start src_ip6 src_port dest_ip6 dest_port is_udp turns ow with
       | Waiting _ => None
       | Resolved ow pid =>
           Some (ow, check_owner p
                       (fun name => match_rule_v6_inner (g_proxy_udp_dns_enabled (p_switches p))
                                      (p_rules p) (p_dns p) now name dest_ip6 dest_port is_udp)
                       is_udp pid)
       end.

(** ** The contract *)

(** A configuration traffic may be sent through. *)
Definition carries (is_udp : bool) (c : PROXY_CONFIG) : Prop :=
  host c <> [] /\ pc_port c <> 0 /\ (is_udp = true -> pc_type c = PROXY_TYPE_SOCKS5).

(** The configuration a rule names; [find_proxy_config] gives the first one for
    an unknown id. *)
Definition usable (p : PolicyState) (is_udp : bool) (id : Z) : Prop :=
  exists c, find_proxy_config (p_proxies p) id = Some c /\ carries is_udp c.

(** What is decided for the owner [pid], by cases; [rule] is what the rules say
    for the name of a process. *)
Inductive decides (p : PolicyState) (is_udp : bool) (rule : bytes -> RuleAction * Z) (pid : Z)
  : decision -> Prop :=
| own_process :
    pid <> 0 -> pid = g_current_process_id (p_switches p) ->
    decides p is_udp rule pid (mkDecision RULE_ACTION_DIRECT pid 0)
| owner_unknown :
    pid = 0 \/ (pid <> g_current_process_id (p_switches p) /\
                get_process_name_from_pid pid MAX_PROCESS_NAME = None) ->
    decides p is_udp rule pid
      (mkDecision (if g_fail_closed_on_unknown_owner (p_switches p) then RULE_ACTION_BLOCK
                   else RULE_ACTION_DIRECT) pid 0)
| rule_decides name a id :
    pid <> 0 -> pid <> g_current_process_id (p_switches p) ->
    get_process_name_from_pid pid MAX_PROCESS_NAME = Some name ->
    rule name = (a, id) -> a <> RULE_ACTION_PROXY ->
    decides p is_udp rule pid (mkDecision a pid id)
| rule_proxies name id :
    pid <> 0 -> pid <> g_current_process_id (p_switches p) ->
    get_process_name_from_pid pid MAX_PROCESS_NAME = Some name ->
    rule name = (RULE_ACTION_PROXY, id) -> usable p is_udp id ->
    decides p is_udp rule pid (mkDecision RULE_ACTION_PROXY pid id)
| rule_unusable name id :
    pid <> 0 -> pid <> g_current_process_id (p_switches p) ->
    get_process_name_from_pid pid MAX_PROCESS_NAME = Some name ->
    rule name = (RULE_ACTION_PROXY, id) -> ~ usable p is_udp id ->
    decides p is_udp rule pid (mkDecision RULE_ACTION_BLOCK pid 0).

Lemma proxy_unusable_spec p is_udp id :
  proxy_unusable is_udp (find_proxy_config (p_proxies p) id) = false <-> usable p is_udp id.
Proof.
  unfold proxy_unusable, usable, carries. destruct (find_proxy_config _ _) as [c|]; [|split; [done|by intros (? & ? & _)]].
  rewrite !orb_false_iff, andb_false_iff, bool_decide_eq_false, Z.eqb_neq. split.
  - intros [[Hh Hp] Ht]. exists c. split_and!; [done|by destruct (host c)|done|].
    intros ->. destruct Ht; [done|]. by destruct (pc_type c).
  - intros (? & ? & Hh & Hp & Ht). simplify_eq. split_and!; [by destruct (host _)|done|].
    destruct is_udp; [right; by rewrite Ht|by left].
Qed.

(** The cases exclude each other and leave nothing out. *)
Lemma check_owner_decides p rule is_udp pid d :
  d = check_owner p rule is_udp pid <-> decides p is_udp rule pid d.
Proof.
  assert (forall id, proxy_unusable is_udp (find_proxy_config (p_proxies p) id) = true <-> ~ usable p is_udp id) as Hu.
  { intros id. rewrite <- proxy_unusable_spec. by destruct (proxy_unusable _ _). }
  unfold check_owner, direct_or_block. split.
  - intros ->. destruct (Z.eqb_spec pid 0) as [->|Hz]; [apply owner_unknown; by left|].
    destruct (Z.eqb_spec pid (g_current_process_id (p_switches p))); [by apply own_process|].
    destruct (get_process_name_from_pid pid MAX_PROCESS_NAME) as [name|] eqn:En; [|apply owner_unknown; by right].
    destruct (rule name) as [[] id] eqn:Er; [|by eapply rule_decides..].
    destruct (proxy_unusable _ _) eqn:Eu; [by eapply rule_unusable; [..|apply Hu]|].
    by eapply rule_proxies; [..|apply proxy_unusable_spec].
  - intros [Hz Hc|[->|[Hc Hn]]|name a id Hz Hc Hn Hr Ha|name id Hz Hc Hn Hr Hus|name id Hz Hc Hn Hr Hus].
    + by rewrite (proj2 (Z.eqb_neq _ _) Hz), (proj2 (Z.eqb_eq _ _) Hc).
    + done.
    + destruct (Z.eqb_spec pid 0) as [->|]; [done|]. by rewrite (proj2 (Z.eqb_neq _ _) Hc), Hn.
    + rewrite (proj2 (Z.eqb_neq _ _) Hz), (proj2 (Z.eqb_neq _ _) Hc), Hn, Hr. by destruct a.
    + rewrite (proj2 (Z.eqb_neq _ _) Hz), (proj2 (Z.eqb_neq _ _) Hc), Hn, Hr. by apply proxy_unusable_spec in Hus as ->.
    + rewrite (proj2 (Z.eqb_neq _ _) Hz), (proj2 (Z.eqb_neq _ _) Hc), Hn, Hr. by apply Hu in Hus as ->.
Qed.

Lemma decides_ext p is_udp r1 r2 pid d :
  (forall n, r1 n = r2 n) -> decides p is_udp r1 pid d <-> decides p is_udp r2 pid d.
Proof.
  intros He. rewrite <- !check_owner_decides. unfold check_owner.
  destruct (get_process_name_from_pid _ _); [by rewrite He|done].
Qed.

(** What the rules say, by the reference of the rule matcher. *)
Definition rules_v4 (p : PolicyState) (now dest_ip dest_port : Z) (is_udp : bool) (name : bytes)
  : RuleAction * Z :=
  rule_outcome
    (selected_rule (fun hosts => match_ip_list (Some hosts) dest_ip)
       (g_proxy_udp_dns_enabled (p_switches p)) name dest_port is_udp
       (dns_cache_lookup now (p_dns p) dest_ip 256) (rules_list (p_rules p))).

Definition rules_v6 (p : PolicyState) (now : Z) (dest_ip6 : bytes) (dest_port : Z) (is_udp : bool)
    (name : bytes) : RuleAction * Z :=
  rule_outcome
    (selected_rule (fun hosts => match_ip_list_v6 (Some hosts) dest_ip6)
       (g_proxy_udp_dns_enabled (p_switches p)) name dest_port is_udp
       (dns_cache_lookup_v6 now (p_dns p) dest_ip6 256) (rules_list (p_rules p))).

(** C1: The IPv4 decision, exactly.  With the bypass on, traffic between loopback
    addresses is DIRECT before an owner is looked for and no cache changes.  All
    other traffic is decided by the owner the lookup ends with, by the cases of
    [decides] and by nothing else: DIRECT for the program's own process; BLOCK or
    DIRECT, by the fail-closed switch, for an owner that is not found or has no
    name; otherwise what the selected rule says, except that PROXY becomes BLOCK
    when the configuration found for the rule cannot carry the traffic.  There is
    no decision only while the owner lookup still waits. *)
Theorem check_process_rule_decided p start now src_ip src_port dest_ip dest_port is_udp turns ow ow' d :
  flags_ok (p_rules p) ->
  let bypass := g_loopback_bypass_enabled (p_switches p) = true /\ is_loopback_v4 src_ip = true /\
                is_loopback_v4 dest_ip = true in
  check_process_rule p start now src_ip src_port dest_ip dest_port is_udp turns ow = Some (ow', d) <->
  (bypass /\ ow' = ow /\ d = mkDecision RULE_ACTION_DIRECT 0 0) \/
  (~ bypass /\ exists pid,
     resolve_process_owner_v4 start src_ip src_port dest_ip dest_port is_udp turns ow = Resolved ow' pid /\
     decides p is_udp (rules_v4 p now dest_ip dest_port is_udp) pid d).
Proof.
  intros Hfl bypass. unfold check_process_rule.
  assert (g_loopback_bypass_enabled (p_switches p) && is_loopback_v4 src_ip && is_loopback_v4 dest_ip = true <-> bypass) as Hb
    by (unfold bypass; rewrite !andb_true_iff; tauto).
  destruct (_ && _) eqn:E in Hb |- *; [assert bypass by by apply Hb|assert (~ bypass) by by rewrite <- Hb].
  { split; [intros [= <- <-]; auto|by intros [(_ & -> & ->)|[? _]]]. }
  destruct (resolve_process_owner_v4 _ _ _ _ _ _ _ _) as [ow1 pid|];
    [|split; [done|by intros [[? _]|(_ & ? & ? & _)]]].
  split.
  - intros [= <- <-]. right. split; [done|]. exists pid. split; [done|]. eapply decides_ext;
      [|by apply check_owner_decides]. intros n. symmetry. by apply rule_loop_fast_path.
  - intros [[? _]|(_ & pid' & [= <- <-] & Hd)]; [done|]. do 2 f_equal. symmetry. apply check_owner_decides.
    eapply decides_ext; [|exact Hd]. intros n. by apply rule_loop_fast_path.
Qed.

(** The IPv6 decision obeys the same contract. *)
Theorem check_process_rule_v6_decided p start now src_ip6 src_port dest_ip6 dest_port is_udp turns ow ow' d :
  flags_ok (p_rules p) ->
  let bypass := g_loopback_bypass_enabled (p_switches p) = true /\ is_loopback_v6 src_ip6 = true /\
                is_loopback_v6 dest_ip6 = true in
  check_process_rule_v6 p start now src_ip6 src_port dest_ip6 dest_port is_udp turns ow = Some (ow', d) <->
  (bypass /\ ow' = ow /\ d = mkDecision RULE_ACTION_DIRECT 0 0) \/
  (~ bypass /\ exists pid,
     resolve_process_owner_v6 start src_ip6 src_port dest_ip6 dest_port is_udp turns ow = Resolved ow' pid /\
     decides p is_udp (rules_v6 p now dest_ip6 dest_port is_udp) pid d).
Proof.
  intros Hfl bypass. unfold check_process_rule_v6.
  assert (g_loopback_bypass_enabled (p_switches p) && is_loopback_v6 src_ip6 && is_loopback_v6 dest_ip6 = true <-> bypass) as Hb
    by (unfold bypass; rewrite !andb_true_iff; tauto).
  destruct (_ && _) eqn:E in Hb |- *; [assert bypass by by apply Hb|assert (~ bypass) by by rewrite <- Hb].
  { split; [intros [= <- <-]; auto|by intros [(_ & -> & ->)|[? _]]]. }
  destruct (resolve_process_owner_v6 _ _ _ _ _ _ _ _) as [ow1 pid|];
    [|split; [done|by intros [[? _]|(_ & ? & ? & _)]]].
  split.
  - intros [= <- <-]. right. split; [done|]. exists pid. split; [done|]. eapply decides_ext;
      [|by apply check_owner_decides]. intros n. symmetry. by apply rule_loop_fast_path.
  - intros [[? _]|(_ & pid' & [= <- <-] & Hd)]; [done|]. do 2 f_equal. symmetry. apply check_owner_decides.
    eapply decides_ext; [|exact Hd]. intros n. by apply rule_loop_fast_path.
Qed.
End Check.
