(* ===== verification/ConnTrack.v ===== *)
(** * Connection tracking (pb_conntrack.c)

    The table of tracked flows with its two indexes: the forward chains by
    local port and the reverse chains by original destination.  Nodes live in a
    heap and the chains hold pointers, as in the source: an operation that
    follows a dangling pointer has the result [None], so memory safety is a
    theorem.  [now] is the clock of the call. *)
From S2P Require Import Prelude HashTable Types Process.

Definition CONNECTION_HASH_SIZE : Z := 4096.

Record CONNECTION_INFO := mkConn {
  src_port : Z;
  c_is_udp : bool;
  src_ip : Z;
  orig_dest_ip : Z;
  orig_dest_port : Z;
  is_tracked : bool;
  fin_flags : Z;
  policy_generation : Z;
  last_activity : Z;
  c_proxy_config_id : Z;
  is_ipv6 : bool;
  src_ip6 : bytes;
  orig_dest_ip6 : bytes;
  rev_bucket : Z;
  in_rev : bool
}.

(** Addresses of the heap are [Z]; a chain is the list of its nodes. *)
Record ConnTable := mkConnTable {
  heap : gmap Z CONNECTION_INFO;
  connection_hash_table : list (list Z);
  connection_rev_table : list (list Z)
}.

Definition conn_init : ConnTable :=
  mkConnTable ∅ (replicate (Z.to_nat CONNECTION_HASH_SIZE) [])
    (replicate (Z.to_nat CONNECTION_HASH_SIZE) []).

Definition rev_hash_v4 (dest_ip dest_port : Z) : Z :=
  Z.lxor (u32 (dest_ip * 2654435761)) (u32 (dest_port * 40503)) mod CONNECTION_HASH_SIZE.

Definition rev_hash_v6 (dest_ip6 : bytes) (dest_port : Z) : Z :=
  fold_left (fun h b => u32 (h * 31 + b)) (take 16 dest_ip6) (u32 (dest_port * 40503))
  mod CONNECTION_HASH_SIZE.

Definition rev_hash (c : CONNECTION_INFO) : Z :=
  if is_ipv6 c then rev_hash_v6 (orig_dest_ip6 c) (orig_dest_port c)
  else rev_hash_v4 (orig_dest_ip c) (orig_dest_port c).

Definition fwd_hash (port : Z) : Z := port mod CONNECTION_HASH_SIZE.

Definition set_rev (c : CONNECTION_INFO) (b : Z) (linked : bool) : CONNECTION_INFO :=
  mkConn (src_port c) (c_is_udp c) (src_ip c) (orig_dest_ip c) (orig_dest_port c) (is_tracked c)
         (fin_flags c) (policy_generation c) (last_activity c) (c_proxy_config_id c) (is_ipv6 c)
         (src_ip6 c) (orig_dest_ip6 c) b linked.

Definition rev_insert (s : ConnTable) (p : Z) : option ConnTable :=
  c ← heap s !! p;
  let b := rev_hash c in
  Some (mkConnTable (<[p := set_rev c b true]> (heap s)) (connection_hash_table s)
          (set_bucket (connection_rev_table s) b (p :: bucket (connection_rev_table s) b))).

(** Unlink pointer [p] from a chain, reading the nodes before it. *)
Fixpoint unlink_ptr (h : gmap Z CONNECTION_INFO) (p : Z) (l : list Z) : option (list Z) :=
  match l with
  | [] => Some []
  | x :: l => if x =? p then Some l
              else match h !! x with
                   | None => None
                   | Some _ => option_map (cons x) (unlink_ptr h p l)
                   end
  end.

Definition rev_unlink (s : ConnTable) (p : Z) : option ConnTable :=
  c ← heap s !! p;
  if negb (in_rev c) then Some s
  else
    l ← unlink_ptr (heap s) p (bucket (connection_rev_table s) (rev_bucket c));
    Some (mkConnTable (<[p := set_rev c (rev_bucket c) false]> (heap s)) (connection_hash_table s)
            (set_bucket (connection_rev_table s) (rev_bucket c) l)).

(** Walk a chain to the first node that satisfies [q]: [Some None] at its end. *)
Fixpoint chain_find (h : gmap Z CONNECTION_INFO) (q : CONNECTION_INFO -> bool) (l : list Z)
  : option (option Z) :=
  match l with
  | [] => Some None
  | p :: l => match h !! p with
              | None => None
              | Some c => if q c then Some (Some p) else chain_find h q l
              end
  end.

(** The key of a flow: local port, protocol and family. *)
Definition flow_is (port : Z) (udp v6 : bool) (c : CONNECTION_INFO) : bool :=
  (src_port c =? port) && Bool.eqb (c_is_udp c) udp && Bool.eqb (is_ipv6 c) v6.

Definition ct_find (s : ConnTable) (port : Z) (udp v6 : bool) : option (option Z) :=
  chain_find (heap s) (flow_is port udp v6) (bucket (connection_hash_table s) (fwd_hash port)).

Definition set_node (s : ConnTable) (p : Z) (c : CONNECTION_INFO) : ConnTable :=
  mkConnTable (<[p := c]> (heap s)) (connection_hash_table s) (connection_rev_table s).

(** ** Adding a flow

    [alloc] is the address [calloc] returns, [None] when it fails; [generation]
    is [g_udp_generation] at the call. *)

(** The node of an existing flow, taken over for a new destination. *)
Definition readdress (s : ConnTable) (p : Z) (f : CONNECTION_INFO -> CONNECTION_INFO) : option ConnTable :=
  s ← rev_unlink s p;
  c ← heap s !! p;
  rev_insert (set_node s p (f c)) p.

(** A fresh node, prepended to its forward chain. *)
Definition link_new (s : ConnTable) (alloc : option Z) (c : CONNECTION_INFO) : option ConnTable :=
  match alloc with
  | None => Some s
  | Some p =>
      let h := fwd_hash (src_port c) in
      rev_insert (mkConnTable (<[p := c]> (heap s))
                    (set_bucket (connection_hash_table s) h (p :: bucket (connection_hash_table s) h))
                    (connection_rev_table s)) p
  end.

Definition zero16 : bytes := replicate 16 0.

Definition add_connection (alloc : option Z) (now generation : Z) (s : ConnTable) (port : Z)
    (is_udp : bool) (ip dest_ip dest_port cfg : Z) : option ConnTable :=
  found ← ct_find s port is_udp false;
  match found with
  | Some p =>
      readdress s p (fun c => mkConn (src_port c) (c_is_udp c) ip dest_ip dest_port true 0 generation
                                now cfg false (src_ip6 c) (orig_dest_ip6 c) (rev_bucket c) (in_rev c))
  | None =>
      link_new s alloc (mkConn port is_udp ip dest_ip dest_port true 0 generation now cfg false
                          zero16 zero16 0 false)
  end.

Definition add_connection_v6 (alloc : option Z) (now generation : Z) (s : ConnTable) (port : Z)
    (is_udp : bool) (ip6 dest_ip6 : bytes) (dest_port cfg : Z) : option ConnTable :=
  found ← ct_find s port is_udp true;
  match found with
  | Some p =>
      readdress s p (fun c => mkConn (src_port c) (c_is_udp c) (src_ip c) (orig_dest_ip c) dest_port
                                true 0 generation now cfg true ip6 dest_ip6 (rev_bucket c) (in_rev c))
  | None =>
      link_new s alloc (mkConn port is_udp 0 0 dest_port true 0 generation now cfg true
                          ip6 dest_ip6 0 false)
  end.

(** ** Lookups *)

Definition touch (c : CONNECTION_INFO) (now : Z) : CONNECTION_INFO :=
  mkConn (src_port c) (c_is_udp c) (src_ip c) (orig_dest_ip c) (orig_dest_port c) (is_tracked c)
         (fin_flags c) (policy_generation c) now (c_proxy_config_id c) (is_ipv6 c)
         (src_ip6 c) (orig_dest_ip6 c) (rev_bucket c) (in_rev c).

(** A lookup that refreshes the activity time: the node found, if any. *)
Definition get_touch (now : Z) (s : ConnTable) (port : Z) (is_udp v6 : bool)
  : option (ConnTable * option CONNECTION_INFO) :=
  found ← ct_find s port is_udp v6;
  match found with
  | None => Some (s, None)
  | Some p => c ← heap s !! p; Some (set_node s p (touch c now), Some c)
  end.

Definition get_connection (now : Z) (s : ConnTable) (port : Z) (is_udp : bool)
  : option (ConnTable * option (Z * Z)) :=
  match get_touch now s port is_udp false with
  | None => None
  | Some (s, c) => Some (s, option_map (fun c => (orig_dest_ip c, orig_dest_port c)) c)
  end.

Definition get_connection_full (now : Z) (s : ConnTable) (port : Z) (is_udp : bool)
  : option (ConnTable * option (Z * Z * Z)) :=
  match get_touch now s port is_udp false with
  | None => None
  | Some (s, c) => Some (s, option_map (fun c => (orig_dest_ip c, orig_dest_port c, c_proxy_config_id c)) c)
  end.

Definition get_connection_full_v6 (now : Z) (s : ConnTable) (port : Z) (is_udp : bool)
  : option (ConnTable * option (bytes * Z * Z)) :=
  match get_touch now s port is_udp true with
  | None => None
  | Some (s, c) => Some (s, option_map (fun c => (orig_dest_ip6 c, orig_dest_port c, c_proxy_config_id c)) c)
  end.

Definition get_connection_proxy_id (s : ConnTable) (port : Z) (is_udp : bool) : option Z :=
  found ← ct_find s port is_udp false;
  match found with
  | None => Some 0
  | Some p => c ← heap s !! p; Some (c_proxy_config_id c)
  end.

Definition is_connection_tracked (s : ConnTable) (port : Z) (is_udp v6 : bool) : option bool :=
  found ← chain_find (heap s) (fun c => flow_is port is_udp v6 c && is_tracked c)
            (bucket (connection_hash_table s) (fwd_hash port));
  Some (bool_decide (is_Some found)).

(** The most recently active IPv6 UDP flow towards a destination. *)
Definition is_v6_sender (dest6 : bytes) (dport : Z) (c : CONNECTION_INFO) : bool :=
  c_is_udp c && is_ipv6 c && (orig_dest_port c =? dport) && memeq (orig_dest_ip6 c) dest6.

Fixpoint best_sender (q : CONNECTION_INFO -> bool) (h : gmap Z CONNECTION_INFO) (l : list Z)
    (best : option (Z * CONNECTION_INFO)) : option (option (Z * CONNECTION_INFO)) :=
  match l with
  | [] => Some best
  | p :: l =>
      match h !! p with
      | None => None
      | Some c =>
          let better := match best with
                        | None => true
                        | Some (_, b) => last_activity b <? last_activity c
                        end in
          best_sender q h l (if q c && better then Some (p, c) else best)
      end
  end.

Definition find_v6_udp_sender (s : ConnTable) (dest6 : bytes) (dport : Z) : option (option (bytes * Z)) :=
  option_map (option_map (fun '(_, c) => (src_ip6 c, src_port c)))
    (best_sender (is_v6_sender dest6 dport) (heap s)
       (bucket (connection_rev_table s) (rev_hash_v6 dest6 dport)) None).

(** ** Changes of a flow *)

Definition udp_flow_stamp (s : ConnTable) (port : Z) (v6 : bool) (generation : Z) : option ConnTable :=
  found ← ct_find s port true v6;
  match found with
  | None => Some s
  | Some p =>
      c ← heap s !! p;
      Some (set_node s p
              (mkConn (src_port c) (c_is_udp c) (src_ip c) (orig_dest_ip c) (orig_dest_port c)
                 (is_tracked c) (fin_flags c) generation (last_activity c) (c_proxy_config_id c)
                 (is_ipv6 c) (src_ip6 c) (orig_dest_ip6 c) (rev_bucket c) (in_rev c)))
  end.

Definition connection_fin (now : Z) (s : ConnTable) (port : Z) (v6 : bool) (bit : Z) : option ConnTable :=
  found ← ct_find s port false v6;
  match found with
  | None => Some s
  | Some p =>
      c ← heap s !! p;
      Some (set_node s p
              (mkConn (src_port c) (c_is_udp c) (src_ip c) (orig_dest_ip c) (orig_dest_port c)
                 (is_tracked c) (Z.lor (fin_flags c) bit) (policy_generation c) now (c_proxy_config_id c)
                 (is_ipv6 c) (src_ip6 c) (orig_dest_ip6 c) (rev_bucket c) (in_rev c)))
  end.

(** Unlink node [p] of forward chain [h], then from the reverse index, and free it. *)
Definition drop_node (s : ConnTable) (h p : Z) : option ConnTable :=
  l ← unlink_ptr (heap s) p (bucket (connection_hash_table s) h);
  s ← rev_unlink (mkConnTable (heap s) (set_bucket (connection_hash_table s) h l)
                    (connection_rev_table s)) p;
  Some (mkConnTable (delete p (heap s)) (connection_hash_table s) (connection_rev_table s)).

Definition remove_connection (s : ConnTable) (port : Z) (is_udp v6 : bool) : option ConnTable :=
  found ← ct_find s port is_udp v6;
  match found with
  | None => Some s
  | Some p => drop_node s (fwd_hash port) p
  end.

(** [generation] is [g_udp_generation] at the call. *)
Definition flow_valid (now generation : Z) (v6 : bool) (ip : Z) (ip6 : bytes) (dest : Z) (dest6 : bytes)
    (dport : Z) (c : CONNECTION_INFO) : bool :=
  let same := (orig_dest_port c =? dport) &&
              (if v6 then memeq (src_ip6 c) ip6 && memeq (orig_dest_ip6 c) dest6
               else (src_ip c =? ip) && (orig_dest_ip c =? dest)) in
  same && (policy_generation c =? generation) &&
  ((now <=? last_activity c) || (u64 (now - last_activity c) <=? 20000)).

Definition udp_flow_validate (now generation : Z) (s : ConnTable) (port : Z) (v6 : bool) (ip : Z)
    (ip6 : bytes) (dest : Z) (dest6 : bytes) (dport : Z) : option (ConnTable * bool) :=
  found ← ct_find s port true v6;
  match found with
  | None => Some (s, false)
  | Some p =>
      c ← heap s !! p;
      if flow_valid now generation v6 ip ip6 dest dest6 dport c
      then Some (set_node s p (touch c now), true)
      else s ← drop_node s (fwd_hash port) p; Some (s, false)
  end.

(** ** The periodic clean-up of flows *)

Definition CONNECTION_STALE_TIMEOUT_MS : Z := 1800000.

Definition conn_stale (now : Z) (c : CONNECTION_INFO) : bool :=
  (if fin_flags c =? 3 then 60000 else CONNECTION_STALE_TIMEOUT_MS) <? age now (last_activity c).

(** One bucket: every node of its chain in order. *)
Fixpoint cleanup_chain (now h : Z) (l : list Z) (s : ConnTable) : option ConnTable :=
  match l with
  | [] => Some s
  | p :: l =>
      c ← heap s !! p;
      s ← (if conn_stale now c then drop_node s h p else Some s);
      cleanup_chain now h l s
  end.

Fixpoint cleanup_buckets (now : Z) (n : nat) (s : ConnTable) : option ConnTable :=
  match n with
  | O => Some s
  | S n =>
      s ← cleanup_buckets now n s;
      cleanup_chain now (Z.of_nat n) (bucket (connection_hash_table s) (Z.of_nat n)) s
  end.

Definition cleanup_connections (now : Z) (s : ConnTable) : option ConnTable :=
  cleanup_buckets now (Z.to_nat CONNECTION_HASH_SIZE) s.

(** ** Indices of the heap *)

Lemma rev_hash_range c : 0 <= rev_hash c < CONNECTION_HASH_SIZE.
Proof.
  unfold rev_hash, rev_hash_v4, rev_hash_v6, CONNECTION_HASH_SIZE.
  case_match; apply Z.mod_pos_bound; lia.
Qed.

Lemma fwd_hash_range port : 0 <= fwd_hash port < CONNECTION_HASH_SIZE.
Proof. unfold fwd_hash, CONNECTION_HASH_SIZE. apply Z.mod_pos_bound. lia. Qed.

Section Index.
Context (hash : CONNECTION_INFO -> Z) (hash_bound : forall c, 0 <= hash c < CONNECTION_HASH_SIZE).
Implicit Types (h : gmap Z CONNECTION_INFO) (t : list (list Z)).

(** [t] lists every node of [h] exactly once, in the bucket of its hash. *)
Record indexed h t : Prop := {
  ix_length : Z.of_nat (length t) = CONNECTION_HASH_SIZE;
  ix_mem : forall b p, 0 <= b -> p ∈ bucket t b <-> exists c, h !! p = Some c /\ hash c = b;
  ix_nodup : forall b, 0 <= b -> NoDup (bucket t b)
}.

Lemma bucket_set t b b' l :
  Z.of_nat (length t) = CONNECTION_HASH_SIZE -> 0 <= b < CONNECTION_HASH_SIZE -> 0 <= b' ->
  bucket (set_bucket t b l) b' = if decide (b = b') then l else bucket t b'.
Proof. intros. case_decide as E; [subst; apply bucket_set_eq; lia|apply bucket_set_ne; lia]. Qed.

Lemma indexed_insert h t p c :
  indexed h t -> h !! p = None ->
  indexed (<[p := c]> h) (set_bucket t (hash c) (p :: bucket t (hash c))).
Proof.
  intros [Hl Hm Hn] Hp. pose proof (hash_bound c) as Hc.
  assert (forall b, 0 <= b -> p ∉ bucket t b) as Hnot.
  { intros b Hb (c' & Hc' & _)%Hm; [|done]. congruence. }
  split.
  - by rewrite length_set_bucket.
  - intros b p' Hb. rewrite bucket_set by done. destruct (decide (p = p')) as [<-|Hne].
    + rewrite lookup_insert_eq. case_decide as E.
      * split; [intros _; by exists c|intros _; left].
      * split; [by intros ?%Hnot|]. intros (c' & ? & ?). congruence.
    + rewrite lookup_insert_ne by done. rewrite <- Hm by done. case_decide; [|done]. subst b.
      rewrite elem_of_cons. split; [intros [->|?]; done|by right].
  - intros b Hb. rewrite bucket_set by done. case_decide; [|by apply Hn].
    constructor; [apply Hnot; lia|apply Hn; lia].
Qed.

Lemma elem_of_remove_ptr p p' l :
  NoDup l -> p' ∈ remove_first (fun x => x =? p) l <-> p' ∈ l /\ p' <> p.
Proof.
  induction l as [|x l IH]; intros Hn; simpl.
  { split; [by intros ?%elem_of_nil|by intros [?%elem_of_nil _]]. }
  apply NoDup_cons in Hn as [Hx Hn]. destruct (Z.eqb_spec x p) as [->|Hne].
  - rewrite elem_of_cons. split; [|naive_solver]. intros Hin. split; [by right|].
    intros ->. done.
  - rewrite !elem_of_cons, IH by done. naive_solver.
Qed.

Lemma NoDup_remove_ptr p l : NoDup l -> NoDup (remove_first (fun x => x =? p) l).
Proof. intros Hn. by eapply sublist_NoDup, remove_first_sublist. Qed.

Lemma indexed_delete h t p c :
  indexed h t -> h !! p = Some c ->
  indexed (delete p h)
    (set_bucket t (hash c) (remove_first (fun x => x =? p) (bucket t (hash c)))).
Proof.
  intros [Hl Hm Hn] Hp. pose proof (hash_bound c) as Hc. split.
  - by rewrite length_set_bucket.
  - intros b p' Hb. rewrite bucket_set by done. destruct (decide (p = p')) as [<-|Hne].
    + rewrite lookup_delete_eq. split; [|by intros (? & ? & _)]. case_decide as E.
      * intros [_ ?]%elem_of_remove_ptr; [done|apply Hn; lia].
      * intros (c' & ? & ?)%Hm; [|done]. congruence.
    + rewrite lookup_delete_ne by done. rewrite <- Hm by done. case_decide; [|done]. subst b.
      rewrite elem_of_remove_ptr by (apply Hn; lia). naive_solver.
  - intros b Hb. rewrite bucket_set by done. case_decide; [|by apply Hn].
    apply NoDup_remove_ptr, Hn. lia.
Qed.

Lemma indexed_update h t p c c' :
  indexed h t -> h !! p = Some c -> hash c' = hash c -> indexed (<[p := c']> h) t.
Proof.
  intros [Hl Hm Hn] Hp Hh. split; [done| |done]. intros b p' Hb. rewrite Hm by done.
  destruct (decide (p = p')) as [<-|Hne].
  - rewrite lookup_insert_eq, Hp. split; intros (x & ? & ?); simplify_eq; eexists; split; done || congruence.
  - by rewrite lookup_insert_ne.
Qed.

Lemma indexed_live h t b p : indexed h t -> 0 <= b -> p ∈ bucket t b -> is_Some (h !! p).
Proof. intros [_ Hm _] Hb (c & -> & _)%Hm; [eauto|done]. Qed.
End Index.

Arguments indexed_live {hash}.

(** ** The invariant of the table *)

Definition fwd_hash_of (c : CONNECTION_INFO) : Z := fwd_hash (src_port c).
Definition flow_key (c : CONNECTION_INFO) : Z * bool * bool := (src_port c, c_is_udp c, is_ipv6 c).

Record ct_wf (s : ConnTable) : Prop := {
  ct_fwd : indexed fwd_hash_of (heap s) (connection_hash_table s);
  ct_rev : indexed rev_hash (heap s) (connection_rev_table s);
  ct_linked : forall p c, heap s !! p = Some c ->
                in_rev c = true /\ rev_bucket c = rev_hash c /\ is_tracked c = true;
  ct_keys : forall p p' c c', heap s !! p = Some c -> heap s !! p' = Some c' ->
              flow_key c = flow_key c' -> p = p'
}.

Lemma conn_init_wf : ct_wf conn_init.
Proof.
  assert (forall hash, indexed hash ∅ (replicate (Z.to_nat CONNECTION_HASH_SIZE) [])) as Hi.
  { intros hash. split.
    - by rewrite length_replicate.
    - intros b p _. rewrite bucket_replicate. split; [by intros ?%elem_of_nil|].
      intros (c & Hc & _). by rewrite lookup_empty in Hc.
    - intros b _. rewrite bucket_replicate. constructor. }
  split; cbn [heap conn_init]; [apply Hi|apply Hi| |].
  - intros p c Hc. by rewrite lookup_empty in Hc.
  - intros p p' c c' Hc. by rewrite lookup_empty in Hc.
Qed.

Lemma unlink_ptr_live h p l :
  (forall x, x ∈ l -> is_Some (h !! x)) ->
  unlink_ptr h p l = Some (remove_first (fun x => x =? p) l).
Proof.
  induction l as [|x l IH]; intros Hl; simpl; [done|]. case_match; [done|].
  destruct (Hl x) as [c ->]; [left|]. rewrite IH; [done|]. intros y Hy. apply Hl. by right.
Qed.

Lemma chain_find_live h q l :
  (forall x, x ∈ l -> is_Some (h !! x)) ->
  (exists p c, chain_find h q l = Some (Some p) /\ p ∈ l /\ h !! p = Some c /\ q c = true) \/
  (chain_find h q l = Some None /\ forall p c, p ∈ l -> h !! p = Some c -> q c = false).
Proof.
  induction l as [|x l IH]; intros Hl; simpl.
  { right. split; [done|]. by intros ? ? ?%elem_of_nil. }
  destruct (Hl x) as [c Hc]; [left|]. rewrite Hc. destruct (q c) eqn:Hq.
  - left. exists x, c. split_and!; try done. left.
  - destruct IH as [(p & c' & -> & ? & ? & ?)|[-> Hn]]; [intros y ?; apply Hl; by right| |].
    + left. exists p, c'. split_and!; try done. by right.
    + right. split; [done|]. intros p c' [->|?]%elem_of_cons ?; [congruence|eauto].
Qed.

Lemma flow_is_key port udp v6 c : flow_is port udp v6 c = true <-> flow_key c = (port, udp, v6).
Proof.
  unfold flow_is, flow_key. rewrite !andb_true_iff, Z.eqb_eq, !eqb_true_iff. naive_solver.
Qed.

(** The search of the forward chain finds the node of a key. *)
Lemma ct_find_spec s port udp v6 :
  ct_wf s ->
  (exists p c, ct_find s port udp v6 = Some (Some p) /\ heap s !! p = Some c /\
               flow_key c = (port, udp, v6)) \/
  (ct_find s port udp v6 = Some None /\
   forall p c, heap s !! p = Some c -> flow_key c <> (port, udp, v6)).
Proof.
  intros Hwf. unfold ct_find. pose proof (fwd_hash_range port) as Hr.
  destruct (chain_find_live (heap s) (flow_is port udp v6)
    (bucket (connection_hash_table s) (fwd_hash port))) as [(p & c & -> & _ & Hc & Hq)|[-> Hn]].
  - intros x Hx. eapply indexed_live; [apply Hwf| |exact Hx]. lia.
  - left. exists p, c. split_and!; [done|done|by apply flow_is_key].
  - right. split; [done|]. intros p c Hc Hk. assert (flow_is port udp v6 c = false) as Hf.
    { apply (Hn p); [|done]. apply (ix_mem _ _ _ (ct_fwd _ Hwf)); [lia|]. exists c. split; [done|].
      unfold fwd_hash_of. unfold flow_key in Hk. by simplify_eq. }
    apply flow_is_key in Hk. congruence.
Qed.

(** The flow of a key. *)
Definition conn_of (s : ConnTable) (k : Z * bool * bool) : option CONNECTION_INFO :=
  match ct_find s k.1.1 k.1.2 k.2 with
  | Some (Some p) => heap s !! p
  | _ => None
  end.

Lemma conn_of_Some s k c : ct_wf s -> conn_of s k = Some c <-> exists p, heap s !! p = Some c /\ flow_key c = k.
Proof.
  intros Hwf. destruct k as [[port udp] v6]. unfold conn_of. simpl.
  destruct (ct_find_spec s port udp v6 Hwf) as [(p & c' & -> & Hp & Hk)|[-> Hn]].
  - rewrite Hp. split; [intros ?; simplify_eq; eauto|]. intros (p' & Hp' & Hk').
    rewrite (ct_keys _ Hwf p' p c c') in Hp'; congruence.
  - split; [done|]. intros (p & Hp & Hk). by apply Hn in Hp.
Qed.

Lemma conn_of_None s k : ct_wf s -> (forall p c, heap s !! p = Some c -> flow_key c <> k) -> conn_of s k = None.
Proof.
  intros Hwf Hn. destruct (conn_of s k) as [c|] eqn:E; [|done].
  apply conn_of_Some in E as (p & ? & ?); [|done]. by destruct (Hn p c).
Qed.

(** Two tables with the same nodes under a key have the same flow. *)
Lemma conn_of_ext s s' k :
  ct_wf s -> ct_wf s' ->
  (forall c, (exists p, heap s !! p = Some c /\ flow_key c = k) <->
             (exists p, heap s' !! p = Some c /\ flow_key c = k)) -> conn_of s k = conn_of s' k.
Proof.
  intros H1 H2 He. apply option_eq. intros c. by rewrite !conn_of_Some.
Qed.

(** ** Node operations keep the invariant *)

Lemma flow_key_fwd c c' : flow_key c' = flow_key c -> fwd_hash_of c' = fwd_hash_of c.
Proof. unfold flow_key, fwd_hash_of. intros ?; simplify_eq. congruence. Qed.

Lemma fwd_live s b p : ct_wf s -> 0 <= b -> p ∈ bucket (connection_hash_table s) b -> is_Some (heap s !! p).
Proof. intros Hwf. apply (indexed_live _ _ _ _ (ct_fwd _ Hwf)). Qed.

Lemma rev_live s b p : ct_wf s -> 0 <= b -> p ∈ bucket (connection_rev_table s) b -> is_Some (heap s !! p).
Proof. intros Hwf. apply (indexed_live _ _ _ _ (ct_rev _ Hwf)). Qed.

Lemma rev_unlink_ok s p c :
  ct_wf s -> heap s !! p = Some c ->
  rev_unlink s p =
  Some (mkConnTable (<[p := set_rev c (rev_hash c) false]> (heap s)) (connection_hash_table s)
          (set_bucket (connection_rev_table s) (rev_hash c)
             (remove_first (fun x => x =? p) (bucket (connection_rev_table s) (rev_hash c))))).
Proof.
  intros Hwf Hc. unfold rev_unlink. rewrite Hc. cbn [mbind option_bind].
  destruct (ct_linked _ Hwf _ _ Hc) as (-> & -> & _). simpl.
  rewrite unlink_ptr_live; [done|]. intros x. apply rev_live; [done|]. apply rev_hash_range.
Qed.

Lemma keys_insert s p c :
  ct_wf s ->
  (heap s !! p = None /\ (forall p' c', heap s !! p' = Some c' -> flow_key c' <> flow_key c)) \/
  (exists c0, heap s !! p = Some c0 /\ flow_key c0 = flow_key c) ->
  forall p1 p2 c1 c2, <[p := c]> (heap s) !! p1 = Some c1 -> <[p := c]> (heap s) !! p2 = Some c2 ->
    flow_key c1 = flow_key c2 -> p1 = p2.
Proof.
  intros Hwf Hp p1 p2 c1 c2. rewrite !lookup_insert.
  repeat case_decide; intros H1 H2; simplify_eq; intros Hk; try done.
  - destruct Hp as [[_ Hn]|(c0 & Hc0 & Hk0)].
    + exfalso. eapply Hn; [exact H2|congruence].
    + eapply (ct_keys _ Hwf); [exact Hc0|exact H2|congruence].
  - destruct Hp as [[_ Hn]|(c0 & Hc0 & Hk0)].
    + exfalso. eapply Hn; [exact H1|congruence].
    + eapply (ct_keys _ Hwf); [exact H1|exact Hc0|congruence].
  - by eapply (ct_keys _ Hwf).
Qed.

(** Writing a node without changing its key, destination or links. *)
Lemma set_node_wf s p c c' :
  ct_wf s -> heap s !! p = Some c -> flow_key c' = flow_key c -> rev_hash c' = rev_hash c ->
  in_rev c' = in_rev c -> rev_bucket c' = rev_bucket c -> is_tracked c' = is_tracked c ->
  ct_wf (set_node s p c').
Proof.
  intros Hwf Hc Hk Hr Hi Hb Ht. split; cbn [set_node heap connection_hash_table connection_rev_table].
  - eapply indexed_update; [apply Hwf|exact Hc|by apply flow_key_fwd].
  - by eapply indexed_update; [apply Hwf|exact Hc|].
  - intros q x. rewrite lookup_insert. case_decide; intros ?; simplify_eq; [|by eapply ct_linked].
    destruct (ct_linked _ Hwf _ _ Hc) as (? & ? & ?). split_and!; congruence.
  - apply keys_insert; [done|]. right. exists c. done.
Qed.

Lemma readdress_ok s p c f :
  ct_wf s -> heap s !! p = Some c ->
  (forall x, flow_key x = flow_key c -> flow_key (f x) = flow_key c) ->
  (forall x, is_tracked (f x) = true) ->
  exists s' c', readdress s p f = Some s' /\ ct_wf s' /\ heap s' = <[p := c']> (heap s) /\
    exists c0 b, c0 = set_rev c b false /\ c' = set_rev (f c0) (rev_hash (f c0)) true.
Proof.
  intros Hwf Hc Hk Ht. unfold readdress. rewrite (rev_unlink_ok _ _ _ Hwf Hc).
  cbn [mbind option_bind heap]. rewrite lookup_insert_eq. cbn [mbind option_bind].
  set (c0 := set_rev c (rev_hash c) false). set (c' := set_rev (f c0) (rev_hash (f c0)) true).
  unfold rev_insert, set_node. cbn [heap connection_hash_table connection_rev_table].
  rewrite lookup_insert_eq. cbn [mbind option_bind]. rewrite !insert_insert_eq.
  exists (mkConnTable (<[p := c']> (heap s)) (connection_hash_table s)
    (let t := set_bucket (connection_rev_table s) (rev_hash c)
               (remove_first (fun x => x =? p) (bucket (connection_rev_table s) (rev_hash c))) in
     set_bucket t (rev_hash (f c0)) (p :: bucket t (rev_hash (f c0))))), c'.
  assert (flow_key c' = flow_key c) as Hkc by (by apply (Hk c0)).
  split; [done|]. split; [|split; [done|by exists c0, (rev_hash c)]].
  split; cbn [heap connection_hash_table connection_rev_table].
  - eapply indexed_update; [apply Hwf|exact Hc|by apply flow_key_fwd].
  - rewrite <- insert_delete_eq. change (rev_hash (f c0)) with (rev_hash c').
    apply indexed_insert; [apply rev_hash_range| |apply lookup_delete_eq].
    apply indexed_delete; [apply rev_hash_range|apply Hwf|done].
  - intros q x. rewrite lookup_insert. case_decide; intros ?; simplify_eq; [|by eapply ct_linked].
    split_and!; [done|done|]. apply Ht.
  - apply keys_insert; [done|]. right. by exists c.
Qed.

Lemma link_new_ok s p c :
  ct_wf s -> heap s !! p = None -> (forall p' c', heap s !! p' = Some c' -> flow_key c' <> flow_key c) ->
  is_tracked c = true ->
  exists s', link_new s (Some p) c = Some s' /\ ct_wf s' /\
             heap s' = <[p := set_rev c (rev_hash c) true]> (heap s).
Proof.
  intros Hwf Hp Hk Ht. unfold link_new, rev_insert. cbn [heap connection_hash_table connection_rev_table].
  rewrite lookup_insert_eq. cbn [mbind option_bind]. rewrite insert_insert_eq.
  set (c' := set_rev c (rev_hash c) true). eexists. split; [reflexivity|]. split; [|done].
  split; cbn [heap connection_hash_table connection_rev_table].
  - change (fwd_hash (src_port c)) with (fwd_hash_of c').
    apply indexed_insert; [intros; apply fwd_hash_range|apply Hwf|done].
  - change (rev_hash c) with (rev_hash c').
    apply indexed_insert; [apply rev_hash_range|apply Hwf|done].
  - intros q x. rewrite lookup_insert. case_decide; intros ?; simplify_eq; [|by eapply ct_linked].
    by split_and!.
  - apply keys_insert; [done|]. by left.
Qed.

Lemma drop_node_ok s p c :
  ct_wf s -> heap s !! p = Some c ->
  exists s', drop_node s (fwd_hash_of c) p = Some s' /\ ct_wf s' /\ heap s' = delete p (heap s) /\
    forall b, 0 <= b -> bucket (connection_hash_table s') b =
      if decide (b = fwd_hash_of c)
      then remove_first (fun x => x =? p) (bucket (connection_hash_table s) b)
      else bucket (connection_hash_table s) b.
Proof.
  intros Hwf Hc. pose proof (fwd_hash_range (src_port c)) as Hr. unfold drop_node.
  rewrite unlink_ptr_live.
  2:{ intros x. apply fwd_live; [done|]. apply Hr. }
  cbn [mbind option_bind]. unfold rev_unlink. cbn [heap connection_hash_table connection_rev_table].
  rewrite Hc. cbn [mbind option_bind]. destruct (ct_linked _ Hwf _ _ Hc) as (-> & -> & _). simpl negb.
  cbn iota. rewrite unlink_ptr_live.
  2:{ intros x. apply rev_live; [done|]. apply rev_hash_range. }
  cbn [mbind option_bind heap connection_hash_table connection_rev_table]. rewrite delete_insert_eq.
  eexists. split; [reflexivity|]. split; [|split; [done|]].
  - split; cbn [heap connection_hash_table connection_rev_table].
    + apply indexed_delete; [intros; apply fwd_hash_range|apply Hwf|done].
    + apply indexed_delete; [apply rev_hash_range|apply Hwf|done].
    + intros q x [_ Hx]%lookup_delete_Some. by eapply ct_linked.
    + intros p1 p2 c1 c2 [_ H1]%lookup_delete_Some [_ H2]%lookup_delete_Some. by apply (ct_keys _ Hwf).
  - intros b Hb. cbn [connection_hash_table]. rewrite bucket_set; [|apply Hwf|apply Hr|done].
    repeat case_decide; congruence.
Qed.

(** ** The table as a map from keys to flows *)

Lemma conn_of_insert s s' p c' k :
  ct_wf s -> ct_wf s' -> heap s' = <[p := c']> (heap s) ->
  match heap s !! p with Some c => flow_key c = flow_key c' | None => True end ->
  conn_of s' k = if decide (flow_key c' = k) then Some c' else conn_of s k.
Proof.
  intros Hwf Hwf' Hh Hp. case_decide as Hk.
  - apply conn_of_Some; [done|]. exists p. rewrite Hh. split; [by rewrite lookup_insert_eq|done].
  - symmetry. apply conn_of_ext; [done..|]. intros c. rewrite Hh.
    split; intros (q & Hq & Hkq); exists q; (split; [|done]).
    + rewrite lookup_insert_ne; [done|]. intros ->. rewrite Hq in Hp. congruence.
    + rewrite lookup_insert in Hq. case_decide; [simplify_eq|done].
Qed.

Lemma conn_of_delete s s' p c k :
  ct_wf s -> ct_wf s' -> heap s' = delete p (heap s) -> heap s !! p = Some c ->
  conn_of s' k = if decide (flow_key c = k) then None else conn_of s k.
Proof.
  intros Hwf Hwf' Hh Hp. case_decide as Hk.
  - apply conn_of_None; [done|]. intros q x. rewrite Hh. intros [Hne Hq]%lookup_delete_Some Hx.
    apply Hne. eapply (ct_keys _ Hwf); [exact Hp|exact Hq|congruence].
  - symmetry. apply conn_of_ext; [done..|]. intros x. rewrite Hh.
    split; intros (q & Hq & Hkq); exists q; (split; [|done]).
    + rewrite lookup_delete_ne; [done|]. congruence.
    + by apply lookup_delete_Some in Hq as [_ ?].
Qed.

(** ** What each operation does to the map *)

(** [calloc] gives a fresh address. *)
Definition alloc_ok (s : ConnTable) (alloc : option Z) : Prop :=
  match alloc with Some p => heap s !! p = None | None => True end.

(** The flow an add leaves behind, apart from the unused address family. *)
Record flow_added (now generation dest_port cfg : Z) (c : CONNECTION_INFO) : Prop := {
  fa_port : orig_dest_port c = dest_port;
  fa_cfg : c_proxy_config_id c = cfg;
  fa_fin : fin_flags c = 0;
  fa_gen : policy_generation c = generation;
  fa_last : last_activity c = now
}.

(** [s'] is [s] with the flow of key [k] replaced or created to satisfy [P]; only
    an add without memory for a new flow leaves the table alone. *)
Definition added (s s' : ConnTable) (alloc : option Z) (k : Z * bool * bool)
    (P : CONNECTION_INFO -> Prop) : Prop :=
  (forall k', k' <> k -> conn_of s' k' = conn_of s k') /\
  match conn_of s k, alloc with
  | None, None => conn_of s' k = None
  | _, _ => exists c, conn_of s' k = Some c /\ P c
  end.

Lemma added_intro s s' p c' alloc k (P : CONNECTION_INFO -> Prop) :
  ct_wf s -> ct_wf s' -> heap s' = <[p := c']> (heap s) ->
  match heap s !! p with Some c => flow_key c = flow_key c' | None => is_Some alloc end ->
  flow_key c' = k -> P c' -> added s s' alloc k P.
Proof.
  intros Hwf Hwf' Hh Hp Hk HP.
  assert (forall k', conn_of s' k' = if decide (flow_key c' = k') then Some c' else conn_of s k') as Hc.
  { intros k'. apply (conn_of_insert s s' p c'); try done. by destruct (heap s !! p). }
  split.
  - intros k' Hne. rewrite Hc. case_decide; [congruence|done].
  - rewrite (Hc k), decide_True by done.
    assert (is_Some (conn_of s k) \/ is_Some alloc) as Hs.
    { destruct (heap s !! p) as [c|] eqn:E; [left|by right]. exists c. apply conn_of_Some; [done|].
      exists p. split; [done|congruence]. }
    destruct (conn_of s k), alloc; [by exists c'..|]. by destruct Hs as [[]|[]].
Qed.

(** The common part of the two adds. *)
Lemma add_ok s alloc port udp v6 (f : CONNECTION_INFO -> CONNECTION_INFO) new (P : CONNECTION_INFO -> Prop) :
  ct_wf s -> alloc_ok s alloc ->
  (forall x, flow_key x = (port, udp, v6) -> flow_key (f x) = (port, udp, v6)) ->
  (forall x, is_tracked (f x) = true) -> (forall x b, P (set_rev (f x) b true)) ->
  flow_key new = (port, udp, v6) -> is_tracked new = true -> (forall b, P (set_rev new b true)) ->
  exists s', (found ← ct_find s port udp v6;
              match found with
              | Some p => readdress s p f
              | None => link_new s alloc new
              end) = Some s' /\ ct_wf s' /\ added s s' alloc (port, udp, v6) P.
Proof.
  intros Hwf Hal Hk Ht HP Hnk Hnt HPn.
  destruct (ct_find_spec s port udp v6 Hwf) as [(p & c & Hf & Hp & Hc)|[Hf Hn]]; rewrite Hf.
  - destruct (readdress_ok s p c f Hwf Hp) as (s' & c' & Hr & Hwf' & Hh & c0 & b & -> & ->); try done.
    + by rewrite Hc; apply Hk.
    + exists s'. split; [done|]. split; [done|].
      eapply added_intro; [done|done|exact Hh|rewrite Hp, Hc; symmetry; by apply Hk|by apply Hk|apply HP].
  - destruct alloc as [p|]; simpl in Hal.
    + destruct (link_new_ok s p new Hwf Hal) as (s' & Hl & Hwf' & Hh); [by rewrite Hnk|done|].
      exists s'. split; [done|]. split; [done|].
      eapply added_intro; [done|done|exact Hh|by rewrite Hal|done|apply HPn].
    + exists s. split; [done|]. split; [done|]. split; [done|].
      by rewrite (conn_of_None s (port, udp, v6)) by done.
Qed.

(** Tracking an IPv4 flow never follows a dangling pointer, keeps both indexes
    exact, and makes the flow of its key the given one without touching any
    other flow, whether the key was already tracked or not. *)
Theorem add_connection_spec alloc now generation s port udp ip dest_ip dest_port cfg :
  ct_wf s -> alloc_ok s alloc ->
  exists s', add_connection alloc now generation s port udp ip dest_ip dest_port cfg = Some s' /\
    ct_wf s' /\
    added s s' alloc (port, udp, false) (fun c =>
      flow_added now generation dest_port cfg c /\ src_ip c = ip /\ orig_dest_ip c = dest_ip).
Proof.
  intros Hwf Hal. apply add_ok; try done.
  intros x Hx. unfold flow_key in *. simpl. by simplify_eq.
Qed.

(** The same for an IPv6 flow. *)
Theorem add_connection_v6_spec alloc now generation s port udp ip6 dest_ip6 dest_port cfg :
  ct_wf s -> alloc_ok s alloc ->
  exists s', add_connection_v6 alloc now generation s port udp ip6 dest_ip6 dest_port cfg = Some s' /\
    ct_wf s' /\
    added s s' alloc (port, udp, true) (fun c =>
      flow_added now generation dest_port cfg c /\ src_ip6 c = ip6 /\ orig_dest_ip6 c = dest_ip6).
Proof.
  intros Hwf Hal. apply add_ok; try done.
  intros x Hx. unfold flow_key in *. simpl. by simplify_eq.
Qed.

Lemma get_touch_spec now s port udp v6 :
  ct_wf s ->
  exists s', get_touch now s port udp v6 = Some (s', conn_of s (port, udp, v6)) /\ ct_wf s' /\
    forall k, conn_of s' k = if decide ((port, udp, v6) = k)
                             then (fun c => touch c now) <$> conn_of s k else conn_of s k.
Proof.
  intros Hwf. unfold get_touch.
  destruct (ct_find_spec s port udp v6 Hwf) as [(p & c & Hf & Hp & Hc)|[Hf Hn]]; rewrite Hf;
    cbn [mbind option_bind].
  - assert (conn_of s (port, udp, v6) = Some c) as E by (apply conn_of_Some; eauto).
    rewrite Hp, E. cbn [mbind option_bind].
    assert (ct_wf (set_node s p (touch c now))) as Hwf' by (by eapply set_node_wf).
    eexists. split; [done|]. split; [done|]. intros k.
    rewrite (conn_of_insert s _ p (touch c now)) by (done || by rewrite Hp).
    change (flow_key (touch c now)) with (flow_key c). rewrite Hc. case_decide; [subst; by rewrite E|done].
  - exists s. rewrite (conn_of_None s (port, udp, v6)) by done. split; [done|]. split; [done|].
    intros k. case_decide; [subst; by rewrite (conn_of_None s (port, udp, v6)) by done|done].
Qed.

(** A lookup answers with the tracked destination and configuration of the key,
    and only refreshes its activity. *)
Theorem get_connection_full_spec now s port udp :
  ct_wf s ->
  exists s', get_connection_full now s port udp =
      Some (s', (fun c => (orig_dest_ip c, orig_dest_port c, c_proxy_config_id c)) <$>
                conn_of s (port, udp, false)) /\
    get_connection now s port udp =
      Some (s', (fun c => (orig_dest_ip c, orig_dest_port c)) <$> conn_of s (port, udp, false)) /\
    ct_wf s' /\
    forall k, conn_of s' k = if decide ((port, udp, false) = k)
                             then (fun c => touch c now) <$> conn_of s k else conn_of s k.
Proof.
  intros Hwf. destruct (get_touch_spec now s port udp false Hwf) as (s' & Hg & Hwf' & Hk).
  exists s'. unfold get_connection_full, get_connection. by rewrite Hg.
Qed.

Lemma conn_of_found s port udp v6 :
  ct_wf s ->
  ct_find s port udp v6 = Some None /\ conn_of s (port, udp, v6) = None \/
  exists p c, ct_find s port udp v6 = Some (Some p) /\ heap s !! p = Some c /\
              flow_key c = (port, udp, v6) /\ conn_of s (port, udp, v6) = Some c.
Proof.
  intros Hwf. destruct (ct_find_spec s port udp v6 Hwf) as [(p & c & Hf & Hp & Hk)|[Hf Hn]].
  - right. exists p, c. split_and!; try done. apply conn_of_Some; eauto.
  - left. split; [done|]. by apply conn_of_None.
Qed.

Lemma proxy_id_ok s port udp :
  ct_wf s -> get_connection_proxy_id s port udp =
             Some (from_option c_proxy_config_id 0 (conn_of s (port, udp, false))).
Proof.
  intros Hwf. unfold get_connection_proxy_id.
  destruct (conn_of_found s port udp false Hwf) as [[-> ->]|(p & c & -> & Hp & _ & ->)]; cbn; [done|].
  by rewrite Hp.
Qed.

Lemma tracked_ok s port udp v6 :
  ct_wf s -> is_connection_tracked s port udp v6 = Some (bool_decide (is_Some (conn_of s (port, udp, v6)))).
Proof.
  intros Hwf. unfold is_connection_tracked. pose proof (fwd_hash_range port).
  destruct (chain_find_live (heap s) (fun c => flow_is port udp v6 c && is_tracked c)
    (bucket (connection_hash_table s) (fwd_hash port))) as [(p & c & -> & _ & Hp & Hq)|[-> Hn]];
    [intros x; apply fwd_live; [done|lia]|..]; cbn; f_equal.
  - apply andb_true_iff in Hq as [Hk%flow_is_key _].
    rewrite (proj2 (conn_of_Some s _ c Hwf)) by eauto. by rewrite !bool_decide_eq_true_2.
  - destruct (conn_of_found s port udp v6 Hwf) as [[_ ->]|(p & c & _ & Hp & Hk & ->)];
      [by rewrite !bool_decide_eq_false_2 by by intros []|].
    assert (p ∈ bucket (connection_hash_table s) (fwd_hash port)) as Hin.
    { apply (ix_mem _ _ _ (ct_fwd _ Hwf)); [lia|]. exists c. split; [done|].
      unfold fwd_hash_of. unfold flow_key in Hk. by simplify_eq. }
    specialize (Hn p c Hin Hp). rewrite (proj2 (flow_is_key _ _ _ _) Hk) in Hn.
    destruct (ct_linked _ Hwf _ _ Hp) as (_ & _ & Ht). by rewrite Ht in Hn.
Qed.

(** What was tracked for a local port is what the relay reads back for it, also
    after flows of other keys were tracked, removed or refreshed. *)
Theorem add_then_get alloc now generation s port udp ip dest_ip dest_port cfg s1 s2 now2 :
  ct_wf s -> alloc_ok s (Some alloc) ->
  add_connection (Some alloc) now generation s port udp ip dest_ip dest_port cfg = Some s1 ->
  ct_wf s2 -> conn_of s2 (port, udp, false) = conn_of s1 (port, udp, false) ->
  exists s3, get_connection_full now2 s2 port udp = Some (s3, Some (dest_ip, dest_port, cfg)) /\
             get_connection_proxy_id s2 port udp = Some cfg /\
             is_connection_tracked s2 port udp false = Some true.
Proof.
  intros Hwf Hal Hadd Hwf2 Hs2.
  destruct (add_connection_spec (Some alloc) now generation s port udp ip dest_ip dest_port cfg Hwf Hal)
    as (s' & Hs' & _ & _ & Ha).
  rewrite Hadd in Hs'. simplify_eq.
  assert (exists c, conn_of s2 (port, udp, false) = Some c /\
    flow_added now generation dest_port cfg c /\ src_ip c = ip /\ orig_dest_ip c = dest_ip) as (c & E & Hc)
    by (rewrite Hs2; by destruct (conn_of s _)).
  destruct Hc as ([<- <- _ _ _] & _ & <-).
  destruct (get_touch_spec now2 s2 port udp false Hwf2) as (s3 & Hg & _ & _). exists s3.
  unfold get_connection_full. rewrite Hg, proxy_id_ok, tracked_ok, E by done.
  by rewrite bool_decide_eq_true_2.
Qed.

Lemma drop_flow_spec s port udp v6 p c :
  ct_wf s -> heap s !! p = Some c -> flow_key c = (port, udp, v6) ->
  exists s', drop_node s (fwd_hash port) p = Some s' /\ ct_wf s' /\
    forall k, conn_of s' k = if decide ((port, udp, v6) = k) then None else conn_of s k.
Proof.
  intros Hwf Hp Hk. assert (fwd_hash port = fwd_hash_of c) as ->.
  { unfold fwd_hash_of. unfold flow_key in Hk. by simplify_eq. }
  destruct (drop_node_ok s p c Hwf Hp) as (s' & Hd & Hwf' & Hh & _).
  exists s'. split; [done|]. split; [done|]. intros k. rewrite <- Hk. by apply (conn_of_delete s s' p).
Qed.

(** Removing a flow frees its node, unlinks it from both indexes and leaves the
    other flows alone. *)
Theorem remove_connection_spec s port udp v6 :
  ct_wf s ->
  exists s', remove_connection s port udp v6 = Some s' /\ ct_wf s' /\
    forall k, conn_of s' k = if decide ((port, udp, v6) = k) then None else conn_of s k.
Proof.
  intros Hwf. unfold remove_connection.
  destruct (ct_find_spec s port udp v6 Hwf) as [(p & c & -> & Hp & Hk)|[-> Hn]]; cbn [mbind option_bind].
  - by eapply drop_flow_spec.
  - exists s. split; [done|]. split; [done|]. intros k. case_decide; [|done]. subst. by apply conn_of_None.
Qed.

(** A change of one flow in place. *)
Lemma in_place_spec s port udp v6 (f : CONNECTION_INFO -> CONNECTION_INFO) :
  ct_wf s ->
  (forall c, flow_key (f c) = flow_key c /\ rev_hash (f c) = rev_hash c /\ in_rev (f c) = in_rev c /\
             rev_bucket (f c) = rev_bucket c /\ is_tracked (f c) = is_tracked c) ->
  exists s', (found ← ct_find s port udp v6;
              match found with
              | None => Some s
              | Some p => c ← heap s !! p; Some (set_node s p (f c))
              end) = Some s' /\ ct_wf s' /\
    forall k, conn_of s' k = if decide ((port, udp, v6) = k) then f <$> conn_of s k else conn_of s k.
Proof.
  intros Hwf Hf.
  destruct (ct_find_spec s port udp v6 Hwf) as [(p & c & -> & Hp & Hk)|[-> Hn]]; cbn [mbind option_bind].
  - rewrite Hp. cbn [mbind option_bind]. destruct (Hf c) as (H1 & H2 & H3 & H4 & H5).
    assert (ct_wf (set_node s p (f c))) as Hwf' by (by eapply set_node_wf).
    eexists. split; [done|]. split; [done|]. intros k.
    rewrite (conn_of_insert s _ p (f c)) by (done || by rewrite Hp). rewrite H1, Hk.
    case_decide; [|done]. subst k.
    assert (conn_of s (port, udp, v6) = Some c) as -> by (apply conn_of_Some; eauto). done.
  - exists s. split; [done|]. split; [done|]. intros k. case_decide; [|done]. subst k.
    by rewrite conn_of_None.
Qed.

(** Stamping a UDP flow and noting a FIN change one flow in place; the FIN bits
    of the two sides accumulate. *)
Theorem stamp_and_fin_spec now s port v6 generation bit :
  ct_wf s ->
  (exists s', udp_flow_stamp s port v6 generation = Some s' /\ ct_wf s' /\
     forall k, policy_generation <$> conn_of s' k =
       if decide ((port, true, v6) = k) then (fun _ => generation) <$> conn_of s k
       else policy_generation <$> conn_of s k) /\
  (exists s', connection_fin now s port v6 bit = Some s' /\ ct_wf s' /\
     forall k, (fun c => (fin_flags c, last_activity c)) <$> conn_of s' k =
       if decide ((port, false, v6) = k)
       then (fun c => (Z.lor (fin_flags c) bit, now)) <$> conn_of s k
       else (fun c => (fin_flags c, last_activity c)) <$> conn_of s k).
Proof.
  intros Hwf. split.
  - destruct (in_place_spec s port true v6 (fun c =>
      mkConn (src_port c) (c_is_udp c) (src_ip c) (orig_dest_ip c) (orig_dest_port c)
             (is_tracked c) (fin_flags c) generation (last_activity c) (c_proxy_config_id c)
             (is_ipv6 c) (src_ip6 c) (orig_dest_ip6 c) (rev_bucket c) (in_rev c)) Hwf)
      as (s' & Hs & Hwf' & Hk); [by intros c|].
    exists s'. split; [exact Hs|]. split; [done|]. intros k. rewrite Hk.
    case_decide; [|done]. by destruct (conn_of s k).
  - destruct (in_place_spec s port false v6 (fun c =>
      mkConn (src_port c) (c_is_udp c) (src_ip c) (orig_dest_ip c) (orig_dest_port c)
             (is_tracked c) (Z.lor (fin_flags c) bit) (policy_generation c) now (c_proxy_config_id c)
             (is_ipv6 c) (src_ip6 c) (orig_dest_ip6 c) (rev_bucket c) (in_rev c)) Hwf)
      as (s' & Hs & Hwf' & Hk); [by intros c|].
    exists s'. split; [exact Hs|]. split; [done|]. intros k. rewrite Hk.
    case_decide; [|done]. by destruct (conn_of s k).
Qed.

Lemma flow_valid_iff now generation v6 ip ip6 dest dest6 dport c :
  0 <= now < 2 ^ 64 -> 0 <= last_activity c ->
  flow_valid now generation v6 ip ip6 dest dest6 dport c = true <->
  orig_dest_port c = dport /\
  (if v6 then src_ip6 c = ip6 /\ orig_dest_ip6 c = dest6 else src_ip c = ip /\ orig_dest_ip c = dest) /\
  policy_generation c = generation /\ now - last_activity c <= 20000.
Proof.
  intros Hnow Hla. unfold flow_valid. rewrite !andb_true_iff, orb_true_iff, !Z.eqb_eq, !Z.leb_le.
  assert (now <= last_activity c \/ u64 (now - last_activity c) <= 20000 <->
          now - last_activity c <= 20000) as ->.
  { destruct (Z.le_gt_cases now (last_activity c)); [lia|]. rewrite u64_small by lia. lia. }
  unfold memeq. destruct v6; rewrite andb_true_iff, ?bool_decide_eq_true, ?Z.eqb_eq; tauto.
Qed.

(** A UDP flow keeps its PROXY decision exactly as long as it goes to the same
    destination, no policy or owner change happened since, and it was active in
    the last twenty seconds; otherwise it is dropped. *)
Theorem udp_flow_validate_spec now generation s port v6 ip ip6 dest dest6 dport :
  ct_wf s -> 0 <= now < 2 ^ 64 ->
  (forall c, conn_of s (port, true, v6) = Some c -> 0 <= last_activity c) ->
  exists s' valid,
    udp_flow_validate now generation s port v6 ip ip6 dest dest6 dport = Some (s', valid) /\ ct_wf s' /\
    (valid = true <-> exists c, conn_of s (port, true, v6) = Some c /\
       orig_dest_port c = dport /\
       (if v6 then src_ip6 c = ip6 /\ orig_dest_ip6 c = dest6 else src_ip c = ip /\ orig_dest_ip c = dest) /\
       policy_generation c = generation /\ now - last_activity c <= 20000) /\
    forall k, conn_of s' k =
      if decide ((port, true, v6) = k)
      then if valid then (fun c => touch c now) <$> conn_of s k else None
      else conn_of s k.
Proof.
  intros Hwf Hnow Hla. unfold udp_flow_validate.
  destruct (ct_find_spec s port true v6 Hwf) as [(p & c & -> & Hp & Hk)|[-> Hn]]; cbn [mbind option_bind].
  2:{ rewrite (conn_of_None s (port, true, v6)) by done. exists s, false.
      split_and!; try done; [split; [done|by intros (? & ? & _)]|].
      intros k. case_decide; [|done]. subst. by apply conn_of_None. }
  assert (conn_of s (port, true, v6) = Some c) as E by (apply conn_of_Some; eauto).
  rewrite Hp. cbn [mbind option_bind]. rewrite E.
  pose proof (flow_valid_iff now generation v6 ip ip6 dest dest6 dport c Hnow (Hla c E)) as Hv.
  destruct (flow_valid _ _ _ _ _ _ _ _ c) eqn:Ev.
  - assert (ct_wf (set_node s p (touch c now))) as Hwf' by (by eapply set_node_wf).
    exists (set_node s p (touch c now)), true. split_and!; try done.
    + split; [intros _; exists c; split; [done|by apply Hv]|done].
    + intros k. rewrite (conn_of_insert s _ p (touch c now)) by (done || by rewrite Hp).
      change (flow_key (touch c now)) with (flow_key c). rewrite Hk.
      case_decide; [subst; by rewrite E|done].
  - destruct (drop_flow_spec s port true v6 p c Hwf Hp Hk) as (s' & -> & Hwf' & Hd).
    exists s', false. split_and!; try done. split; [done|].
    intros (x & ? & Hx). simplify_eq. by apply Hv in Hx.
Qed.

(** ** The reverse index *)

Lemma best_sender_spec q h l best :
  (forall p, p ∈ l -> is_Some (h !! p)) ->
  exists r, best_sender q h l best = Some r /\
    (r = best \/ exists p c, p ∈ l /\ h !! p = Some c /\ q c = true /\ r = Some (p, c)) /\
    (forall b, snd <$> best = Some b -> exists b', snd <$> r = Some b' /\ last_activity b <= last_activity b') /\
    forall p c, p ∈ l -> h !! p = Some c -> q c = true ->
      exists b', snd <$> r = Some b' /\ last_activity c <= last_activity b'.
Proof.
  revert best. induction l as [|x l IH]; intros best Hl; simpl.
  { exists best. split; [done|]. split; [by left|]. split; [intros b ->; exists b; split; [done|lia]|].
    by intros ? ? ?%elem_of_nil. }
  destruct (Hl x) as [c Hc]; [left|]. rewrite Hc.
  set (best1 := if (q c && _)%bool then Some (x, c) else best).
  destruct (IH best1) as (r & -> & Hr & Hb & Hm); [intros p ?; apply Hl; by right|].
  assert (best1 = best \/ q c = true /\ best1 = Some (x, c)) as Hb1.
  { unfold best1. destruct (q c); simpl; [|by left]. case_match; [by right|by left]. }
  assert (forall b, snd <$> best = Some b ->
            exists b', snd <$> best1 = Some b' /\ last_activity b <= last_activity b') as Hb2.
  { unfold best1. intros b Hbb. destruct best as [[y b0]|]; simplify_eq/=.
    destruct (q c); simpl; [|exists b; split; [done|lia]].
    destruct (Z.ltb_spec (last_activity b) (last_activity c)); eexists; (split; [done|simpl; lia]). }
  assert (q c = true -> exists b', snd <$> best1 = Some b' /\ last_activity c <= last_activity b') as Hb3.
  { intros Hs. unfold best1. rewrite Hs. simpl. destruct best as [[y b]|].
    - destruct (Z.ltb_spec (last_activity b) (last_activity c)); eexists; (split; [done|simpl; lia]).
    - eexists; split; [done|simpl; lia]. }
  exists r. split; [done|]. split; [|split].
  - destruct Hr as [->|(p & c' & ? & ? & ? & ->)].
    + destruct Hb1 as [->|[Hs ->]]; [by left|]. right. exists x, c. split; [left|done].
    + right. exists p, c'. split; [by right|done].
  - intros b [b1 [H1 ?]]%Hb2. destruct (Hb _ H1) as (b' & -> & ?). exists b'. split; [done|lia].
  - intros p c' [->|Hp]%elem_of_cons Hc' Hs; [|by eapply Hm].
    rewrite Hc in Hc'. simplify_eq. destruct (Hb3 Hs) as (b1 & H1 & ?).
    destruct (Hb _ H1) as (b' & -> & ?). exists b'. split; [done|lia].
Qed.

(** One chain of the reverse index answers for the whole table, when the hash
    of every flow looked for is that of the chain. *)
Lemma best_sender_table s q b :
  ct_wf s -> 0 <= b -> (forall c, q c = true -> rev_hash c = b) ->
  exists r, best_sender q (heap s) (bucket (connection_rev_table s) b) None = Some r /\
    match r with
    | None => forall k c, conn_of s k = Some c -> q c = false
    | Some (p, c) =>
        heap s !! p = Some c /\ conn_of s (flow_key c) = Some c /\ q c = true /\
        forall k' c', conn_of s k' = Some c' -> q c' = true -> last_activity c' <= last_activity c
    end.
Proof.
  intros Hwf Hb Hq.
  destruct (best_sender_spec q (heap s) (bucket (connection_rev_table s) b) None)
    as (r & -> & Hr & _ & Hm); [intros p; by apply rev_live|].
  assert (forall k c, conn_of s k = Some c -> q c = true ->
            exists p, p ∈ bucket (connection_rev_table s) b /\ heap s !! p = Some c) as Hin.
  { intros k c (p & Hp & _)%conn_of_Some Hs; [|done]. exists p. split; [|done].
    apply (ix_mem _ _ _ (ct_rev _ Hwf)); [done|]. exists c. split; [done|by apply Hq]. }
  exists r. split; [done|]. destruct r as [[p c]|].
  - destruct Hr as [|(p' & c' & Hp & Hc & Hs & ?)]; simplify_eq.
    split; [done|]. split; [apply conn_of_Some; eauto|]. split; [done|].
    intros k2 c2 H2 Hs2. destruct (Hin _ _ H2 Hs2) as (p2 & Hp2 & Hc2).
    destruct (Hm _ _ Hp2 Hc2 Hs2) as (? & ? & ?). by simplify_eq/=.
  - intros k c Hc. destruct (q c) eqn:Hs; [|done].
    destruct (Hin _ _ Hc Hs) as (p & Hp & Hc2). by destruct (Hm _ _ Hp Hc2 Hs) as (? & ? & _).
Qed.

(** The lookup through the reverse index gives what a search of the whole table
    would: some IPv6 UDP flow to the destination when there is one, and then
    the one that was active last. *)
Theorem find_v6_udp_sender_spec s dest6 dport :
  ct_wf s ->
  exists r, find_v6_udp_sender s dest6 dport = Some r /\
    match r with
    | None => forall k c, conn_of s k = Some c -> is_v6_sender dest6 dport c = false
    | Some (ip6, port) =>
        exists k c, conn_of s k = Some c /\ is_v6_sender dest6 dport c = true /\
          src_ip6 c = ip6 /\ src_port c = port /\
          forall k' c', conn_of s k' = Some c' -> is_v6_sender dest6 dport c' = true ->
            last_activity c' <= last_activity c
    end.
Proof.
  intros Hwf. unfold find_v6_udp_sender.
  destruct (best_sender_table s (is_v6_sender dest6 dport) (rev_hash_v6 dest6 dport) Hwf) as (r & -> & Hr).
  - by apply Z.mod_pos_bound.
  - unfold is_v6_sender, memeq, rev_hash. intros c Hs. bool_prop. by subst; case_match.
  - eexists. split; [reflexivity|]. destruct r as [[p c]|]; simpl; [|done].
    destruct Hr as (_ & ? & ? & ?). by exists (flow_key c), c.
Qed.

(** ** The clean-up as a filter *)

Definition kept (now : Z) (c : CONNECTION_INFO) : option CONNECTION_INFO :=
  if conn_stale now c then None else Some c.

Lemma cleanup_chain_ok now h l s :
  ct_wf s -> NoDup l -> (forall p, p ∈ l -> exists c, heap s !! p = Some c /\ fwd_hash_of c = h) ->
  exists s', cleanup_chain now h l s = Some s' /\ ct_wf s' /\
    forall p, heap s' !! p = if decide (p ∈ l) then heap s !! p ≫= kept now else heap s !! p.
Proof.
  revert s. induction l as [|p l IH]; intros s Hwf Hnd Hl; cbn [cleanup_chain].
  { exists s. split; [done|]. split; [done|]. intros p. case_decide as Hd; [by apply elem_of_nil in Hd|done]. }
  apply NoDup_cons in Hnd as [Hp Hnd]. destruct (Hl p) as (c & Hc & <-); [left|].
  rewrite Hc. cbn [mbind option_bind].
  assert (exists s1, (if conn_stale now c then drop_node s (fwd_hash_of c) p else Some s) = Some s1 /\
    ct_wf s1 /\ heap s1 !! p = kept now c /\ forall q, q <> p -> heap s1 !! q = heap s !! q)
    as (s1 & -> & Hwf1 & H1 & H2).
  { unfold kept. destruct (conn_stale now c).
    - destruct (drop_node_ok s p c Hwf Hc) as (s1 & -> & Hwf1 & Hh & _). exists s1.
      rewrite Hh. split_and!; [done|done|apply lookup_delete_eq|].
      intros q Hq. by apply lookup_delete_ne.
    - by exists s. }
  cbn [mbind option_bind]. destruct (IH s1 Hwf1 Hnd) as (s' & -> & Hwf' & Hh).
  - intros q Hq. rewrite H2 by congruence. apply Hl. by right.
  - exists s'. split; [done|]. split; [done|]. intros q. rewrite Hh.
    destruct (decide (q = p)) as [->|Hne].
    + rewrite H1, Hc. repeat case_decide; try done. destruct H0. left.
    + rewrite H2 by done. destruct (decide (q ∈ l)) as [Hq|Hq], (decide (q ∈ p :: l)) as [Hq'|Hq']; try done.
      * destruct Hq'. by right.
      * by apply elem_of_cons in Hq' as [?|?].
Qed.

Lemma cleanup_buckets_ok now n s :
  ct_wf s ->
  exists s', cleanup_buckets now n s = Some s' /\ ct_wf s' /\
    forall p, heap s' !! p =
      heap s !! p ≫= fun c => if fwd_hash_of c <? Z.of_nat n then kept now c else Some c.
Proof.
  intros Hwf.
  induction n as [|n IH]; cbn [cleanup_buckets].
  { exists s. split; [done|]. split; [done|]. intros p. destruct (heap s !! p) as [c|]; simpl; [|done].
    pose proof (fwd_hash_range (src_port c)). unfold fwd_hash_of. by rewrite (proj2 (Z.ltb_ge _ _)) by lia. }
  destruct IH as (s1 & -> & Hwf1 & Hh1). cbn [mbind option_bind].
  destruct (cleanup_chain_ok now (Z.of_nat n) (bucket (connection_hash_table s1) (Z.of_nat n)) s1 Hwf1)
    as (s' & -> & Hwf' & Hh).
  - apply (ix_nodup _ _ _ (ct_fwd _ Hwf1)). lia.
  - intros p Hp. apply (ix_mem _ _ _ (ct_fwd _ Hwf1)) in Hp; [done|lia].
  - exists s'. split; [done|]. split; [done|]. intros p. rewrite Hh, Hh1.
    destruct (heap s !! p) as [c|] eqn:Hc; simpl; [|by case_decide].
    specialize (Hh1 p). rewrite Hc in Hh1. simpl in Hh1.
    assert (forall c1, heap s1 !! p = Some c1 ->
              p ∈ bucket (connection_hash_table s1) (Z.of_nat n) <-> fwd_hash_of c1 = Z.of_nat n) as Hin.
    { intros c1 Hc1. rewrite (ix_mem _ _ _ (ct_fwd _ Hwf1)) by lia. rewrite Hc1. naive_solver. }
    destruct (Z.ltb_spec (fwd_hash_of c) (Z.of_nat n)).
    + rewrite (proj2 (Z.ltb_lt _ _)) by lia. unfold kept in *. destruct (conn_stale now c).
      * by case_decide.
      * rewrite decide_False; [done|]. rewrite (Hin c) by done. lia.
    + destruct (Z.ltb_spec (fwd_hash_of c) (Z.of_nat (S n))).
      * rewrite decide_True; [done|]. apply (Hin c); [done|lia].
      * rewrite decide_False; [done|]. rewrite (Hin c) by done. lia.
Qed.

(** The clean-up frees exactly the flows it takes for stale, half closed ones
    after a minute and others after half an hour, and keeps both indexes exact. *)
Theorem cleanup_connections_spec now s :
  ct_wf s ->
  exists s', cleanup_connections now s = Some s' /\ ct_wf s' /\
    forall k, conn_of s' k = conn_of s k ≫= kept now.
Proof.
  intros Hwf. destruct (cleanup_buckets_ok now (Z.to_nat CONNECTION_HASH_SIZE) s Hwf) as (s' & Hc & Hwf' & Hh).
  exists s'. split; [exact Hc|]. split; [done|].
  assert (forall p, heap s' !! p = heap s !! p ≫= kept now) as Hk.
  { intros p. rewrite Hh. destruct (heap s !! p) as [c|]; simpl; [|done].
    pose proof (fwd_hash_range (src_port c)). unfold fwd_hash_of. by rewrite (proj2 (Z.ltb_lt _ _)) by lia. }
  intros k. apply option_eq. intros c. rewrite conn_of_Some by done. split.
  - intros (p & Hp & Hf). rewrite Hk in Hp. apply bind_Some in Hp as (c0 & Hp & Hc0).
    apply bind_Some. exists c0. split; [|done]. apply conn_of_Some; [done|]. exists p. split; [done|].
    unfold kept in Hc0. case_match; by simplify_eq.
  - intros (c0 & (p & Hp & Hf)%conn_of_Some & Hc0)%bind_Some; [|done]. exists p.
    rewrite Hk, Hp. split; [done|]. unfold kept in Hc0. case_match; by simplify_eq.
Qed.

(** C40: A flow that is used after the clean-up sampled its clock is taken for stale:
    the unsigned age of a timestamp ahead of the sample is near 2^64, and the
    live flow is freed. *)
Theorem cleanup_drops_live_flow now s k c :
  ct_wf s -> conn_of s k = Some c ->
  0 <= now < last_activity c -> last_activity c <= now + 1000000 -> last_activity c < 2 ^ 64 ->
  conn_stale now c = true /\
  exists s', cleanup_connections now s = Some s' /\ forall p c', heap s' !! p = Some c' -> flow_key c' <> k.
Proof.
  intros Hwf Hc Hn Hl Hw.
  assert (conn_stale now c = true) as Hs.
  { unfold conn_stale. apply Z.ltb_lt. pose proof (age_future now (last_activity c)).
    unfold CONNECTION_STALE_TIMEOUT_MS. case_match; lia. }
  split; [done|].
  destruct (cleanup_buckets_ok now (Z.to_nat CONNECTION_HASH_SIZE) s Hwf) as (s' & Hcl & Hwf' & Hh).
  exists s'. split; [exact Hcl|]. intros p c' Hp Hk. rewrite Hh in Hp.
  apply bind_Some in Hp as (c0 & Hp & Hc0).
  pose proof (fwd_hash_range (src_port c0)). unfold fwd_hash_of in Hc0.
  rewrite (proj2 (Z.ltb_lt _ _)) in Hc0 by lia. unfold kept in Hc0.
  assert (conn_of s k = Some c0) as E.
  { apply conn_of_Some; [done|]. exists p. split; [done|]. case_match; by simplify_eq. }
  rewrite Hc in E. simplify_eq. by rewrite Hs in Hc0.
Qed.
