(* ===== verification/Workers.v ===== *)
(** * The count of connection workers (pb_relay.c)

    The listener starts a worker per connection, the workers end by themselves,
    and Stop waits for the event that says none is left.  Every interlocked
    operation and every operation on the event is a step of its own. *)
From S2P Require Import Prelude.

(** Where a worker is: counted, event reset, running its connection, out as the
    last one with the event still to be set, gone. *)
Inductive worker_pc := Incremented | WasReset | Working | LastOut | Finished.

Record Workers := mkWorkers {
  active_connection_workers : Z;
  connection_workers_done_event : bool;
  w_running : bool;
  w_workers : list worker_pc
}.

Definition workers_init : Workers := mkWorkers 0 true true [].

#[export] Instance worker_pc_eq_dec : EqDecision worker_pc.
Proof. solve_decision. Defined.

Inductive worker_event :=
| WBegin | WReset (i : nat) | WCheck (i : nat) | WEnd (i : nat) | WSet (i : nat) | WStop.

Definition counted (pc : worker_pc) : bool :=
  match pc with Incremented | WasReset | Working => true | _ => false end.
(** The listener is inside [begin_connection_worker]. *)
Definition beginning (pc : worker_pc) : bool :=
  match pc with Incremented | WasReset => true | _ => false end.

Definition set_worker (w : Workers) (i : nat) (pc : worker_pc) : Workers :=
  mkWorkers (active_connection_workers w) (connection_workers_done_event w) (w_running w)
    (<[i := pc]> (w_workers w)).

(** [InterlockedIncrement]: one listener, so one worker begins at a time. *)
Definition worker_begin (w : Workers) : option Workers :=
  if existsb beginning (w_workers w) then None
  else Some (mkWorkers (active_connection_workers w + 1) (connection_workers_done_event w) (w_running w)
               (w_workers w ++ [Incremented])).

Definition worker_reset (i : nat) (w : Workers) : Workers :=
  mkWorkers (active_connection_workers w) false (w_running w) (<[i := WasReset]> (w_workers w)).

(** [InterlockedDecrement(...) == 0]: the event is this thread's to set. *)
Definition worker_leave (i : nat) (w : Workers) : Workers :=
  let n := active_connection_workers w - 1 in
  mkWorkers n (connection_workers_done_event w) (w_running w)
    (<[i := if n =? 0 then LastOut else Finished]> (w_workers w)).

Definition worker_check (i : nat) (w : Workers) : Workers :=
  if w_running w then set_worker w i Working else worker_leave i w.

Definition worker_set (i : nat) (w : Workers) : Workers :=
  mkWorkers (active_connection_workers w) true (w_running w) (<[i := Finished]> (w_workers w)).

Definition worker_stop (w : Workers) : Workers :=
  mkWorkers (active_connection_workers w) (connection_workers_done_event w) false (w_workers w).

(** A step of the thread that is at [pc]; [None] when it is not. *)
Definition at_pc (w : Workers) (i : nat) (pc : worker_pc) (w' : Workers) : option Workers :=
  if decide (w_workers w !! i = Some pc) then Some w' else None.

Definition worker_step (e : worker_event) (w : Workers) : option Workers :=
  match e with
  | WBegin => worker_begin w
  | WReset i => at_pc w i Incremented (worker_reset i w)
  | WCheck i => at_pc w i WasReset (worker_check i w)
  | WEnd i => at_pc w i Working (worker_leave i w)
  | WSet i => at_pc w i LastOut (worker_set i w)
  | WStop => Some (worker_stop w)
  end.

Fixpoint worker_run (l : list worker_event) (w : Workers) : option Workers :=
  match l with [] => Some w | e :: l => w ← worker_step e w; worker_run l w end.

(** What Stop can find when it waits for the event: the listener has ended. *)
Definition stop_waits (w : Workers) : Prop :=
  w_running w = false /\ existsb beginning (w_workers w) = false.

(** ** The count *)

Definition count_of (l : list worker_pc) : Z := Z.of_nat (length (filter (fun pc => counted pc = true) l)).

Record workers_wf (w : Workers) : Prop := {
  ww_count : active_connection_workers w = count_of (w_workers w);
  ww_event : connection_workers_done_event w = false ->
    0 < active_connection_workers w \/ LastOut ∈ w_workers w
}.

Lemma count_set l i pc pc' :
  l !! i = Some pc ->
  count_of (<[i := pc']> l) = count_of l - (if counted pc then 1 else 0) + (if counted pc' then 1 else 0).
Proof.
  intros Hi. unfold count_of. rewrite <- (take_drop_middle l i pc Hi) at 2.
  rewrite (insert_take_drop l i pc') by (by apply lookup_lt_is_Some; eexists).
  rewrite !filter_app, !length_app, !filter_cons.
  destruct (counted pc), (counted pc'); rewrite ?decide_True, ?decide_False by done; simpl; lia.
Qed.

Lemma count_app l pc : count_of (l ++ [pc]) = count_of l + (if counted pc then 1 else 0).
Proof.
  unfold count_of. rewrite filter_app, length_app, filter_cons.
  destruct (counted pc); [rewrite decide_True by done|rewrite decide_False by done]; simpl; lia.
Qed.

Lemma count_nonneg l : 0 <= count_of l.
Proof. unfold count_of. lia. Qed.

Lemma last_out_kept (l : list worker_pc) (i : nat) pc pc' :
  l !! i = Some pc -> pc <> LastOut -> LastOut ∈ l -> LastOut ∈ <[i := pc']> l.
Proof.
  intros Hi Hne (j & Hj)%list_elem_of_lookup. apply list_elem_of_lookup. exists j.
  rewrite list_lookup_insert_ne; [done|]. intros ->. congruence.
Qed.

Lemma leave_wf w i pc :
  workers_wf w -> w_workers w !! i = Some pc -> counted pc = true -> workers_wf (worker_leave i w).
Proof.
  intros [Hc He] Hi Hp. split; cbn [worker_leave active_connection_workers w_workers connection_workers_done_event].
  - rewrite (count_set _ i pc) by done. rewrite Hp, Hc. by destruct (_ =? 0); cbn; lia.
  - intros _. pose proof (count_nonneg (<[i := Finished]> (w_workers w))) as Hn.
    rewrite (count_set _ i pc), Hp in Hn by done. simpl in Hn.
    destruct (Z.eqb_spec (active_connection_workers w - 1) 0); [right|left; lia].
    apply list_elem_of_lookup. exists i. apply list_lookup_insert_eq. by eapply lookup_lt_Some.
Qed.

Lemma worker_step_wf e w w' : workers_wf w -> worker_step e w = Some w' -> workers_wf w'.
Proof.
  intros Hwf. pose proof Hwf as [Hc He]. unfold worker_step, at_pc. destruct e as [|i|i|i|i|].
  - unfold worker_begin. destruct (existsb _ _); [done|]. intros [= <-]. split; cbn.
    + rewrite count_app. cbn. lia.
    + intros H. pose proof (count_nonneg (w_workers w)). left. lia.
  - case_decide as Hi; [|done]. intros [= <-]. split; cbn.
    + rewrite (count_set _ i Incremented) by done. cbn. lia.
    + intros _. left. pose proof (count_nonneg (<[i := Finished]> (w_workers w))) as Hn.
      rewrite (count_set _ i Incremented) in Hn by done. simpl in Hn. lia.
  - case_decide as Hi; [|done]. intros [= <-]. unfold worker_check. destruct (w_running w); [|by eapply leave_wf].
    split; cbn.
    + rewrite (count_set _ i WasReset) by done. cbn. lia.
    + intros H. destruct (He H); [by left|]. right. by eapply last_out_kept.
  - case_decide as Hi; [|done]. intros [= <-]. by eapply leave_wf.
  - case_decide as Hi; [|done]. intros [= <-]. split; cbn; [|done].
    rewrite (count_set _ i LastOut) by done. cbn. lia.
  - intros [= <-]. by split.
Qed.

Lemma worker_run_wf tr w w' : workers_wf w -> worker_run tr w = Some w' -> workers_wf w'.
Proof.
  revert w. induction tr as [|e tr IH]; intros w Hwf; cbn [worker_run]; [by intros [= <-]|].
  destruct (worker_step e w) as [w1|] eqn:E; [|done]. apply IH. by eapply worker_step_wf.
Qed.

(** C34: However the workers interleave, the count is the number of those that
    began and have not left, and once the last has left and done its part the
    event is set: Stop never waits for a worker that is not there. *)
Theorem stop_wait_ends tr w :
  worker_run tr workers_init = Some w ->
  active_connection_workers w = count_of (w_workers w) /\
  (count_of (w_workers w) = 0 -> LastOut ∉ w_workers w -> connection_workers_done_event w = true).
Proof.
  intros Hr. assert (workers_wf w) as [Hc He] by (eapply worker_run_wf; [|exact Hr]; by split).
  split; [done|]. intros H0 Hl. destruct (connection_workers_done_event w) eqn:E; [done|].
  destruct (He eq_refl); [lia|done].
Qed.

(** C38: The other direction fails: the last worker out sets the event after the next
    one has reset it, and Stop's wait is over while that one still runs. *)
Theorem done_event_race :
  exists tr w, worker_run tr workers_init = Some w /\ stop_waits w /\
    connection_workers_done_event w = true /\ Working ∈ w_workers w /\ active_connection_workers w = 1.
Proof.
  exists [WBegin; WReset 0; WCheck 0; WEnd 0; WBegin; WReset 1; WCheck 1; WSet 0; WStop].
  eexists. split; [reflexivity|]. split; [by split|]. split; [done|]. split; [|done]. right. left.
Qed.
