(* ===== verification/Relay.v ===== *)
(** * The completion-port relay (pb_relay.c)

    The pool that moves the bytes of proxied connections: every direction of a
    connection has one overlapped operation with the system, a worker handles
    its completion, and the last direction to end frees the connection.  The
    threads interleave freely: an event is what one thread does between two
    points where another can come in between. *)
From S2P Require Import Prelude.

Definition RELAY_BUF_SIZE : Z := 65536.
Definition RELAY_POOL_KEEP : Z := 256.

Inductive relay_state := RS_WAIT | RS_READ | RS_SEND.

(** Where the direction is: not posted yet by [relay_start], with the system,
    about to run [relay_dir_end], about to give its reference back, done. *)
Inductive dir_pc := Starting | InFlight | Ending (clean_eof : bool) | Releasing | Gone.

(** [d_received] and [d_sent] are the bytes taken from the source and accepted
    by the destination so far, [d_eof] that the destination's send side was shut. *)
Record RELAY_DIR := mkDir {
  d_src : Z; d_dst : Z;
  d_buf : option Z;
  d_len : Z; d_off : Z;
  d_state : relay_state;
  d_pc : dir_pc;
  d_received : bytes; d_sent : bytes; d_eof : bool
}.

(** The thread that took the last reference: not yet, before the unlinking,
    before the closing. *)
Inductive conn_pc := Alive | Dying | Unlinked.

Record RELAY_CONN := mkRelayConn {
  rc_s0 : Z; rc_s1 : Z;
  rc_dir0 : RELAY_DIR; rc_dir1 : RELAY_DIR;
  rc_refs : Z;
  rc_closing : bool;
  rc_prev : option Z; rc_next : option Z;
  rc_pc : conn_pc
}.

(** [g_conns] and [g_bufs] are the allocated connections and buffers, [g_open]
    the open sockets the relay was given. *)
Record RelayState := mkRelay {
  g_conns : gmap Z RELAY_CONN;
  g_relay_head : option Z;
  g_active_relays : Z;
  g_relay_pool : list Z;            (* the last entry of the array first *)
  g_bufs : gmap Z bytes;
  g_relay_accepting : bool;
  g_relay_done : bool;
  g_open : gset Z
}.

Definition relay_init : RelayState := mkRelay ∅ None 0 [] ∅ true true ∅.

(** ** Access *)

Definition dir_of (c : RELAY_CONN) (i : bool) : RELAY_DIR := if i then rc_dir1 c else rc_dir0 c.

Definition set_dir (c : RELAY_CONN) (i : bool) (d : RELAY_DIR) : RELAY_CONN :=
  mkRelayConn (rc_s0 c) (rc_s1 c) (if i then rc_dir0 c else d) (if i then d else rc_dir1 c)
    (rc_refs c) (rc_closing c) (rc_prev c) (rc_next c) (rc_pc c).

Definition set_links (c : RELAY_CONN) (prev next : option Z) : RELAY_CONN :=
  mkRelayConn (rc_s0 c) (rc_s1 c) (rc_dir0 c) (rc_dir1 c) (rc_refs c) (rc_closing c) prev next (rc_pc c).
Definition set_closing (c : RELAY_CONN) : RELAY_CONN :=
  mkRelayConn (rc_s0 c) (rc_s1 c) (rc_dir0 c) (rc_dir1 c) (rc_refs c) true (rc_prev c) (rc_next c) (rc_pc c).
Definition set_refs (c : RELAY_CONN) (refs : Z) (pc : conn_pc) : RELAY_CONN :=
  mkRelayConn (rc_s0 c) (rc_s1 c) (rc_dir0 c) (rc_dir1 c) refs (rc_closing c) (rc_prev c) (rc_next c) pc.

Definition set_pc (d : RELAY_DIR) (pc : dir_pc) : RELAY_DIR :=
  mkDir (d_src d) (d_dst d) (d_buf d) (d_len d) (d_off d) (d_state d) pc (d_received d) (d_sent d) (d_eof d).
Definition set_eof (d : RELAY_DIR) : RELAY_DIR :=
  mkDir (d_src d) (d_dst d) (d_buf d) (d_len d) (d_off d) (d_state d) (d_pc d) (d_received d) (d_sent d) true.

Definition with_conns (s : RelayState) (m : gmap Z RELAY_CONN) : RelayState :=
  mkRelay m (g_relay_head s) (g_active_relays s) (g_relay_pool s) (g_bufs s) (g_relay_accepting s)
    (g_relay_done s) (g_open s).
Definition set_conn (s : RelayState) (p : Z) (c : RELAY_CONN) : RelayState :=
  with_conns s (<[p := c]> (g_conns s)).
Definition with_bufs (s : RelayState) (pool : list Z) (bufs : gmap Z bytes) : RelayState :=
  mkRelay (g_conns s) (g_relay_head s) (g_active_relays s) pool bufs (g_relay_accepting s)
    (g_relay_done s) (g_open s).
Definition with_head (s : RelayState) (head : option Z) : RelayState :=
  mkRelay (g_conns s) head (g_active_relays s) (g_relay_pool s) (g_bufs s) (g_relay_accepting s)
    (g_relay_done s) (g_open s).
Definition with_active (s : RelayState) (n : Z) (done : bool) : RelayState :=
  mkRelay (g_conns s) (g_relay_head s) n (g_relay_pool s) (g_bufs s) (g_relay_accepting s) done (g_open s).
Definition with_open (s : RelayState) (open : gset Z) : RelayState :=
  mkRelay (g_conns s) (g_relay_head s) (g_active_relays s) (g_relay_pool s) (g_bufs s) (g_relay_accepting s)
    (g_relay_done s) open.
Definition with_accepting (s : RelayState) (b : bool) : RelayState :=
  mkRelay (g_conns s) (g_relay_head s) (g_active_relays s) (g_relay_pool s) (g_bufs s) b
    (g_relay_done s) (g_open s).

(** An allocation: the system's address, when it is not in use. *)
Definition alloc_at {A} (heap : gmap Z A) (hint : option Z) : option Z :=
  p ← hint; if decide (heap !! p = None) then Some p else None.

(** ** Operations

    [None] is a fault: memory that was freed, a buffer that is not there, a
    socket that is closed. *)

Definition relay_buf_get (hint : option Z) (s : RelayState) : RelayState * option Z :=
  match g_relay_pool s with
  | b :: pool => (with_bufs s pool (g_bufs s), Some b)
  | [] => match alloc_at (g_bufs s) hint with
          | Some b => (with_bufs s [] (<[b := []]> (g_bufs s)), Some b)
          | None => (s, None)
          end
  end.

Definition relay_buf_put (b : option Z) (s : RelayState) : option RelayState :=
  match b with
  | None => Some s
  | Some b =>
      if Z.of_nat (length (g_relay_pool s)) <? RELAY_POOL_KEEP
      then Some (with_bufs s (b :: g_relay_pool s) (g_bufs s))
      else if decide (is_Some (g_bufs s !! b))
           then Some (with_bufs s (g_relay_pool s) (delete b (g_bufs s)))
           else None
  end.

(** A call on a socket. *)
Definition on_socket (h : Z) (s : RelayState) : option unit :=
  if decide (h ∈ g_open s) then Some tt else None.

Definition relay_abort (p : Z) (s : RelayState) : option RelayState :=
  c ← g_conns s !! p;
  if rc_closing c then Some s
  else _ ← on_socket (rc_s0 c) s; _ ← on_socket (rc_s1 c) s; Some (set_conn s p (set_closing c)).

(** A call that posts an operation: it fails on a connection that was aborted,
    whose sockets are shut down both ways.  When it fails the caller goes on
    with [relay_dir_end(d, FALSE)]. *)
Definition io_ok (c : RELAY_CONN) (posted : bool) : bool := posted && negb (rc_closing c).
Definition post (d : RELAY_DIR) (buf : option Z) (state : relay_state) (ok : bool) : RELAY_DIR :=
  mkDir (d_src d) (d_dst d) buf (d_len d) (d_off d) state (if ok then InFlight else Ending false)
    (d_received d) (d_sent d) (d_eof d).

Definition relay_post_wait (posted : bool) (p : Z) (i : bool) (s : RelayState) : option RelayState :=
  c ← g_conns s !! p;
  s ← relay_buf_put (d_buf (dir_of c i)) s;
  _ ← on_socket (d_src (dir_of c i)) s;
  Some (set_conn s p (set_dir c i (post (dir_of c i) None RS_WAIT (io_ok c posted)))).

Definition relay_post_read (hint : option Z) (posted : bool) (p : Z) (i : bool) (s : RelayState)
  : option RelayState :=
  c ← g_conns s !! p;
  let d := dir_of c i in
  let '(s, buf) := match d_buf d with Some b => (s, Some b) | None => relay_buf_get hint s end in
  match buf with
  | None => Some (set_conn s p (set_dir c i (set_pc d (Ending false))))
  | Some b =>
      _ ← on_socket (d_src d) s;
      Some (set_conn s p (set_dir c i (post d (Some b) RS_READ (io_ok c posted))))
  end.

Definition relay_post_send (posted : bool) (p : Z) (i : bool) (s : RelayState) : option RelayState :=
  c ← g_conns s !! p;
  let d := dir_of c i in
  b ← d_buf d;
  _ ← on_socket (d_dst d) s;
  Some (set_conn s p (set_dir c i (post d (Some b) RS_SEND (io_ok c posted)))).

(** What the completion port hands out: a failed operation, a readable source,
    what a receive put into the buffer, how much a send took. *)
Inductive completion := IoError | IoReady | IoRead (data : bytes) | IoSent (n : Z).

(** [d->len = n; d->off = 0], with the bytes in the buffer. *)
Definition got (d : RELAY_DIR) (data : bytes) : RELAY_DIR :=
  mkDir (d_src d) (d_dst d) (d_buf d) (Z.of_nat (length data)) 0 (d_state d) (d_pc d)
    (d_received d ++ data) (d_sent d) (d_eof d).
(** [d->off += n], with the bytes sent. *)
Definition took (d : RELAY_DIR) (content : bytes) (n : Z) : RELAY_DIR :=
  mkDir (d_src d) (d_dst d) (d_buf d) (d_len d) (d_off d + n) (d_state d) (d_pc d)
    (d_received d) (d_sent d ++ take (Z.to_nat n) (drop (Z.to_nat (d_off d)) content)) (d_eof d).

Definition relay_worker (r : completion) (hint : option Z) (posted : bool) (p : Z) (i : bool) (s : RelayState)
  : option RelayState :=
  c ← g_conns s !! p;
  let d := dir_of c i in
  match r with
  | IoError => Some (set_conn s p (set_dir c i (set_pc d (Ending false))))
  | IoReady => relay_post_read hint posted p i s
  | IoRead data =>
      match data with
      | [] => Some (set_conn s p (set_dir c i (set_pc d (Ending true))))
      | _ =>
          b ← d_buf d; _ ← g_bufs s !! b;
          let s := with_bufs s (g_relay_pool s) (<[b := data]> (g_bufs s)) in
          relay_post_send posted p i (set_conn s p (set_dir c i (got d data)))
      end
  | IoSent n =>
      if n =? 0 then Some (set_conn s p (set_dir c i (set_pc d (Ending false))))
      else
        b ← d_buf d; content ← g_bufs s !! b;
        let d := took d content n in
        let s := set_conn s p (set_dir c i d) in
        if d_off d <? d_len d then relay_post_send posted p i s
        else if d_len d <? RELAY_BUF_SIZE / 4 then relay_post_wait posted p i s
        else relay_post_read hint posted p i s
  end.

Definition relay_dir_end (clean_eof : bool) (p : Z) (i : bool) (s : RelayState) : option RelayState :=
  c ← g_conns s !! p;
  if clean_eof
  then _ ← on_socket (d_dst (dir_of c i)) s;
       Some (set_conn s p (set_dir c i (set_pc (set_eof (dir_of c i)) Releasing)))
  else s ← relay_abort p s;
       c ← g_conns s !! p;
       Some (set_conn s p (set_dir c i (set_pc (dir_of c i) Releasing))).

(** [relay_release] in three parts: the reference, the list under its lock, the
    sockets and the memory. *)
Definition release_ref (p : Z) (i : bool) (s : RelayState) : option RelayState :=
  c ← g_conns s !! p;
  let refs := rc_refs c - 1 in
  Some (set_conn s p (set_refs (set_dir c i (set_pc (dir_of c i) Gone)) refs
                        (if refs =? 0 then Dying else rc_pc c))).

Definition relink (q : Z) (f : RELAY_CONN -> RELAY_CONN) (s : RelayState) : option RelayState :=
  c ← g_conns s !! q; Some (set_conn s q (f c)).

Definition release_unlink (p : Z) (s : RelayState) : option RelayState :=
  c ← g_conns s !! p;
  s ← match rc_prev c with
      | Some q => relink q (fun d => set_links d (rc_prev d) (rc_next c)) s
      | None => Some (with_head s (rc_next c))
      end;
  s ← match rc_next c with
      | Some q => relink q (fun d => set_links d (rc_prev c) (rc_next d)) s
      | None => Some s
      end;
  let n := g_active_relays s - 1 in
  let s := with_active s n (if n =? 0 then true else g_relay_done s) in
  relink p (fun d => set_refs d (rc_refs d) Unlinked) s.

Definition closesocket (h : Z) (s : RelayState) : option RelayState :=
  _ ← on_socket h s; Some (with_open s (g_open s ∖ {[h]})).

Definition release_free (p : Z) (s : RelayState) : option RelayState :=
  c ← g_conns s !! p;
  s ← closesocket (rc_s0 c) s;
  s ← closesocket (rc_s1 c) s;
  s ← relay_buf_put (d_buf (rc_dir0 c)) s;
  s ← relay_buf_put (d_buf (rc_dir1 c)) s;
  Some (with_conns s (delete p (g_conns s))).

(** Walks the list from [cur]; [None] also when [fuel] connections did not end it. *)
Fixpoint abort_list (fuel : nat) (cur : option Z) (s : RelayState) : option RelayState :=
  match cur, fuel with
  | None, _ => Some s
  | Some p, S fuel =>
      s ← relay_abort p s;
      c ← g_conns s !! p;
      abort_list fuel (rc_next c) s
  | Some _, O => None
  end.

Definition relay_pool_abort (s : RelayState) : option RelayState :=
  abort_list (size (g_conns s)) (g_relay_head s) (with_accepting s false).

(** The end of [relay_pool_stop]: the pool's buffers are freed. *)
Fixpoint free_all (l : list Z) (bufs : gmap Z bytes) : option (gmap Z bytes) :=
  match l with
  | [] => Some bufs
  | b :: l => _ ← bufs !! b; free_all l (delete b bufs)
  end.
Definition relay_pool_free (s : RelayState) : option RelayState :=
  bufs ← free_all (g_relay_pool s) (g_bufs s); Some (with_bufs s [] bufs).

(** [relay_start] up to the first posts, which are events of their own: the new
    connection, or [None] when the caller keeps the sockets. *)
Definition new_dir (src dst : Z) : RELAY_DIR := mkDir src dst None 0 0 RS_WAIT Starting [] [] false.
Definition new_conn (client proxy : Z) (next : option Z) : RELAY_CONN :=
  mkRelayConn client proxy (new_dir client proxy) (new_dir proxy client) 2 false None next Alive.

Definition relay_link (p client proxy : Z) (s : RelayState) : option RelayState :=
  s' ← match g_relay_head s with
       | Some q => relink q (fun d => set_links d (Some p) (rc_next d)) s
       | None => Some s
       end;
  let s' := set_conn s' p (new_conn client proxy (g_relay_head s)) in
  let s' := with_head s' (Some p) in
  Some (with_active s' (g_active_relays s' + 1) false).

(** [iocp] and [running] as they are on entry, [associated] whether the port took
    both sockets, [running'] what is read under the lock. *)
Definition relay_start (iocp running associated running' : bool) (hint : option Z) (client proxy : Z)
    (s : RelayState) : option (RelayState * option Z) :=
  if negb iocp || negb running then Some (s, None)
  else match alloc_at (g_conns s) hint with
       | None => Some (s, None)
       | Some p =>
           if negb associated then Some (s, None)
           else if negb (g_relay_accepting s) || negb running' then Some (s, None)
           else s ← relay_link p client proxy (with_open s ({[client; proxy]} ∪ g_open s)); Some (s, Some p)
       end.

(** ** The threads

    An event names the thread's next part and what the system answers. *)
Inductive relay_event :=
| EvStart (iocp running associated running' : bool) (hint : option Z) (client proxy : Z)
| EvPost (posted : bool) (p : Z) (i : bool)
| EvComplete (r : completion) (hint : option Z) (posted : bool) (p : Z) (i : bool)
| EvDirEnd (p : Z) (i : bool)
| EvRelease (p : Z) (i : bool)
| EvUnlink (p : Z)
| EvFree (p : Z)
| EvAbort.

(** [Faulty]: the program goes wrong.  [Disabled]: no thread is at that point,
    or the system does not answer so. *)
Inductive step_result := Disabled | Faulty | Next (s : RelayState).

Definition run_part (enabled : bool) (r : option RelayState) : step_result :=
  if enabled then match r with Some s => Next s | None => Faulty end else Disabled.

Definition pc_at (s : RelayState) (p : Z) (i : bool) : option dir_pc :=
  c ← g_conns s !! p; Some (d_pc (dir_of c i)).
Definition conn_pc_at (s : RelayState) (p : Z) : option conn_pc := c ← g_conns s !! p; Some (rc_pc c).

#[export] Instance dir_pc_eq_dec : EqDecision dir_pc.
Proof. solve_decision. Defined.
#[export] Instance conn_pc_eq_dec : EqDecision conn_pc.
Proof. solve_decision. Defined.

(** What the system may answer to the operation of a direction: a receive gives
    at most the buffer, a send takes at most what it was offered. *)
Definition completion_ok (d : RELAY_DIR) (r : completion) : bool :=
  match r, d_state d with
  | IoError, _ => true
  | IoReady, RS_WAIT => true
  | IoRead data, RS_READ => Z.of_nat (length data) <=? RELAY_BUF_SIZE
  | IoSent n, RS_SEND => (0 <=? n) && (n <=? d_len d - d_off d)
  | _, _ => false
  end.

Definition completes (s : RelayState) (p : Z) (i : bool) (r : completion) : bool :=
  match g_conns s !! p with
  | Some c => bool_decide (d_pc (dir_of c i) = InFlight) && completion_ok (dir_of c i) r
  | None => false
  end.

Definition ending_clean (s : RelayState) (p : Z) (i : bool) : bool := bool_decide (pc_at s p i = Some (Ending true)).
Definition ending_bad (s : RelayState) (p : Z) (i : bool) : bool := bool_decide (pc_at s p i = Some (Ending false)).

Definition relay_step (e : relay_event) (s : RelayState) : step_result :=
  match e with
  | EvStart iocp running associated running' hint client proxy =>
      run_part (bool_decide (client <> proxy /\ (client ∉ g_open s) /\ (proxy ∉ g_open s)))
        (fst <$> (relay_start iocp running associated running' hint client proxy s))
  | EvPost posted p i => run_part (bool_decide (pc_at s p i = Some Starting)) (relay_post_wait posted p i s)
  | EvComplete r hint posted p i => run_part (completes s p i r) (relay_worker r hint posted p i s)
  | EvDirEnd p i => run_part (ending_clean s p i || ending_bad s p i) (relay_dir_end (ending_clean s p i) p i s)
  | EvRelease p i => run_part (bool_decide (pc_at s p i = Some Releasing)) (release_ref p i s)
  | EvUnlink p => run_part (bool_decide (conn_pc_at s p = Some Dying)) (release_unlink p s)
  | EvFree p => run_part (bool_decide (conn_pc_at s p = Some Unlinked)) (release_free p s)
  | EvAbort => run_part true (relay_pool_abort s)
  end.

Fixpoint relay_run (l : list relay_event) (s : RelayState) : step_result :=
  match l with
  | [] => Next s
  | e :: l => match relay_step e s with Next s => relay_run l s | r => r end
  end.
