(* ===== verification/RelaySafety.v ===== *)
(** * The completion-port relay is safe

    The invariant of the pool (the list of connections, the sockets, the
    buffers, the stream of every direction) and that every event keeps it
    without a fault. *)
From S2P Require Import Prelude Relay.

(** ** The doubly linked list *)

Record link := mkLink { k_prev : option Z; k_next : option Z; k_linked : bool }.

Fixpoint dll (m : gmap Z link) (pre cur : option Z) (l : list Z) : Prop :=
  match l with
  | [] => cur = None
  | p :: l => cur = Some p /\ exists k, m !! p = Some k /\ k_prev k = pre /\ dll m (Some p) (k_next k) l
  end.

Lemma dll_frame m m' pre cur l :
  dll m pre cur l ->
  (forall q k, q ∈ l -> m !! q = Some k ->
     exists k', m' !! q = Some k' /\ k_prev k' = k_prev k /\ k_next k' = k_next k) ->
  dll m' pre cur l.
Proof.
  revert pre cur. induction l as [|p l IH]; intros pre cur; [done|]. intros (-> & k & Hk & <- & Hd) Hm.
  split; [done|]. destruct (Hm p k) as (k' & Hk' & Hp & Hn); [left|done|]. exists k'. split; [done|].
  split; [done|]. rewrite Hn. apply IH; [done|]. intros q kq Hq. apply Hm. by right.
Qed.

Lemma dll_cur m pre cur l : dll m pre cur l -> cur = head l.
Proof. destruct l; [done|]. by intros [-> _]. Qed.

(** The neighbours of a node in the middle. *)
Lemma dll_neighbours m pre cur l1 p l2 k :
  dll m pre cur (l1 ++ p :: l2) -> m !! p = Some k ->
  k_prev k = match last l1 with Some q => Some q | None => pre end /\ k_next k = head l2.
Proof.
  revert pre cur. induction l1 as [|q l1 IH]; intros pre cur Hd Hp; cbn [app dll] in Hd.
  - destruct Hd as (_ & k' & Hk' & Hpre & Hd). simplify_eq. split; [done|]. by eapply dll_cur.
  - destruct Hd as (_ & k' & Hk' & _ & Hd). destruct (IH _ _ Hd Hp) as [H1 H2]. split; [|done].
    rewrite H1. destruct l1 as [|r l1]; [done|]. rewrite last_cons_cons. by destruct (last (r :: l1)) eqn:E; [|apply last_None in E].
Qed.

(** What the unlinking of [p] does to the other nodes. *)
Definition unlinked (m m' : gmap Z link) (p : Z) (k : link) : Prop :=
  forall q kq, q <> p -> m !! q = Some kq ->
  exists k', m' !! q = Some k' /\
    k_next k' = (if decide (k_prev k = Some q) then k_next k else k_next kq) /\
    k_prev k' = (if decide (k_next k = Some q) then k_prev k else k_prev kq).

Lemma dll_remove m m' pre cur l1 p l2 k :
  dll m pre cur (l1 ++ p :: l2) -> NoDup (l1 ++ p :: l2) -> m !! p = Some k ->
  match pre with Some q => q ∉ l1 ++ p :: l2 | None => True end ->
  unlinked m m' p k ->
  dll m' pre (match l1 with [] => k_next k | _ => cur end) (l1 ++ l2).
Proof.
  intros Hd Hnd Hk Hpre Hu. destruct (dll_neighbours _ _ _ _ _ _ _ Hd Hk) as [Hkp Hkn].
  revert pre cur Hd Hnd Hpre Hkp. induction l1 as [|q l1 IH]; intros pre cur Hd Hnd Hpre Hkp; cbn [app] in *.
  - destruct Hd as (_ & k' & Hk' & _ & Hd). simplify_eq. cbn [last] in Hkp.
    destruct l2 as [|r l2]; [done|]. destruct Hd as (Hr & kr & Hmr & Hpr & Hd).
    apply NoDup_cons in Hnd as [Hp Hnd]. apply NoDup_cons in Hnd as [Hrl Hnd].
    split; [done|]. destruct (Hu r kr) as (kr' & Hmr' & Hn' & Hp'); [set_solver|done|].
    assert (pre <> Some r) as Hpr' by (intros ->; set_solver).
    exists kr'. split; [done|]. rewrite decide_True in Hp' by done. rewrite decide_False in Hn' by congruence.
    split; [congruence|]. rewrite Hn'. eapply dll_frame; [exact Hd|]. intros x kx Hx Hmx.
    destruct (Hu x kx) as (kx' & Hmx' & Hnx & Hpx); [set_solver|done|]. exists kx'. split; [done|].
    rewrite decide_False in Hnx by (destruct pre; set_solver). rewrite decide_False in Hpx; [done|]. rewrite Hkn. simpl. set_solver.
  - destruct Hd as (-> & kq & Hmq & Hpq & Hd). apply NoDup_cons in Hnd as [Hq Hnd].
    destruct (Hu q kq) as (kq' & Hmq' & Hnq & Hpq'); [set_solver|done|]. split; [done|]. exists kq'. split; [done|].
    split.
    { rewrite Hpq', decide_False; [done|]. rewrite Hkn. destruct l2 as [|r l2]; [done|]. simpl. set_solver. }
    assert (match last l1 with Some q => Some q | None => Some q end = k_prev k) as Hl.
    { rewrite Hkp. destruct l1; [done|]. rewrite last_cons_cons. by destruct (last (z :: l1)) eqn:E; [|apply last_None in E]. }
    specialize (IH (Some q) (k_next kq) Hd Hnd Hq ltac:(done)).
    destruct l1 as [|r l1].
    + cbn in Hl. rewrite Hnq, decide_True by done. exact IH.
    + rewrite Hnq, decide_False; [exact IH|]. rewrite <- Hl.
      destruct (last (r :: l1)) as [x|] eqn:E; [|by apply last_None in E].
      apply last_Some_elem_of in E. set_solver.
Qed.

(** ** Slots

    Who holds what: the sockets of the connections, and the buffers of their
    directions. *)
Definition slot (m : gmap Z (option Z * option Z)) (p : Z) (i : bool) : option Z :=
  x ← m !! p; if i then snd x else fst x.

Definition exclusive (m : gmap Z (option Z * option Z)) : Prop :=
  forall p i q j x, slot m p i = Some x -> slot m q j = Some x -> p = q /\ i = j.
Definition held (m : gmap Z (option Z * option Z)) (x : Z) : Prop := exists p i, slot m p i = Some x.

(** [m'] is [m] with one slot changed. *)
Definition slot_set (m m' : gmap Z (option Z * option Z)) (p : Z) (i : bool) (o : option Z) : Prop :=
  slot m' p i = o /\ forall q j, (q, j) <> (p, i) -> slot m' q j = slot m q j.

Lemma slot_set_exclusive m m' p i o :
  slot_set m m' p i o -> exclusive m ->
  (forall x, o = Some x -> ~ held m x \/ slot m p i = Some x) -> exclusive m'.
Proof.
  intros [Ho Hs] He Hx q j r k x Hq Hr.
  destruct (decide ((q, j) = (p, i))) as [E1|E1]; [injection E1 as -> ->|rewrite Hs in Hq by done];
    (destruct (decide ((r, k) = (p, i))) as [E2|E2]; [injection E2 as -> ->|rewrite Hs in Hr by done]).
  - done.
  - rewrite Ho in Hq. destruct (Hx x Hq) as [Hn|Hn]; [destruct Hn; by exists r, k|by apply (He _ _ _ _ x)].
  - rewrite Ho in Hr. destruct (Hx x Hr) as [Hn|Hn]; [destruct Hn; by exists q, j|by apply (He _ _ _ _ x)].
  - by eapply He.
Qed.

Lemma slot_set_held m m' p i o x :
  slot_set m m' p i o -> held m' x -> o = Some x \/ held m x.
Proof.
  intros [Ho Hs] (q & j & Hq). destruct (decide ((q, j) = (p, i))) as [E|E]; [injection E as -> ->; left; congruence|].
  rewrite Hs in Hq by done. right. by exists q, j.
Qed.

Lemma slot_set_held_not m m' p i o b :
  slot_set m m' p i o -> exclusive m -> slot m p i = Some b -> o <> Some b -> ~ held m' b.
Proof.
  intros [Ho Hs] He Hb Hn (q & j & Hq). destruct (decide ((q, j) = (p, i))) as [E|E]; [injection E as -> ->; congruence|].
  rewrite Hs in Hq by done. destruct (He _ _ _ _ _ Hb Hq). congruence.
Qed.

Lemma slot_set_still m m' p i o x :
  slot_set m m' p i o -> held m x -> slot m p i <> Some x -> held m' x.
Proof.
  intros [Ho Hs] (q & j & Hq) Hn. exists q, j. rewrite Hs; [done|]. intros E. injection E as -> ->. done.
Qed.

(** ** The parts of the invariant *)

Record list_inv (m : gmap Z link) (head : option Z) (active : Z) (done : bool) (l : list Z) : Prop := {
  li_dll : dll m None head l;
  li_nodup : NoDup l;
  li_in : forall p, p ∈ l <-> exists k, m !! p = Some k /\ k_linked k = true;
  li_active : active = Z.of_nat (length l);
  li_done : done = true <-> l = []
}.

Record socks_inv (m : gmap Z (option Z * option Z)) (open : gset Z) : Prop := {
  si_exclusive : exclusive m;
  si_open : forall h, h ∈ open <-> held m h
}.

Record bufs_inv (m : gmap Z (option Z * option Z)) (pool : list Z) (bufs : gmap Z bytes) : Prop := {
  bi_exclusive : exclusive m;
  bi_nodup : NoDup pool;
  bi_apart : forall b, b ∈ pool -> ~ held m b;
  bi_live : forall b, is_Some (bufs !! b) <-> b ∈ pool \/ held m b;
  bi_bound : Z.of_nat (length pool) <= RELAY_POOL_KEEP
}.

Definition links_of (c : RELAY_CONN) : link :=
  mkLink (rc_prev c) (rc_next c) (negb (bool_decide (rc_pc c = Unlinked))).
Definition socks_of (c : RELAY_CONN) : option Z * option Z := (Some (rc_s0 c), Some (rc_s1 c)).
Definition bufs_of (c : RELAY_CONN) : option Z * option Z := (d_buf (rc_dir0 c), d_buf (rc_dir1 c)).

Definition live (d : RELAY_DIR) : Z := if decide (d_pc d = Gone) then 0 else 1.

(** References and sockets of a connection. *)
Record shape (c : RELAY_CONN) : Prop := {
  sh_refs : rc_refs c = live (rc_dir0 c) + live (rc_dir1 c);
  sh_pc : match rc_pc c with Alive => 0 < rc_refs c | _ => rc_refs c = 0 end;
  sh_dir0 : d_src (rc_dir0 c) = rc_s0 c /\ d_dst (rc_dir0 c) = rc_s1 c;
  sh_dir1 : d_src (rc_dir1 c) = rc_s1 c /\ d_dst (rc_dir1 c) = rc_s0 c
}.

(** The stream of a direction: what was sent, and in what state the rest is. *)
Definition stream_wf (bufs : gmap Z bytes) (d : RELAY_DIR) : Prop :=
  match d_pc d with
  | Starting => d_buf d = None /\ d_received d = d_sent d
  | InFlight =>
      match d_state d with
      | RS_WAIT => d_buf d = None /\ d_received d = d_sent d
      | RS_READ => is_Some (d_buf d) /\ d_received d = d_sent d
      | RS_SEND => exists b content, d_buf d = Some b /\ bufs !! b = Some content /\
          d_len d = Z.of_nat (length content) /\ 0 <= d_off d < d_len d /\ d_len d <= RELAY_BUF_SIZE /\
          d_received d = d_sent d ++ drop (Z.to_nat (d_off d)) content
      end
  | Ending true => d_received d = d_sent d
  | _ => d_sent d `prefix_of` d_received d
  end /\
  (d_eof d = true -> d_received d = d_sent d /\ (d_pc d = Releasing \/ d_pc d = Gone)).

Record relay_core (s : RelayState) : Prop := {
  rw_list : exists l, list_inv (links_of <$> g_conns s) (g_relay_head s) (g_active_relays s) (g_relay_done s) l;
  rw_socks : socks_inv (socks_of <$> g_conns s) (g_open s);
  rw_bufs : bufs_inv (bufs_of <$> g_conns s) (g_relay_pool s) (g_bufs s);
  rw_shape : forall p c, g_conns s !! p = Some c -> shape c
}.

Definition relay_wf (s : RelayState) : Prop :=
  relay_core s /\ forall p c i, g_conns s !! p = Some c -> stream_wf (g_bufs s) (dir_of c i).

(** ** Changes of the parts *)

Lemma proj_same {B A} (f : B -> A) (m : gmap Z B) p c c' :
  m !! p = Some c -> f c' = f c -> f <$> <[p := c']> m = f <$> m.
Proof.
  intros Hc Hf. rewrite fmap_insert, Hf, insert_id; [done|]. by rewrite lookup_fmap, Hc.
Qed.

Lemma slot_bufs m p c i : m !! p = Some c -> slot (bufs_of <$> m) p i = d_buf (dir_of c i).
Proof. intros Hc. unfold slot. rewrite lookup_fmap, Hc. by destruct i. Qed.

Lemma slot_bufs_set m p c i d :
  m !! p = Some c -> slot_set (bufs_of <$> m) (bufs_of <$> <[p := set_dir c i d]> m) p i (d_buf d).
Proof.
  intros Hc. split.
  - rewrite (slot_bufs _ p (set_dir c i d)) by (by rewrite lookup_insert_eq). by destruct i.
  - intros q j Hn. unfold slot. rewrite fmap_insert. destruct (decide (q = p)) as [->|Hq].
    + rewrite lookup_insert_eq, lookup_fmap, Hc. cbn. by destruct i, j.
    + by rewrite lookup_insert_ne by done.
Qed.

Lemma bufs_inv_same m m' p i pool bufs :
  bufs_inv m pool bufs -> slot_set m m' p i (slot m p i) -> bufs_inv m' pool bufs.
Proof.
  intros [He Hnd Ha Hl Hb] Hs.
  assert (forall b, held m' b <-> held m b) as Hh.
  { intros b. split.
    - intros Hh. destruct (slot_set_held _ _ _ _ _ _ Hs Hh); [by exists p, i|done].
    - intros (q & j & Hq). exists q, j. destruct Hs as [Hp Hs]. destruct (decide ((q, j) = (p, i))) as [E|E]; [|by rewrite Hs].
      injection E as -> ->. by rewrite Hp. }
  split; [|done| |by intros b; rewrite Hh|done].
  - eapply slot_set_exclusive; [done..|]. by right.
  - intros b. rewrite Hh. apply Ha.
Qed.

(** A buffer goes from its holder to the pool. *)
Lemma bufs_inv_put m m' p i b pool bufs :
  bufs_inv m pool bufs -> slot m p i = Some b -> slot_set m m' p i None ->
  Z.of_nat (length pool) < RELAY_POOL_KEEP -> bufs_inv m' (b :: pool) bufs.
Proof.
  intros [He Hnd Ha Hl Hb] Hp Hs Hlt.
  assert (held m b) as Hheld by (by exists p, i).
  assert (b ∉ pool) by (intros Hin; by apply (Ha b)).
  assert (~ held m' b) as Hgone by (by eapply slot_set_held_not).
  split.
  - eapply slot_set_exclusive; [done..|]. by intros x.
  - by apply NoDup_cons.
  - intros x [->|Hx]%elem_of_cons; [done|]. intros Hh. apply (Ha x Hx).
    by destruct (slot_set_held _ _ _ _ _ _ Hs Hh).
  - intros x. rewrite Hl, elem_of_cons. split.
    + intros [Hx|Hx]; [auto|]. destruct (decide (x = b)) as [->|Hne]; [auto|]. right. eapply slot_set_still; [done..|]. congruence.
    + intros [[->|Hx]|Hx]; [auto..|]. right. by destruct (slot_set_held _ _ _ _ _ _ Hs Hx).
  - simpl. lia.
Qed.

(** It is freed instead. *)
Lemma bufs_inv_free m m' p i b pool bufs :
  bufs_inv m pool bufs -> slot m p i = Some b -> slot_set m m' p i None ->
  bufs_inv m' pool (delete b bufs).
Proof.
  intros [He Hnd Ha Hl Hb] Hp Hs.
  assert (held m b) as Hheld by (by exists p, i).
  assert (b ∉ pool) by (intros Hin; by apply (Ha b)).
  assert (~ held m' b) as Hgone by (by eapply slot_set_held_not).
  split; [|done| | |done].
  - eapply slot_set_exclusive; [done..|]. by intros x.
  - intros x Hx Hh. apply (Ha x Hx). by destruct (slot_set_held _ _ _ _ _ _ Hs Hh).
  - intros x. rewrite lookup_delete_is_Some, Hl. split.
    + intros [Hne [Hx|Hx]]; [auto|]. right. eapply slot_set_still; [done..|]. congruence.
    + intros [Hx|Hx]; (split; [intros ->; by try done|]); [auto|]. right. by destruct (slot_set_held _ _ _ _ _ _ Hs Hx).
Qed.

(** It comes from the pool. *)
Lemma bufs_inv_get m m' p i b pool bufs :
  bufs_inv m (b :: pool) bufs -> slot m p i = None -> slot_set m m' p i (Some b) -> bufs_inv m' pool bufs.
Proof.
  intros [He Hnd Ha Hl Hb] Hp Hs. apply NoDup_cons in Hnd as [Hnb Hnd].
  assert (~ held m b) by (apply Ha; left).
  split; [|done| | |simpl in Hb; lia].
  - eapply slot_set_exclusive; [done..|]. intros x ?. simplify_eq. by left.
  - intros x Hx Hh. destruct (slot_set_held _ _ _ _ _ _ Hs Hh); [by simplify_eq|]. apply (Ha x); [by right|done].
  - intros x. rewrite Hl, elem_of_cons. split.
    + intros [[->|Hx]|Hx]; [right; exists p, i; apply Hs|auto|]. right. eapply slot_set_still; [done..|]. congruence.
    + intros [Hx|Hx]; [auto|]. destruct (slot_set_held _ _ _ _ _ _ Hs Hx); [simplify_eq; auto|auto].
Qed.

(** It is allocated. *)
Lemma bufs_inv_new m m' p i b x pool bufs :
  bufs_inv m pool bufs -> bufs !! b = None -> slot m p i = None -> slot_set m m' p i (Some b) ->
  bufs_inv m' pool (<[b := x]> bufs).
Proof.
  intros [He Hnd Ha Hl Hb] Hn Hp Hs.
  assert (~ (b ∈ pool \/ held m b)) as Hnew by (rewrite <- Hl; rewrite Hn; by intros []).
  split; [|done| | |done].
  - eapply slot_set_exclusive; [done..|]. intros y ?. simplify_eq. left. auto.
  - intros y Hy Hh. destruct (slot_set_held _ _ _ _ _ _ Hs Hh); [simplify_eq; auto|]. by apply (Ha y).
  - intros y. rewrite lookup_insert_is_Some, Hl. split.
    + intros [->|[Hne [Hy|Hy]]]; [right; exists p, i; apply Hs|auto|]. right. eapply slot_set_still; [done..|]. congruence.
    + destruct (decide (b = y)) as [->|Hne]; [auto|]. intros [Hy|Hy]; [auto|]. right. split; [done|].
      destruct (slot_set_held _ _ _ _ _ _ Hs Hy); [by simplify_eq|auto].
Qed.

(** ** One direction changes *)

Definition others_wf (s : RelayState) (p : Z) (i : bool) : Prop :=
  forall q c j, g_conns s !! q = Some c -> (q, j) <> (p, i) -> stream_wf (g_bufs s) (dir_of c j).

(** The contents of the other directions' buffers. *)
Definition others_keep (s : RelayState) (p : Z) (i : bool) (bufs : gmap Z bytes) : Prop :=
  forall b, held (bufs_of <$> g_conns s) b -> slot (bufs_of <$> g_conns s) p i <> Some b -> bufs !! b = g_bufs s !! b.

Definition same_ends (d d' : RELAY_DIR) : Prop :=
  d_src d' = d_src d /\ d_dst d' = d_dst d /\ live d' = live d.

Lemma dir_set_same c i d : dir_of (set_dir c i d) i = d.
Proof. by destruct i. Qed.
Lemma dir_set_other c i j d : i <> j -> dir_of (set_dir c i d) j = dir_of c j.
Proof. by destruct i, j. Qed.

Lemma stream_wf_bufs bufs bufs' d :
  stream_wf bufs d -> (forall b, d_buf d = Some b -> bufs' !! b = bufs !! b) -> stream_wf bufs' d.
Proof.
  unfold stream_wf. intros [Hs He] Hb. split; [|done]. destruct (d_pc d); try done. destruct (d_state d); try done.
  destruct Hs as (b & content & Hbuf & Hc & ?). exists b, content. split; [done|]. by rewrite Hb.
Qed.

Lemma shape_set_dir c i d : shape c -> same_ends (dir_of c i) d -> shape (set_dir c i d).
Proof.
  intros [Hr Hp [H0 H0'] [H1 H1']] (Hs & Hd & Hl). destruct i; simpl in *; split; simpl; try done; try lia; split; congruence.
Qed.

Lemma dir_core s p c i d pool bufs :
  relay_core s -> g_conns s !! p = Some c -> others_wf s p i ->
  same_ends (dir_of c i) d ->
  bufs_inv (bufs_of <$> <[p := set_dir c i d]> (g_conns s)) pool bufs ->
  others_keep s p i bufs ->
  let s' := set_conn (with_bufs s pool bufs) p (set_dir c i d) in relay_core s' /\ others_wf s' p i.
Proof.
  intros [Hl Hs Hb Hsh] Hc Ho Hends Hbi Hk. split.
  - split; cbn [set_conn with_conns with_bufs g_conns g_relay_head g_active_relays g_relay_done g_open g_relay_pool g_bufs].
    + by rewrite (proj_same links_of _ _ c).
    + by rewrite (proj_same socks_of _ _ c).
    + done.
    + intros q c' [[<- <-]|[_ Hq]]%lookup_insert_Some; [apply shape_set_dir; [by eapply Hsh|done]|by eapply Hsh].
  - intros q c' j Hq Hn. cbn [set_conn with_conns with_bufs g_conns g_bufs] in *.
    assert (forall c0, g_conns s !! q = Some c0 -> stream_wf bufs (dir_of c0 j)) as Hother.
    { intros c0 Hc0. eapply stream_wf_bufs; [by eapply Ho|]. intros b Hbuf.
      assert (slot (bufs_of <$> g_conns s) q j = Some b) as Hslot by (by rewrite (slot_bufs _ q c0)).
      apply Hk; [by exists q, j|]. intros Hpi. by destruct (bi_exclusive _ _ _ Hb _ _ _ _ _ Hpi Hslot) as [-> ->]. }
    apply lookup_insert_Some in Hq as [[<- <-]|[Hne Hq]]; [|by apply Hother].
    rewrite dir_set_other by congruence. by apply Hother.
Qed.

Lemma wf_complete s p i :
  relay_core s -> others_wf s p i -> (forall c, g_conns s !! p = Some c -> stream_wf (g_bufs s) (dir_of c i)) ->
  relay_wf s.
Proof.
  intros Hcore Ho Hp. split; [done|]. intros q c j Hq.
  destruct (decide ((q, j) = (p, i))) as [E|]; [injection E as -> ->; auto|by eapply Ho].
Qed.

Lemma dir_change s p c i d pool bufs :
  relay_core s -> g_conns s !! p = Some c -> others_wf s p i ->
  same_ends (dir_of c i) d ->
  bufs_inv (bufs_of <$> <[p := set_dir c i d]> (g_conns s)) pool bufs ->
  others_keep s p i bufs -> stream_wf bufs d ->
  relay_wf (set_conn (with_bufs s pool bufs) p (set_dir c i d)).
Proof.
  intros Hcore Hc Ho He Hb Hk Hd. destruct (dir_core s p c i d pool bufs) as [H1 H2]; [done..|].
  eapply wf_complete; [done..|]. intros c' Hc'. cbn in Hc'. rewrite lookup_insert_eq in Hc'. injection Hc' as <-.
  by rewrite dir_set_same.
Qed.

Lemma with_bufs_same s : with_bufs s (g_relay_pool s) (g_bufs s) = s.
Proof. by destruct s. Qed.

Lemma slot_self s p c i :
  g_conns s !! p = Some c -> slot (bufs_of <$> g_conns s) p i = d_buf (dir_of c i).
Proof. apply slot_bufs. Qed.

(** The same without a change of the buffers. *)
Lemma dir_core_same s p c i d :
  relay_core s -> g_conns s !! p = Some c -> others_wf s p i ->
  same_ends (dir_of c i) d -> d_buf d = d_buf (dir_of c i) ->
  let s' := set_conn s p (set_dir c i d) in relay_core s' /\ others_wf s' p i.
Proof.
  intros Hcore Hc Ho He Hb. pose proof (dir_core s p c i d (g_relay_pool s) (g_bufs s)) as H.
  rewrite with_bufs_same in H. apply H; [done..| |by intros].
  eapply bufs_inv_same; [apply rw_bufs, Hcore|]. rewrite (slot_self _ _ c), <- Hb by done. by apply slot_bufs_set.
Qed.

Lemma dir_change_same s p c i d :
  relay_core s -> g_conns s !! p = Some c -> others_wf s p i ->
  same_ends (dir_of c i) d -> d_buf d = d_buf (dir_of c i) -> stream_wf (g_bufs s) d ->
  relay_wf (set_conn s p (set_dir c i d)).
Proof.
  intros Hcore Hc Ho He Hb Hd. destruct (dir_core_same s p c i d) as [H1 H2]; [done..|].
  eapply wf_complete; [done..|]. intros c' Hc'. cbn in Hc'. rewrite lookup_insert_eq in Hc'. injection Hc' as <-.
  by rewrite dir_set_same.
Qed.

(** The system fills the buffer of a direction. *)
Lemma fill_core s p c i b data :
  relay_core s -> g_conns s !! p = Some c -> others_wf s p i -> d_buf (dir_of c i) = Some b ->
  let s' := with_bufs s (g_relay_pool s) (<[b := data]> (g_bufs s)) in relay_core s' /\ others_wf s' p i.
Proof.
  intros [Hl Hs Hb Hsh] Hc Ho Hbuf.
  assert (slot (bufs_of <$> g_conns s) p i = Some b) as Hslot by (by rewrite (slot_self _ _ c)).
  assert (held (bufs_of <$> g_conns s) b) as Hheld by (by exists p, i). split.
  - split; [done..| |done]. destruct Hb as [He Hnd Ha Hlv Hbd]. split; [done..| |done].
    intros x. cbn [with_bufs g_bufs g_relay_pool g_conns]. rewrite lookup_insert_is_Some, Hlv.
    destruct (decide (b = x)) as [->|]; naive_solver.
  - intros q c' j Hq Hn. eapply stream_wf_bufs; [by eapply Ho|]. intros x Hx. cbn [with_bufs g_bufs g_conns] in *.
    apply lookup_insert_ne. intros ->.
    assert (slot (bufs_of <$> g_conns s) q j = Some x) as Hslot' by (by rewrite (slot_bufs _ q c')).
    by destruct (bi_exclusive _ _ _ Hb _ _ _ _ _ Hslot Hslot') as [-> ->].
Qed.

(** ** Posting *)

Lemma sockets_open s p c i :
  relay_core s -> g_conns s !! p = Some c ->
  d_src (dir_of c i) ∈ g_open s /\ d_dst (dir_of c i) ∈ g_open s /\ rc_s0 c ∈ g_open s /\ rc_s1 c ∈ g_open s.
Proof.
  intros [_ Hs _ Hsh] Hc.
  assert (rc_s0 c ∈ g_open s) as H0.
  { apply Hs. exists p, false. unfold slot. by rewrite lookup_fmap, Hc. }
  assert (rc_s1 c ∈ g_open s) as H1.
  { apply Hs. exists p, true. unfold slot. by rewrite lookup_fmap, Hc. }
  destruct (Hsh p c Hc) as [_ _ [E1 E2] [E3 E4]].
  destruct i; simpl; [rewrite E3, E4|rewrite E1, E2]; done.
Qed.

Lemma on_socket_open h s : h ∈ g_open s -> on_socket h s = Some tt.
Proof. intros Hh. unfold on_socket. by rewrite decide_True. Qed.

(** A direction that is about to post: alive, and its destination not shut. *)
Definition active_dir (d : RELAY_DIR) : Prop := live d = 1 /\ d_eof d = false.

Lemma post_ends d buf st ok : active_dir d -> same_ends d (post d buf st ok).
Proof. intros [Hl _]. split; [done|]. split; [done|]. rewrite Hl. by destruct ok. Qed.

Lemma post_stream bufs d buf st ok :
  active_dir d -> (buf = None -> st = RS_WAIT) -> (st = RS_WAIT -> buf = None) ->
  st <> RS_SEND -> d_received d = d_sent d -> stream_wf bufs (post d buf st ok).
Proof.
  intros [_ He] Hn Hw Hs Hr. unfold stream_wf. cbn [post d_pc d_state d_buf d_received d_sent d_eof].
  split; [|by rewrite He]. destruct ok; [|by rewrite Hr].
  destruct st; [auto| |done]. split; [|done]. destruct buf; [by eexists|]. by specialize (Hn eq_refl).
Qed.

Lemma post_wait_wf posted p i c s :
  relay_core s -> g_conns s !! p = Some c -> others_wf s p i ->
  active_dir (dir_of c i) -> d_received (dir_of c i) = d_sent (dir_of c i) ->
  exists s', relay_post_wait posted p i s = Some s' /\ relay_wf s'.
Proof.
  intros Hcore Hc Ho Ha Hr. unfold relay_post_wait. rewrite Hc. cbn [mbind option_bind].
  destruct (sockets_open s p c i Hcore Hc) as [Hsrc _].
  set (d' := post (dir_of c i) None RS_WAIT (io_ok c posted)).
  assert (same_ends (dir_of c i) d') as He by (by apply post_ends).
  assert (forall bufs, stream_wf bufs d') as Hs by (intros; by apply post_stream).
  pose proof (slot_bufs_set _ p c i d' Hc) as Hset. pose proof (rw_bufs _ Hcore) as Hb.
  unfold relay_buf_put. destruct (d_buf (dir_of c i)) as [b|] eqn:Eb.
  - assert (slot (bufs_of <$> g_conns s) p i = Some b) as Hslot by (by rewrite (slot_self _ _ c)).
    destruct (Z.ltb_spec (Z.of_nat (length (g_relay_pool s))) RELAY_POOL_KEEP) as [Hlt|Hge]; cbn [mbind option_bind].
    + rewrite on_socket_open by done. cbn [mbind option_bind]. eexists. split; [reflexivity|].
      apply dir_change; try done. by eapply bufs_inv_put.
    + rewrite decide_True by (apply (bi_live _ _ _ Hb); right; by exists p, i). cbn [mbind option_bind].
      rewrite on_socket_open by done. cbn [mbind option_bind]. eexists. split; [reflexivity|].
      apply dir_change; try done; [by eapply bufs_inv_free|].
      intros x _ Hx. rewrite lookup_delete_ne; [done|congruence].
  - cbn [mbind option_bind]. rewrite on_socket_open by done. cbn [mbind option_bind]. eexists. split; [reflexivity|].
    apply dir_change_same; try done.
Qed.

(** It leaves for [relay_dir_end]. *)
Lemma dir_ends (clean : bool) p c i s :
  relay_core s -> g_conns s !! p = Some c -> others_wf s p i -> active_dir (dir_of c i) ->
  (if clean then d_received (dir_of c i) = d_sent (dir_of c i)
   else d_sent (dir_of c i) `prefix_of` d_received (dir_of c i)) ->
  relay_wf (set_conn s p (set_dir c i (set_pc (dir_of c i) (Ending clean)))).
Proof.
  intros Hcore Hc Ho [Hl Hf] Hs. apply dir_change_same; [done..| |done|].
  - split; [done|]. split; [done|]. by rewrite Hl.
  - unfold stream_wf. cbn [set_pc d_pc d_received d_sent d_eof]. split; [by destruct clean|by rewrite Hf].
Qed.

Lemma post_read_wf hint posted p i c s :
  relay_core s -> g_conns s !! p = Some c -> others_wf s p i ->
  active_dir (dir_of c i) -> d_received (dir_of c i) = d_sent (dir_of c i) ->
  exists s', relay_post_read hint posted p i s = Some s' /\ relay_wf s'.
Proof.
  intros Hcore Hc Ho Ha Hr. unfold relay_post_read. rewrite Hc. cbn [mbind option_bind].
  destruct (sockets_open s p c i Hcore Hc) as [Hsrc _]. pose proof (rw_bufs _ Hcore) as Hb.
  assert (forall b bufs, stream_wf bufs (post (dir_of c i) (Some b) RS_READ (io_ok c posted))) as Hs
    by (intros; by apply post_stream).
  pose proof (fun b => post_ends (dir_of c i) (Some b) RS_READ (io_ok c posted) Ha) as He.
  pose proof (fun b => slot_bufs_set _ p c i (post (dir_of c i) (Some b) RS_READ (io_ok c posted)) Hc) as Hset.
  destruct (d_buf (dir_of c i)) as [b|] eqn:Eb.
  { rewrite on_socket_open by done. cbn [mbind option_bind]. eexists. split; [reflexivity|].
    by apply dir_change_same. }
  assert (slot (bufs_of <$> g_conns s) p i = None) as Hslot by (by rewrite (slot_self _ _ c)).
  unfold relay_buf_get. destruct (g_relay_pool s) as [|b pool] eqn:Ep.
  - unfold alloc_at. destruct hint as [b|]; cbn [mbind option_bind].
    2:{ eexists. split; [reflexivity|]. apply dir_ends; [done..|by rewrite Hr]. }
    case_decide as Hn.
    + rewrite on_socket_open by done. cbn [mbind option_bind]. eexists. split; [reflexivity|].
      apply dir_change; try done; [by eapply bufs_inv_new|].
      intros x Hx _. apply lookup_insert_ne. intros ->.
      assert (is_Some (g_bufs s !! x)) as [? E] by (apply (bi_live _ _ _ Hb); by right). congruence.
    + eexists. split; [reflexivity|]. apply dir_ends; [done..|by rewrite Hr].
  - rewrite on_socket_open by done. cbn [mbind option_bind]. eexists. split; [reflexivity|].
    apply dir_change; try done. by eapply bufs_inv_get.
Qed.

Lemma post_send_wf posted p i c b content s :
  relay_core s -> g_conns s !! p = Some c -> others_wf s p i -> active_dir (dir_of c i) ->
  d_buf (dir_of c i) = Some b -> g_bufs s !! b = Some content ->
  d_len (dir_of c i) = Z.of_nat (length content) -> 0 <= d_off (dir_of c i) < d_len (dir_of c i) ->
  d_len (dir_of c i) <= RELAY_BUF_SIZE ->
  d_received (dir_of c i) = d_sent (dir_of c i) ++ drop (Z.to_nat (d_off (dir_of c i))) content ->
  exists s', relay_post_send posted p i s = Some s' /\ relay_wf s'.
Proof.
  intros Hcore Hc Ho Ha Hb Hcont Hlen Hoff Hmax Hr. unfold relay_post_send. rewrite Hc. cbn [mbind option_bind].
  rewrite Hb. cbn [mbind option_bind]. destruct (sockets_open s p c i Hcore Hc) as (_ & Hdst & _).
  rewrite on_socket_open by done. cbn [mbind option_bind]. eexists. split; [reflexivity|].
  apply dir_change_same; [done..|by apply post_ends|done|].
  unfold stream_wf. cbn [post d_pc d_state d_buf d_len d_off d_received d_sent d_eof].
  destruct Ha as [_ Hf]. rewrite Hf. split; [|done]. destruct (io_ok c posted); [|rewrite Hr; by apply prefix_app_r].
  by exists b, content.
Qed.

(** ** A completion *)

Lemma wf_others s p i : relay_wf s -> others_wf s p i.
Proof. intros [_ Hs] q c j Hq _. by eapply Hs. Qed.

Lemma inflight_active s p c i :
  relay_wf s -> g_conns s !! p = Some c -> d_pc (dir_of c i) = InFlight -> active_dir (dir_of c i).
Proof.
  intros [_ Hs] Hc Hpc. destruct (Hs p c i Hc) as [_ He]. unfold active_dir, live. rewrite decide_False by congruence.
  split; [done|]. destruct (d_eof (dir_of c i)); [|done]. destruct (He eq_refl) as [_ [?|?]]; congruence.
Qed.

(** A send was taken, in part or as a whole. *)
Lemma sent_wf hint posted p c i n b content s :
  relay_core s -> others_wf s p i -> g_conns s !! p = Some c -> active_dir (dir_of c i) ->
  d_sent (dir_of c i) `prefix_of` d_received (dir_of c i) ->
  d_buf (dir_of c i) = Some b -> g_bufs s !! b = Some content ->
  d_len (dir_of c i) = Z.of_nat (length content) -> 0 <= d_off (dir_of c i) < d_len (dir_of c i) ->
  d_len (dir_of c i) <= RELAY_BUF_SIZE ->
  d_received (dir_of c i) = d_sent (dir_of c i) ++ drop (Z.to_nat (d_off (dir_of c i))) content ->
  0 <= n -> n <= d_len (dir_of c i) - d_off (dir_of c i) ->
  exists s', relay_worker (IoSent n) hint posted p i s = Some s' /\ relay_wf s'.
Proof.
  intros Hcore Ho Hc Ha Hpre Hb Hcont Hlen Hoff Hmax Hrs H1 H2. unfold relay_worker. rewrite Hc. cbn [mbind option_bind].
  destruct (Z.eqb_spec n 0) as [->|Hn]; [eexists; split; [reflexivity|by apply dir_ends]|].
  rewrite Hb. cbn [mbind option_bind]. rewrite Hcont. cbn [mbind option_bind].
  set (d := took (dir_of c i) content n).
  destruct (dir_core_same s p c i d) as [Hcore2 Ho2]; [done..|].
  assert (d_received d = d_sent d ++ drop (Z.to_nat (d_off d)) content) as Hrs'.
  { cbn [d took d_received d_sent d_off]. rewrite Hrs, <- (assoc_L (++)). f_equal.
    rewrite Z2Nat.inj_add by lia. rewrite <- drop_drop. by rewrite take_drop. }
  assert (g_conns (set_conn s p (set_dir c i d)) !! p = Some (set_dir c i d)) as Hc2
    by (cbn; by rewrite lookup_insert_eq).
  assert (active_dir (dir_of (set_dir c i d) i)) as Ha2 by (by rewrite dir_set_same).
  destruct (Z.ltb_spec (d_off d) (d_len d)) as [Hlt|Hge].
  { eapply (post_send_wf posted p i (set_dir c i d) b content); rewrite ?dir_set_same; try done.
    cbn [d took d_off d_len] in *. lia. }
  assert (d_received d = d_sent d) as Heq.
  { rewrite Hrs', drop_ge, app_nil_r; [done|]. cbn [d took d_off d_len] in *. lia. }
  destruct (_ <? _); [eapply post_wait_wf|eapply post_read_wf]; try done; by rewrite dir_set_same.
Qed.

Lemma worker_wf r hint posted p i s :
  relay_wf s -> completes s p i r = true ->
  exists s', relay_worker r hint posted p i s = Some s' /\ relay_wf s'.
Proof.
  intros Hwf Hr. unfold completes in Hr. destruct (g_conns s !! p) as [c|] eqn:Hc; [|done].
  apply andb_true_iff in Hr as [Hpc%bool_decide_eq_true_1 Hr].
  pose proof (wf_others s p i Hwf) as Ho. pose proof (inflight_active s p c i Hwf Hc Hpc) as Ha.
  destruct Hwf as [Hcore Hst]. destruct (Hst p c i Hc) as [Hs _]. rewrite Hpc in Hs.
  unfold relay_worker. rewrite Hc. cbn [mbind option_bind].
  assert (d_sent (dir_of c i) `prefix_of` d_received (dir_of c i)) as Hpre.
  { destruct (d_state (dir_of c i)); [by destruct Hs as [_ ->]..|].
    destruct Hs as (b & content & _ & _ & _ & _ & _ & ->). by apply prefix_app_r. }
  destruct r as [| |data|n].
  - eexists. split; [reflexivity|]. by apply dir_ends.
  - unfold completion_ok in Hr. destruct (d_state (dir_of c i)); [|done..]. destruct Hs. by eapply post_read_wf.
  - unfold completion_ok in Hr. destruct (d_state (dir_of c i)) eqn:Est; [done| |done]. destruct Hs as [[b Hb] Hrs].
    destruct data as [|x data]; [eexists; split; [reflexivity|by apply dir_ends]|].
    apply Z.leb_le in Hr. rewrite Hb. cbn [mbind option_bind].
    assert (is_Some (g_bufs s !! b)) as [old Hold].
    { apply (bi_live _ _ _ (rw_bufs _ Hcore)). right. exists p, i. by rewrite (slot_self _ _ c). }
    rewrite Hold. cbn [mbind option_bind].
    destruct (fill_core s p c i b (x :: data) Hcore Hc Ho Hb) as [Hcore1 Ho1].
    set (s1 := with_bufs s (g_relay_pool s) (<[b := x :: data]> (g_bufs s))) in *.
    assert (g_conns s1 !! p = Some c) as Hc1 by done.
    destruct (dir_core_same s1 p c i (got (dir_of c i) (x :: data))) as [Hcore2 Ho2]; [done..|].
    eapply (post_send_wf posted p i (set_dir c i (got (dir_of c i) (x :: data))) b (x :: data)); [done| |done|..];
      [by cbn; rewrite lookup_insert_eq|..]; rewrite ?dir_set_same; try done.
    + by cbn; rewrite lookup_insert_eq.
    + cbn [got d_received d_sent d_off]. by rewrite Hrs.
  - unfold completion_ok in Hr. destruct (d_state (dir_of c i)) eqn:Est; [done..|].
    destruct Hs as (b & content & Hb & Hcont & Hlen & Hoff & Hmax & Hrs). apply andb_true_iff in Hr as [H1%Z.leb_le H2%Z.leb_le].
    pose proof (sent_wf hint posted p c i n b content s) as Hsent. unfold relay_worker in Hsent. rewrite Hc in Hsent.
    cbn [mbind option_bind] in Hsent. by apply Hsent.
Qed.

(** ** The end of a direction *)

(** A change of a connection that leaves its links, sockets and streams alone. *)
Lemma conn_change s p c c' :
  relay_wf s -> g_conns s !! p = Some c -> links_of c' = links_of c -> socks_of c' = socks_of c ->
  bufs_of c' = bufs_of c -> shape c' -> (forall i, stream_wf (g_bufs s) (dir_of c' i)) -> relay_wf (set_conn s p c').
Proof.
  intros [[Hl Hs Hb Hsh] Hst] Hc El Es Eb Hsh' Hst'. split.
  - split; cbn [set_conn with_conns g_conns g_relay_head g_active_relays g_relay_done g_open g_relay_pool g_bufs].
    + by rewrite (proj_same links_of _ _ c).
    + by rewrite (proj_same socks_of _ _ c).
    + by rewrite (proj_same bufs_of _ _ c).
    + intros q d [[<- <-]|[_ Hq]]%lookup_insert_Some; [done|by eapply Hsh].
  - cbn [set_conn with_conns g_conns g_bufs]. intros q d i [[<- <-]|[_ Hq]]%lookup_insert_Some; [done|by eapply Hst].
Qed.

Lemma set_closing_id c : rc_closing c = true -> set_closing c = c.
Proof. by destruct c; cbn; intros ->. Qed.

Lemma relay_abort_eq p c s :
  relay_core s -> g_conns s !! p = Some c -> relay_abort p s = Some (set_conn s p (set_closing c)).
Proof.
  intros Hcore Hc. unfold relay_abort. rewrite Hc. cbn [mbind option_bind].
  destruct (sockets_open s p c true Hcore Hc) as (_ & _ & H0 & H1). rewrite !on_socket_open by done.
  destruct (rc_closing c) eqn:E; [|done]. f_equal. rewrite set_closing_id by done.
  unfold set_conn. rewrite insert_id by done. by destruct s.
Qed.

Lemma set_closing_wf p c s : relay_wf s -> g_conns s !! p = Some c -> relay_wf (set_conn s p (set_closing c)).
Proof.
  intros Hwf Hc. apply (conn_change s p c); try done.
  - destruct (rw_shape _ (proj1 Hwf) p c Hc). by split.
  - intros i. apply (proj2 Hwf p c i) in Hc. by destruct i.
Qed.

Lemma dir_end_wf clean p i s :
  relay_wf s -> pc_at s p i = Some (Ending clean) ->
  exists s', relay_dir_end clean p i s = Some s' /\ relay_wf s'.
Proof.
  intros Hwf Hpc. unfold pc_at in Hpc. destruct (g_conns s !! p) as [c|] eqn:Hc; [|done].
  cbn [mbind option_bind] in Hpc. injection Hpc as Hpc.
  destruct (sockets_open s p c i (proj1 Hwf) Hc) as (_ & Hdst & _).
  destruct (proj2 Hwf p c i Hc) as [Hs He]. rewrite Hpc in Hs.
  unfold relay_dir_end. rewrite Hc. cbn [mbind option_bind]. destruct clean.
  - rewrite on_socket_open by done. cbn [mbind option_bind]. eexists. split; [reflexivity|].
    apply dir_change_same; [apply Hwf|done|by apply wf_others| |done|].
    + split; [done|]. split; [done|]. unfold live. by rewrite Hpc.
    + split; [|by intros _; auto]. cbn. by rewrite Hs.
  - rewrite (relay_abort_eq p c s (proj1 Hwf) Hc). cbn [mbind option_bind].
    pose proof (set_closing_wf p c s Hwf Hc) as Hwf'.
    set (s1 := set_conn s p (set_closing c)) in *.
    assert (g_conns s1 !! p = Some (set_closing c)) as Hc1 by (cbn; by rewrite lookup_insert_eq).
    rewrite Hc1. cbn [mbind option_bind]. eexists. split; [reflexivity|].
    assert (dir_of (set_closing c) i = dir_of c i) as Hd by (by destruct i).
    apply dir_change_same; [apply Hwf'|done|by apply wf_others| |done|]; rewrite Hd.
    + split; [done|]. split; [done|]. unfold live. by rewrite Hpc.
    + split; [exact Hs|]. intros E. destruct (He E) as [? _]. auto.
Qed.

(** ** The release of a reference *)

Lemma release_ref_wf p i s :
  relay_wf s -> pc_at s p i = Some Releasing -> exists s', release_ref p i s = Some s' /\ relay_wf s'.
Proof.
  intros Hwf Hpc. unfold pc_at in Hpc. destruct (g_conns s !! p) as [c|] eqn:Hc; [|done].
  cbn [mbind option_bind] in Hpc. injection Hpc as Hpc.
  unfold release_ref. rewrite Hc. cbn [mbind option_bind]. eexists. split; [reflexivity|].
  destruct (rw_shape _ (proj1 Hwf) p c Hc) as [Hr Hp H0 H1].
  assert (forall d, live d = 0 \/ live d = 1) as Hlive by (intros d; unfold live; case_decide; auto).
  assert (live (dir_of c i) = 1) as Hli by (unfold live; by rewrite Hpc).
  pose proof (Hlive (rc_dir0 c)). pose proof (Hlive (rc_dir1 c)).
  assert (0 < rc_refs c) as Hpos by (destruct i; simpl in *; lia).
  assert (rc_pc c = Alive) as Ha by (destruct (rc_pc c); [done|lia..]).
  apply (conn_change s p c); [done|done| |done|by destruct i| |].
  - unfold links_of. cbn [set_refs rc_prev rc_next rc_pc]. rewrite Ha. destruct (_ =? 0); by destruct i.
  - split; cbn [set_refs rc_refs rc_dir0 rc_dir1 rc_pc rc_s0 rc_s1]; [| |by destruct i..].
    + destruct i; simpl in *; unfold live at 1 2; simpl; unfold live in *; simpl in *; lia.
    + rewrite Ha. destruct (Z.eqb_spec (rc_refs c - 1) 0); lia.
  - intros j. destruct (decide (j = i)) as [->|Hj].
    + assert (dir_of (set_refs (set_dir c i (set_pc (dir_of c i) Gone)) (rc_refs c - 1)
                (if rc_refs c - 1 =? 0 then Dying else rc_pc c)) i = set_pc (dir_of c i) Gone) as -> by (by destruct i).
      destruct (proj2 Hwf p c i Hc) as [Hs He]. rewrite Hpc in Hs. split; [exact Hs|].
      intros E. destruct (He E) as [? _]. cbn. auto.
    + assert (dir_of (set_refs (set_dir c i (set_pc (dir_of c i) Gone)) (rc_refs c - 1)
                (if rc_refs c - 1 =? 0 then Dying else rc_pc c)) j = dir_of c j) as -> by (by destruct i, j).
      by apply (proj2 Hwf p).
Qed.

(** ** Changes of the list *)

(** Connections changed without touching what they hold. *)
Record keeps (c c' : RELAY_CONN) : Prop := {
  kp_socks : socks_of c' = socks_of c;
  kp_dirs : forall i, dir_of c' i = dir_of c i
}.

Lemma keeps_bufs c c' : keeps c c' -> bufs_of c' = bufs_of c.
Proof. intros [_ Hd]. unfold bufs_of. by rewrite (Hd false : rc_dir0 c' = _), (Hd true : rc_dir1 c' = _). Qed.

Lemma keeps_proj {A} (f : RELAY_CONN -> A) (h : Z -> RELAY_CONN -> RELAY_CONN) (m m' : gmap Z RELAY_CONN) :
  (forall q, m' !! q = h q <$> m !! q) -> (forall q c, m !! q = Some c -> keeps c (h q c)) ->
  (forall c c', keeps c c' -> f c' = f c) -> f <$> m' = f <$> m.
Proof.
  intros Hm Hk Hf. apply map_eq. intros q. rewrite !lookup_fmap, Hm.
  destruct (m !! q) as [c|] eqn:E; [|done]. cbn. f_equal. apply Hf. by apply (Hk q c).
Qed.

Lemma keeps_all s m' (h : Z -> RELAY_CONN -> RELAY_CONN) :
  relay_wf s -> (forall q, m' !! q = h q <$> g_conns s !! q) ->
  (forall q c, g_conns s !! q = Some c -> keeps c (h q c) /\ shape (h q c)) ->
  socks_of <$> m' = socks_of <$> g_conns s /\ bufs_of <$> m' = bufs_of <$> g_conns s /\
  forall q c, m' !! q = Some c -> shape c /\ forall i, stream_wf (g_bufs s) (dir_of c i).
Proof.
  intros [_ Hst] Hm Hk. split; [|split].
  - eapply keeps_proj; [done|by intros; apply Hk|]. by intros c c' [? _].
  - eapply keeps_proj; [done|by intros; apply Hk|]. apply keeps_bufs.
  - intros q c. rewrite Hm. destruct (g_conns s !! q) as [c0|] eqn:E; [|done]. intros [= <-].
    destruct (Hk q c0 E) as [[_ Hd] Hs]. split; [done|]. intros i. rewrite Hd. by eapply Hst.
Qed.

Lemma relisted s m' (h : Z -> RELAY_CONN -> RELAY_CONN) head active accepting done l :
  relay_wf s -> (forall q, m' !! q = h q <$> g_conns s !! q) ->
  (forall q c, g_conns s !! q = Some c -> keeps c (h q c) /\ shape (h q c)) ->
  list_inv (links_of <$> m') head active done l ->
  relay_wf (mkRelay m' head active (g_relay_pool s) (g_bufs s) accepting done (g_open s)).
Proof.
  intros Hwf Hm Hk Hl. destruct (keeps_all s m' h Hwf Hm Hk) as (Es & Eb & Hq).
  destruct Hwf as [[_ Hs Hb _] _].
  split; [split|]; cbn [g_conns g_relay_head g_active_relays g_relay_done g_open g_relay_pool g_bufs].
  - by exists l.
  - by rewrite Es.
  - by rewrite Eb.
  - intros q c Hc. by apply (Hq q c).
  - intros q c i Hc. by apply (Hq q c).
Qed.

(** *** Unlinking *)

(** What [release_unlink] makes of the connection at [q]. *)
Definition unlink_at (p : Z) (c : RELAY_CONN) (q : Z) (d : RELAY_CONN) : RELAY_CONN :=
  if decide (q = p) then set_refs d (rc_refs d) Unlinked
  else set_links d (if decide (rc_next c = Some q) then rc_prev c else rc_prev d)
                   (if decide (rc_prev c = Some q) then rc_next c else rc_next d).

Lemma unlink_at_other p c q d :
  q <> p -> rc_next c <> Some q -> rc_prev c <> Some q -> unlink_at p c q d = d.
Proof. intros. unfold unlink_at. rewrite !decide_False by done. by destruct d. Qed.

Ltac unlinked_at E1 E2 := unfold unlink_at; rewrite E1, E2; repeat case_decide;
  first [congruence|done|match goal with H : forall q, _ -> _ <> Some q |- _ => destruct (H _ eq_refl); congruence end].

Lemma release_unlink_eq p c s :
  g_conns s !! p = Some c ->
  (forall q, rc_prev c = Some q -> q <> p /\ is_Some (g_conns s !! q)) ->
  (forall q, rc_next c = Some q -> q <> p /\ is_Some (g_conns s !! q)) ->
  (forall q, rc_prev c = Some q -> rc_next c <> Some q) ->
  exists m', release_unlink p s =
      Some (mkRelay m' (match rc_prev c with Some _ => g_relay_head s | None => rc_next c end)
              (g_active_relays s - 1) (g_relay_pool s) (g_bufs s) (g_relay_accepting s)
              (if g_active_relays s - 1 =? 0 then true else g_relay_done s) (g_open s)) /\
    forall q, m' !! q = unlink_at p c q <$> g_conns s !! q.
Proof.
  intros Hc Hp Hn Hpn. unfold release_unlink, relink. rewrite Hc. cbn [mbind option_bind].
  destruct (rc_prev c) as [q1|] eqn:E1; [destruct (Hp q1 eq_refl) as [Hq1 [c1 Hc1]]; rewrite Hc1|];
    (destruct (rc_next c) as [q2|] eqn:E2; [destruct (Hn q2 eq_refl) as [Hq2 [c2 Hc2]]|]);
    cbn [mbind option_bind set_conn with_conns with_head with_active g_conns g_active_relays g_relay_done];
    rewrite ?lookup_insert_ne by (try done; intros ->; by eapply Hpn); rewrite ?Hc2;
    cbn [mbind option_bind set_conn with_conns with_head with_active g_conns g_active_relays g_relay_done];
    rewrite ?lookup_insert_ne by done; rewrite Hc; cbn [mbind option_bind]; eexists; (split; [reflexivity|]);
    intros q; cbn [set_conn with_conns with_head with_active g_conns];
    (destruct (decide (q = p)) as [->|Hqp];
      [by rewrite lookup_insert_eq, Hc; unfold unlink_at; cbn; rewrite decide_True|rewrite lookup_insert_ne by done]).
  - destruct (decide (q = q2)) as [->|Hqq2].
    + rewrite lookup_insert_eq, Hc2. cbn. f_equal. unlinked_at E1 E2.
    + rewrite lookup_insert_ne by done. destruct (decide (q = q1)) as [->|Hqq1].
      * rewrite lookup_insert_eq, Hc1. cbn. f_equal. unlinked_at E1 E2.
      * rewrite lookup_insert_ne by done. destruct (g_conns s !! q); [|done]. cbn. rewrite unlink_at_other; congruence.
  - destruct (decide (q = q1)) as [->|Hqq1].
    + rewrite lookup_insert_eq, Hc1. cbn. f_equal. unlinked_at E1 E2.
    + rewrite lookup_insert_ne by done. destruct (g_conns s !! q); [|done]. cbn. rewrite unlink_at_other; congruence.
  - destruct (decide (q = q2)) as [->|Hqq2].
    + rewrite lookup_insert_eq, Hc2. cbn. f_equal. unlinked_at E1 E2.
    + rewrite lookup_insert_ne by done. destruct (g_conns s !! q); [|done]. cbn. rewrite unlink_at_other; congruence.
  - destruct (g_conns s !! q); [|done]. cbn. rewrite unlink_at_other; congruence.
Qed.

Lemma unlink_keeps p c q d :
  shape d -> (q = p -> rc_refs d = 0) -> keeps d (unlink_at p c q d) /\ shape (unlink_at p c q d).
Proof.
  intros [Hr Hp H0 H1] Hz. unfold unlink_at. case_decide.
  - split; [split; [done|by intros []]|]. split; cbn; auto.
  - split; [split; [done|by intros []]|]. by split.
Qed.

Lemma unlink_unlinked p c s m' :
  g_conns s !! p = Some c -> (forall q, m' !! q = unlink_at p c q <$> g_conns s !! q) ->
  unlinked (links_of <$> g_conns s) (links_of <$> m') p (links_of c).
Proof.
  intros Hc Hm q kq Hq. rewrite lookup_fmap. intros (d & Hd & ->)%fmap_Some. rewrite lookup_fmap, Hm, Hd. cbn.
  eexists. split; [reflexivity|]. unfold unlink_at. by rewrite decide_False.
Qed.

Lemma linked_after p c q d :
  k_linked (links_of (unlink_at p c q d)) = if decide (q = p) then false else k_linked (links_of d).
Proof. unfold unlink_at. by case_decide. Qed.

(** The neighbours of a connection of the list. *)
Lemma list_neighbours s l1 p l2 c :
  list_inv (links_of <$> g_conns s) (g_relay_head s) (g_active_relays s) (g_relay_done s) (l1 ++ p :: l2) ->
  g_conns s !! p = Some c ->
  rc_prev c = last l1 /\ rc_next c = head l2 /\
  forall q, rc_prev c = Some q \/ rc_next c = Some q -> q <> p /\ is_Some (g_conns s !! q).
Proof.
  intros [Hd Hnd Hin _ _] Hc.
  destruct (dll_neighbours _ _ _ _ _ _ (links_of c) Hd) as [Hp Hn]; [by rewrite lookup_fmap, Hc|]. cbn in Hp, Hn.
  assert (rc_prev c = last l1) as Hp' by (rewrite Hp; by destruct (last l1)). split; [done|]. split; [done|].
  intros q Hq. apply NoDup_app in Hnd as (_ & Hx & [Hp2 _]%NoDup_cons).
  assert (q ∈ l1 \/ q ∈ l2) as Hql.
  { destruct Hq as [Hq|Hq]; [left; apply last_Some_elem_of; congruence|right; apply head_Some_elem_of; congruence]. }
  split; [intros ->; destruct Hql as [Hql|Hql]; [by destruct (Hx p Hql); left|done]|].
  assert (q ∈ l1 ++ p :: l2) as (k & Hk & _)%Hin by set_solver.
  rewrite lookup_fmap in Hk. apply fmap_Some in Hk as (d & -> & _). by eexists.
Qed.

Lemma release_unlink_spec p s :
  relay_wf s -> conn_pc_at s p = Some Dying ->
  exists c l1 l2 m', g_conns s !! p = Some c /\ rc_pc c = Dying /\
    list_inv (links_of <$> g_conns s) (g_relay_head s) (g_active_relays s) (g_relay_done s) (l1 ++ p :: l2) /\
    rc_prev c = last l1 /\ NoDup (p :: l1 ++ l2) /\
    release_unlink p s =
      Some (mkRelay m' (match rc_prev c with Some _ => g_relay_head s | None => rc_next c end)
              (g_active_relays s - 1) (g_relay_pool s) (g_bufs s) (g_relay_accepting s)
              (if g_active_relays s - 1 =? 0 then true else g_relay_done s) (g_open s)) /\
    forall q, m' !! q = unlink_at p c q <$> g_conns s !! q.
Proof.
  intros Hwf Hpc. unfold conn_pc_at in Hpc. destruct (g_conns s !! p) as [c|] eqn:Hc; [|done].
  cbn [mbind option_bind] in Hpc. injection Hpc as Hpc.
  destruct (rw_list _ (proj1 Hwf)) as [l Hl].
  assert (p ∈ l) as Hpl by (apply Hl; eexists; rewrite lookup_fmap, Hc; split; [done|]; cbn; by rewrite Hpc).
  apply list_elem_of_split in Hpl as (l1 & l2 & ->).
  destruct (list_neighbours s l1 p l2 c Hl Hc) as (Hp & Hn & Hq).
  assert (NoDup (p :: l1 ++ l2)) as Hnd by (rewrite Permutation_middle; apply Hl).
  destruct (release_unlink_eq p c s Hc) as (m' & E & Hm); [by intros q ?; apply Hq; left|by intros q ?; apply Hq; right| |].
  - intros q Hp1 Hn1. rewrite Hp in Hp1. rewrite Hn in Hn1. apply last_Some_elem_of in Hp1. apply head_Some_elem_of in Hn1.
    apply NoDup_cons in Hnd as [_ (_ & Hx & _)%NoDup_app]. by apply (Hx q).
  - by exists c, l1, l2, m'.
Qed.

Lemma release_unlink_wf p s :
  relay_wf s -> conn_pc_at s p = Some Dying -> exists s', release_unlink p s = Some s' /\ relay_wf s'.
Proof.
  intros Hwf Hdy. destruct (release_unlink_spec p s Hwf Hdy) as (c & l1 & l2 & m' & Hc & Hpc & Hl & Hp & Hnd' & -> & Hm).
  apply NoDup_cons in Hnd' as [Hpn Hnd']. pose proof Hl as [Hd Hnd Hin Hact Hdone].
  eexists. split; [reflexivity|].
  apply (relisted s m' (unlink_at p c) _ _ _ _ (l1 ++ l2)); [done|done| |].
  { intros q d Hqd. apply unlink_keeps; [by eapply (rw_shape _ (proj1 Hwf))|]. intros ->. simplify_eq.
    destruct (rw_shape _ (proj1 Hwf) p c Hc) as [_ Hz _ _]. by rewrite Hpc in Hz. }
  split.
  - replace (match rc_prev c with Some _ => _ | None => _ end)
      with (match l1 with [] => k_next (links_of c) | _ => g_relay_head s end).
    2:{ rewrite Hp. destruct l1 as [|x l1]; [done|]. destruct (last (x :: l1)) eqn:E; [done|by apply last_None in E]. }
    eapply dll_remove; [exact Hd|done|by rewrite lookup_fmap, Hc|done|]. by apply (unlink_unlinked p c s).
  - done.
  - intros q. rewrite lookup_fmap, Hm. split.
    + intros Hqi. assert (q <> p) by (intros ->; done).
      destruct (proj1 (Hin q)) as (k & Hk & Hkl); [set_solver|]. rewrite lookup_fmap in Hk.
      apply fmap_Some in Hk as (d & -> & ->). eexists. split; [reflexivity|]. rewrite linked_after, decide_False by done. done.
    + intros (k & (d & (d0 & Hd0 & ->)%fmap_Some & ->)%fmap_Some & Hkl). rewrite linked_after in Hkl.
      case_decide; [done|]. assert (q ∈ l1 ++ p :: l2); [|set_solver]. apply Hin. eexists. by rewrite lookup_fmap, Hd0.
  - rewrite Hact, !length_app. simpl. lia.
  - destruct (Z.eqb_spec (g_active_relays s - 1) 0) as [E|E]; rewrite Hact, length_app in E; simpl in E.
    + split; [|done]. intros _. destruct l1; [|simpl in E; lia]. destruct l2; [done|simpl in E; lia].
    + split; [intros ?%Hdone; by destruct l1|]. intros [-> ->]%app_nil. simpl in E. lia.
Qed.

(** ** The end of a connection *)

(** What a slot holds is given back: to the pool, or freed. *)
Lemma put_slot s m m' p i :
  bufs_inv m (g_relay_pool s) (g_bufs s) -> slot_set m m' p i None ->
  exists pool bufs, relay_buf_put (slot m p i) s = Some (with_bufs s pool bufs) /\ bufs_inv m' pool bufs /\
    forall b, held m' b -> bufs !! b = g_bufs s !! b.
Proof.
  intros Hb Hs. unfold relay_buf_put. destruct (slot m p i) as [b|] eqn:E.
  - assert (~ held m' b) as Hgone by (eapply slot_set_held_not; [done|apply Hb|done|done]).
    destruct (Z.ltb_spec (Z.of_nat (length (g_relay_pool s))) RELAY_POOL_KEEP).
    + do 2 eexists. split; [reflexivity|]. split; [by eapply bufs_inv_put|done].
    + rewrite decide_True by (apply (bi_live _ _ _ Hb); right; by exists p, i).
      do 2 eexists. split; [reflexivity|]. split; [by eapply bufs_inv_free|].
      intros x Hx. rewrite lookup_delete_ne; [done|]. by intros ->.
  - exists (g_relay_pool s), (g_bufs s). rewrite with_bufs_same. split; [done|]. split; [|done].
    eapply bufs_inv_same; [done|]. by rewrite E.
Qed.

Lemma list_inv_delete m head active done l p k :
  list_inv m head active done l -> m !! p = Some k -> k_linked k = false -> list_inv (delete p m) head active done l.
Proof.
  intros [Hd Hnd Hin Ha Hdn] Hp Hk.
  assert (p ∉ l) as Hpl by (intros (k' & Hk' & ?)%Hin; simplify_eq; congruence).
  split; [|done| |done|done].
  - eapply dll_frame; [exact Hd|]. intros q kq Hq Hm. exists kq. rewrite lookup_delete_ne by (intros ->; done). done.
  - intros q. rewrite Hin. destruct (decide (q = p)) as [->|Hq]; [|by rewrite lookup_delete_ne].
    rewrite lookup_delete_eq. split; [intros (k' & Hk' & ?); simplify_eq; congruence|by intros (? & ? & _)].
Qed.

Lemma slot_delete m p q i : slot (delete p m) q i = if decide (q = p) then None else slot m q i.
Proof. unfold slot. case_decide as E; [by rewrite E, lookup_delete_eq|by rewrite lookup_delete_ne]. Qed.

Lemma socks_inv_delete m open p a b :
  socks_inv m open -> m !! p = Some (Some a, Some b) -> socks_inv (delete p m) (open ∖ {[a]} ∖ {[b]}).
Proof.
  intros [He Ho] Hp.
  assert (slot m p false = Some a /\ slot m p true = Some b) as [Ha Hb] by (unfold slot; by rewrite Hp). split.
  - intros q i r j x. rewrite !slot_delete. case_decide; [done|]. case_decide; [done|]. apply He.
  - intros h. rewrite !elem_of_difference, !elem_of_singleton, Ho. unfold held. split.
    + intros [[(q & i & Hq) Hna] Hnb]. exists q, i. rewrite slot_delete, decide_False; [done|]. intros ->.
      destruct i; congruence.
    + intros (q & i & Hq). rewrite slot_delete in Hq. case_decide as Hqp; [done|].
      split; [split|]; [by exists q, i|..]; intros ->;
        [destruct (He _ _ _ _ _ Hq Ha)|destruct (He _ _ _ _ _ Hq Hb)]; congruence.
Qed.

Lemma bufs_inv_empty m p pool bufs :
  bufs_inv m pool bufs -> slot m p false = None -> slot m p true = None -> bufs_inv (delete p m) pool bufs.
Proof.
  intros [He Hnd Ha Hl Hb] H0 H1.
  assert (forall q i, slot (delete p m) q i = slot m q i) as Hs.
  { intros q i. rewrite slot_delete. case_decide as E; [subst q; by destruct i|done]. }
  assert (forall b, held (delete p m) b <-> held m b) as Hh by (intros b; unfold held; by setoid_rewrite Hs).
  split; [intros q i r j x; rewrite !Hs; apply He|done|intros b; rewrite Hh; apply Ha|intros b; rewrite Hh; apply Hl|done].
Qed.

Lemma slot_set_insert m p a b (i : bool) o :
  m !! p = Some (a, b) -> slot_set m (<[p := if i then (a, o) else (o, b)]> m) p i o.
Proof.
  intros Hp. unfold slot_set, slot. split; [rewrite lookup_insert_eq; by destruct i|]. intros q j Hq.
  destruct (decide (q = p)) as [->|Hqp]; [|by rewrite lookup_insert_ne].
  rewrite lookup_insert_eq, Hp. by destruct i, j.
Qed.

Lemma release_free_wf p s :
  relay_wf s -> conn_pc_at s p = Some Unlinked -> exists s', release_free p s = Some s' /\ relay_wf s'.
Proof.
  intros Hwf Hpc. unfold conn_pc_at in Hpc. destruct (g_conns s !! p) as [c|] eqn:Hc; [|done].
  cbn [mbind option_bind] in Hpc. injection Hpc as Hpc.
  destruct Hwf as [[[l Hl] Hs Hb Hsh] Hst].
  assert (rc_s0 c <> rc_s1 c) as Hne.
  { intros E. destruct (si_exclusive _ _ Hs p false p true (rc_s0 c)); [..|done];
      unfold slot; rewrite lookup_fmap, Hc; cbn; congruence. }
  pose proof (socks_inv_delete _ _ p (rc_s0 c) (rc_s1 c) Hs ltac:(by rewrite lookup_fmap, Hc)) as Hs'.
  destruct (sockets_open s p c true) as (_ & _ & H0 & H1); [by split; [exists l|..]|done|].
  unfold release_free, closesocket. rewrite Hc. cbn [mbind option_bind]. rewrite on_socket_open by done.
  cbn [mbind option_bind]. rewrite on_socket_open by (cbn; set_solver). cbn [mbind option_bind].
  set (s1 := with_open _ _). set (m := bufs_of <$> g_conns s) in *.
  assert (m !! p = Some (d_buf (rc_dir0 c), d_buf (rc_dir1 c))) as Hm by (unfold m; by rewrite lookup_fmap, Hc).
  set (m1 := <[p := (None, d_buf (rc_dir1 c))]> m). set (m2 := <[p := (None, None)]> m1).
  assert (slot_set m m1 p false None /\ slot_set m1 m2 p true None) as [Hm1 Hm2].
  { split; [by apply (slot_set_insert m p (d_buf (rc_dir0 c)) (d_buf (rc_dir1 c)) false)|]. unfold m2.
    apply (slot_set_insert m1 p None (d_buf (rc_dir1 c)) true). by unfold m1; rewrite lookup_insert_eq. }
  destruct (put_slot s1 m m1 p false Hb Hm1) as (pool1 & bufs1 & E1 & Hb1 & Hk1).
  assert (slot m p false = d_buf (rc_dir0 c)) as Hs0 by (unfold slot; by rewrite Hm). rewrite <- Hs0, E1.
  cbn [mbind option_bind].
  destruct (put_slot (with_bufs s1 pool1 bufs1) m1 m2 p true Hb1 Hm2) as (pool2 & bufs2 & E2 & Hb2 & Hk2).
  assert (slot m1 p true = d_buf (rc_dir1 c)) as Hs1 by (unfold slot, m1; by rewrite lookup_insert_eq).
  rewrite <- Hs1, E2. cbn [mbind option_bind]. eexists. split; [reflexivity|].
  assert (delete p m2 = delete p m) as Hdel by (unfold m2, m1; by rewrite !delete_insert_eq).
  assert (bufs_inv (delete p m) pool2 bufs2) as Hb3.
  { rewrite <- Hdel. apply bufs_inv_empty; [done|..]; unfold slot, m2; by rewrite lookup_insert_eq. }
  split; [split|]; cbn [with_conns with_bufs with_open s1 g_conns g_relay_head g_active_relays g_relay_done g_open g_relay_pool g_bufs].
  - exists l. rewrite fmap_delete. eapply list_inv_delete; [done|by rewrite lookup_fmap, Hc|]. cbn. by rewrite Hpc.
  - by rewrite fmap_delete.
  - by rewrite fmap_delete.
  - intros q d [_ Hq]%lookup_delete_Some. by eapply Hsh.
  - intros q d i [Hqp Hq]%lookup_delete_Some. eapply stream_wf_bufs; [by eapply Hst|]. intros b Hbuf.
    assert (slot m q i = Some b) as Hslot by (unfold m; by rewrite (slot_bufs _ q d)).
    assert (held m1 b /\ held m2 b) as [Hh1 Hh2].
    { split; exists q, i; unfold slot, m2, m1; by rewrite !lookup_insert_ne by done. }
    rewrite Hk2, <- Hk1 by done. done.
Qed.

(** ** Aborting all *)

Definition abort_at (l : list Z) (q : Z) (c : RELAY_CONN) : RELAY_CONN :=
  if decide (q ∈ l) then set_closing c else c.

Lemma abort_at_keeps l q c : shape c -> keeps c (abort_at l q c) /\ shape (abort_at l q c).
Proof.
  intros Hs. unfold abort_at. case_decide; [|by split].
  split; [by split; [|intros []]|]. destruct Hs. by split.
Qed.

Lemma abort_at_links l q c : links_of (abort_at l q c) = links_of c.
Proof. unfold abort_at. by case_decide. Qed.

Lemma links_abort_at l (m m' : gmap Z RELAY_CONN) :
  (forall q, m' !! q = abort_at l q <$> m !! q) -> links_of <$> m' = links_of <$> m.
Proof.
  intros Hm. apply map_eq. intros q. rewrite !lookup_fmap, Hm. destruct (m !! q); [|done]. cbn.
  by rewrite abort_at_links.
Qed.

(** The walk aborts the connections of the list and changes nothing else. *)
Lemma abort_list_spec fuel l pre cur s :
  relay_core s -> dll (links_of <$> g_conns s) pre cur l -> (length l <= fuel)%nat ->
  exists m', abort_list fuel cur s = Some (with_conns s m') /\
    forall q, m' !! q = abort_at l q <$> g_conns s !! q.
Proof.
  revert fuel pre cur s. induction l as [|p l IH]; intros fuel pre cur s Hcore Hd Hf.
  { cbn in Hd. subst cur. exists (g_conns s). destruct fuel; cbn; (split; [by destruct s|]);
      intros q; destruct (g_conns s !! q); cbn; by rewrite ?decide_False by apply not_elem_of_nil. }
  destruct Hd as (-> & k & Hk & _ & Hd). rewrite lookup_fmap in Hk. apply fmap_Some in Hk as (c & Hc & ->).
  destruct fuel as [|fuel]; [simpl in Hf; lia|]. cbn [abort_list]. rewrite (relay_abort_eq p c s Hcore Hc).
  cbn [mbind option_bind set_conn with_conns g_conns]. rewrite lookup_insert_eq. cbn [mbind option_bind].
  set (s1 := set_conn s p (set_closing c)).
  assert (relay_core s1) as Hcore1.
  { destruct Hcore as [Hl Hs Hb Hsh]. split; cbn; rewrite ?(proj_same links_of _ _ c), ?(proj_same socks_of _ _ c),
      ?(proj_same bufs_of _ _ c) by done; try done.
    intros q d [[<- <-]|[_ Hq]]%lookup_insert_Some; [destruct (Hsh p c Hc); by split|by eapply Hsh]. }
  destruct (IH fuel (Some p) (rc_next c) s1 Hcore1) as (m' & E & Hm).
  - cbn. by rewrite (proj_same links_of _ _ c).
  - simpl in Hf. lia.
  - exists m'. split; [exact E|]. intros q. rewrite Hm. cbn [s1 set_conn with_conns g_conns].
    destruct (decide (q = p)) as [->|Hq].
    + rewrite lookup_insert_eq, Hc. cbn. f_equal. unfold abort_at. rewrite (decide_True (P := p ∈ p :: l)) by left.
      by case_decide.
    + rewrite lookup_insert_ne by done. destruct (g_conns s !! q); [|done]. cbn. f_equal. unfold abort_at.
      destruct (decide (q ∈ l)), (decide (q ∈ p :: l)); set_solver.
Qed.

Lemma list_bounded m head active done l : list_inv m head active done l -> (length l <= size m)%nat.
Proof.
  intros [_ Hnd Hin _ _]. rewrite <- (size_list_to_set (C := gset Z) l Hnd), <- size_dom.
  apply subseteq_size. intros p Hp%elem_of_list_to_set. apply Hin in Hp as (k & Hk & _). by eapply elem_of_dom_2.
Qed.

Lemma pool_abort_spec s :
  relay_wf s ->
  exists l m', relay_pool_abort s = Some (with_conns (with_accepting s false) m') /\
    relay_wf (with_conns (with_accepting s false) m') /\
    (forall q, m' !! q = abort_at l q <$> g_conns s !! q) /\
    list_inv (links_of <$> g_conns s) (g_relay_head s) (g_active_relays s) (g_relay_done s) l.
Proof.
  intros Hwf. destruct (rw_list _ (proj1 Hwf)) as [l Hl]. unfold relay_pool_abort.
  destruct (abort_list_spec (size (g_conns s)) l None (g_relay_head s) (with_accepting s false)) as (m' & E & Hm).
  - by destruct Hwf as [[? ? ? ?] _].
  - apply Hl.
  - pose proof (list_bounded _ _ _ _ _ Hl) as Hb. by rewrite map_size_fmap in Hb.
  - exists l, m'. split; [exact E|]. split; [|by split].
    apply (relisted s m' (abort_at l) _ _ _ _ l Hwf Hm).
    + intros q c Hq. apply abort_at_keeps. by eapply (rw_shape _ (proj1 Hwf)).
    + by rewrite (links_abort_at l _ _ Hm).
Qed.

(** ** A new connection *)

Lemma alloc_at_Some {A} (m : gmap Z A) hint p : alloc_at m hint = Some p -> m !! p = None.
Proof. unfold alloc_at. destruct hint; [|done]. cbn. case_decide; [|done]. by intros [= <-]. Qed.

Definition link_at (s : RelayState) (p q : Z) (c : RELAY_CONN) : RELAY_CONN :=
  if decide (g_relay_head s = Some q) then set_links c (Some p) (rc_next c) else c.

Lemma relay_link_eq p client proxy s :
  g_conns s !! p = None -> (forall q, g_relay_head s = Some q -> is_Some (g_conns s !! q)) ->
  exists m', relay_link p client proxy s =
      Some (mkRelay (<[p := new_conn client proxy (g_relay_head s)]> m') (Some p) (g_active_relays s + 1)
              (g_relay_pool s) (g_bufs s) (g_relay_accepting s) false (g_open s)) /\
    forall q, m' !! q = link_at s p q <$> g_conns s !! q.
Proof.
  intros Hp Hh. unfold relay_link, link_at, relink. destruct (g_relay_head s) as [q|] eqn:E.
  - destruct (Hh q eq_refl) as [c Hc]. rewrite Hc. cbn [mbind option_bind]. eexists. split; [reflexivity|].
    intros r. cbn [set_conn with_conns g_conns]. destruct (decide (r = q)) as [->|Hr].
    + rewrite lookup_insert_eq, Hc. cbn. by rewrite decide_True.
    + rewrite lookup_insert_ne by done. destruct (g_conns s !! r); [|done]. cbn. by rewrite decide_False by congruence.
  - cbn [mbind option_bind]. eexists. split; [reflexivity|].
    intros r. cbn [set_conn with_conns g_conns]. destruct (g_conns s !! r); [|done]. done.
Qed.

Lemma link_at_keeps s p q c : shape c -> keeps c (link_at s p q c) /\ shape (link_at s p q c).
Proof.
  intros Hs. unfold link_at. case_decide; [|by split].
  split; [by split; [|intros []]|]. destruct Hs. by split.
Qed.

Lemma new_conn_shape client proxy next : shape (new_conn client proxy next).
Proof. by split. Qed.

Lemma new_conn_streams bufs client proxy next i : stream_wf bufs (dir_of (new_conn client proxy next) i).
Proof. by destruct i. Qed.

Lemma socks_inv_insert m open p a b :
  socks_inv m open -> m !! p = None -> a <> b -> a ∉ open -> b ∉ open ->
  socks_inv (<[p := (Some a, Some b)]> m) ({[a; b]} ∪ open).
Proof.
  intros [He Ho] Hp Hab Ha Hb.
  assert (forall q i, slot (<[p := (Some a, Some b)]> m) q i =
    if decide (q = p) then Some (if i then b else a) else slot m q i) as Hs.
  { intros q i. unfold slot. case_decide as E; [subst q; rewrite lookup_insert_eq; by destruct i|by rewrite lookup_insert_ne]. }
  assert (forall q i, slot m q i <> Some a /\ slot m q i <> Some b) as Hn.
  { intros q i. split; intros Hq; [apply Ha|apply Hb]; apply Ho; by exists q, i. }
  split.
  - intros q i r j x. rewrite !Hs. repeat case_decide; subst.
    + intros [= <-] [= E]. split; [done|]. by destruct i, j.
    + intros [= <-] E. destruct (Hn r j). by destruct i.
    + intros E [= <-]. destruct (Hn q i). by destruct j.
    + apply He.
  - intros h. rewrite elem_of_union, Ho. unfold held. setoid_rewrite Hs. split.
    + intros [Hh|(q & i & Hq)].
      * assert (h = a \/ h = b) as [-> | ->] by set_solver; [exists p, false|exists p, true]; by rewrite decide_True.
      * exists q, i. rewrite decide_False; [done|]. intros ->. unfold slot in Hq. by rewrite Hp in Hq.
    + intros (q & i & Hq). case_decide; [left|right; by exists q, i]. destruct i; injection Hq as <-; set_solver.
Qed.

Lemma bufs_inv_insert m p pool bufs :
  bufs_inv m pool bufs -> m !! p = None -> bufs_inv (<[p := (None, None)]> m) pool bufs.
Proof.
  intros [He Hnd Ha Hl Hb] Hp.
  assert (forall q i, slot (<[p := (None, None)]> m) q i = slot m q i) as Hs.
  { intros q i. unfold slot. destruct (decide (q = p)) as [->|]; [rewrite lookup_insert_eq, Hp; by destruct i|by rewrite lookup_insert_ne]. }
  assert (forall b, held (<[p := (None, None)]> m) b <-> held m b) as Hh by (intros b; unfold held; by setoid_rewrite Hs).
  split; [intros q i r j x; rewrite !Hs; apply He|done|intros b; rewrite Hh; apply Ha|intros b; rewrite Hh; apply Hl|done].
Qed.

Lemma list_inv_link s p m' c l :
  list_inv (links_of <$> g_conns s) (g_relay_head s) (g_active_relays s) (g_relay_done s) l ->
  g_conns s !! p = None -> (forall q, m' !! q = link_at s p q <$> g_conns s !! q) ->
  rc_prev c = None -> rc_next c = g_relay_head s -> rc_pc c = Alive ->
  list_inv (<[p := links_of c]> (links_of <$> m')) (Some p) (g_active_relays s + 1) false (p :: l).
Proof.
  intros [Hd Hnd Hin Ha Hdn] Hp Hm Hprev Hnext Hpc.
  assert (p ∉ l) as Hpl by (intros (k & Hk & _)%Hin; by rewrite lookup_fmap, Hp in Hk).
  assert (forall q d, g_conns s !! q = Some d ->
    (<[p := links_of c]> (links_of <$> m')) !! q = Some (links_of (link_at s p q d))) as Hq.
  { intros q d Hqd. rewrite lookup_insert_ne, lookup_fmap, Hm, Hqd by (intros ->; congruence). done. }
  split; [| | |simpl; lia|done].
  - split; [done|]. exists (links_of c). rewrite lookup_insert_eq. split; [done|]. split; [done|].
    cbn [links_of k_next]. rewrite Hnext. destruct l as [|q l]; [by rewrite Hd|].
    destruct Hd as (Eh & k & Hk & _ & Hd). split; [done|]. rewrite lookup_fmap in Hk.
    apply fmap_Some in Hk as (d & Hqd & ->). 
    assert (link_at s p q d = set_links d (Some p) (rc_next d)) as El by (unfold link_at; by rewrite decide_True).
    exists (links_of (set_links d (Some p) (rc_next d))). rewrite (Hq q d Hqd), El. split; [done|]. split; [done|].
    eapply dll_frame; [exact Hd|]. intros r kr Hr Hkr. rewrite lookup_fmap in Hkr.
    apply fmap_Some in Hkr as (dr & Hdr & ->). eexists. split; [by apply Hq|]. unfold link_at.
    rewrite decide_False; [done|]. rewrite Eh. intros ?; simplify_eq. by apply NoDup_cons in Hnd as [? _].
  - by apply NoDup_cons.
  - intros q. rewrite elem_of_cons, Hin. destruct (decide (q = p)) as [->|Hne].
    + rewrite lookup_insert_eq. split; [|by auto]. intros _. eexists. split; [reflexivity|]. cbn. by rewrite Hpc.
    + rewrite lookup_insert_ne, !lookup_fmap, Hm by done. split.
      * intros [?|(k & (d & -> & ->)%fmap_Some & Hk)]; [done|]. eexists. split; [reflexivity|].
        unfold link_at. by case_decide.
      * intros (k & (d & (d0 & Hd0 & ->)%fmap_Some & ->)%fmap_Some & Hk). right. eexists. rewrite Hd0.
        split; [reflexivity|]. revert Hk. unfold link_at. by case_decide.
Qed.

Lemma relay_start_wf iocp running associated running' hint client proxy s :
  relay_wf s -> client <> proxy -> client ∉ g_open s -> proxy ∉ g_open s ->
  exists s' r, relay_start iocp running associated running' hint client proxy s = Some (s', r) /\ relay_wf s'.
Proof.
  intros Hwf Hcp Hc Hp. unfold relay_start. destruct (_ || _); [by do 2 eexists|].
  destruct (alloc_at (g_conns s) hint) as [p|] eqn:Ea; [|by do 2 eexists]. apply alloc_at_Some in Ea.
  destruct (negb associated); [by do 2 eexists|]. destruct (_ || _); [by do 2 eexists|].
  set (s0 := with_open s ({[client; proxy]} ∪ g_open s)).
  destruct (rw_list _ (proj1 Hwf)) as [l Hl].
  destruct (relay_link_eq p client proxy s0 Ea) as (m' & -> & Hm).
  { intros q Hq. cbn in Hq. destruct Hl as [Hd _ _ _ _]. apply dll_cur in Hd as Hh. rewrite Hq in Hh.
    destruct l as [|x l]; [done|]. injection Hh as <-. destruct Hd as (_ & k & Hk & _). cbn.
    rewrite lookup_fmap in Hk. apply fmap_Some in Hk as (c & -> & _). by eexists. }
  cbn [mbind option_bind]. do 2 eexists. split; [reflexivity|].
  destruct (keeps_all s m' (link_at s p) Hwf Hm) as (Es & Eb & Hq).
  { intros q c Hqc. apply link_at_keeps. by eapply (rw_shape _ (proj1 Hwf)). }
  assert (m' !! p = None) as Hmp by (rewrite Hm; cbn; by rewrite Ea).
  split; [split|]; cbn [s0 with_open g_conns g_relay_head g_active_relays g_relay_done g_open g_relay_pool g_bufs g_relay_accepting].
  - exists (p :: l). rewrite fmap_insert. by apply (list_inv_link s).
  - rewrite fmap_insert, Es. apply socks_inv_insert; [apply Hwf|by rewrite lookup_fmap, Ea|done..].
  - rewrite fmap_insert, Eb. apply bufs_inv_insert; [apply Hwf|by rewrite lookup_fmap, Ea].
  - intros q c [[<- <-]|[_ Hqc]]%lookup_insert_Some; [apply new_conn_shape|by apply (Hq q c)].
  - intros q c i [[<- <-]|[_ Hqc]]%lookup_insert_Some; [apply new_conn_streams|by apply (Hq q c)].
Qed.

(** ** Every event *)

Lemma post_first_wf posted p i s :
  relay_wf s -> pc_at s p i = Some Starting -> exists s', relay_post_wait posted p i s = Some s' /\ relay_wf s'.
Proof.
  intros Hwf Hpc. unfold pc_at in Hpc. destruct (g_conns s !! p) as [c|] eqn:Hc; [|done].
  cbn [mbind option_bind] in Hpc. injection Hpc as Hpc. destruct (proj2 Hwf p c i Hc) as [Hs He].
  rewrite Hpc in Hs. eapply post_wait_wf; [apply Hwf|done|by apply wf_others| |apply Hs].
  split; [unfold live; by rewrite Hpc|]. destruct (d_eof (dir_of c i)); [|done].
  destruct (He eq_refl) as [_ [?|?]]; congruence.
Qed.

Lemma relay_step_wf e s :
  relay_wf s -> relay_step e s <> Faulty /\ forall s', relay_step e s = Next s' -> relay_wf s'.
Proof.
  intros Hwf.
  assert (forall b (r : option RelayState), (b = true -> exists s', r = Some s' /\ relay_wf s') ->
    run_part b r <> Faulty /\ forall s', run_part b r = Next s' -> relay_wf s') as Hrun.
  { intros [] r H; [|done]. destruct (H eq_refl) as (s' & -> & ?). split; [done|]. by intros s1 [= <-]. }
  destruct e as [? ? ? ? hint client proxy|posted p i|r hint posted p i|p i|p i|p|p|]; cbn [relay_step]; apply Hrun.
  - intros (? & ? & ?)%bool_decide_eq_true_1.
    destruct (relay_start_wf iocp running associated running' hint client proxy s) as (s' & r & -> & ?); [done..|].
    by exists s'.
  - intros ?%bool_decide_eq_true_1. by apply post_first_wf.
  - by apply worker_wf.
  - intros [H|H]%orb_true_iff; apply bool_decide_eq_true_1 in H.
    + unfold ending_clean. rewrite bool_decide_eq_true_2 by done. by apply dir_end_wf.
    + unfold ending_clean. rewrite bool_decide_eq_false_2 by congruence. by apply dir_end_wf.
  - intros ?%bool_decide_eq_true_1. by apply release_ref_wf.
  - intros ?%bool_decide_eq_true_1. by apply release_unlink_wf.
  - intros ?%bool_decide_eq_true_1. by apply release_free_wf.
  - intros _. destruct (pool_abort_spec s Hwf) as (l & m' & -> & ? & _). by eexists.
Qed.

Lemma relay_init_wf : relay_wf relay_init.
Proof.
  split; [split|]; cbn [relay_init g_conns g_relay_head g_active_relays g_relay_done g_open g_relay_pool g_bufs].
  - exists []. split; [done|by apply NoDup_nil| |done|done].
    intros p. split; [by intros ?%elem_of_nil|]. rewrite fmap_empty. by intros (? & ? & _).
  - rewrite fmap_empty. split; [by intros ? ? ? ? ?|]. intros h. split; [set_solver|]. by intros (? & ? & ?).
  - rewrite fmap_empty. split; [by intros ? ? ? ? ?|by apply NoDup_nil|by intros ? ?%elem_of_nil| |done].
    intros b. rewrite lookup_empty. split; [by intros []|]. intros [?%elem_of_nil|(? & ? & ?)]; done.
  - done.
  - done.
Qed.

Lemma relay_run_wf tr s :
  relay_wf s -> relay_run tr s <> Faulty /\ forall s', relay_run tr s = Next s' -> relay_wf s'.
Proof.
  revert s. induction tr as [|e tr IH]; intros s Hwf; cbn [relay_run]; [split; [done|by intros s' [= <-]]|].
  destruct (relay_step_wf e s Hwf) as [Hf Hn]. destruct (relay_step e s) as [| |s']; [done..|]. by apply IH, Hn.
Qed.
