(* ===== verification/RelayDrain.v ===== *)
(** * The completion-port relay ends

    What the pool delivers and what it leaves behind: streams arrive unchanged,
    and once the pool is aborted every execution ends with all connections,
    sockets and buffers given back. *)
From S2P Require Import Prelude Relay RelaySafety.

(** ** What an execution shows *)

(** C14: No interleaving of the threads and no answer of the system makes the relay
    use freed memory, a closed socket or another direction's buffer, close a
    socket twice or leave its list; its invariant holds throughout. *)
Theorem relay_never_faults tr :
  relay_run tr relay_init <> Faulty /\ forall s, relay_run tr relay_init = Next s -> relay_wf s.
Proof. apply relay_run_wf, relay_init_wf. Qed.

(** C10: What a destination was sent is, byte for byte, the beginning of what its
    source delivered, and it is told of the end of the stream only when it has
    been sent everything. *)
Theorem relay_streams_exact tr s p c i :
  relay_run tr relay_init = Next s -> g_conns s !! p = Some c ->
  d_sent (dir_of c i) `prefix_of` d_received (dir_of c i) /\
  (d_eof (dir_of c i) = true -> d_sent (dir_of c i) = d_received (dir_of c i)).
Proof.
  intros Hr Hc. destruct (relay_run_wf tr _ relay_init_wf) as [_ Hw]. destruct (Hw s Hr) as [_ Hs].
  destruct (Hs p c i Hc) as [Hp He]. split; [|intros E; symmetry; by apply He].
  destruct (d_pc (dir_of c i)) as [| |[]| |]; [by destruct Hp as [_ ->]| |by rewrite Hp|done..].
  destruct (d_state (dir_of c i)); [by destruct Hp as [_ ->]..|].
  destruct Hp as (b & content & _ & _ & _ & _ & _ & ->). by apply prefix_app_r.
Qed.

(** ** Draining *)

(** The new work is refused, and every connection that still has references is
    aborted. *)
Definition draining (s : RelayState) : Prop :=
  g_relay_accepting s = false /\
  forall p c, g_conns s !! p = Some c -> rc_closing c = true \/ rc_refs c = 0.

(** How many parts of the program a connection still has before it. *)
Definition dir_weight (d : RELAY_DIR) : nat :=
  match d_pc d with Starting | InFlight => 3 | Ending _ => 2 | Releasing => 1 | Gone => 0 end%nat.
Definition conn_weight (c : RELAY_CONN) : nat :=
  (dir_weight (rc_dir0 c) + dir_weight (rc_dir1 c) +
   match rc_pc c with Alive => 3 | Dying => 2 | Unlinked => 1 end)%nat.
(** Steps of the threads that work on connections. *)
Definition is_work (e : relay_event) : bool :=
  match e with EvStart _ _ _ _ _ _ _ | EvAbort => false | _ => true end.

Definition weight_of (m : gmap Z RELAY_CONN) : nat :=
  map_fold (fun _ n k => (n + k)%nat) 0%nat (conn_weight <$> m).

Lemma weight_set (m : gmap Z RELAY_CONN) p c c' :
  m !! p = Some c -> (weight_of (<[p := c']> m) + conn_weight c = weight_of m + conn_weight c')%nat.
Proof.
  intros Hp. rewrite <- (insert_delete_id m p c Hp) at 2. rewrite <- insert_delete_eq. unfold weight_of.
  rewrite !fmap_insert, fmap_delete.
  rewrite !(map_fold_insert_L (fun (_ : Z) n k => (n + k)%nat)) by (try apply lookup_delete_eq; intros; lia). lia.
Qed.

Lemma weight_delete (m : gmap Z RELAY_CONN) p c :
  m !! p = Some c -> weight_of m = (conn_weight c + weight_of (delete p m))%nat.
Proof.
  intros Hp. rewrite <- (insert_delete_id m p c Hp) at 1. unfold weight_of. rewrite fmap_insert, fmap_delete.
  by rewrite (map_fold_insert_L (fun (_ : Z) n k => (n + k)%nat)) by (try apply lookup_delete_eq; intros; lia).
Qed.

(** One connection moves on. *)
Definition moves (s s' : RelayState) (p : Z) (c c' : RELAY_CONN) : Prop :=
  g_conns s !! p = Some c /\ g_conns s' = <[p := c']> (g_conns s) /\ g_relay_accepting s' = g_relay_accepting s.

Lemma moves_drains s s' p c c' :
  draining s -> moves s s' p c c' -> rc_closing c' = true \/ rc_refs c' = 0 ->
  (conn_weight c' < conn_weight c)%nat -> draining s' /\ (weight_of (g_conns s') < weight_of (g_conns s))%nat.
Proof.
  intros [Ha Hd] (Hc & Hs & Hacc) Hc' Hw. rewrite Hs. split; [split; [congruence|]|].
  - intros q d. rewrite Hs. intros [[<- <-]|[_ Hq]]%lookup_insert_Some; [done|by eapply Hd].
  - pose proof (weight_set (g_conns s) p c c' Hc). lia.
Qed.

(** ** Posting on an aborted connection *)

Definition ends (s s' : RelayState) (p : Z) (c : RELAY_CONN) (i : bool) : Prop :=
  exists d clean, g_conns s' = <[p := set_dir c i d]> (g_conns s) /\ d_pc d = Ending clean /\
    g_relay_accepting s' = g_relay_accepting s.

Lemma buf_put_same b s s' :
  relay_buf_put b s = Some s' -> g_conns s' = g_conns s /\ g_relay_accepting s' = g_relay_accepting s.
Proof. unfold relay_buf_put. intros. repeat case_match; by simplify_eq/=. Qed.

Lemma buf_get_same hint s : g_conns (fst (relay_buf_get hint s)) = g_conns s /\
  g_relay_accepting (fst (relay_buf_get hint s)) = g_relay_accepting s.
Proof. unfold relay_buf_get. by repeat case_match. Qed.

Lemma io_ok_closing c posted : rc_closing c = true -> io_ok c posted = false.
Proof. intros Hcl. unfold io_ok. by rewrite Hcl, andb_false_r. Qed.

Lemma ends_post s s1 p c i d buf st posted :
  rc_closing c = true -> g_conns s1 = g_conns s -> g_relay_accepting s1 = g_relay_accepting s ->
  ends s (set_conn s1 p (set_dir c i (post d buf st (io_ok c posted)))) p c i.
Proof.
  intros Hcl E1 E2. exists (post d buf st (io_ok c posted)), false.
  cbn [set_conn with_conns g_conns g_relay_accepting post d_pc]. rewrite E1. by rewrite io_ok_closing.
Qed.

Lemma post_wait_ends posted p i c s s' :
  g_conns s !! p = Some c -> rc_closing c = true -> relay_post_wait posted p i s = Some s' -> ends s s' p c i.
Proof.
  intros Hc Hcl. unfold relay_post_wait. rewrite Hc. cbn [mbind option_bind].
  destruct (relay_buf_put _ s) as [s1|] eqn:E; [|done]. apply buf_put_same in E as [E1 E2]. cbn [mbind option_bind].
  destruct (on_socket _ s1); [|done]. cbn [mbind option_bind]. intros [= <-]. by apply ends_post.
Qed.

Lemma post_read_ends hint posted p i c s s' :
  g_conns s !! p = Some c -> rc_closing c = true -> relay_post_read hint posted p i s = Some s' -> ends s s' p c i.
Proof.
  intros Hc Hcl. unfold relay_post_read. rewrite Hc. cbn [mbind option_bind].
  destruct (match d_buf (dir_of c i) with Some b => (s, Some b) | None => relay_buf_get hint s end) as [s1 buf] eqn:E.
  assert (g_conns s1 = g_conns s /\ g_relay_accepting s1 = g_relay_accepting s) as [E1 E2].
  { destruct (d_buf (dir_of c i)); [by simplify_eq|]. pose proof (buf_get_same hint s) as H. by rewrite E in H. }
  destruct buf as [b|].
  - destruct (on_socket _ s1); [|done]. cbn [mbind option_bind]. intros [= <-]. by apply ends_post.
  - intros [= <-]. do 2 eexists. cbn [set_conn with_conns g_conns g_relay_accepting]. by rewrite E1.
Qed.

Lemma post_send_ends posted p i c s s' :
  g_conns s !! p = Some c -> rc_closing c = true -> relay_post_send posted p i s = Some s' -> ends s s' p c i.
Proof.
  intros Hc Hcl. unfold relay_post_send. rewrite Hc. cbn [mbind option_bind].
  destruct (d_buf (dir_of c i)); [|done]. cbn [mbind option_bind].
  destruct (on_socket _ s); [|done]. cbn [mbind option_bind]. intros [= <-]. by apply ends_post.
Qed.

(** An operation on a direction that was changed before. *)
Lemma ends_after s s1 s' p c i d :
  g_conns s1 = <[p := set_dir c i d]> (g_conns s) -> g_relay_accepting s1 = g_relay_accepting s ->
  ends s1 s' p (set_dir c i d) i -> ends s s' p c i.
Proof.
  intros Hs Ha (d' & clean & Hc & Hpc & Hacc). exists d', clean. rewrite Hc, Hs, insert_insert_eq.
  split; [f_equal; by destruct i|]. split; [done|congruence].
Qed.

Lemma worker_ends r hint posted p i c s s' :
  g_conns s !! p = Some c -> rc_closing c = true -> relay_worker r hint posted p i s = Some s' -> ends s s' p c i.
Proof.
  intros Hc Hcl. unfold relay_worker. rewrite Hc. cbn [mbind option_bind].
  assert (forall b, ends s (set_conn s p (set_dir c i (set_pc (dir_of c i) (Ending b)))) p c i) as Hend
    by (intros; by do 2 eexists).
  destruct r as [| |[|x data]|n].
  - intros [= <-]. apply Hend.
  - by apply post_read_ends.
  - intros [= <-]. apply Hend.
  - destruct (d_buf (dir_of c i)) as [b|]; [|done]. cbn [mbind option_bind].
    destruct (g_bufs s !! b); [|done]. cbn [mbind option_bind].
    intros H. eapply ends_after; [..|eapply post_send_ends; [| |exact H]]; [done|done| |done].
    cbn. by rewrite lookup_insert_eq.
  - destruct (n =? 0); [intros [= <-]; apply Hend|].
    destruct (d_buf (dir_of c i)) as [b|]; [|done]. cbn [mbind option_bind].
    destruct (g_bufs s !! b) as [content|]; [|done]. cbn [mbind option_bind].
    set (d := took (dir_of c i) content n).
    assert (g_conns (set_conn s p (set_dir c i d)) !! p = Some (set_dir c i d)) as Hl by (cbn; by rewrite lookup_insert_eq).
    destruct (d_off d <? d_len d); [|destruct (_ <? _)]; intros H;
      (eapply ends_after; [..|first [eapply post_send_ends; [exact Hl| |exact H]|eapply post_wait_ends; [exact Hl| |exact H]
        |eapply post_read_ends; [exact Hl| |exact H]]]; done).
Qed.

Lemma ends_drains s s' p c i :
  draining s -> g_conns s !! p = Some c -> ends s s' p c i -> rc_closing c = true ->
  d_pc (dir_of c i) = Starting \/ d_pc (dir_of c i) = InFlight ->
  draining s' /\ (weight_of (g_conns s') < weight_of (g_conns s))%nat.
Proof.
  intros Hd Hc (d & clean & Hs & Hpc & Ha) Hcl Hp. apply (moves_drains s s' p c (set_dir c i d)); [done|done|by left|].
  unfold conn_weight. cbn [set_dir rc_pc]. unfold dir_weight.
  destruct i; cbn [set_dir rc_dir0 rc_dir1 dir_of] in *; rewrite Hpc; destruct Hp as [-> | ->]; lia.
Qed.

(** ** Every step of a draining pool leaves less to do *)

Lemma closing_if_live s p c i :
  relay_wf s -> draining s -> g_conns s !! p = Some c -> d_pc (dir_of c i) <> Gone -> rc_closing c = true.
Proof.
  intros Hwf [_ Hd] Hc Hpc. destruct (Hd p c Hc) as [|Hz]; [done|].
  destruct (rw_shape _ (proj1 Hwf) p c Hc) as [Hr _ _ _].
  assert (forall d, live d = 0 \/ live d = 1) as Hlive by (intros d; unfold live; case_decide; auto).
  pose proof (Hlive (rc_dir0 c)). pose proof (Hlive (rc_dir1 c)).
  assert (live (dir_of c i) = 1) by (unfold live; by rewrite decide_False). destruct i; simpl in *; lia.
Qed.

Lemma pc_at_inv s p i pc : pc_at s p i = Some pc -> exists c, g_conns s !! p = Some c /\ d_pc (dir_of c i) = pc.
Proof. unfold pc_at. destruct (g_conns s !! p) as [c|]; [|done]. intros [= <-]. by exists c. Qed.

Lemma dir_end_drains clean p i s s' :
  relay_wf s -> draining s -> pc_at s p i = Some (Ending clean) -> relay_dir_end clean p i s = Some s' ->
  draining s' /\ (weight_of (g_conns s') < weight_of (g_conns s))%nat.
Proof.
  intros Hwf Hd (c & Hc & Hpc)%pc_at_inv H.
  assert (rc_closing c = true) as Hcl by (eapply closing_if_live; [done..|by rewrite Hpc]).
  assert (exists d, moves s s' p c (set_dir c i d) /\ d_pc d = Releasing) as (d & Hm & Hdp).
  { revert H. unfold relay_dir_end. rewrite Hc. cbn [mbind option_bind]. destruct clean.
    - destruct (on_socket _ s); [|done]. cbn [mbind option_bind]. intros [= <-]. by eexists.
    - unfold relay_abort. rewrite Hc. cbn [mbind option_bind]. rewrite Hcl. cbn [mbind option_bind]. rewrite Hc.
      cbn [mbind option_bind]. intros [= <-]. by eexists. }
  eapply moves_drains; [done|exact Hm|by left|]. unfold conn_weight. cbn [set_dir rc_pc]. unfold dir_weight.
  destruct i; cbn [set_dir rc_dir0 rc_dir1 dir_of] in *; rewrite Hpc, Hdp; lia.
Qed.

Lemma release_ref_drains p i s s' :
  relay_wf s -> draining s -> pc_at s p i = Some Releasing -> release_ref p i s = Some s' ->
  draining s' /\ (weight_of (g_conns s') < weight_of (g_conns s))%nat.
Proof.
  intros Hwf Hd (c & Hc & Hpc)%pc_at_inv. unfold release_ref. rewrite Hc. cbn [mbind option_bind]. intros [= <-].
  assert (rc_closing c = true) as Hcl by (eapply closing_if_live; [done..|by rewrite Hpc]).
  assert (rc_pc c = Alive) as Ha.
  { destruct (rw_shape _ (proj1 Hwf) p c Hc) as [Hr Hp _ _]. destruct (rc_pc c); [done|..];
      destruct i; unfold live in *; simpl in *; rewrite Hpc in *; repeat case_decide; simpl in *; try done; lia. }
  eapply moves_drains; [done|by split|by left|]. unfold conn_weight. cbn [set_refs set_dir rc_pc rc_dir0 rc_dir1].
  rewrite Ha. destruct i; unfold dir_weight; cbn [dir_of set_pc rc_dir0 rc_dir1 d_pc] in *; rewrite Hpc;
    destruct (_ =? 0); lia.
Qed.

Lemma unlink_drains p s s' :
  relay_wf s -> draining s -> conn_pc_at s p = Some Dying -> release_unlink p s = Some s' ->
  draining s' /\ (weight_of (g_conns s') < weight_of (g_conns s))%nat.
Proof.
  intros Hwf [Ha Hd] Hdy. destruct (release_unlink_spec p s Hwf Hdy) as (c & l1 & l2 & m' & Hc & Hpc & _ & _ & _ & -> & Hm).
  intros [= <-]. cbn [g_conns g_relay_accepting]. split; [split; [done|]|].
  - intros q d. cbn [g_conns]. rewrite Hm. destruct (g_conns s !! q) as [d0|] eqn:E; [|done]. intros [= <-].
    destruct (Hd q d0 E); unfold unlink_at; case_decide; cbn; auto.
  - assert (weight_of m' = weight_of (<[p := set_refs c (rc_refs c) Unlinked]> (g_conns s))) as ->.
    { unfold weight_of. f_equal. apply map_eq. intros q. rewrite !lookup_fmap, Hm.
      destruct (decide (q = p)) as [->|Hq]; [rewrite lookup_insert_eq, Hc; cbn; unfold unlink_at; by rewrite decide_True|].
      rewrite lookup_insert_ne by done. destruct (g_conns s !! q); [|done]. cbn. unfold unlink_at. by rewrite decide_False. }
    pose proof (weight_set (g_conns s) p c (set_refs c (rc_refs c) Unlinked) Hc) as Hw.
    unfold conn_weight in Hw at 1 2. cbn [set_refs rc_pc rc_dir0 rc_dir1] in Hw. rewrite Hpc in Hw. lia.
Qed.

Lemma free_drains p s s' :
  draining s -> release_free p s = Some s' ->
  draining s' /\ (weight_of (g_conns s') < weight_of (g_conns s))%nat.
Proof.
  intros [Ha Hd]. unfold release_free. destruct (g_conns s !! p) as [c|] eqn:Hc; [|done]. cbn [mbind option_bind].
  unfold closesocket. destruct (on_socket _ s); [|done]. cbn [mbind option_bind].
  destruct (on_socket _ _); [|done]. cbn [mbind option_bind].
  destruct (relay_buf_put (d_buf (rc_dir0 c)) _) as [s1|] eqn:E1; [|done]. cbn [mbind option_bind].
  destruct (relay_buf_put (d_buf (rc_dir1 c)) _) as [s2|] eqn:E2; [|done]. cbn [mbind option_bind]. intros [= <-].
  apply buf_put_same in E1 as [E1 F1]. apply buf_put_same in E2 as [E2 F2].
  cbn [with_conns with_open g_conns g_relay_accepting] in *. rewrite E2, E1. split; [split|].
  - cbn. congruence.
  - cbn [with_conns g_conns]. intros q d [_ Hq]%lookup_delete_Some. by eapply Hd.
  - rewrite (weight_delete _ p c Hc). unfold conn_weight. destruct (rc_pc c); lia.
Qed.

Lemma work_drains e s s' :
  relay_wf s -> draining s -> is_work e = true -> relay_step e s = Next s' ->
  draining s' /\ (weight_of (g_conns s') < weight_of (g_conns s))%nat.
Proof.
  intros Hwf Hd Hw.
  assert (forall b r, run_part b r = Next s' -> b = true /\ r = Some s') as Hrun.
  { by intros [] [r|] H; simplify_eq/=. }
  destruct e as [? ? ? ? hint client proxy|posted p i|r hint posted p i|p i|p i|p|p|]; try done; cbn [relay_step];
    intros [Hb H]%Hrun.
  - apply bool_decide_eq_true_1, pc_at_inv in Hb as (c & Hc & Hpc).
    assert (rc_closing c = true) as Hcl by (eapply closing_if_live; [done..|by rewrite Hpc]).
    eapply ends_drains; [done|exact Hc|by eapply post_wait_ends|done|by left].
  - unfold completes in Hb. destruct (g_conns s !! p) as [c|] eqn:Hc; [|done].
    apply andb_true_iff in Hb as [Hpc%bool_decide_eq_true_1 _].
    assert (rc_closing c = true) as Hcl by (eapply closing_if_live; [done..|by rewrite Hpc]).
    eapply ends_drains; [done|exact Hc|by eapply worker_ends|done|by right].
  - unfold ending_clean, ending_bad in *. apply orb_true_iff in Hb as [Hb|Hb]; apply bool_decide_eq_true_1 in Hb.
    + rewrite bool_decide_eq_true_2 in H by done. by eapply dir_end_drains.
    + rewrite bool_decide_eq_false_2 in H by congruence. by eapply dir_end_drains.
  - apply bool_decide_eq_true_1 in Hb. by eapply release_ref_drains.
  - apply bool_decide_eq_true_1 in Hb. by eapply unlink_drains.
  - by eapply free_drains.
Qed.

Lemma abort_weight l (m m' : gmap Z RELAY_CONN) :
  (forall q, m' !! q = abort_at l q <$> m !! q) -> weight_of m' = weight_of m.
Proof.
  intros Hm. unfold weight_of. f_equal. apply map_eq. intros q. rewrite !lookup_fmap, Hm.
  destruct (m !! q); [|done]. cbn. f_equal. unfold abort_at. by case_decide.
Qed.

(** After [relay_pool_abort] the pool drains. *)
Lemma abort_starts_draining s s' :
  relay_wf s -> relay_pool_abort s = Some s' ->
  draining s' /\ weight_of (g_conns s') = weight_of (g_conns s) /\ relay_wf s'.
Proof.
  intros Hwf. destruct (pool_abort_spec s Hwf) as (l & m' & -> & Hwf' & Hm & Hl). intros [= <-].
  split; [split; [done|]|split; [by apply (abort_weight l)|done]].
  intros q d. cbn [with_conns g_conns]. rewrite Hm. destruct (g_conns s !! q) as [c|] eqn:Hq; [|done]. intros [= <-].
  unfold abort_at. case_decide as Hql; [by left|]. right. destruct (rw_shape _ (proj1 Hwf) q c Hq) as [_ Hp _ _].
  destruct (decide (rc_pc c = Unlinked)) as [E|E]; [by rewrite E in Hp|]. destruct Hql. apply Hl.
  eexists. rewrite lookup_fmap, Hq. split; [reflexivity|]. cbn. by rewrite bool_decide_eq_false_2.
Qed.

Lemma other_drains e s s' :
  relay_wf s -> draining s -> is_work e = false -> relay_step e s = Next s' ->
  draining s' /\ weight_of (g_conns s') = weight_of (g_conns s).
Proof.
  intros Hwf Hd Hw Hs. destruct e as [? ? ? ? hint client proxy|posted p i|r hint posted p i|p i|p i|p|p|]; try done.
  - cbn [relay_step] in Hs. unfold run_part, relay_start in Hs. rewrite (proj1 Hd) in Hs. cbn [negb orb] in Hs.
    destruct (bool_decide _); [|done]. destruct (negb iocp || negb running); [by injection Hs as <-|].
    destruct (alloc_at _ _); [|by injection Hs as <-]. destruct (negb associated); by injection Hs as <-.
  - cbn [relay_step run_part] in Hs. destruct (relay_pool_abort s) as [s1|] eqn:E; [|done]. injection Hs as <-.
    by destruct (abort_starts_draining s s1 Hwf E) as (? & ? & _).
Qed.

(** While a connection is left, some thread has a part to run. *)
Lemma work_left s :
  relay_wf s -> g_conns s <> ∅ -> exists e s', is_work e = true /\ relay_step e s = Next s'.
Proof.
  intros Hwf Hne. apply map_choose in Hne as (p & c & Hc).
  assert (forall e, is_work e = true -> relay_step e s <> Disabled -> exists e s', is_work e = true /\ relay_step e s = Next s') as Hgo.
  { intros e He Hd. destruct (relay_step_wf e s Hwf) as [Hf _]. destruct (relay_step e s) eqn:E; [done..|]. by exists e, s0. }
  assert (forall i pc, d_pc (dir_of c i) = pc -> pc_at s p i = Some pc) as Hpc
    by (intros i pc <-; unfold pc_at; by rewrite Hc).
  assert (forall r, run_part true r <> Disabled) as Hrun by (by intros []).
  assert (forall i, d_pc (dir_of c i) <> Gone -> exists e s', is_work e = true /\ relay_step e s = Next s') as Hdir.
  { intros i Hi. destruct (d_pc (dir_of c i)) as [| |clean| |] eqn:E; [..|done].
    - apply (Hgo (EvPost true p i)); [done|]. cbn [relay_step]. by rewrite bool_decide_eq_true_2 by auto.
    - apply (Hgo (EvComplete IoError None true p i)); [done|]. cbn [relay_step]. unfold completes. rewrite Hc.
      by rewrite bool_decide_eq_true_2.
    - apply (Hgo (EvDirEnd p i)); [done|]. cbn [relay_step].
      assert (ending_clean s p i || ending_bad s p i = true) as ->; [|apply Hrun].
      unfold ending_clean, ending_bad. rewrite (Hpc i _ E). by destruct clean.
    - apply (Hgo (EvRelease p i)); [done|]. cbn [relay_step]. by rewrite bool_decide_eq_true_2 by auto. }
  destruct (decide (d_pc (rc_dir0 c) = Gone)) as [E0|E0]; [|by apply (Hdir false)].
  destruct (decide (d_pc (rc_dir1 c) = Gone)) as [E1|E1]; [|by apply (Hdir true)].
  destruct (rw_shape _ (proj1 Hwf) p c Hc) as [Hr Hp _ _]. unfold live in Hr. rewrite E0, E1 in Hr. simpl in Hr.
  destruct (rc_pc c) eqn:E; [lia|apply (Hgo (EvUnlink p))|apply (Hgo (EvFree p))]; try done; cbn [relay_step];
    rewrite bool_decide_eq_true_2; try done; unfold conn_pc_at; by rewrite Hc, <- E.
Qed.

(** Nothing is left when no connection is. *)
Lemma nothing_left s :
  relay_wf s -> g_conns s = ∅ ->
  g_relay_done s = true /\ g_active_relays s = 0 /\ g_open s = ∅ /\
  exists s', relay_pool_free s = Some s' /\ g_bufs s' = ∅ /\ g_relay_pool s' = [].
Proof.
  intros [[[l Hl] Hs Hb _] _] E. rewrite E, fmap_empty in *.
  assert (l = []) as ->.
  { destruct l as [|p l]; [done|]. destruct Hl as [_ _ Hin _ _]. destruct (proj1 (Hin p)) as (k & Hk & _); [left|done]. }
  destruct Hl as [_ _ _ Ha Hd]. split; [by apply Hd|]. split; [done|].
  assert (forall x, ~ held ∅ x) as Hn by (by intros x (p & i & Hx)). split.
  { apply leibniz_equiv. intros h. destruct Hs as [_ Ho]. specialize (Hn h). set_solver. }
  unfold relay_pool_free.
  assert (exists bufs, free_all (g_relay_pool s) (g_bufs s) = Some bufs /\ bufs = ∅) as (bufs & -> & ->).
  { destruct Hb as [_ Hnd _ Hlive _].
    assert (forall b, is_Some (g_bufs s !! b) <-> b ∈ g_relay_pool s) as Hl by (intros b; rewrite Hlive; specialize (Hn b); tauto).
    clear Hlive. revert Hnd Hl. generalize (g_relay_pool s) as pool. generalize (g_bufs s) as bufs. clear.
    intros bufs pool. revert bufs. induction pool as [|b pool IH]; intros bufs Hnd Hl.
    - exists bufs. split; [done|]. apply map_empty. intros b. apply eq_None_not_Some. rewrite Hl. by apply not_elem_of_nil.
    - cbn [free_all]. apply NoDup_cons in Hnd as [Hb Hnd]. destruct (proj2 (Hl b)) as [x Hx]; [left|]. rewrite Hx.
      cbn [mbind option_bind]. apply IH; [done|]. intros y. rewrite lookup_delete_is_Some, Hl, elem_of_cons. naive_solver. }
  cbn [mbind option_bind]. by eexists.
Qed.

Lemma run_drains tr s s' :
  relay_wf s -> draining s -> relay_run tr s = Next s' ->
  relay_wf s' /\ (length (filter (fun e => is_work e = true) tr) + weight_of (g_conns s') <= weight_of (g_conns s))%nat.
Proof.
  revert s. induction tr as [|e tr IH]; intros s Hwf Hd; cbn [relay_run]; [intros [= <-]; split; [done|simpl; lia]|].
  destruct (relay_step e s) as [| |s1] eqn:E; [done..|]. intros Hr.
  destruct (relay_step_wf e s Hwf) as [_ Hw1]. specialize (Hw1 s1 E). rewrite filter_cons. destruct (is_work e) eqn:Ew.
  - rewrite decide_True by done. destruct (work_drains e s s1 Hwf Hd Ew E) as [Hd1 Hlt].
    destruct (IH s1 Hw1 Hd1 Hr) as [? ?]. split; [done|]. simpl. lia.
  - rewrite decide_False by done. destruct (other_drains e s s1 Hwf Hd Ew E) as [Hd1 Hlt].
    destruct (IH s1 Hw1 Hd1 Hr) as [? ?]. split; [done|]. lia.
Qed.

(** C15: After [relay_pool_abort], in whatever order the threads run and whatever the
    system answers, the relay has only so many parts left to run; as long as a
    connection is left one of them can run; and when none is left the done event
    is set, every socket is closed, and freeing the pool frees every buffer. *)
Theorem relay_abort_drains tr0 s0 s1 tr s :
  relay_run tr0 relay_init = Next s0 -> relay_pool_abort s0 = Some s1 -> relay_run tr s1 = Next s ->
  (length (filter (fun e => is_work e = true) tr) <= 9 * size (g_conns s0))%nat /\
  (g_conns s <> ∅ -> exists e s', is_work e = true /\ relay_step e s = Next s') /\
  (g_conns s = ∅ -> g_relay_done s = true /\ g_active_relays s = 0 /\ g_open s = ∅ /\
     exists s', relay_pool_free s = Some s' /\ g_bufs s' = ∅ /\ g_relay_pool s' = []).
Proof.
  intros H0 Ha Hr. destruct (relay_run_wf tr0 _ relay_init_wf) as [_ Hw]. specialize (Hw s0 H0).
  destruct (abort_starts_draining s0 s1 Hw Ha) as (Hd & Hwt & Hw1).
  destruct (run_drains tr s1 s Hw1 Hd Hr) as [Hws Hlen].
  split; [|split; [by apply work_left|by apply nothing_left]].
  assert (weight_of (g_conns s0) <= 9 * size (g_conns s0))%nat; [|lia].
  clear. generalize (g_conns s0) as m. intros m. induction m as [|p c m Hp IH] using map_ind.
  - unfold weight_of. by rewrite fmap_empty, map_fold_empty.
  - rewrite (weight_delete _ p c) by apply lookup_insert_eq. rewrite delete_insert_id by done.
    rewrite map_size_insert_None by done. unfold conn_weight, dir_weight.
    destruct (d_pc (rc_dir0 c)), (d_pc (rc_dir1 c)), (rc_pc c); lia.
Qed.
