(* ===== verification/RelayPairs.v ===== *)
(** * The blocking relay's pairs (pb_relay.c)

    A connection the completion-port pool does not take is relayed by two
    threads that share a pair.  Every pair is in a list that Stop walks, to shut
    the sockets of the threads it has to wait for; the last direction to end
    takes its pair out of the list, closes the sockets and frees it.  An event is
    what one thread does between two points where another can come in between. *)
From S2P Require Import Prelude Relay RelaySafety.

(** A direction: its thread not created, relaying, shut, has given its
    reference back. *)
Inductive way_pc := NotStarted | Relaying | ShutDown | Out.

(** The thread that has to dispose of the pair: none yet, before
    [unregister_relay_pair], behind it. *)
Inductive last_pc := NotLast | MustUnregister | MustClose.

(** [rp_shut]: both sockets were shut both ways. *)
Record RELAY_PAIR := mkPair {
  sock_client : Z; sock_proxy : Z;
  pair_refs : Z;
  pair_next : option Z;
  registered : bool;
  rp_shut : bool;
  way0 : way_pc; way1 : way_pc;
  rp_last : last_pc
}.

(** [ps_open] are the open sockets the pairs were given, [ps_aborted] whether
    Stop has walked the list. *)
Record PairState := mkPairs {
  pairs : gmap Z RELAY_PAIR;
  active_relay_pairs : option Z;
  ps_running : bool;
  ps_aborted : bool;
  ps_open : gset Z
}.

Definition pairs_init : PairState := mkPairs ∅ None true false ∅.

Definition with_pairs (s : PairState) (m : gmap Z RELAY_PAIR) : PairState :=
  mkPairs m (active_relay_pairs s) (ps_running s) (ps_aborted s) (ps_open s).
Definition with_first (s : PairState) (head : option Z) : PairState :=
  mkPairs (pairs s) head (ps_running s) (ps_aborted s) (ps_open s).
Definition with_sockets (s : PairState) (open : gset Z) : PairState :=
  mkPairs (pairs s) (active_relay_pairs s) (ps_running s) (ps_aborted s) open.
Definition set_next (c : RELAY_PAIR) (next : option Z) (reg : bool) : RELAY_PAIR :=
  mkPair (sock_client c) (sock_proxy c) (pair_refs c) next reg (rp_shut c) (way0 c) (way1 c) (rp_last c).
Definition set_shut (c : RELAY_PAIR) : RELAY_PAIR :=
  mkPair (sock_client c) (sock_proxy c) (pair_refs c) (pair_next c) (registered c) true (way0 c) (way1 c) (rp_last c).
Definition way (c : RELAY_PAIR) (i : bool) : way_pc := if i then way1 c else way0 c.
Definition set_way (c : RELAY_PAIR) (i : bool) (w : way_pc) : RELAY_PAIR :=
  mkPair (sock_client c) (sock_proxy c) (pair_refs c) (pair_next c) (registered c) (rp_shut c)
    (if i then way0 c else w) (if i then w else way1 c) (rp_last c).
Definition set_last (c : RELAY_PAIR) (refs : Z) (l : last_pc) : RELAY_PAIR :=
  mkPair (sock_client c) (sock_proxy c) refs (pair_next c) (registered c) (rp_shut c) (way0 c) (way1 c) l.

(** ** Operations

    [None] is a fault: a pair that was freed, a socket that is closed, a list
    that does not end. *)

(** [register_relay_pair]; the shutdown event exists while the listener runs. *)
Definition register_relay_pair (p : Z) (s : PairState) : option (PairState * bool) :=
  c ← pairs s !! p;
  if ps_running s
  then Some (with_first (with_pairs s (<[p := set_next c (active_relay_pairs s) true]> (pairs s))) (Some p), true)
  else Some (s, false).

(** The walk of [unregister_relay_pair]: [cursor] is the head, or the [next]
    of [prev]. *)
Fixpoint unlink_pair (fuel : nat) (prev cur : option Z) (p : Z) (s : PairState) : option PairState :=
  match cur, fuel with
  | None, _ => Some s
  | Some q, S fuel =>
      c ← pairs s !! q;
      if q =? p
      then match prev with
           | None => Some (with_first s (pair_next c))
           | Some r => d ← pairs s !! r; Some (with_pairs s (<[r := set_next d (pair_next c) (registered d)]> (pairs s)))
           end
      else unlink_pair fuel (Some q) (pair_next c) p s
  | Some _, O => None
  end.

Definition unregister_relay_pair (p : Z) (s : PairState) : option PairState :=
  c ← pairs s !! p;
  if registered c
  then s ← unlink_pair (size (pairs s)) None (active_relay_pairs s) p s;
       c ← pairs s !! p;
       Some (with_pairs s (<[p := set_next c None false]> (pairs s)))
  else Some s.

Definition both_open (c : RELAY_PAIR) (s : PairState) : option unit :=
  if decide (sock_client c ∈ ps_open s /\ sock_proxy c ∈ ps_open s) then Some tt else None.

(** The walk of [abort_active_relays], from [cur]. *)
Fixpoint abort_pairs (fuel : nat) (cur : option Z) (s : PairState) : option PairState :=
  match cur, fuel with
  | None, _ => Some s
  | Some q, S fuel =>
      c ← pairs s !! q;
      _ ← both_open c s;
      abort_pairs fuel (pair_next c) (with_pairs s (<[q := set_shut c]> (pairs s)))
  | Some _, O => None
  end.

Definition abort_active_relays (s : PairState) : option PairState :=
  s ← abort_pairs (size (pairs s)) (active_relay_pairs s) s;
  Some (mkPairs (pairs s) (active_relay_pairs s) (ps_running s) true (ps_open s)).

(** [transfer_handler] up to the registration: the pair, or [None] when both
    sockets were closed again. *)
Definition transfer_register (hint : option Z) (client proxy : Z) (s : PairState)
  : option (PairState * option Z) :=
  match alloc_at (pairs s) hint with
  | None => Some (s, None)
  | Some p =>
      let c := mkPair client proxy 2 None false false NotStarted NotStarted NotLast in
      match register_relay_pair p (with_pairs s (<[p := c]> (pairs s))) with
      | None => None
      | Some (s', true) => Some (with_sockets s' ({[client; proxy]} ∪ ps_open s'), Some p)
      | Some (s', false) => Some (with_pairs s' (delete p (pairs s')), None)
      end
  end.

(** Its rest: the configurations of the directions and the upload thread.  When
    one of them cannot be had this thread disposes of the pair. *)
Definition transfer_start (ok : bool) (p : Z) (s : PairState) : option PairState :=
  c ← pairs s !! p;
  Some (with_pairs s (<[p := if ok then set_way (set_way c false Relaying) true Relaying
                             else set_last (set_way (set_way c false Out) true Out) (pair_refs c) MustUnregister]>
                       (pairs s))).

(** The end of the loop of [one_way_relay]: the destination of a clean end, or
    both sockets, are shut. *)
Definition one_way_shut (clean_eof : bool) (p : Z) (i : bool) (s : PairState) : option PairState :=
  c ← pairs s !! p;
  _ ← both_open c s;
  Some (with_pairs s (<[p := set_way (if clean_eof then c else set_shut c) i ShutDown]> (pairs s))).

(** [InterlockedDecrement(&pair->refs)] *)
Definition one_way_out (p : Z) (i : bool) (s : PairState) : option PairState :=
  c ← pairs s !! p;
  let refs := pair_refs c - 1 in
  Some (with_pairs s (<[p := set_last (set_way c i Out) refs (if refs =? 0 then MustUnregister else rp_last c)]>
                       (pairs s))).

Definition pair_unregister (p : Z) (s : PairState) : option PairState :=
  s ← unregister_relay_pair p s;
  c ← pairs s !! p;
  Some (with_pairs s (<[p := set_last c (pair_refs c) MustClose]> (pairs s))).

(** [closesocket] on both, [free]. *)
Definition pair_close (p : Z) (s : PairState) : option PairState :=
  c ← pairs s !! p;
  _ ← both_open c s;
  Some (with_sockets (with_pairs s (delete p (pairs s))) (ps_open s ∖ {[sock_client c]} ∖ {[sock_proxy c]})).

(** ** The threads *)

Inductive pair_event :=
| PRegister (hint : option Z) (client proxy : Z)
| PStart (ok : bool) (p : Z)
| PShut (clean_eof : bool) (p : Z) (i : bool)
| POut (p : Z) (i : bool)
| PUnregister (p : Z)
| PClose (p : Z)
| PStop                                    (* running = FALSE *)
| PAbort.                                  (* abort_active_relays, behind it *)

Inductive pair_result := PDisabled | PFaulty | PNext (s : PairState).

Definition pair_part (enabled : bool) (r : option PairState) : pair_result :=
  if enabled then match r with Some s => PNext s | None => PFaulty end else PDisabled.

#[export] Instance way_pc_eq_dec : EqDecision way_pc.
Proof. solve_decision. Defined.
#[export] Instance last_pc_eq_dec : EqDecision last_pc.
Proof. solve_decision. Defined.

Definition way_at (s : PairState) (p : Z) (i : bool) (w : way_pc) : bool :=
  bool_decide ((fun c => way c i) <$> pairs s !! p = Some w).
Definition last_at (s : PairState) (p : Z) (l : last_pc) : bool := bool_decide (rp_last <$> pairs s !! p = Some l).

Definition pair_step (e : pair_event) (s : PairState) : pair_result :=
  match e with
  | PRegister hint client proxy =>
      pair_part (bool_decide (client <> proxy /\ (client ∉ ps_open s) /\ (proxy ∉ ps_open s)))
        (fst <$> transfer_register hint client proxy s)
  | PStart ok p => pair_part (way_at s p false NotStarted && way_at s p true NotStarted) (transfer_start ok p s)
  | PShut clean_eof p i => pair_part (way_at s p i Relaying) (one_way_shut clean_eof p i s)
  | POut p i => pair_part (way_at s p i ShutDown) (one_way_out p i s)
  | PUnregister p => pair_part (last_at s p MustUnregister) (pair_unregister p s)
  | PClose p => pair_part (last_at s p MustClose) (pair_close p s)
  | PStop => pair_part true (Some (mkPairs (pairs s) (active_relay_pairs s) false (ps_aborted s) (ps_open s)))
  | PAbort => pair_part (negb (ps_running s)) (abort_active_relays s)
  end.

Fixpoint pair_run (l : list pair_event) (s : PairState) : pair_result :=
  match l with
  | [] => PNext s
  | e :: l => match pair_step e s with PNext s => pair_run l s | r => r end
  end.

(** ** The list *)

Fixpoint chain (m : gmap Z RELAY_PAIR) (cur : option Z) (l : list Z) : Prop :=
  match l with
  | [] => cur = None
  | p :: l => cur = Some p /\ exists c, m !! p = Some c /\ chain m (pair_next c) l
  end.

Lemma chain_frame m m' cur l :
  chain m cur l ->
  (forall q c, q ∈ l -> m !! q = Some c -> exists c', m' !! q = Some c' /\ pair_next c' = pair_next c) ->
  chain m' cur l.
Proof.
  revert cur. induction l as [|p l IH]; intros cur; [done|]. intros (-> & c & Hc & Hd) Hm. split; [done|].
  destruct (Hm p c) as (c' & Hc' & E); [left|done|]. exists c'. split; [done|]. rewrite E. apply IH; [done|].
  intros q cq Hq. apply Hm. by right.
Qed.

Lemma chain_live m cur l p : chain m cur l -> p ∈ l -> is_Some (m !! p).
Proof.
  revert cur. induction l as [|q l IH]; intros cur; [by intros _ ?%elem_of_nil|].
  intros (_ & c & Hc & Hd) [->|Hp]%elem_of_cons; [by eexists|by eapply IH].
Qed.

Lemma chain_length m cur l : chain m cur l -> NoDup l -> (length l <= size m)%nat.
Proof.
  intros Hd Hnd. rewrite <- size_dom, <- (size_list_to_set (C := gset Z)) by done. apply subseteq_size.
  intros p Hp%elem_of_list_to_set. apply elem_of_dom. by eapply chain_live.
Qed.

(** The node in front of the unlinked one takes over its [next]. *)
Lemma chain_skip m cur la r p lb d c :
  chain m cur (la ++ r :: p :: lb) -> NoDup (la ++ r :: p :: lb) -> m !! r = Some d -> m !! p = Some c ->
  chain (<[r := set_next d (pair_next c) (registered d)]> m) cur (la ++ r :: lb).
Proof.
  revert cur. induction la as [|q la IH]; intros cur; cbn [app chain].
  - intros (-> & d' & Hd' & _ & c' & Hc' & Hch) [Hr Hnd]%NoDup_cons Hd Hc. simplify_eq. split; [done|].
    rewrite lookup_insert_eq. eexists. split; [reflexivity|]. cbn [set_next pair_next].
    eapply chain_frame; [exact Hch|]. intros q cq Hq Hmq. exists cq. rewrite lookup_insert_ne; [done|]. intros ->. set_solver.
  - intros (-> & cq & Hq & Hch) [Hn Hnd]%NoDup_cons Hd Hc. split; [done|]. exists cq.
    rewrite lookup_insert_ne by (intros ->; set_solver). split; [done|]. by apply IH.
Qed.

Lemma unlink_walk s p c lb la fuel prev cur :
  chain (pairs s) cur (la ++ p :: lb) -> p ∉ la -> (length la < fuel)%nat -> pairs s !! p = Some c ->
  unlink_pair fuel prev cur p s =
    match (match last la with Some q => Some q | None => prev end) with
    | None => Some (with_first s (pair_next c))
    | Some r => d ← pairs s !! r; Some (with_pairs s (<[r := set_next d (pair_next c) (registered d)]> (pairs s)))
    end.
Proof.
  revert fuel prev cur. induction la as [|q la IH]; intros fuel prev cur (-> & d & Hd & Hch) Hp Hf Hc;
    (destruct fuel as [|fuel]; [simpl in Hf; lia|]); cbn [unlink_pair]; rewrite Hd; cbn [mbind option_bind].
  - rewrite Z.eqb_refl. cbn [last]. by simplify_eq.
  - destruct (Z.eqb_spec q p) as [->|Hne]; [set_solver|]. cbn [length] in Hf.
    rewrite (IH fuel (Some q) (pair_next d)); [|done|set_solver|lia|done].
    destruct la as [|r la]; [done|]. rewrite last_cons_cons. destruct (last (r :: la)) eqn:E; [done|by apply last_None in E].
Qed.

(** What the walk of [abort_active_relays] leaves. *)
Lemma abort_walk s cur l fuel :
  chain (pairs s) cur l -> NoDup l -> (length l <= fuel)%nat ->
  (forall p c, p ∈ l -> pairs s !! p = Some c -> both_open c s = Some tt) ->
  exists m, abort_pairs fuel cur s = Some (with_pairs s m) /\
    forall q, m !! q = (if decide (q ∈ l) then set_shut else id) <$> pairs s !! q.
Proof.
  revert s cur fuel. induction l as [|p l IH]; intros s cur fuel; cbn [chain].
  - intros -> _ _ _. exists (pairs s). split; [by destruct s, fuel|]. intros q. by destruct (pairs s !! q).
  - intros (-> & c & Hc & Hch) [Hp Hnd]%NoDup_cons Hf Ho. destruct fuel as [|fuel]; [simpl in Hf; lia|].
    cbn [abort_pairs]. rewrite Hc. cbn [mbind option_bind]. rewrite (Ho p c) by (by try left).
    set (s1 := with_pairs s (<[p := set_shut c]> (pairs s))).
    destruct (IH s1 (pair_next c) fuel) as (m & Hm & Hl); [|done|simpl in Hf; lia| |].
    + eapply chain_frame; [exact Hch|]. intros q cq Hq Hmq. exists cq. cbn. rewrite lookup_insert_ne; [done|]. intros ->. done.
    + intros q cq Hq Hmq. cbn in Hmq. apply (Ho q cq); [by right|]. rewrite lookup_insert_ne in Hmq; [done|]. intros ->. done.
    + exists m. split; [exact Hm|]. intros q. rewrite Hl. cbn [s1 with_pairs pairs].
      destruct (decide (q = p)) as [->|Hne].
      * rewrite lookup_insert_eq, Hc, decide_False, decide_True by (done || left). done.
      * rewrite lookup_insert_ne by done. destruct (decide (q ∈ l)); [rewrite decide_True by (by right)|rewrite decide_False by set_solver]; done.
Qed.

(** ** The invariant *)

Definition ends_of (c : RELAY_PAIR) : option Z * option Z := (Some (sock_client c), Some (sock_proxy c)).
Definition holds (w : way_pc) : Z := if decide (w = Out) then 0 else 1.

Record pair_shape (c : RELAY_PAIR) : Prop := {
  px_registered : registered c = true <-> rp_last c <> MustClose;
  px_refs : rp_last c = NotLast -> pair_refs c = holds (way0 c) + holds (way1 c) /\ 0 < pair_refs c;
  px_last : rp_last c <> NotLast -> way0 c = Out /\ way1 c = Out
}.

Definition listed (m : gmap Z RELAY_PAIR) (head : option Z) (l : list Z) : Prop :=
  chain m head l /\ NoDup l /\ forall p c, m !! p = Some c -> p ∈ l <-> registered c = true.

Record pairs_wf (s : PairState) : Prop := {
  pw_list : exists l, listed (pairs s) (active_relay_pairs s) l;
  pw_socks : socks_inv (ends_of <$> pairs s) (ps_open s);
  pw_shape : forall p c, pairs s !! p = Some c -> pair_shape c;
  pw_stop : ps_aborted s = true ->
    ps_running s = false /\ forall p c, pairs s !! p = Some c -> registered c = true -> rp_shut c = true
}.

Lemma pairs_init_wf : pairs_wf pairs_init.
Proof.
  split; cbn; [| |done|done].
  - exists []. split; [done|]. split; [apply NoDup_nil_2|done].
  - rewrite fmap_empty. split; [done|]. intros h. split; [done|]. intros (p & i & Hp). done.
Qed.

Lemma pair_open s p c : pairs_wf s -> pairs s !! p = Some c -> both_open c s = Some tt.
Proof.
  intros Hwf Hc. unfold both_open. rewrite decide_True; [done|].
  destruct (pw_socks s Hwf) as [_ Ho]. split; apply Ho; [exists p, false|exists p, true];
    unfold slot; by rewrite lookup_fmap, Hc.
Qed.

(** A change of one pair that keeps its place in the list and its sockets. *)
Lemma pair_change s p c c' :
  pairs_wf s -> pairs s !! p = Some c -> ends_of c' = ends_of c -> pair_next c' = pair_next c ->
  registered c' = registered c -> pair_shape c' -> (rp_shut c = true -> rp_shut c' = true) ->
  pairs_wf (with_pairs s (<[p := c']> (pairs s))).
Proof.
  intros [(l & Hch & Hnd & Hl) Hs Hsh Hst] Hc Ee En Er Hsh' Hshut. split; cbn.
  - exists l. split; [|split; [done|]].
    + eapply chain_frame; [exact Hch|]. intros q cq Hq Hmq. destruct (decide (q = p)) as [->|Hne].
      * exists c'. rewrite lookup_insert_eq. split; [done|]. congruence.
      * exists cq. by rewrite lookup_insert_ne.
    + intros q cq [[<- <-]|[_ Hq]]%lookup_insert_Some; [rewrite Er|]; by apply Hl.
  - by rewrite (proj_same ends_of _ _ c).
  - intros q cq [[<- <-]|[_ Hq]]%lookup_insert_Some; [done|by eapply Hsh].
  - intros Ha. destruct (Hst Ha) as [Hr Hx]. split; [done|].
    intros q cq [[<- <-]|[_ Hq]]%lookup_insert_Some Hreg; [apply Hshut, (Hx _ _ Hc); congruence|by eapply Hx].
Qed.

(** ** The events *)

Lemma way_at_inv s p i w : way_at s p i w = true -> exists c, pairs s !! p = Some c /\ way c i = w.
Proof. unfold way_at. intros H%bool_decide_eq_true. destruct (pairs s !! p) as [c|]; [|done]. exists c. split; [done|]. by injection H. Qed.

Lemma last_at_inv s p l : last_at s p l = true -> exists c, pairs s !! p = Some c /\ rp_last c = l.
Proof. unfold last_at. intros H%bool_decide_eq_true. destruct (pairs s !! p) as [c|]; [|done]. exists c. split; [done|]. by injection H. Qed.

(** The pair is still relayed: nobody disposes of it yet. *)
Lemma busy_pair c i : pair_shape c -> way c i <> Out ->
  rp_last c = NotLast /\ registered c = true /\ pair_refs c = 1 + holds (way c (negb i)).
Proof.
  intros [Hr Hn Hl] Hw. assert (rp_last c = NotLast) as E.
  { destruct (decide (rp_last c = NotLast)) as [E|E]; [done|]. destruct (Hl E). by destruct i. }
  split; [done|]. split; [apply Hr; congruence|]. destruct (Hn E) as [-> _].
  assert (holds (way c i) = 1) as Hh by (unfold holds; by rewrite decide_False).
  destruct i; cbn [way negb] in *; lia.
Qed.

Lemma set_way_shape c i w : pair_shape c -> way c i <> Out -> w <> Out -> pair_shape (set_way c i w).
Proof.
  intros Hc Hw Hn. destruct (busy_pair c i Hc Hw) as (El & Er & Erefs).
  assert (holds w = 1) as Hh by (unfold holds; by rewrite decide_False).
  destruct Hc as [H1 H2 H3]. split; cbn [set_way registered rp_last pair_refs way0 way1]; [done| |congruence].
  intros _. destruct i; cbn [way negb] in *; rewrite Erefs, Hh; unfold holds; case_decide; lia.
Qed.

Lemma transfer_start_wf ok p s :
  pairs_wf s -> way_at s p false NotStarted && way_at s p true NotStarted = true ->
  exists s', transfer_start ok p s = Some s' /\ pairs_wf s'.
Proof.
  intros Hwf [H0 H1]%andb_true_iff. apply way_at_inv in H0 as (c & Hc & E0). apply way_at_inv in H1 as (c' & Hc' & E1).
  simplify_eq. unfold transfer_start. rewrite Hc. cbn [mbind option_bind]. eexists. split; [reflexivity|].
  pose proof (pw_shape s Hwf p c Hc) as Hsh. destruct (busy_pair c false Hsh) as (El & Er & _); [congruence|].
  apply (pair_change s p c); [done|done|by destruct ok..| |by destruct ok]. destruct ok.
  - apply set_way_shape; [apply set_way_shape; [done|congruence|done]| |done]. cbn in *. congruence.
  - split; cbn; [|done|done]. split; [done|]. by rewrite Er.
Qed.

Lemma one_way_shut_wf clean p i s :
  pairs_wf s -> way_at s p i Relaying = true -> exists s', one_way_shut clean p i s = Some s' /\ pairs_wf s'.
Proof.
  intros Hwf (c & Hc & Ew)%way_at_inv. unfold one_way_shut. rewrite Hc. cbn [mbind option_bind].
  rewrite (pair_open s p c) by done. cbn [mbind option_bind]. eexists. split; [reflexivity|].
  apply (pair_change s p c); [done|done|by destruct clean..| |by destruct clean].
  pose proof (pw_shape s Hwf p c Hc) as Hsh. apply set_way_shape; [|destruct clean, i; cbn in *; congruence|done].
  destruct clean; [done|]. destruct Hsh. by split.
Qed.

Lemma one_way_out_wf p i s :
  pairs_wf s -> way_at s p i ShutDown = true -> exists s', one_way_out p i s = Some s' /\ pairs_wf s'.
Proof.
  intros Hwf (c & Hc & Ew)%way_at_inv. unfold one_way_out. rewrite Hc. cbn [mbind option_bind].
  eexists. split; [reflexivity|]. apply (pair_change s p c); [done..| |done].
  destruct (busy_pair c i (pw_shape s Hwf p c Hc)) as (El & Er & Erefs); [congruence|].
  split; cbn [set_last set_way registered rp_last pair_refs way0 way1].
  - rewrite Er. split; [|done]. intros _. case_match; congruence.
  - destruct (Z.eqb_spec (pair_refs c - 1) 0) as [|Hn]; [done|]. intros _. rewrite Erefs in *.
    unfold holds in *. destruct i; cbn [way negb] in *; rewrite (decide_True (P := Out = Out)) by done; case_decide; lia.
  - destruct (Z.eqb_spec (pair_refs c - 1) 0) as [Hz|]; [intros _|congruence]. rewrite Erefs in Hz.
    unfold holds in Hz. case_decide as Ho; [|lia]. by destruct i.
Qed.

Lemma pair_close_wf p s :
  pairs_wf s -> last_at s p MustClose = true -> exists s', pair_close p s = Some s' /\ pairs_wf s'.
Proof.
  intros Hwf (c & Hc & El)%last_at_inv. unfold pair_close. rewrite Hc. cbn [mbind option_bind].
  rewrite (pair_open s p c) by done. cbn [mbind option_bind]. eexists. split; [reflexivity|].
  destruct Hwf as [(l & Hch & Hnd & Hl) Hs Hsh Hst]. split; cbn.
  - assert (p ∉ l) as Hp. { rewrite (Hl p c Hc). destruct (Hsh p c Hc) as [Hr _ _]. intros E. by apply Hr. }
    exists l. split; [|split; [done|]].
    + eapply chain_frame; [exact Hch|]. intros q cq Hq Hmq. exists cq. rewrite lookup_delete_ne; [done|]. intros ->. done.
    + intros q cq [Hne Hq]%lookup_delete_Some. by apply Hl.
  - rewrite fmap_delete. apply socks_inv_delete; [done|]. by rewrite lookup_fmap, Hc.
  - intros q cq [_ Hq]%lookup_delete_Some. by eapply Hsh.
  - intros Ha. destruct (Hst Ha) as [Hr Hx]. split; [done|]. intros q cq [_ Hq]%lookup_delete_Some. by apply (Hx q).
Qed.

Lemma transfer_register_wf hint client proxy s :
  pairs_wf s -> client <> proxy -> client ∉ ps_open s -> proxy ∉ ps_open s ->
  exists s' r, transfer_register hint client proxy s = Some (s', r) /\ pairs_wf s'.
Proof.
  intros Hwf Hne Hc Hp. unfold transfer_register. destruct (alloc_at (pairs s) hint) as [p|] eqn:Ea; [|by do 2 eexists].
  assert (pairs s !! p = None) as Hn.
  { unfold alloc_at in Ea. destruct hint as [q|]; [|done]. cbn in Ea. case_decide; [|done]. by simplify_eq. }
  set (c := mkPair client proxy 2 None false false NotStarted NotStarted NotLast).
  unfold register_relay_pair. cbn [with_pairs pairs ps_running active_relay_pairs]. rewrite lookup_insert_eq.
  cbn [mbind option_bind]. destruct (ps_running s) eqn:Er.
  2:{ do 2 eexists. split; [reflexivity|]. cbn [with_pairs pairs]. rewrite delete_insert_id by done. by destruct s. }
  do 2 eexists. split; [reflexivity|]. destruct Hwf as [(l & Hch & Hnd & Hl) Hs Hsh Hst].
  split; cbn [with_sockets with_first with_pairs pairs active_relay_pairs ps_open ps_running ps_aborted]; rewrite ?insert_insert_eq.
  - assert (p ∉ l) as Hpl. { intros Hin. destruct (chain_live _ _ _ p Hch Hin). congruence. }
    exists (p :: l). split; [|split; [by apply NoDup_cons|]].
    + split; [done|]. eexists. rewrite lookup_insert_eq. split; [reflexivity|]. cbn [set_next pair_next].
      eapply chain_frame; [exact Hch|]. intros q cq Hq Hmq. exists cq. rewrite lookup_insert_ne; [done|]. intros ->. done.
    + intros q cq [[<- <-]|[Hqp Hq]]%lookup_insert_Some.
      * split; [done|]. intros _. left.
      * rewrite elem_of_cons. rewrite <- (Hl q cq Hq). split; [intros [->|?]; done|auto].
  - rewrite fmap_insert. apply socks_inv_insert; [done|by rewrite lookup_fmap, Hn|done..].
  - intros q cq [[<- <-]|[_ Hq]]%lookup_insert_Some; [by split|by eapply Hsh].
  - intros Ha. destruct (Hst Ha). congruence.
Qed.

(** [p] is taken out of the list: the other pairs change in their [next] only. *)
Lemma delisted s p c m1 head1 l :
  pairs_wf s -> pairs s !! p = Some c -> rp_last c = MustUnregister ->
  (forall q, q <> p -> exists n : RELAY_PAIR -> option Z,
     m1 !! q = (fun d => set_next d (n d) (registered d)) <$> pairs s !! q) ->
  chain m1 head1 l -> NoDup l -> p ∉ l ->
  (forall q d, q <> p -> pairs s !! q = Some d -> q ∈ l <-> registered d = true) ->
  pairs_wf (with_first (with_pairs s (<[p := set_last (set_next c None false) (pair_refs c) MustClose]> m1)) head1).
Proof.
  intros [_ Hs Hsh Hst] Hc El Hm Hch Hnd Hp Hl.
  assert (forall q d, q <> p -> m1 !! q = Some d ->
    exists d' n, pairs s !! q = Some d' /\ d = set_next d' n (registered d')) as Hinv.
  { intros q d Hq Hd. destruct (Hm q Hq) as [n En]. rewrite Hd in En. destruct (pairs s !! q) as [d'|]; [|done].
    injection En as ->. eauto. }
  split; cbn [with_first with_pairs pairs active_relay_pairs ps_open ps_running ps_aborted].
  - exists l. split; [|split; [done|]].
    + eapply chain_frame; [exact Hch|]. intros q d Hq Hd. exists d. rewrite lookup_insert_ne; [done|]. intros ->. done.
    + intros q d [[<- <-]|[Hqp Hq]]%lookup_insert_Some; [by split|].
      destruct (Hinv q d ltac:(done) Hq) as (d' & n & Hd' & ->). apply (Hl q d'); done.
  - assert (ends_of <$> <[p := set_last (set_next c None false) (pair_refs c) MustClose]> m1 = ends_of <$> pairs s) as ->; [|done].
    apply map_eq. intros q. rewrite !lookup_fmap. destruct (decide (q = p)) as [->|Hq]; [by rewrite lookup_insert_eq, Hc|].
    rewrite lookup_insert_ne by done. destruct (Hm q Hq) as [n ->]. by destruct (pairs s !! q).
  - intros q d [[<- <-]|[Hqp Hq]]%lookup_insert_Some.
    + destruct (Hsh p c Hc) as [Hr _ Ho]. split; cbn; [done|done|]. intros _. apply Ho. congruence.
    + destruct (Hinv q d ltac:(done) Hq) as (d' & n & Hd' & ->). destruct (Hsh q d' Hd'). by split.
  - intros Ha. destruct (Hst Ha) as [Hr Hx]. split; [done|].
    intros q d [[<- <-]|[Hqp Hq]]%lookup_insert_Some; [done|].
    destruct (Hinv q d ltac:(done) Hq) as (d' & n & Hd' & ->). exact (Hx q d' Hd').
Qed.

Lemma pair_unregister_wf p s :
  pairs_wf s -> last_at s p MustUnregister = true -> exists s', pair_unregister p s = Some s' /\ pairs_wf s'.
Proof.
  intros Hwf (c & Hc & El)%last_at_inv. pose proof Hwf as [(l & Hch & Hnd & Hl) _ Hsh _].
  assert (registered c = true) as Hreg by (destruct (Hsh p c Hc) as [Hr _ _]; apply Hr; congruence).
  assert (p ∈ l) as Hin by (by apply (Hl p c)). pose proof (chain_length _ _ _ Hch Hnd) as Hlen.
  apply list_elem_of_split in Hin as (la & lb & ->).
  assert ((p ∉ la) /\ (p ∉ lb) /\ NoDup (la ++ lb)) as (Ha & Hb & Hnd').
  { apply NoDup_app in Hnd as (N1 & N2 & [N3 N4]%NoDup_cons). split; [intros H; apply (N2 p H); left|]. split; [done|].
    apply NoDup_app. split; [done|]. split; [|done]. intros q Hq Hq'. apply (N2 q Hq). by right. }
  assert (forall q d, q <> p -> pairs s !! q = Some d -> q ∈ la ++ lb <-> registered d = true) as Hl'.
  { intros q d Hq Hd. rewrite <- (Hl q d Hd). set_solver. }
  unfold pair_unregister, unregister_relay_pair. rewrite Hc. cbn [mbind option_bind]. rewrite Hreg.
  rewrite (unlink_walk s p c lb la _ None _ Hch Ha) by (done || (rewrite length_app in Hlen; simpl in Hlen; lia)).
  destruct la as [|x la] using rev_ind; [cbn [last]|clear IHla; rewrite last_snoc].
  - cbn [mbind option_bind with_first pairs]. rewrite Hc. cbn [mbind option_bind with_pairs pairs]. rewrite lookup_insert_eq.
    cbn [mbind option_bind with_pairs pairs]. rewrite insert_insert_eq. eexists. split; [reflexivity|].
    apply (delisted s p c (pairs s) (pair_next c) lb); try done.
    + intros q Hq. exists pair_next. destruct (pairs s !! q) as [d|]; [|done]. by destruct d.
    + destruct Hch as (_ & c' & Hc' & Hch). by simplify_eq.
  - assert (x <> p) as Hxp by set_solver.
    destruct (chain_live (pairs s) _ _ x Hch) as [d Hd]; [set_solver|]. rewrite Hd. cbn [mbind option_bind with_pairs pairs].
    rewrite lookup_insert_ne, Hc by done. cbn [mbind option_bind with_pairs pairs]. rewrite lookup_insert_eq.
    cbn [mbind option_bind with_pairs pairs]. rewrite insert_insert_eq. eexists. split; [reflexivity|].
    rewrite <- (app_assoc la [x] lb) in *. rewrite <- (app_assoc la [x]) in Hch, Hnd. cbn [app] in *.
    apply (delisted s p c (<[x := set_next d (pair_next c) (registered d)]> (pairs s)) (active_relay_pairs s) (la ++ x :: lb));
      try done; [|by eapply chain_skip|set_solver].
    intros q Hq. destruct (decide (q = x)) as [->|Hqx].
    + exists (fun _ => pair_next c). by rewrite lookup_insert_eq, Hd.
    + exists pair_next. rewrite lookup_insert_ne by done. destruct (pairs s !! q) as [e|]; [|done]. by destruct e.
Qed.

Lemma abort_active_relays_wf s :
  pairs_wf s -> ps_running s = false -> exists s', abort_active_relays s = Some s' /\ pairs_wf s'.
Proof.
  intros Hwf Hr. pose proof Hwf as [(l & Hch & Hnd & Hl) Hs Hsh _]. unfold abort_active_relays.
  destruct (abort_walk s (active_relay_pairs s) l (size (pairs s)) Hch Hnd (chain_length _ _ _ Hch Hnd)) as (m & -> & Hm).
  { intros p c _ Hc. by apply (pair_open s p). }
  cbn [mbind option_bind]. eexists. split; [reflexivity|].
  assert (forall q d, m !! q = Some d -> exists d', pairs s !! q = Some d' /\ d = (if decide (q ∈ l) then set_shut else id) d') as Hinv.
  { intros q d Hd. rewrite Hm in Hd. apply fmap_Some in Hd as (d' & Hd' & ->). eauto. }
  split; cbn.
  - exists l. split; [|split; [done|]].
    + eapply chain_frame; [exact Hch|]. intros q d Hq Hd. rewrite Hm, Hd. eexists. split; [reflexivity|]. by rewrite decide_True.
    + intros q d Hq. destruct (Hinv q d Hq) as (d' & Hd' & ->). pose proof (Hl q d' Hd') as Hx. by case_decide.
  - assert (ends_of <$> m = ends_of <$> pairs s) as ->; [|done].
    apply map_eq. intros q. rewrite !lookup_fmap, Hm. destruct (pairs s !! q); [|done]. cbn. by case_decide.
  - intros q d Hq. destruct (Hinv q d Hq) as (d' & Hd' & ->). specialize (Hsh q d' Hd'). case_decide; [|done].
    destruct Hsh. by split.
  - intros _. split; [done|]. intros q d Hq Hreg. destruct (Hinv q d Hq) as (d' & Hd' & ->).
    rewrite decide_True; [done|]. apply (Hl q d' Hd'). by case_decide.
Qed.

Lemma pair_step_wf e s :
  pairs_wf s -> pair_step e s <> PFaulty /\ forall s', pair_step e s = PNext s' -> pairs_wf s'.
Proof.
  intros Hwf.
  assert (forall b r, (b = true -> exists s', r = Some s' /\ pairs_wf s') ->
    pair_part b r <> PFaulty /\ forall s', pair_part b r = PNext s' -> pairs_wf s') as Hpart.
  { intros b r Hb. unfold pair_part. destruct b; [|done]. destruct Hb as (s' & -> & Hs); [done|]. split; [done|]. by intros ? [= <-]. }
  destruct e; apply Hpart; intros Hen.
  - apply bool_decide_eq_true in Hen as (Hne & Hc & Hp).
    destruct (transfer_register_wf hint client proxy s Hwf Hne Hc Hp) as (s' & r & -> & Hw). by exists s'.
  - by apply transfer_start_wf.
  - by apply one_way_shut_wf.
  - by apply one_way_out_wf.
  - by apply pair_unregister_wf.
  - by apply pair_close_wf.
  - eexists. split; [reflexivity|]. destruct Hwf as [Hl Hs Hsh Hst]. split; [done..|]. intros Ha. by destruct (Hst Ha).
  - apply abort_active_relays_wf; [done|]. by destruct (ps_running s).
Qed.

Lemma pair_run_wf tr s :
  pairs_wf s -> pair_run tr s <> PFaulty /\ forall s', pair_run tr s = PNext s' -> pairs_wf s'.
Proof.
  revert s. induction tr as [|e tr IH]; intros s Hwf; cbn [pair_run]; [split; [done|by intros ? [= <-]]|].
  destruct (pair_step_wf e s Hwf) as [Hf Hs]. destruct (pair_step e s); [done|done|]. by apply IH, Hs.
Qed.

(** C17: However the threads of the blocking relay interleave with Stop, no freed pair
    and no closed socket is used and no socket is closed twice.  Once Stop has
    walked the list every pair that a thread still relays was shut, so no thread
    goes on blocked in a receive; and when no pair is left every socket that was
    taken over is closed. *)
Theorem stop_shuts_every_pair tr :
  pair_run tr pairs_init <> PFaulty /\
  forall s, pair_run tr pairs_init = PNext s ->
    (ps_aborted s = true -> forall p c i, pairs s !! p = Some c -> way c i <> Out -> rp_shut c = true) /\
    (pairs s = ∅ -> ps_open s = ∅).
Proof.
  destruct (pair_run_wf tr pairs_init pairs_init_wf) as [Hf Hw]. split; [done|]. intros s Hr. specialize (Hw s Hr).
  split.
  - intros Ha p c i Hc Hi. destruct (pw_stop s Hw Ha) as [_ Hx]. apply (Hx p c Hc).
    by destruct (busy_pair c i (pw_shape s Hw p c Hc) Hi) as (_ & ? & _).
  - intros He. apply leibniz_equiv. intros h. split; [|by intros ?%elem_of_empty].
    intros Hh. apply (si_open _ _ (pw_socks s Hw)) in Hh as (p & i & Hp). unfold slot in Hp. by rewrite He in Hp.
Qed.
