(* ===== verification/UdpRelay.v ===== *)
(** * The UDP relay (udp_relay_server of pb_relay.c)

    Datagrams of redirected clients are wrapped in a SOCKS5 UDP header and sent
    through the association of the flow's configuration; what a proxy sends back
    is unwrapped and delivered to the client that talked to its origin last.
    Every handler of the loop, the upkeep of the associations, and one pass of
    the loop.  [delivers] says what may go out for a datagram, [latest] which
    client an answer belongs to. *)
From S2P Require Import Prelude CLib HashTable Util Types ProxyConfig Socks5 Process Rules ConnTrack.

Definition MAXBUF : Z := 0xFFFF.

(** ** Datagrams *)

(** RSV RSV FRAG ATYP, the destination, its port, the data. *)
Definition encapsulate (atyp : Z) (addr : bytes) (port : Z) (data : bytes) : bytes :=
  [0; 0; 0; atyp] ++ addr ++ port_be port ++ data.

Definition encapsulate_v4 (dest_ip dest_port : Z) (data : bytes) : bytes :=
  encapsulate SOCKS5_ATYP_IPV4 (ip_octets dest_ip) dest_port data.
Definition encapsulate_v6 (dest_ip6 : bytes) (dest_port : Z) (data : bytes) : bytes :=
  encapsulate SOCKS5_ATYP_IPV6 dest_ip6 dest_port data.

(** [(b[i] << 8) | b[i + 1]] *)
Definition port_at (b : bytes) (i : nat) : Z := Z.lor (Z.shiftl (at_ b i) 8) (at_ b (S i)).

(** ** State and effects *)

Record UdpRelay := mkUdpRelay {
  ur_configs : list PROXY_CONFIG;
  ur_conns : ConnTable;
  ur_has_v6 : bool                (* udp_relay_socket6 != INVALID_SOCKET *)
}.

Definition with_configs (s : UdpRelay) (c : list PROXY_CONFIG) : UdpRelay :=
  mkUdpRelay c (ur_conns s) (ur_has_v6 s).
Definition with_table (s : UdpRelay) (t : ConnTable) : UdpRelay :=
  mkUdpRelay (ur_configs s) t (ur_has_v6 s).

Inductive relay_effect :=
| ToProxy (sock : Z) (addr : Z * Z) (data : bytes)
| ToClient (ip port : Z) (data : bytes)
| ToClient6 (ip6 : bytes) (port : Z) (data : bytes)
| Handle (e : handle_event).

(** The index of the entry [find_proxy_config] points to. *)
Fixpoint index_of (cfgs : list PROXY_CONFIG) (id : Z) : option nat :=
  match cfgs with
  | [] => None
  | c :: cfgs => if config_id c =? id then Some O else S <$> index_of cfgs id
  end.
Definition find_proxy_index (cfgs : list PROXY_CONFIG) (id : Z) : option nat :=
  match index_of cfgs id with
  | Some i => Some i
  | None => match cfgs with [] => None | _ => Some O end
  end.

Definition is_socks5 (c : PROXY_CONFIG) : bool := bool_decide (pc_type c = PROXY_TYPE_SOCKS5).

(** Both sockets closed and the association given up. *)
Definition drop_assoc (c : PROXY_CONFIG) : PROXY_CONFIG * list handle_event :=
  let '(c, ev) := close_assoc c in
  (set_assoc c (udp_tcp_ctrl c) (udp_send_sock c) (udp_relay_addr c) false, ev).

(** Where a datagram of a client has to go: its flow, and the configuration the
    flow was given with its index. *)
Inductive route (D : Type) := NotTracked | NoSocks5 | Via (dest : D) (dest_port : Z) (i : nat) (c : PROXY_CONFIG).
Arguments NotTracked {D}.
Arguments NoSocks5 {D}.
Arguments Via {D}.

(** ** Handlers

    [None] is a dangling pointer in the table of flows; the boolean says whether
    the pass of the loop ends here ([continue], also by way of [assoc_replaced]). *)
Section Handlers.
Context `{Platform}.

Definition ensure_connected (e : AssocEnv) (c : PROXY_CONFIG) : PROXY_CONFIG * bool * list handle_event :=
  if udp_connected c then (c, true, []) else establish_udp_associate_for_config e c.

(** [sendto] failed: close, associate again and send once more. *)
Definition resend (e : AssocEnv) (datagram : bytes) (c : PROXY_CONFIG) : PROXY_CONFIG * list relay_effect :=
  let '(c, ev) := drop_assoc c in
  let '(c, ok, ev') := establish_udp_associate_for_config e c in
  (c, map Handle (ev ++ ev') ++
      (if (ok : bool) then [ToProxy (udp_send_sock c) (udp_relay_addr c) datagram] else [])).

Definition route_config {D} (cfgs : list PROXY_CONFIG) (dest : D) (dest_port id : Z) : option (route D) :=
  match find_proxy_index cfgs id with
  | None => Some NoSocks5
  | Some i => c ← cfgs !! i; Some (if is_socks5 c then Via dest dest_port i c else NoSocks5)
  end.

Definition route_v4 (now from_port : Z) (s : UdpRelay) : option (UdpRelay * route Z) :=
  match get_connection now (ur_conns s) from_port true with
  | None => None
  | Some (t, None) => Some (with_table s t, NotTracked)
  | Some (t, Some (dest_ip, dest_port)) =>
      id ← get_connection_proxy_id t from_port true;
      r ← route_config (ur_configs s) dest_ip dest_port id;
      Some (with_table s t, r)
  end.

Definition route_v6 (now from_port : Z) (s : UdpRelay) : option (UdpRelay * route bytes) :=
  match get_connection_full_v6 now (ur_conns s) from_port true with
  | None => None
  | Some (t, None) => Some (with_table s t, NotTracked)
  | Some (t, Some (dest_ip6, dest_port, id)) =>
      r ← route_config (ur_configs s) dest_ip6 dest_port id;
      Some (with_table s t, r)
  end.

(** A datagram of an IPv4 client. [e1] is the attempt to associate when the
    configuration is not connected, [sends] whether [sendto] succeeds, [e2] the
    attempt after a failure. *)
Definition forward_v4 (e1 : AssocEnv) (sends : bool) (e2 : AssocEnv) (datagram : bytes) (c : PROXY_CONFIG)
  : PROXY_CONFIG * bool * list relay_effect :=
  let '(c1, ok, ev) := ensure_connected e1 c in
  if negb ok then (c1, true, map Handle ev)
  else
    let out := map Handle ev ++ [ToProxy (udp_send_sock c1) (udp_relay_addr c1) datagram] in
    if sends then (c1, negb (udp_connected c), out)
    else let '(c2, out2) := resend e2 datagram c1 in (c2, true, out ++ out2).

Definition udp_from_client_v4 (now : Z) (e1 : AssocEnv) (sends : bool) (e2 : AssocEnv)
    (from_port : Z) (data : bytes) (s : UdpRelay) : option (UdpRelay * bool * list relay_effect) :=
  if is_empty data then Some (s, false, [])
  else if MAXBUF - 10 <? Z.of_nat (length data) then Some (s, true, [])
  else
    match route_v4 now from_port s with
    | None => None
    | Some (s, NotTracked) => Some (s, false, [])
    | Some (s, NoSocks5) => Some (s, true, [])
    | Some (s, Via dest_ip dest_port i c) =>
        let '(c', b, out) := forward_v4 e1 sends e2 (encapsulate_v4 dest_ip dest_port data) c in
        Some (with_configs s (<[i := c']> (ur_configs s)), b, out)
    end.

(** A datagram of an IPv6 client. *)
Definition forward_v6 (e1 : AssocEnv) (datagram : bytes) (c : PROXY_CONFIG) : PROXY_CONFIG * list relay_effect :=
  let '(c1, ok, ev) := ensure_connected e1 c in
  (c1, map Handle ev ++ (if (ok : bool) then [ToProxy (udp_send_sock c1) (udp_relay_addr c1) datagram] else [])).

Definition udp_from_client_v6 (now : Z) (e1 : AssocEnv) (from_port : Z) (data : bytes) (s : UdpRelay)
  : option (UdpRelay * list relay_effect) :=
  if is_empty data || (MAXBUF - 22 <? Z.of_nat (length data)) then Some (s, [])
  else
    match route_v6 now from_port s with
    | None => None
    | Some (s, NotTracked) | Some (s, NoSocks5) => Some (s, [])
    | Some (s, Via dest_ip6 dest_port i c) =>
        let '(c', out) := forward_v6 e1 (encapsulate_v6 dest_ip6 dest_port data) c in
        Some (with_configs s (<[i := c']> (ur_configs s)), out)
    end.

(** The IPv4 client whose flow to an origin was active last; its flow is kept
    alive. *)
Definition is_v4_sender (src_ip src_port : Z) (c : CONNECTION_INFO) : bool :=
  c_is_udp c && negb (is_ipv6 c) && (orig_dest_ip c =? src_ip) && (orig_dest_port c =? src_port).

Definition find_v4_udp_sender (now : Z) (t : ConnTable) (src_ip src_port : Z)
  : option (ConnTable * option (Z * Z)) :=
  match best_sender (is_v4_sender src_ip src_port) (heap t)
          (bucket (connection_rev_table t) (rev_hash_v4 src_ip src_port)) None with
  | None => None
  | Some None => Some (t, None)
  | Some (Some (p, c)) => Some (set_node t p (touch c now), Some (ConnTrack.src_ip c, ConnTrack.src_port c))
  end.

(** What a proxy sent: RSV RSV FRAG ATYP, the origin, its port, the data. *)
Definition deliver (now : Z) (data : bytes) (s : UdpRelay) : option (UdpRelay * list relay_effect) :=
  let len := Z.of_nat (length data) in
  if len <? 10 then Some (s, [])
  else if negb (at_ data 2 =? 0) then Some (s, [])
  else if at_ data 3 =? SOCKS5_ATYP_IPV4 then
    match find_v4_udp_sender now (ur_conns s) (ipv4 (at_ data 4) (at_ data 5) (at_ data 6) (at_ data 7))
            (port_at data 8) with
    | None => None
    | Some (t, target) =>
        Some (with_table s t,
              match target with Some (ip, port) => [ToClient ip port (drop 10 data)] | None => [] end)
    end
  else if (at_ data 3 =? SOCKS5_ATYP_IPV6) && (22 <=? len) then
    match find_v6_udp_sender (ur_conns s) (take 16 (drop 4 data)) (port_at data 20) with
    | None => None
    | Some (Some (ip6, port)) =>
        Some (s, if ur_has_v6 s then [ToClient6 ip6 port (drop 22 data)] else [])
    | Some None => Some (s, [])
    end
  else Some (s, []).

(** The socket of configuration [i] is readable: an error or a datagram. *)
Definition udp_from_proxy (now : Z) (i : nat) (r : option bytes) (s : UdpRelay)
  : option (UdpRelay * list relay_effect) :=
  match ur_configs s !! i with
  | None => Some (s, [])
  | Some c =>
      if negb (is_socks5 c) || negb (udp_connected c) || (udp_send_sock c =? INVALID_SOCKET) then Some (s, [])
      else match r with
           | None =>
               let '(c', ev) := drop_assoc c in
               Some (with_configs s (<[i := c']> (ur_configs s)), map Handle ev)
           | Some data => deliver now data s
           end
  end.

(** *** Upkeep of the associations *)

(** The control connection of a configuration was found closed. *)
Definition control_closed (e : AssocEnv) (c : PROXY_CONFIG) : PROXY_CONFIG * bool * list handle_event :=
  if negb (is_socks5 c) || negb (udp_connected c) || (udp_tcp_ctrl c =? INVALID_SOCKET) then (c, false, [])
  else
    let '(c, ev) := drop_assoc c in
    let '(c, _, ev') := establish_udp_associate_for_config e c in (c, true, ev ++ ev').

Definition associate_referenced (rules : RuleStore) (idle_only : bool) (e : AssocEnv) (c : PROXY_CONFIG)
  : PROXY_CONFIG * bool * list handle_event :=
  if is_socks5 c && negb (idle_only && udp_connected c) && is_proxy_config_referenced rules (config_id c)
  then establish_udp_associate_for_config e c
  else (c, false, []).

(** One operation on every configuration, [envs] giving the surroundings. *)
Fixpoint for_configs {E} (f : E -> PROXY_CONFIG -> PROXY_CONFIG * bool * list handle_event)
    (envs : list E) (cfgs : list PROXY_CONFIG) : list PROXY_CONFIG * bool * list handle_event :=
  match cfgs, envs with
  | c :: cfgs, e :: envs =>
      let '(c, b, ev) := f e c in
      let '(cfgs, bs, evs) := for_configs f envs cfgs in
      (c :: cfgs, b || bs, ev ++ evs)
  | _, _ => (cfgs, false, [])
  end.

Definition check_controls : list (option AssocEnv) -> list PROXY_CONFIG ->
    list PROXY_CONFIG * bool * list handle_event :=
  for_configs (fun e c => match e with Some e => control_closed e c | None => (c, false, []) end).

Definition initial_associations (rules : RuleStore) : list AssocEnv -> list PROXY_CONFIG ->
    list PROXY_CONFIG * bool * list handle_event := for_configs (associate_referenced rules false).

Definition idle_reconnect (rules : RuleStore) : list AssocEnv -> list PROXY_CONFIG ->
    list PROXY_CONFIG * bool * list handle_event := for_configs (associate_referenced rules true).

Fixpoint close_associations (cfgs : list PROXY_CONFIG) : list PROXY_CONFIG * list handle_event :=
  match cfgs with
  | [] => ([], [])
  | c :: cfgs =>
      let '(c, ev) := drop_assoc c in
      let '(cfgs, evs) := close_associations cfgs in (c :: cfgs, ev ++ evs)
  end.

(** *** One pass of the loop *)

(** What [select] and the receives gave: nothing within a second; or which
    control connections were closed, what arrived from IPv4 clients ([None] for
    an error), from the proxies' sockets and from IPv6 clients. *)
Record client_input := mkClientInput {
  ci_port : Z; ci_data : bytes; ci_env : AssocEnv; ci_sends : bool; ci_env2 : AssocEnv }.

Inductive pass_input :=
| Timeout (envs : list AssocEnv)
| Ready (controls : list (option AssocEnv)) (client : option (option client_input))
        (proxies : list (nat * option bytes)) (client6 : option client_input).

Fixpoint from_proxies (now : Z) (l : list (nat * option bytes)) (s : UdpRelay)
  : option (UdpRelay * list relay_effect) :=
  match l with
  | [] => Some (s, [])
  | (i, r) :: l =>
      match udp_from_proxy now i r s with
      | None => None
      | Some (s, out) =>
          match from_proxies now l s with
          | None => None
          | Some (s, outs) => Some (s, out ++ outs)
          end
      end
  end.

Definition from_client6 (now : Z) (client6 : option client_input) (s : UdpRelay)
  : option (UdpRelay * list relay_effect) :=
  match client6 with
  | Some ci => if ur_has_v6 s then udp_from_client_v6 now (ci_env ci) (ci_port ci) (ci_data ci) s else Some (s, [])
  | None => Some (s, [])
  end.

(** The part of a pass behind the check of the control connections. *)
Definition pass_data (now : Z) (client : option (option client_input)) (proxies : list (nat * option bytes))
    (client6 : option client_input) (s : UdpRelay) : option (UdpRelay * list relay_effect) :=
  match (match client with
         | None => Some (s, false, [])
         | Some None => Some (s, true, [])
         | Some (Some ci) =>
             udp_from_client_v4 now (ci_env ci) (ci_sends ci) (ci_env2 ci) (ci_port ci) (ci_data ci) s
         end) with
  | None => None
  | Some (s, true, out) => Some (s, out)
  | Some (s, false, out) =>
      match from_proxies now proxies s with
      | None => None
      | Some (s, out1) =>
          match from_client6 now client6 s with
          | None => None
          | Some (s, out2) => Some (s, out ++ out1 ++ out2)
          end
      end
  end.

Definition udp_relay_pass (now : Z) (rules : RuleStore) (input : pass_input) (s : UdpRelay)
  : option (UdpRelay * list relay_effect) :=
  match input with
  | Timeout envs =>
      let '(cfgs, _, ev) := idle_reconnect rules envs (ur_configs s) in
      Some (with_configs s cfgs, map Handle ev)
  | Ready controls client proxies client6 =>
      let '(cfgs, replaced, ev) := check_controls controls (ur_configs s) in
      let s := with_configs s cfgs in
      if (replaced : bool) then Some (s, map Handle ev)
      else match pass_data now client proxies client6 s with
           | None => None
           | Some (s, out) => Some (s, map Handle ev ++ out)
           end
  end.
End Handlers.

(** ** Configurations by index *)

Lemma find_proxy_index_spec cfgs id :
  match find_proxy_index cfgs id with
  | Some i => exists c, cfgs !! i = Some c /\ find_proxy_config cfgs id = Some c
  | None => find_proxy_config cfgs id = None
  end.
Proof.
  assert (match index_of cfgs id with
          | Some i => exists c, cfgs !! i = Some c /\ List.find (fun c => config_id c =? id) cfgs = Some c
          | None => List.find (fun c => config_id c =? id) cfgs = None
          end) as Hi.
  { induction cfgs as [|c cfgs IH]; simpl; [done|]. destruct (config_id c =? id); [by exists c|].
    by destruct (index_of cfgs id). }
  unfold find_proxy_index, find_proxy_config. destruct (index_of cfgs id) as [i|].
  - destruct Hi as (c & Hc & ->). by exists c.
  - rewrite Hi. destruct cfgs as [|c cfgs]; [done|]. by exists c.
Qed.

(** ** The client of an answer *)

Lemma find_v4_udp_sender_spec now t ip port :
  ct_wf t ->
  exists t' r, find_v4_udp_sender now t ip port = Some (t', r) /\ ct_wf t' /\
    match r with
    | None => t' = t /\ forall k c, conn_of t k = Some c -> is_v4_sender ip port c = false
    | Some (cip, cport) =>
        exists c, conn_of t (flow_key c) = Some c /\ is_v4_sender ip port c = true /\
          ConnTrack.src_ip c = cip /\ ConnTrack.src_port c = cport /\
          (forall k' c', conn_of t k' = Some c' -> is_v4_sender ip port c' = true ->
             last_activity c' <= last_activity c) /\
          forall k, conn_of t' k = if decide (flow_key c = k) then Some (touch c now) else conn_of t k
    end.
Proof.
  intros Hwf. unfold find_v4_udp_sender.
  destruct (best_sender_table t (is_v4_sender ip port) (rev_hash_v4 ip port) Hwf) as (r & -> & Hr).
  - by apply Z.mod_pos_bound.
  - unfold is_v4_sender, rev_hash. intros c Hs. bool_prop. subst. by case_match.
  - destruct r as [[p c]|]; [|exists t, None; done].
    destruct Hr as (Hp & Hc & Hs & Hm).
    assert (ct_wf (set_node t p (touch c now))) as Hwf' by (by eapply set_node_wf).
    do 2 eexists. split; [reflexivity|]. split; [done|]. exists c.
    split; [done|]. split; [done|]. split; [done|]. split; [done|]. split; [done|]. intros k.
    by rewrite (conn_of_insert t _ p (touch c now)) by (done || by rewrite Hp).
Qed.

Lemma get_connection_proxy_id_spec t port udp :
  ct_wf t -> get_connection_proxy_id t port udp =
    Some (from_option c_proxy_config_id 0 (conn_of t (port, udp, false))).
Proof.
  intros Hwf. unfold get_connection_proxy_id.
  destruct (ct_find_spec t port udp false Hwf) as [(p & c & Hf & Hp & Hc)|[Hf Hn]]; rewrite Hf; cbn [mbind option_bind].
  - rewrite Hp. cbn [mbind option_bind]. by rewrite (proj2 (conn_of_Some t _ c Hwf)) by eauto.
  - by rewrite (conn_of_None t (port, udp, false)).
Qed.

(** ** Datagrams there and back *)

Lemma port_at_be b i port r :
  0 <= port < 2 ^ 16 -> drop i b = port_be port ++ r -> port_at b i = port.
Proof.
  intros Hp Hd. unfold port_at, at_.
  assert (forall j, nth (i + j) b 0 = nth j (port_be port ++ r) 0) as Hn.
  { intros j. rewrite <- Hd, !nth_lookup. by rewrite lookup_drop. }
  rewrite <- (Nat.add_0_r i) at 1. replace (S i) with (i + 1)%nat by lia. rewrite !Hn. cbn [port_be app nth].
  replace 255 with (Z.ones 8) by reflexivity. rewrite !Z.land_ones, Z.shiftr_div_pow2 by lia.
  rewrite Z.lor_comm, lor_shiftl_disjoint; [|lia|apply Z.mod_pos_bound; lia].
  change (2 ^ 8) with 256. rewrite (Z.mod_small (port / 256)).
  - pose proof (Z.div_mod port 256). lia.
  - split; [apply Z.div_pos; lia|apply Z.div_lt_upper_bound; lia].
Qed.

Lemma encapsulate_at atyp addr port data :
  at_ (encapsulate atyp addr port data) 2 = 0 /\ at_ (encapsulate atyp addr port data) 3 = atyp /\
  drop 4 (encapsulate atyp addr port data) = addr ++ port_be port ++ data /\
  length (encapsulate atyp addr port data) = (6 + length addr + length data)%nat.
Proof. split; [done|]. split; [done|]. split; [done|]. unfold encapsulate. rewrite !length_app. simpl. lia. Qed.

Lemma drop_add {A} (m n : nat) (l : list A) : drop (m + n) l = drop n (drop m l).
Proof. by rewrite drop_drop. Qed.

Section Delivery.
Context `{Platform}.

(** An answer of the origin (ip, port), wrapped by the proxy, reaches the client
    whose flow to that origin was active last, with exactly the data, and keeps
    that flow alive; without such a flow it goes nowhere.  No other flow
    changes. *)
Lemma deliver_v4 now ip port data s :
  ct_wf (ur_conns s) -> 0 <= ip < 2 ^ 32 -> 0 <= port < 2 ^ 16 ->
  exists s' out, deliver now (encapsulate_v4 ip port data) s = Some (s', out) /\
    ct_wf (ur_conns s') /\ ur_configs s' = ur_configs s /\
    ((out = [] /\ forall k c, conn_of (ur_conns s) k = Some c -> is_v4_sender ip port c = false) \/
     exists c, out = [ToClient (ConnTrack.src_ip c) (ConnTrack.src_port c) data] /\
       conn_of (ur_conns s) (flow_key c) = Some c /\ is_v4_sender ip port c = true /\
       (forall k' c', conn_of (ur_conns s) k' = Some c' -> is_v4_sender ip port c' = true ->
          last_activity c' <= last_activity c) /\
       forall k, conn_of (ur_conns s') k =
         if decide (flow_key c = k) then Some (touch c now) else conn_of (ur_conns s) k).
Proof.
  intros Hwf Hip Hp. unfold deliver, encapsulate_v4.
  destruct (encapsulate_at SOCKS5_ATYP_IPV4 (ip_octets ip) port data) as (H2 & H3 & H4 & Hl).
  set (d := encapsulate _ _ _ _) in *. rewrite Hl. simpl length.
  rewrite (proj2 (Z.ltb_ge _ _)) by lia. rewrite H2, H3. cbn [negb Z.eqb]. rewrite Z.eqb_refl.
  change (at_ d 4) with (octet 0 ip). change (at_ d 5) with (octet 1 ip).
  change (at_ d 6) with (octet 2 ip). change (at_ d 7) with (octet 3 ip). rewrite ipv4_octets by done.
  rewrite (port_at_be d 8 port data Hp) by (change 8%nat with (4 + 4)%nat; by rewrite drop_add, H4).
  replace (drop 10 d) with data by (change 10%nat with (4 + 6)%nat; by rewrite drop_add, H4).
  destruct (find_v4_udp_sender_spec now (ur_conns s) ip port Hwf) as (t' & r & -> & Hwf' & Hr).
  do 2 eexists. split; [reflexivity|]. split; [done|]. split; [done|].
  destruct r as [[cip cport]|]; [right|left; by destruct Hr].
  destruct Hr as (c & ? & ? & <- & <- & ? & ?). by exists c.
Qed.

(** The same for an IPv6 origin. *)
Lemma deliver_v6 now ip6 port data s :
  ct_wf (ur_conns s) -> length ip6 = 16%nat -> 0 <= port < 2 ^ 16 -> ur_has_v6 s = true ->
  exists out, deliver now (encapsulate_v6 ip6 port data) s = Some (s, out) /\
    ((out = [] /\ forall k c, conn_of (ur_conns s) k = Some c -> is_v6_sender ip6 port c = false) \/
     exists k c, out = [ToClient6 (src_ip6 c) (ConnTrack.src_port c) data] /\
       conn_of (ur_conns s) k = Some c /\ is_v6_sender ip6 port c = true /\
       forall k' c', conn_of (ur_conns s) k' = Some c' -> is_v6_sender ip6 port c' = true ->
         last_activity c' <= last_activity c).
Proof.
  intros Hwf H16 Hp Hv6. unfold deliver, encapsulate_v6.
  destruct (encapsulate_at SOCKS5_ATYP_IPV6 ip6 port data) as (H2 & H3 & H4 & Hl).
  set (d := encapsulate _ _ _ _) in *. clearbody d. rewrite Hl, H16.
  rewrite (proj2 (Z.ltb_ge _ _)) by lia. rewrite H2, H3. cbn [negb Z.eqb].
  rewrite (proj2 (Z.leb_le _ _)) by lia. change (SOCKS5_ATYP_IPV6 =? SOCKS5_ATYP_IPV4) with false.
  rewrite Z.eqb_refl. cbn [andb]. rewrite H4.
  rewrite (port_at_be d 20 port data Hp)
    by (change 20%nat with (4 + 16)%nat; by rewrite drop_add, H4, drop_app_length').
  replace (drop 22 d) with data
    by (change 22%nat with (4 + (16 + 2))%nat; by rewrite drop_add, H4, drop_add, drop_app_length').
  rewrite take_app_length' by done. rewrite Hv6.
  destruct (best_sender_table (ur_conns s) (is_v6_sender ip6 port) (rev_hash_v6 ip6 port) Hwf) as (r & Hr & Hb).
  - by apply Z.mod_pos_bound.
  - unfold is_v6_sender, memeq, rev_hash. intros c Hs. bool_prop. by subst; case_match.
  - unfold find_v6_udp_sender. rewrite Hr. destruct r as [[p c]|]; simpl; eexists; (split; [reflexivity|]).
    + right. destruct Hb as (_ & ? & ? & ?). by exists (flow_key c), c.
    + by left.
Qed.

(** Anything a proxy sends that is not a whole, unfragmented datagram of an
    IPv4 or IPv6 origin is dropped. *)
Lemma deliver_malformed now data s :
  Z.of_nat (length data) < 10 \/ at_ data 2 <> 0 \/
  (at_ data 3 <> SOCKS5_ATYP_IPV4 /\ (at_ data 3 <> SOCKS5_ATYP_IPV6 \/ Z.of_nat (length data) < 22)) ->
  deliver now data s = Some (s, []).
Proof.
  intros Hm. unfold deliver. destruct (Z.ltb_spec (Z.of_nat (length data)) 10); [done|].
  destruct (Z.eqb_spec (at_ data 2) 0); cbn [negb]; [|done].
  destruct Hm as [?|[?|[Hn Hm]]]; [lia|done|]. rewrite (proj2 (Z.eqb_neq _ _) Hn).
  destruct Hm as [Hn6|Hl]; [by rewrite (proj2 (Z.eqb_neq _ _) Hn6)|].
  rewrite (proj2 (Z.leb_gt _ _)) by lia. by rewrite andb_false_r.
Qed.

(** What a client's datagram is turned into: nothing unless its flow is tracked
    and has a SOCKS5 configuration. *)
Lemma route_config_spec {D} cfgs (dest : D) port id :
  exists r, route_config cfgs dest port id = Some r /\
    match r with
    | Via d p i c => d = dest /\ p = port /\ cfgs !! i = Some c /\ find_proxy_config cfgs id = Some c /\ is_socks5 c = true
    | _ => forall c, find_proxy_config cfgs id = Some c -> is_socks5 c = false
    end.
Proof.
  unfold route_config. pose proof (find_proxy_index_spec cfgs id) as Hi. destruct (find_proxy_index cfgs id) as [i|].
  - destruct Hi as (c & Hc & Hf). rewrite Hc. cbn [mbind option_bind]. destruct (is_socks5 c) eqn:Es; eexists; (split; [reflexivity|]); [done|].
    intros c' ?. by simplify_eq.
  - eexists. split; [reflexivity|]. intros c ?. congruence.
Qed.

Lemma route_v4_spec now port s :
  ct_wf (ur_conns s) ->
  exists t r, route_v4 now port s = Some (with_table s t, r) /\ ct_wf t /\
    (forall k, conn_of t k = if decide ((port, true, false) = k)
                             then (fun c => touch c now) <$> conn_of (ur_conns s) k else conn_of (ur_conns s) k) /\
    match r with
    | Via dest dport i c => exists f, conn_of (ur_conns s) (port, true, false) = Some f /\
        dest = orig_dest_ip f /\ dport = orig_dest_port f /\ ur_configs s !! i = Some c /\
        find_proxy_config (ur_configs s) (c_proxy_config_id f) = Some c /\ is_socks5 c = true
    | _ => forall f c, conn_of (ur_conns s) (port, true, false) = Some f ->
             find_proxy_config (ur_configs s) (c_proxy_config_id f) = Some c -> is_socks5 c = false
    end.
Proof.
  intros Hwf. unfold route_v4, get_connection.
  destruct (get_touch_spec now (ur_conns s) port true false Hwf) as (t & -> & Hwt & Ht).
  destruct (conn_of (ur_conns s) (port, true, false)) as [f|] eqn:Ef; cbn [option_map].
  - rewrite get_connection_proxy_id_spec by done. rewrite Ht, decide_True, Ef by done.
    destruct (route_config_spec (ur_configs s) (orig_dest_ip f) (orig_dest_port f) (c_proxy_config_id f)) as (r & Hr & Hs).
    cbn [fmap option_fmap option_map from_option mbind option_bind touch c_proxy_config_id]. rewrite Hr.
    exists t, r. split; [reflexivity|]. split; [done|]. split; [done|]. destruct r as [| |d p i c].
    1,2: intros f' c ?; simplify_eq; apply Hs.
    destruct Hs as (-> & -> & ? & ? & ?). by exists f.
  - exists t, NotTracked. split; [reflexivity|]. split; [done|]. split; [done|]. done.
Qed.

Lemma route_v6_spec now port s :
  ct_wf (ur_conns s) ->
  exists t r, route_v6 now port s = Some (with_table s t, r) /\ ct_wf t /\
    (forall k, conn_of t k = if decide ((port, true, true) = k)
                             then (fun c => touch c now) <$> conn_of (ur_conns s) k else conn_of (ur_conns s) k) /\
    match r with
    | Via dest dport i c => exists f, conn_of (ur_conns s) (port, true, true) = Some f /\
        dest = orig_dest_ip6 f /\ dport = orig_dest_port f /\ ur_configs s !! i = Some c /\
        find_proxy_config (ur_configs s) (c_proxy_config_id f) = Some c /\ is_socks5 c = true
    | _ => forall f c, conn_of (ur_conns s) (port, true, true) = Some f ->
             find_proxy_config (ur_configs s) (c_proxy_config_id f) = Some c -> is_socks5 c = false
    end.
Proof.
  intros Hwf. unfold route_v6, get_connection_full_v6.
  destruct (get_touch_spec now (ur_conns s) port true true Hwf) as (t & -> & Hwt & Ht).
  destruct (conn_of (ur_conns s) (port, true, true)) as [f|] eqn:Ef; cbn [option_map].
  - destruct (route_config_spec (ur_configs s) (orig_dest_ip6 f) (orig_dest_port f) (c_proxy_config_id f)) as (r & Hr & Hs).
    cbn [mbind option_bind]. rewrite Hr.
    exists t, r. split; [reflexivity|]. split; [done|]. split; [done|]. destruct r as [| |d p i c].
    1,2: intros f' c ?; simplify_eq; apply Hs.
    destruct Hs as (-> & -> & ? & ? & ?). by exists f.
  - exists t, NotTracked. split; [reflexivity|]. split; [done|]. split; [done|]. done.
Qed.

(** ** What is sent for a datagram of a client *)

(** The datagrams handed to proxies: socket, address, bytes. *)
Definition sent_to_proxy (out : list relay_effect) : list (Z * (Z * Z) * bytes) :=
  omap (fun x => match x with ToProxy sock addr d => Some (sock, addr, d) | _ => None end) out.

Definition through (c : PROXY_CONFIG) (d : bytes) : Z * (Z * Z) * bytes := (udp_send_sock c, udp_relay_addr c, d).

(** [c1] is [c] after an attempt that got an association: the socket is the one
    that was just opened, the address the one this proxy granted. *)
Record associated (e : AssocEnv) (c c1 : PROXY_CONFIG) : Prop := {
  as_ok : (establish_udp_associate_for_config e c).1 = (c1, true);
  as_connected : udp_connected c1 = true;
  as_socket : udp_send_sock c1 = ae_udp e /\ ae_udp e <> INVALID_SOCKET;
  as_address : exists a, snd (socks5_udp_associate_with_config (ae_stream e)) = Some a /\
    udp_relay_addr c1 = relay_address a (resolve_hostname (Some (host c)))
}.

Definition refused (e : AssocEnv) (c c1 : PROXY_CONFIG) : Prop :=
  (establish_udp_associate_for_config e c).1 = (c1, false).

(** The configuration as it is sent through: as it stands when it is connected. *)
Definition ready (e : AssocEnv) (c c1 : PROXY_CONFIG) : Prop :=
  if udp_connected c then c1 = c else associated e c c1.

(** Both sockets given up. *)
Definition disconnected (c : PROXY_CONFIG) : PROXY_CONFIG :=
  set_assoc c INVALID_SOCKET INVALID_SOCKET (udp_relay_addr c) false.

(** What goes out for a datagram [d] through configuration [c], and what becomes
    of [c]: nothing without an association; else once, and when that [sendto]
    fails once more if a new association is granted. *)
Inductive delivers (e1 : AssocEnv) (sends : bool) (e2 : AssocEnv) (d : bytes) (c : PROXY_CONFIG)
  : list (Z * (Z * Z) * bytes) -> PROXY_CONFIG -> Prop :=
| no_association c' :
    udp_connected c = false -> refused e1 c c' -> delivers e1 sends e2 d c [] c'
| sent_once c1 :
    ready e1 c c1 -> sends = true -> delivers e1 sends e2 d c [through c1 d] c1
| sent_again c1 c2 :
    ready e1 c c1 -> sends = false -> associated e2 (disconnected c1) c2 ->
    delivers e1 sends e2 d c [through c1 d; through c2 d] c2
| given_up c1 c2 :
    ready e1 c c1 -> sends = false -> refused e2 (disconnected c1) c2 ->
    delivers e1 sends e2 d c [through c1 d] c2.

Lemma establish_outcome e c :
  let '(c1, ok, _) := establish_udp_associate_for_config e c in
  if (ok : bool) then associated e c c1 else refused e c c1.
Proof.
  destruct (establish_udp_associate_for_config e c) as [[c1 ok] ev] eqn:E. destruct ok; [|by unfold refused; rewrite E].
  assert ((establish_udp_associate_for_config e c).1 = (c1, true)) as H1 by by rewrite E.
  unfold establish_udp_associate_for_config, close_assoc in E. repeat (case_match; try discriminate E).
  injection E as <- _. split; [done|done|split; [done|by apply Z.eqb_neq]|eauto].
Qed.

Lemma sent_app l1 l2 : sent_to_proxy (l1 ++ l2) = sent_to_proxy l1 ++ sent_to_proxy l2.
Proof. apply omap_app. Qed.

Lemma sent_handles ev : sent_to_proxy (map Handle ev) = [].
Proof. by induction ev. Qed.

Lemma resend_delivers e d c :
  let '(c2, out) := resend e d c in
  (associated e (disconnected c) c2 /\ sent_to_proxy out = [through c2 d]) \/
  (refused e (disconnected c) c2 /\ sent_to_proxy out = []).
Proof.
  unfold resend. assert (fst (drop_assoc c) = disconnected c) as Hd by done. destruct (drop_assoc c) as [c1 ev].
  cbn in Hd. subst c1. pose proof (establish_outcome e (disconnected c)) as Ho.
  destruct (establish_udp_associate_for_config e (disconnected c)) as [[c2 ok] ev'].
  rewrite sent_app, sent_handles. destruct ok; [left|right]; by split.
Qed.

Lemma ensure_ready e c :
  let '(c1, ok, _) := ensure_connected e c in
  if (ok : bool) then ready e c c1 else udp_connected c = false /\ refused e c c1.
Proof.
  unfold ensure_connected, ready. pose proof (establish_outcome e c) as Ho.
  destruct (udp_connected c); [done|]. destruct (establish_udp_associate_for_config e c) as [[c1 ok] ev]. by destruct ok.
Qed.

Lemma forward_v4_delivers e1 sends e2 d c :
  let '(c', _, out) := forward_v4 e1 sends e2 d c in delivers e1 sends e2 d c (sent_to_proxy out) c'.
Proof.
  unfold forward_v4. pose proof (ensure_ready e1 c) as He. destruct (ensure_connected e1 c) as [[c1 ok] ev].
  destruct ok; cbn [negb]; [|rewrite sent_handles; destruct He; by apply no_association].
  assert (sent_to_proxy (map Handle ev ++ [ToProxy (udp_send_sock c1) (udp_relay_addr c1) d]) = [through c1 d]) as Hs
    by by rewrite sent_app, sent_handles.
  destruct sends; [rewrite Hs; by apply sent_once|].
  pose proof (resend_delivers e2 d c1) as Hr. destruct (resend e2 d c1) as [c2 out2].
  rewrite sent_app, Hs. destruct Hr as [[Ha ->]|[Ha ->]]; [by eapply sent_again|by eapply given_up].
Qed.

Lemma forward_v6_delivers e1 d c :
  let '(c', out) := forward_v6 e1 d c in delivers e1 true e1 d c (sent_to_proxy out) c'.
Proof.
  unfold forward_v6. pose proof (ensure_ready e1 c) as He. destruct (ensure_connected e1 c) as [[c1 ok] ev].
  rewrite sent_app, sent_handles. destruct ok; [by apply sent_once|destruct He; by apply no_association].
Qed.

Lemma forward_connected e1 e2 d c :
  udp_connected c = true ->
  forward_v4 e1 true e2 d c = (c, false, [ToProxy (udp_send_sock c) (udp_relay_addr c) d]) /\
  forward_v6 e1 d c = (c, [ToProxy (udp_send_sock c) (udp_relay_addr c) d]).
Proof. intros Hc. unfold forward_v4, forward_v6, ensure_connected. by rewrite Hc. Qed.

(** The flow of a client and the SOCKS5 configuration it was given. *)
Definition flow_route (s : UdpRelay) (port : Z) (v6 : bool) : option (CONNECTION_INFO * PROXY_CONFIG) :=
  f ← conn_of (ur_conns s) (port, true, v6);
  c ← find_proxy_config (ur_configs s) (c_proxy_config_id f);
  if is_socks5 c then Some (f, c) else None.

Lemma flow_route_none s port v6 :
  (forall f c, conn_of (ur_conns s) (port, true, v6) = Some f ->
     find_proxy_config (ur_configs s) (c_proxy_config_id f) = Some c -> is_socks5 c = false) ->
  flow_route s port v6 = None.
Proof.
  intros Hn. unfold flow_route. destruct (conn_of _ _) as [f|]; [|done]. cbn [mbind option_bind].
  destruct (find_proxy_config _ _) as [c|] eqn:E; [|done]. cbn [mbind option_bind]. by rewrite (Hn f c).
Qed.

Lemma encapsulate_length atyp addr port data : length (encapsulate atyp addr port data) = (6 + length addr + length data)%nat.
Proof. apply encapsulate_at. Qed.

(** What the handler of either family owes: the flow's route is taken, or nothing
    is sent and no configuration changes. *)
Definition client_served (s s' : UdpRelay) (out : list relay_effect) (room : Z) (data : bytes)
    (route : option (CONNECTION_INFO * PROXY_CONFIG))
    (wanted : CONNECTION_INFO -> PROXY_CONFIG -> list (Z * (Z * Z) * bytes) -> PROXY_CONFIG -> Prop) : Prop :=
  match route with
  | Some (f, c) =>
      if decide (0 < Z.of_nat (length data) <= room) then
        exists i c', ur_configs s !! i = Some c /\ ur_configs s' = <[i := c']> (ur_configs s) /\
          wanted f c (sent_to_proxy out) c'
      else out = [] /\ ur_configs s' = ur_configs s
  | None => out = [] /\ ur_configs s' = ur_configs s
  end.

(** C21: What goes out for a datagram of a client, of either family.  Nothing for a
    client without a tracked flow, one whose configuration is not SOCKS5, an
    empty datagram or one that would not fit the buffer of 65535 bytes with its
    header.  Otherwise the data goes out whole behind the header of the flow's
    original destination, through the configuration the flow was given: over the
    socket and to the relay address of its association when it is connected, else
    over those of a new association granted just then, and not at all when none
    is.  Only for an IPv4 client is a failed [sendto] noticed: the association is
    given up and the datagram is sent once more, over a new association if one is
    granted.  No other configuration changes. *)
Theorem client_datagram_forwarded now e1 sends e2 port data s :
  ct_wf (ur_conns s) ->
  (exists s' b out, udp_from_client_v4 now e1 sends e2 port data s = Some (s', b, out) /\ ct_wf (ur_conns s') /\
     client_served s s' out (MAXBUF - 10) data (flow_route s port false) (fun f c =>
       delivers e1 sends e2
         ([0; 0; 0; 1] ++ ip_octets (orig_dest_ip f) ++ port_be (orig_dest_port f) ++ data) c)) /\
  (exists s' out, udp_from_client_v6 now e1 port data s = Some (s', out) /\ ct_wf (ur_conns s') /\
     client_served s s' out (MAXBUF - 22) data (flow_route s port true) (fun f c =>
       delivers e1 true e1
         ([0; 0; 0; 4] ++ orig_dest_ip6 f ++ port_be (orig_dest_port f) ++ data) c)).
Proof.
  intros Hwf. unfold udp_from_client_v4, udp_from_client_v6.
  assert (forall (s' : UdpRelay) (out : list relay_effect) room r wanted,
    ~ (0 < Z.of_nat (length data) <= room) -> out = [] -> ur_configs s' = ur_configs s ->
    client_served s s' out room data r wanted) as Hno.
  { intros s' out room [[f c]|] w Hl -> Hs; unfold client_served; [by rewrite decide_False|done]. }
  destruct data as [|x tl] eqn:Ed; [split; [exists s, false, []|exists s, []];
    (split; [done|]; split; [done|]; apply Hno; [cbn; lia|done..])|]. rewrite <- Ed in *.
  replace (is_empty data) with false by by rewrite Ed. assert (0 < Z.of_nat (length data)) by (rewrite Ed; cbn; lia).
  split.
  - destruct (Z.ltb_spec (MAXBUF - 10) (Z.of_nat (length data))); [exists s, true, []; (split; [done|]; split; [done|]; apply Hno; [lia|done..])|].
    destruct (route_v4_spec now port s Hwf) as (t & r & -> & Hwt & _ & Hr).
    destruct r as [| |dest dport i c].
    1,2: do 3 eexists; (split; [reflexivity|]); (split; [done|]); unfold client_served; by rewrite flow_route_none.
    destruct Hr as (f & Hf & -> & -> & Hi & Hfind & Hs). unfold client_served, flow_route. rewrite Hf. cbn [mbind option_bind].
    rewrite Hfind. cbn [mbind option_bind]. rewrite Hs. cbn iota beta. destruct (decide (0 < _ <= _)) as [_|Hd]; [|lia].
    pose proof (forward_v4_delivers e1 sends e2 (encapsulate_v4 (orig_dest_ip f) (orig_dest_port f) data) c) as Hfw.
    destruct (forward_v4 _ _ _ _ _) as [[c' b] out]. do 3 eexists. split; [reflexivity|]. split; [done|].
    by exists i, c'.
  - cbn [orb]. destruct (Z.ltb_spec (MAXBUF - 22) (Z.of_nat (length data))); [exists s, []; (split; [done|]; split; [done|]; apply Hno; [lia|done..])|].
    destruct (route_v6_spec now port s Hwf) as (t & r & -> & Hwt & _ & Hr).
    destruct r as [| |dest dport i c].
    1,2: do 2 eexists; (split; [reflexivity|]); (split; [done|]); unfold client_served; by rewrite flow_route_none.
    destruct Hr as (f & Hf & -> & -> & Hi & Hfind & Hs). unfold client_served, flow_route. rewrite Hf. cbn [mbind option_bind].
    rewrite Hfind. cbn [mbind option_bind]. rewrite Hs. cbn iota beta. destruct (decide (0 < _ <= _)) as [_|Hd]; [|lia].
    pose proof (forward_v6_delivers e1 (encapsulate_v6 (orig_dest_ip6 f) (orig_dest_port f) data) c) as Hfw.
    destruct (forward_v6 _ _ _) as [c' out]. do 2 eexists. split; [reflexivity|]. split; [done|].
    by exists i, c'.
Qed.

(** ** And back *)

(** A client's UDP flow towards an origin. *)
Definition toward_v4 (ip port : Z) (f : CONNECTION_INFO) : Prop :=
  c_is_udp f = true /\ is_ipv6 f = false /\ orig_dest_ip f = ip /\ orig_dest_port f = port.
Definition toward_v6 (ip6 : bytes) (port : Z) (f : CONNECTION_INFO) : Prop :=
  c_is_udp f = true /\ is_ipv6 f = true /\ orig_dest_ip6 f = ip6 /\ orig_dest_port f = port.

Lemma v4_sender_toward ip port f : is_v4_sender ip port f = true <-> toward_v4 ip port f.
Proof. unfold is_v4_sender, toward_v4. rewrite !andb_true_iff, negb_true_iff, !Z.eqb_eq. tauto. Qed.
Lemma v6_sender_toward ip6 port f : is_v6_sender ip6 port f = true <-> toward_v6 ip6 port f.
Proof.
  unfold is_v6_sender, toward_v6, memeq. rewrite !andb_true_iff, Z.eqb_eq, bool_decide_eq_true. tauto.
Qed.

(** Flow [k] was active later than every other one that goes there. *)
Definition latest (there : CONNECTION_INFO -> Prop) (t : ConnTable) (k : Z * bool * bool) (f : CONNECTION_INFO) : Prop :=
  conn_of t k = Some f /\ there f /\
  forall k' f', conn_of t k' = Some f' -> there f' -> k' <> k -> last_activity f' < last_activity f.

Lemma latest_unique there t k f c :
  ct_wf t -> latest there t k f -> conn_of t (flow_key c) = Some c -> there c ->
  (forall k' c', conn_of t k' = Some c' -> there c' -> last_activity c' <= last_activity c) -> c = f.
Proof.
  intros Hwf (Hf & Ht & Hl) Hc Hct Hm. destruct (decide (flow_key c = k)) as [E|Hn]; [congruence|].
  pose proof (Hl _ _ Hc Hct Hn). pose proof (Hm _ _ Hf Ht). lia.
Qed.

Lemma deliver_latest_v4 now ip port answer s k f :
  ct_wf (ur_conns s) -> 0 <= ip < 2 ^ 32 -> 0 <= port < 2 ^ 16 -> latest (toward_v4 ip port) (ur_conns s) k f ->
  exists s', deliver now (encapsulate_v4 ip port answer) s =
    Some (s', [ToClient (ConnTrack.src_ip f) (ConnTrack.src_port f) answer]).
Proof.
  intros Hwf Hip Hp Hl. destruct (deliver_v4 now ip port answer s Hwf Hip Hp) as (s' & out & -> & _ & _ & Hout).
  exists s'. destruct Hout as [[_ Hn]|(c & -> & Hc & Hs & Hm & _)].
  - destruct Hl as (Hf & Ht & _). apply v4_sender_toward in Ht. by rewrite (Hn _ _ Hf) in Ht.
  - assert (c = f) as ->; [|done]. eapply latest_unique; [exact Hwf|exact Hl|exact Hc|by apply v4_sender_toward|].
    intros k' c' Hc' Ht'. apply (Hm _ _ Hc'). by apply v4_sender_toward.
Qed.

Lemma deliver_latest_v6 now ip6 port answer s k f :
  ct_wf (ur_conns s) -> length ip6 = 16%nat -> 0 <= port < 2 ^ 16 -> ur_has_v6 s = true ->
  latest (toward_v6 ip6 port) (ur_conns s) k f ->
  deliver now (encapsulate_v6 ip6 port answer) s =
    Some (s, [ToClient6 (src_ip6 f) (ConnTrack.src_port f) answer]).
Proof.
  intros Hwf Hip Hp H6 Hl. destruct (deliver_v6 now ip6 port answer s Hwf Hip Hp H6) as (out & -> & Hout).
  destruct Hout as [[_ Hn]|(k' & c & -> & Hc & Hs & Hm)].
  - destruct Hl as (Hf & Ht & _). apply v6_sender_toward in Ht. by rewrite (Hn _ _ Hf) in Ht.
  - assert (c = f) as ->; [|done].
    assert (flow_key c = k') as Hk by (by apply conn_of_Some in Hc as (? & _ & ?)). rewrite <- Hk in Hc.
    eapply latest_unique; [exact Hwf|exact Hl|exact Hc|by apply v6_sender_toward|].
    intros k2 c' Hc' Ht'. apply (Hm _ _ Hc'). by apply v6_sender_toward.
Qed.

(** A request makes its flow the latest when the others are older. *)
Lemma touched_latest there t t' k f now :
  conn_of t k = Some f -> there (touch f now) ->
  (forall k', conn_of t' k' = if decide (k = k') then (fun c => touch c now) <$> conn_of t k' else conn_of t k') ->
  (forall k' f', conn_of t k' = Some f' -> there f' -> k' <> k -> last_activity f' < now) ->
  latest there t' k (touch f now).
Proof.
  intros Hf Ht Hk Ho. split; [by rewrite Hk, decide_True, Hf by done|]. split; [done|].
  intros k' f' Hf' Ht' Hn. rewrite Hk, decide_False in Hf' by done. by apply (Ho k').
Qed.

(** C22: The answer to a client's datagram, of either family, when the flow's SOCKS5
    configuration is connected and [sendto] succeeds: the datagram goes out
    through the association, and what the proxy sends back from that origin is
    delivered, unwrapped, to the address and port the flow was opened from -
    provided every other UDP flow towards the same origin, of that family, was
    active strictly before the request.  The proviso cannot be dropped: in any
    state the answer of an origin goes to the flow towards it that was active
    last, so of two clients of one origin the later one gets the answers of both.
    An IPv6 answer needs the relay's IPv6 socket. *)
Theorem udp_relay_roundtrip now now2 e1 e2 port data answer s f c :
  ct_wf (ur_conns s) -> 0 <= orig_dest_port f < 2 ^ 16 ->
  let connected := find_proxy_config (ur_configs s) (c_proxy_config_id f) = Some c /\ is_socks5 c = true /\
                     udp_connected c = true in
  let older there v6 := forall k f', conn_of (ur_conns s) k = Some f' -> there f' ->
                          k <> (port, true, v6) -> last_activity f' < now in
  let origin4 := toward_v4 (orig_dest_ip f) (orig_dest_port f) in
  let origin6 := toward_v6 (orig_dest_ip6 f) (orig_dest_port f) in
  (conn_of (ur_conns s) (port, true, false) = Some f -> connected -> 0 < Z.of_nat (length data) <= MAXBUF - 10 ->
   0 <= orig_dest_ip f < 2 ^ 32 -> older origin4 false ->
   let wrap d := encapsulate_v4 (orig_dest_ip f) (orig_dest_port f) d in
   exists s1 s2,
     udp_from_client_v4 now e1 true e2 port data s =
       Some (s1, false, [ToProxy (udp_send_sock c) (udp_relay_addr c) (wrap data)]) /\
     deliver now2 (wrap answer) s1 = Some (s2, [ToClient (ConnTrack.src_ip f) port answer])) /\
  (conn_of (ur_conns s) (port, true, true) = Some f -> connected -> 0 < Z.of_nat (length data) <= MAXBUF - 22 ->
   length (orig_dest_ip6 f) = 16%nat -> ur_has_v6 s = true -> older origin6 true ->
   let wrap d := encapsulate_v6 (orig_dest_ip6 f) (orig_dest_port f) d in
   exists s1 s2,
     udp_from_client_v6 now e1 port data s =
       Some (s1, [ToProxy (udp_send_sock c) (udp_relay_addr c) (wrap data)]) /\
     deliver now2 (wrap answer) s1 = Some (s2, [ToClient6 (src_ip6 f) port answer])) /\
  (forall k g, 0 <= orig_dest_ip f < 2 ^ 32 -> latest origin4 (ur_conns s) k g ->
     exists s2, deliver now2 (encapsulate_v4 (orig_dest_ip f) (orig_dest_port f) answer) s =
       Some (s2, [ToClient (ConnTrack.src_ip g) (ConnTrack.src_port g) answer])) /\
  (forall k g, length (orig_dest_ip6 f) = 16%nat -> ur_has_v6 s = true -> latest origin6 (ur_conns s) k g ->
     deliver now2 (encapsulate_v6 (orig_dest_ip6 f) (orig_dest_port f) answer) s =
       Some (s, [ToClient6 (src_ip6 g) (ConnTrack.src_port g) answer])).
Proof.
  intros Hwf Hp connected older origin4 origin6.
  assert (0 < Z.of_nat (length data) -> is_empty data = false) as He by by destruct data. split_and!.
  - intros Hf (Hfind & Hs & Hc) Hlen Hip Hold wrap. unfold udp_from_client_v4. rewrite He, (proj2 (Z.ltb_ge _ _)) by lia.
    destruct (route_v4_spec now port s Hwf) as (t & r & -> & Hwt & Ht & Hr).
    destruct r as [| |dest dport i c'].
    1,2: by rewrite (Hr f c Hf Hfind) in Hs.
    destruct Hr as (f' & Hf' & -> & -> & Hi & Hfind' & _).
    assert (f' = f) as -> by congruence. assert (c' = c) as -> by congruence.
    rewrite (proj1 (forward_connected e1 e2 _ c Hc)).
    assert (flow_key f = (port, true, false)) as [= Hk1 Hk2 Hk3] by (by apply conn_of_Some in Hf as (? & _ & ?)).
    set (s1 := with_configs _ _).
    destruct (deliver_latest_v4 now2 (orig_dest_ip f) (orig_dest_port f) answer s1 (port, true, false) (touch f now))
      as [s2 Hd]; [exact Hwt|done|done| |exists s1, s2; by rewrite <- Hk1].
    by eapply touched_latest; [exact Hf|split_and!|exact Ht|exact Hold].
  - intros Hf (Hfind & Hs & Hc) Hlen H16 H6 Hold wrap. unfold udp_from_client_v6. rewrite He, (proj2 (Z.ltb_ge _ _)) by lia.
    destruct (route_v6_spec now port s Hwf) as (t & r & -> & Hwt & Ht & Hr).
    destruct r as [| |dest dport i c'].
    1,2: by rewrite (Hr f c Hf Hfind) in Hs.
    destruct Hr as (f' & Hf' & -> & -> & Hi & Hfind' & _). cbn [orb].
    assert (f' = f) as -> by congruence. assert (c' = c) as -> by congruence.
    rewrite (proj2 (forward_connected e1 e2 _ c Hc)).
    assert (flow_key f = (port, true, true)) as [= Hk1 Hk2 Hk3] by (by apply conn_of_Some in Hf as (? & _ & ?)).
    do 2 eexists. split; [reflexivity|]. rewrite <- Hk1. eapply deliver_latest_v6 with (f := touch f now);
      [exact Hwt|done|done|done|].
    by eapply touched_latest; [exact Hf|split_and!|exact Ht|exact Hold].
  - intros k g Hip Hl. by eapply deliver_latest_v4.
  - intros k g H16 H6 Hl. by eapply deliver_latest_v6.
Qed.

(** ** A pass of the loop *)

(** The state after a handler: well formed, with as many configurations. *)
Definition relay_ok (s s' : UdpRelay) : Prop :=
  ct_wf (ur_conns s') /\ length (ur_configs s') = length (ur_configs s) /\ ur_has_v6 s' = ur_has_v6 s.

Lemma from_client_v4_total now e1 sends e2 port data s :
  ct_wf (ur_conns s) ->
  exists s' b out, udp_from_client_v4 now e1 sends e2 port data s = Some (s', b, out) /\ relay_ok s s'.
Proof.
  intros Hwf. unfold udp_from_client_v4, relay_ok. destruct (is_empty data); [by do 3 eexists|].
  destruct (_ <? _); [by do 3 eexists|].
  destruct (route_v4_spec now port s Hwf) as (t & r & -> & Hwt & _ & _). destruct r as [| |d p i c]; [by do 3 eexists..|].
  destruct (forward_v4 _ _ _ _ _) as [[c' b] out]. do 3 eexists. split; [reflexivity|].
  split; [done|]. split; [apply length_insert|done].
Qed.

Lemma from_client_v6_total now e1 port data s :
  ct_wf (ur_conns s) -> exists s' out, udp_from_client_v6 now e1 port data s = Some (s', out) /\ relay_ok s s'.
Proof.
  intros Hwf. unfold udp_from_client_v6, relay_ok. destruct (_ || _); [by do 2 eexists|].
  destruct (route_v6_spec now port s Hwf) as (t & r & -> & Hwt & _). destruct r as [| |d p i c]; [by do 2 eexists..|].
  destruct (forward_v6 _ _ _) as [c' out]. do 2 eexists. split; [reflexivity|].
  split; [done|]. split; [apply length_insert|done].
Qed.

Lemma deliver_total now data s :
  ct_wf (ur_conns s) -> exists s' out, deliver now data s = Some (s', out) /\ relay_ok s s'.
Proof.
  intros Hwf. unfold deliver, relay_ok. destruct (_ <? _); [by do 2 eexists|]. destruct (negb _); [by do 2 eexists|].
  destruct (_ =? _).
  - destruct (find_v4_udp_sender_spec now (ur_conns s) (ipv4 (at_ data 4) (at_ data 5) (at_ data 6) (at_ data 7))
      (port_at data 8) Hwf) as (t & r & -> & Hwt & _). by do 2 eexists.
  - destruct (_ && _); [|by do 2 eexists]. unfold find_v6_udp_sender.
    destruct (best_sender_spec (is_v6_sender (take 16 (drop 4 data)) (port_at data 20)) (heap (ur_conns s))
      (bucket (connection_rev_table (ur_conns s)) (rev_hash_v6 (take 16 (drop 4 data)) (port_at data 20))) None)
      as (r & -> & _); [intros p; apply rev_live; [done|by apply Z.mod_pos_bound]|].
    destruct r as [[p c]|]; by do 2 eexists.
Qed.

Lemma from_proxies_total now l s :
  ct_wf (ur_conns s) -> exists s' out, from_proxies now l s = Some (s', out) /\ relay_ok s s'.
Proof.
  revert s. induction l as [|[i r] l IH]; intros s Hwf; [by do 2 eexists|]. cbn [from_proxies].
  assert (exists s1 o1, udp_from_proxy now i r s = Some (s1, o1) /\ relay_ok s s1) as (s1 & o1 & -> & Hw1 & Hl1 & H61).
  { unfold udp_from_proxy, relay_ok. destruct (ur_configs s !! i); [|by do 2 eexists].
    destruct (_ || _); [by do 2 eexists|]. destruct r as [data|]; [by apply deliver_total|].
    destruct (drop_assoc p) as [c' ev]. do 2 eexists. split; [reflexivity|]. split; [done|]. split; [apply length_insert|done]. }
  destruct (IH s1 Hw1) as (s2 & o2 & -> & Hw2 & Hl2 & H62). do 2 eexists. split; [reflexivity|].
  split; [done|]. split; congruence.
Qed.

Lemma for_configs_length {E} (f : E -> PROXY_CONFIG -> PROXY_CONFIG * bool * list handle_event) envs cfgs :
  length (fst (fst (for_configs f envs cfgs))) = length cfgs.
Proof.
  revert envs. induction cfgs as [|c cfgs IH]; intros envs; [by destruct envs|]. destruct envs as [|e envs]; [done|].
  cbn [for_configs]. destruct (f e c) as [[c' b] ev]. specialize (IH envs). destruct (for_configs f envs cfgs) as [[? ?] ?].
  simpl in *. by rewrite IH.
Qed.

(** Whatever arrives and whatever fails, a pass of the loop reads no dangling
    pointer, and the table of flows stays well formed. *)
Lemma udp_relay_pass_total now rules input s :
  ct_wf (ur_conns s) ->
  exists s' out, udp_relay_pass now rules input s = Some (s', out) /\ relay_ok s s'.
Proof.
  intros Hwf. unfold udp_relay_pass. destruct input as [envs|controls client proxies client6].
  - pose proof (for_configs_length (associate_referenced rules true) envs (ur_configs s)) as Hl.
    unfold idle_reconnect. destruct (for_configs _ _ _) as [[cfgs b] ev]. do 2 eexists. split; [reflexivity|]. by split.
  - pose proof (for_configs_length (fun e c => match e with Some e => control_closed e c | None => (c, false, []) end)
      controls (ur_configs s)) as Hl.
    unfold check_controls. destruct (for_configs _ _ _) as [[cfgs b] ev]. simpl in Hl. destruct b; [do 2 eexists; split; [reflexivity|]; by split|].
    set (s0 := with_configs s cfgs). assert (relay_ok s s0) as (Hw0 & Hl0 & H60) by done.
    assert (exists s1 b1 o1, (match client with
         | None => Some (s0, false, [])
         | Some None => Some (s0, true, [])
         | Some (Some ci) =>
             udp_from_client_v4 now (ci_env ci) (ci_sends ci) (ci_env2 ci) (ci_port ci) (ci_data ci) s0
         end) = Some (s1, b1, o1) /\ relay_ok s0 s1) as (s1 & b1 & o1 & E1 & Hw1 & Hl1 & H61).
    { destruct client as [[ci|]|]; [by apply from_client_v4_total|by do 3 eexists..]. }
    unfold pass_data. rewrite E1. destruct b1; [do 2 eexists; split; [reflexivity|]; split; [done|split; congruence]|].
    destruct (from_proxies_total now proxies s1 Hw1) as (s2 & o2 & -> & Hw2 & Hl2 & H62).
    assert (exists s3 o3, from_client6 now client6 s2 = Some (s3, o3) /\ relay_ok s2 s3) as (s3 & o3 & -> & Hw3 & Hl3 & H63).
    { unfold from_client6. destruct client6 as [ci|]; [|by do 2 eexists]. destruct (ur_has_v6 s2) eqn:E6; [|by do 2 eexists].
      by apply from_client_v6_total. }
    do 2 eexists. split; [reflexivity|]. split; [done|split; congruence].
Qed.
End Delivery.
