(* ===== verification/AssocHandles.v ===== *)
(** * The sockets of the UDP associations

    The handles a pass of the relay opens, closes and sends on, run against the
    set of open handles: nothing is closed twice, used after it was closed, or
    lost, on any path. *)
From S2P Require Import Prelude CLib HashTable Util Types ProxyConfig Socks5 Process Rules ConnTrack UdpRelay.

(** ** Running handle events *)

(** [Illegal]: the system gave a handle that is open.  [Fault]: the program
    closed or used one that is not. *)
Inductive run_result := Illegal | Fault | Running (open : gset Z).

Fixpoint run_handles (open : gset Z) (l : list handle_event) : run_result :=
  match l with
  | [] => Running open
  | Opened h :: l => if decide (h ∈ open) then Illegal else run_handles ({[h]} ∪ open) l
  | Closed h :: l => if decide (h ∈ open) then run_handles (open ∖ {[h]}) l else Fault
  | Used h :: l => if decide (h ∈ open) then run_handles open l else Fault
  end.

(** What an effect of the relay does to handles. *)
Definition effect_handles (e : relay_effect) : list handle_event :=
  match e with
  | Handle e => [e]
  | ToProxy sock _ _ => [Used sock]
  | ToClient _ _ _ | ToClient6 _ _ _ => []
  end.
Definition effects_handles (l : list relay_effect) : list handle_event := l ≫= effect_handles.

Definition valid_handle (h : Z) : gset Z := if h =? INVALID_SOCKET then ∅ else {[h]}.

Definition assoc_handles (c : PROXY_CONFIG) : gset Z :=
  valid_handle (udp_tcp_ctrl c) ∪ valid_handle (udp_send_sock c).

(** The two sockets of a configuration are open and different; a connected one
    has both. *)
Record assoc_wf (open : gset Z) (c : PROXY_CONFIG) : Prop := {
  aw_open : assoc_handles c ⊆ open;
  aw_distinct : valid_handle (udp_tcp_ctrl c) ## valid_handle (udp_send_sock c);
  aw_connected : udp_connected c = true ->
    udp_tcp_ctrl c <> INVALID_SOCKET /\ udp_send_sock c <> INVALID_SOCKET
}.

(** Events that take a configuration from [c] to [c']: whatever else is open
    stays open, and of the configuration exactly its new sockets. *)
Definition takes (c c' : PROXY_CONFIG) (ev : list handle_event) : Prop :=
  forall open, assoc_wf open c ->
  match run_handles open ev with
  | Illegal => True
  | Fault => False
  | Running o => o = (open ∖ assoc_handles c) ∪ assoc_handles c' /\
      assoc_handles c' ## open ∖ assoc_handles c /\ assoc_wf o c'
  end.

Lemma run_handles_app open l1 l2 :
  run_handles open (l1 ++ l2) =
    match run_handles open l1 with Running o => run_handles o l2 | r => r end.
Proof.
  revert open. induction l1 as [|[h|h|h] l1 IH]; intros open; [done|..]; simpl; case_decide; auto.
Qed.

(** Events that leave what is open as it was. *)
Definition balanced (l : list handle_event) : Prop :=
  forall open, match run_handles open l with Illegal => True | Fault => False | Running o => o = open end.

Lemma balanced_app l1 l2 : balanced l1 -> balanced l2 -> balanced (l1 ++ l2).
Proof.
  intros H1 H2 open. rewrite run_handles_app. specialize (H1 open). destruct (run_handles open l1); [done..|]. subst. apply H2.
Qed.

Lemma balanced_between h l : balanced l -> balanced (Opened h :: l ++ [Closed h]).
Proof.
  intros Hl open. cbn [run_handles]. case_decide as Hh; [done|]. rewrite run_handles_app. specialize (Hl ({[h]} ∪ open)).
  destruct (run_handles _ l); [done..|]. subst. cbn [run_handles]. rewrite decide_True by set_solver. set_solver.
Qed.

Lemma balanced_nil : balanced [].
Proof. done. Qed.
Lemma balanced_once h : balanced [Opened h; Closed h].
Proof. exact (balanced_between h [] balanced_nil). Qed.
Lemma effects_app l1 l2 : effects_handles (l1 ++ l2) = effects_handles l1 ++ effects_handles l2.
Proof. apply bind_app. Qed.

Lemma effects_handle ev : effects_handles (map Handle ev) = ev.
Proof. induction ev as [|e ev IH]; [done|]. exact (f_equal (cons e) IH). Qed.

Lemma takes_none c : takes c c [].
Proof.
  intros open Hw. pose proof (aw_open _ _ Hw). simpl. split; [|split; [set_solver|done]].
  apply leibniz_equiv. intros x. destruct (decide (x ∈ assoc_handles c)); set_solver.
Qed.

Lemma takes_app c c1 c2 ev1 ev2 : takes c c1 ev1 -> takes c1 c2 ev2 -> takes c c2 (ev1 ++ ev2).
Proof.
  intros H1 H2 open Hw. rewrite run_handles_app. specialize (H1 open Hw).
  destruct (run_handles open ev1) as [| |o]; [done..|]. destruct H1 as (-> & Hd & Hw1).
  specialize (H2 _ Hw1). destruct (run_handles _ ev2) as [| |o2]; [done..|].
  replace (((open ∖ assoc_handles c) ∪ assoc_handles c1) ∖ assoc_handles c1) with (open ∖ assoc_handles c) in H2
    by set_solver. done.
Qed.

(** ** The operations on one configuration *)

Lemma valid_handle_valid h : h <> INVALID_SOCKET -> valid_handle h = {[h]}.
Proof. intros Hh. unfold valid_handle. by rewrite (proj2 (Z.eqb_neq _ _) Hh). Qed.

(** A datagram leaves through the open socket of a connected association. *)
Lemma takes_used c : udp_connected c = true -> takes c c [Used (udp_send_sock c)].
Proof.
  intros Hc open Hw. pose proof (takes_none c open Hw) as Hn. cbn [run_handles] in *.
  rewrite decide_True; [done|]. destruct (aw_connected _ _ Hw Hc) as [_ Hs].
  apply (aw_open _ _ Hw). unfold assoc_handles. rewrite (valid_handle_valid _ Hs). set_solver.
Qed.

Lemma run_close open h : valid_handle h ⊆ open -> run_handles open (close_event h) = Running (open ∖ valid_handle h).
Proof.
  unfold valid_handle, close_event. destruct (h =? INVALID_SOCKET); intros Hs; simpl.
  - f_equal. set_solver.
  - by rewrite decide_True by set_solver.
Qed.

Lemma close_assoc_none c : assoc_handles (fst (close_assoc c)) = ∅.
Proof. unfold assoc_handles, valid_handle, close_assoc. simpl. set_solver. Qed.

Lemma run_close_assoc open c :
  assoc_wf open c -> run_handles open (snd (close_assoc c)) = Running (open ∖ assoc_handles c).
Proof.
  intros [Ho Hd _]. unfold close_assoc, assoc_handles in *. simpl.
  rewrite run_handles_app, run_close by set_solver. rewrite run_close; [f_equal|]; set_solver.
Qed.

(** A configuration left without sockets. *)
Lemma takes_closed c c' ev :
  assoc_handles c' = ∅ -> udp_connected c' = false ->
  (forall open, assoc_wf open c ->
     match run_handles open ev with Illegal => True | Fault => False | Running o => o = open ∖ assoc_handles c end) ->
  takes c c' ev.
Proof.
  intros He Hf Hr open Hw. specialize (Hr open Hw). destruct (run_handles open ev) as [| |o]; [done..|]. subst o.
  rewrite He. split; [set_solver|]. split; [set_solver|].
  split; [set_solver| |by rewrite Hf]. unfold assoc_handles in He. set_solver.
Qed.

Lemma drop_assoc_takes c : takes c (fst (drop_assoc c)) (snd (drop_assoc c)) /\ udp_connected (fst (drop_assoc c)) = false.
Proof.
  split; [|done]. apply takes_closed; [exact (close_assoc_none c)|done|].
  intros open Hw. change (snd (drop_assoc c)) with (snd (close_assoc c)). by rewrite run_close_assoc.
Qed.

Section Establish.
Context `{Platform}.

Lemma establish_takes e c :
  udp_connected c = false ->
  let '(c', ok, ev) := establish_udp_associate_for_config e c in takes c c' ev /\ udp_connected c' = ok.
Proof.
  intros Hc. unfold establish_udp_associate_for_config.
  destruct (_ || _); [by split; [apply takes_none|]|]. destruct (negb _); [by split; [apply takes_none|]|].
  destruct (_ <? _); [by split; [apply takes_none|]|].
  assert (forall open, assoc_wf open c ->
    run_handles open (snd (close_assoc (set_attempt c (ae_now e)))) = Running (open ∖ assoc_handles c)) as Hclose.
  { intros open [? ? ?]. by apply (run_close_assoc open (set_attempt c (ae_now e))). }
  pose proof (close_assoc_none (set_attempt c (ae_now e))) as Hnone.
  assert (udp_connected (fst (close_assoc (set_attempt c (ae_now e)))) = false) as Hc1 by done.
  destruct (close_assoc (set_attempt c (ae_now e))) as [c1 closed]. cbn [fst snd] in *.
  assert (forall c', assoc_handles c' = ∅ -> udp_connected c' = false ->
            takes c c' ((closed ++ [Opened (ae_tcp e)]) ++ [Closed (ae_tcp e)])) as Hfail.
  { intros c' He Hf. apply takes_closed; [done..|]. intros open Hw.
    rewrite <- (assoc_L (++)), run_handles_app, (Hclose _ Hw). simpl. case_decide; [done|].
    rewrite decide_True by set_solver. set_solver. }
  destruct (Z.eqb_spec (ae_tcp e) INVALID_SOCKET) as [|Htc].
  { split; [|done]. apply takes_closed; [done..|]. intros open Hw. by rewrite (Hclose _ Hw). }
  destruct (resolve_hostname _ =? 0); [by split; [apply Hfail|]|]. destruct (negb _); [by split; [apply Hfail|]|].
  destruct (snd _) as [addr|]; [|by split; [apply Hfail|]].
  destruct (Z.eqb_spec (ae_udp e) INVALID_SOCKET) as [|Hud].
  { split; [apply Hfail; [|done]|done]. unfold assoc_handles, valid_handle. simpl. set_solver. }
  split; [|done]. intros open Hw. rewrite <- (assoc_L (++)), run_handles_app, (Hclose _ Hw).
  cbn [app run_handles]. case_decide; [done|]. case_decide; [done|].
  assert (assoc_handles (set_assoc c1 (ae_tcp e) (ae_udp e) (relay_address addr (resolve_hostname (Some (host c1)))) true)
    = {[ae_tcp e]} ∪ {[ae_udp e]}) as Hh
    by (unfold assoc_handles; cbn [set_assoc udp_tcp_ctrl udp_send_sock]; by rewrite !valid_handle_valid by done).
  rewrite Hh. split; [set_solver|]. split; [set_solver|].
  split; [rewrite Hh; set_solver| |done].
  cbn [set_assoc udp_tcp_ctrl udp_send_sock]. rewrite !valid_handle_valid by done. set_solver.
Qed.

Lemma ensure_connected_takes e c :
  let '(c', ok, ev) := ensure_connected e c in takes c c' ev /\ udp_connected c' = ok.
Proof.
  unfold ensure_connected. destruct (udp_connected c) eqn:Hc; [split; [apply takes_none|done]|by apply establish_takes].
Qed.

Lemma resend_takes e datagram c : let '(c', out) := resend e datagram c in takes c c' (effects_handles out).
Proof.
  unfold resend. destruct (drop_assoc_takes c) as [Hd Hf]. destruct (drop_assoc c) as [c1 ev1]. cbn [fst snd] in *.
  pose proof (establish_takes e c1 Hf) as He. destruct (establish_udp_associate_for_config e c1) as [[c2 ok] ev2].
  destruct He as [He Hok]. rewrite effects_app, effects_handle, <- (assoc_L (++)).
  eapply takes_app; [exact Hd|]. eapply takes_app; [exact He|].
  destruct ok; [by apply takes_used|apply takes_none].
Qed.

Lemma forward_v4_takes e1 sends e2 datagram c :
  let '(c', _, out) := forward_v4 e1 sends e2 datagram c in takes c c' (effects_handles out).
Proof.
  unfold forward_v4. pose proof (ensure_connected_takes e1 c) as He.
  destruct (ensure_connected e1 c) as [[c1 ok] ev]. destruct He as [He Hok].
  destruct ok; cbn [negb]; [|by rewrite effects_handle].
  assert (takes c c1 (effects_handles (map Handle ev ++ [ToProxy (udp_send_sock c1) (udp_relay_addr c1) datagram]))) as Hs.
  { rewrite effects_app, effects_handle. eapply takes_app; [exact He|by apply takes_used]. }
  destruct sends; [done|]. pose proof (resend_takes e2 datagram c1) as Hr.
  destruct (resend e2 datagram c1) as [c2 out2]. rewrite effects_app. by eapply takes_app.
Qed.

Lemma forward_v6_takes e1 datagram c :
  let '(c', out) := forward_v6 e1 datagram c in takes c c' (effects_handles out).
Proof.
  unfold forward_v6. pose proof (ensure_connected_takes e1 c) as He.
  destruct (ensure_connected e1 c) as [[c1 ok] ev]. destruct He as [He Hok].
  rewrite effects_app, effects_handle. eapply takes_app; [exact He|].
  destruct ok; [by apply takes_used|apply takes_none].
Qed.

Lemma control_closed_takes e c : let '(c', _, ev) := control_closed e c in takes c c' ev.
Proof.
  unfold control_closed. destruct (_ || _); [apply takes_none|].
  destruct (drop_assoc_takes c) as [Hd Hf]. destruct (drop_assoc c) as [c1 ev1]. cbn [fst snd] in *.
  pose proof (establish_takes e c1 Hf) as He. destruct (establish_udp_associate_for_config e c1) as [[c2 ok] ev2].
  destruct He. by eapply takes_app.
Qed.

Lemma idle_takes rules e c : let '(c', _, ev) := associate_referenced rules true e c in takes c c' ev.
Proof.
  unfold associate_referenced. destruct (_ && is_proxy_config_referenced _ _) eqn:E; [|apply takes_none].
  bool_prop. cbn [andb] in *. pose proof (establish_takes e c) as He.
  destruct (establish_udp_associate_for_config e c) as [[c2 ok] ev2]. apply He. by destruct (udp_connected c).
Qed.

(** ** All configurations *)

Definition all_handles (cfgs : list PROXY_CONFIG) : gset Z := ⋃ (assoc_handles <$> cfgs).

(** Every configuration holds its own open sockets. *)
Fixpoint assocs_wf (open : gset Z) (cfgs : list PROXY_CONFIG) : Prop :=
  match cfgs with
  | [] => True
  | c :: cfgs => assoc_wf open c /\ assoc_handles c ## all_handles cfgs /\ assocs_wf open cfgs
  end.

Definition passes (cfgs cfgs' : list PROXY_CONFIG) (ev : list handle_event) : Prop :=
  forall open, assocs_wf open cfgs ->
  match run_handles open ev with
  | Illegal => True
  | Fault => False
  | Running o => o = (open ∖ all_handles cfgs) ∪ all_handles cfgs' /\
      all_handles cfgs' ## open ∖ all_handles cfgs /\ assocs_wf o cfgs'
  end.

Lemma all_handles_app l1 l2 : all_handles (l1 ++ l2) = all_handles l1 ∪ all_handles l2.
Proof. unfold all_handles. by rewrite fmap_app, union_list_app_L. Qed.

Lemma all_handles_cons c l : all_handles (c :: l) = assoc_handles c ∪ all_handles l.
Proof. done. Qed.

Lemma assocs_wf_open open l : assocs_wf open l -> all_handles l ⊆ open.
Proof.
  induction l as [|c l IH]; [intros _; apply empty_subseteq|]. intros ([Ho _ _] & _ & Hl). rewrite all_handles_cons. set_solver.
Qed.

Lemma assocs_wf_in open o l : assocs_wf open l -> all_handles l ⊆ o -> assocs_wf o l.
Proof.
  induction l as [|c l IH]; [done|]. rewrite all_handles_cons. intros ([_ Hdis Hcon] & Hd & Hl) Ho.
  split; [split; [set_solver|exact Hdis|exact Hcon]|]. split; [done|]. apply IH; [done|set_solver].
Qed.

Lemma assocs_wf_app open l1 l2 :
  assocs_wf open (l1 ++ l2) <-> assocs_wf open l1 /\ assocs_wf open l2 /\ all_handles l1 ## all_handles l2.
Proof.
  induction l1 as [|c l1 IH]; cbn [app assocs_wf]; [change (all_handles []) with (∅ : gset Z); set_solver|].
  rewrite IH, all_handles_app, all_handles_cons. set_solver.
Qed.

Lemma passes_none l : passes l l [].
Proof.
  intros open Hw. pose proof (assocs_wf_open _ _ Hw). simpl. split; [|split; [set_solver|done]].
  apply leibniz_equiv. intros x. destruct (decide (x ∈ all_handles l)); set_solver.
Qed.

Lemma passes_app l l1 l2 ev1 ev2 : passes l l1 ev1 -> passes l1 l2 ev2 -> passes l l2 (ev1 ++ ev2).
Proof.
  intros H1 H2 open Hw. rewrite run_handles_app. specialize (H1 open Hw).
  destruct (run_handles open ev1) as [| |o]; [done..|]. destruct H1 as (-> & Hd & Hw1).
  specialize (H2 _ Hw1). destruct (run_handles _ ev2) as [| |o2]; [done..|].
  replace (((open ∖ all_handles l) ∪ all_handles l1) ∖ all_handles l1) with (open ∖ all_handles l) in H2
    by set_solver. done.
Qed.

(** What is done to one configuration leaves the others alone. *)
Lemma takes_passes c c' ev l1 l2 : takes c c' ev -> passes (l1 ++ c :: l2) (l1 ++ c' :: l2) ev.
Proof.
  intros Ht open Hw. apply assocs_wf_app in Hw as (Hw1 & (Hwc & Hd2 & Hw2) & Hd1).
  specialize (Ht open Hwc). destruct (run_handles open ev) as [| |o]; [done..|]. destruct Ht as (-> & Hd & Hwc').
  rewrite all_handles_app, all_handles_cons, all_handles_app, all_handles_cons in *.
  pose proof (assocs_wf_open _ _ Hw1). pose proof (assocs_wf_open _ _ Hw2).
  split; [|split].
  - apply leibniz_equiv. intros x. destruct (decide (x ∈ all_handles l1)), (decide (x ∈ all_handles l2)); set_solver.
  - set_solver.
  - apply assocs_wf_app. split; [eapply assocs_wf_in; [done|set_solver]|].
    split; [|rewrite all_handles_cons; set_solver].
    split; [done|]. split; [set_solver|]. eapply assocs_wf_in; [done|set_solver].
Qed.

Lemma takes_at cfgs i c c' ev : cfgs !! i = Some c -> takes c c' ev -> passes cfgs (<[i := c']> cfgs) ev.
Proof.
  intros Hi Ht. rewrite <- (take_drop_middle cfgs i c Hi) at 1.
  rewrite (insert_take_drop cfgs i c') by (by apply lookup_lt_is_Some; eexists). by apply takes_passes.
Qed.

Lemma for_configs_passes {E} (f : E -> PROXY_CONFIG -> PROXY_CONFIG * bool * list handle_event) envs pre cfgs :
  (forall e c, let '(c', _, ev) := f e c in takes c c' ev) ->
  let '(cfgs', _, ev) := for_configs f envs cfgs in passes (pre ++ cfgs) (pre ++ cfgs') ev.
Proof.
  intros Hf. revert pre envs. induction cfgs as [|c cfgs IH]; intros pre envs; [destruct envs; apply passes_none|].
  destruct envs as [|e envs]; [apply passes_none|]. cbn [for_configs].
  specialize (Hf e c). destruct (f e c) as [[c' b] ev]. specialize (IH (pre ++ [c']) envs).
  destruct (for_configs f envs cfgs) as [[cfgs' bs] evs].
  eapply passes_app; [by apply takes_passes|]. by rewrite <- !(assoc_L (++)) in IH.
Qed.

(** ** The handlers *)

Lemma route_config_via {D} cfgs (dest d : D) port p id i c :
  route_config cfgs dest port id = Some (Via d p i c) -> cfgs !! i = Some c.
Proof.
  unfold route_config. destruct (find_proxy_index cfgs id) as [j|]; [|done].
  destruct (cfgs !! j) as [c'|] eqn:E; [|done]. cbn [mbind option_bind]. by destruct (is_socks5 c'); intros; simplify_eq.
Qed.

Lemma route_v4_configs now port s s' r :
  route_v4 now port s = Some (s', r) ->
  ur_configs s' = ur_configs s /\ match r with Via _ _ i c => ur_configs s !! i = Some c | _ => True end.
Proof.
  unfold route_v4. destruct (get_connection now (ur_conns s) port true) as [[t [[ip p]|]]|]; [|by intros [= <- <-]|done].
  destruct (get_connection_proxy_id t port true) as [id|]; [|done]. cbn [mbind option_bind].
  destruct (route_config _ _ _ _) as [r'|] eqn:E; [|done]. cbn [mbind option_bind]. intros [= <- <-].
  split; [done|]. destruct r'; [done..|]. by eapply route_config_via.
Qed.

Lemma route_v6_configs now port s s' r :
  route_v6 now port s = Some (s', r) ->
  ur_configs s' = ur_configs s /\ match r with Via _ _ i c => ur_configs s !! i = Some c | _ => True end.
Proof.
  unfold route_v6. destruct (get_connection_full_v6 now (ur_conns s) port true) as [[t [[[ip p] id]|]]|];
    [|by intros [= <- <-]|done].
  destruct (route_config _ _ _ _) as [r'|] eqn:E; [|done]. cbn [mbind option_bind]. intros [= <- <-].
  split; [done|]. destruct r'; [done..|]. by eapply route_config_via.
Qed.

Lemma client_v4_passes now e1 sends e2 port data s s' b out :
  udp_from_client_v4 now e1 sends e2 port data s = Some (s', b, out) ->
  passes (ur_configs s) (ur_configs s') (effects_handles out).
Proof.
  unfold udp_from_client_v4. destruct (is_empty data); [intros [= <- <- <-]; apply passes_none|].
  destruct (_ <? _); [intros [= <- <- <-]; apply passes_none|].
  destruct (route_v4 now port s) as [[s1 r]|] eqn:Er; [|done].
  apply route_v4_configs in Er as [Hc Hv].
  destruct r as [| |d p i c]; [intros [= <- <- <-]; rewrite Hc; apply passes_none..|].
  pose proof (forward_v4_takes e1 sends e2 (encapsulate_v4 d p data) c) as Hf.
  destruct (forward_v4 _ _ _ _ _) as [[c' b'] out']. intros [= <- <- <-]. rewrite Hc in *. by eapply takes_at.
Qed.

Lemma client_v6_passes now e1 port data s s' out :
  udp_from_client_v6 now e1 port data s = Some (s', out) ->
  passes (ur_configs s) (ur_configs s') (effects_handles out).
Proof.
  unfold udp_from_client_v6. destruct (_ || _); [intros [= <- <-]; apply passes_none|].
  destruct (route_v6 now port s) as [[s1 r]|] eqn:Er; [|done].
  apply route_v6_configs in Er as [Hc Hv].
  destruct r as [| |d p i c]; [intros [= <- <-]; rewrite Hc; apply passes_none..|].
  pose proof (forward_v6_takes e1 (encapsulate_v6 d p data) c) as Hf.
  destruct (forward_v6 _ _ _) as [c' out']. intros [= <- <-]. rewrite Hc in *. by eapply takes_at.
Qed.

(** Deliveries to clients leave the associations alone. *)
Lemma deliver_passes now data s s' out :
  deliver now data s = Some (s', out) -> ur_configs s' = ur_configs s /\ effects_handles out = [].
Proof. unfold deliver. intros. repeat (case_match; simplify_eq/=; try done). Qed.

Lemma proxy_passes now i r s s' out :
  udp_from_proxy now i r s = Some (s', out) -> passes (ur_configs s) (ur_configs s') (effects_handles out).
Proof.
  unfold udp_from_proxy. destruct (ur_configs s !! i) as [c|] eqn:Ei; [|intros [= <- <-]; apply passes_none].
  destruct (_ || _); [intros [= <- <-]; apply passes_none|]. destruct r as [data|].
  - intros [-> ->]%deliver_passes. apply passes_none.
  - destruct (drop_assoc_takes c) as [Hd _]. destruct (drop_assoc c) as [c1 ev]. intros [= <- <-].
    rewrite effects_handle. by eapply takes_at.
Qed.

Lemma proxies_passes now l s s' out :
  from_proxies now l s = Some (s', out) -> passes (ur_configs s) (ur_configs s') (effects_handles out).
Proof.
  revert s out. induction l as [|[i r] l IH]; intros s out; cbn [from_proxies]; [intros [= <- <-]; apply passes_none|].
  destruct (udp_from_proxy now i r s) as [[s1 o1]|] eqn:E1; [|done].
  destruct (from_proxies now l s1) as [[s2 o2]|] eqn:E2; [|done]. intros [= <- <-]. rewrite effects_app.
  eapply passes_app; [by eapply proxy_passes|by apply IH].
Qed.

Lemma pass_data_passes now client proxies client6 s s' out :
  pass_data now client proxies client6 s = Some (s', out) ->
  passes (ur_configs s) (ur_configs s') (effects_handles out).
Proof.
  unfold pass_data. destruct (match client with None => _ | _ => _ end) as [[[s1 b] o1]|] eqn:E1; [|done].
  assert (passes (ur_configs s) (ur_configs s1) (effects_handles o1)) as H1.
  { destruct client as [[ci|]|]; [by eapply client_v4_passes|simplify_eq; apply passes_none..]. }
  destruct b; [by intros [= <- <-]|]. destruct (from_proxies now proxies s1) as [[s2 o2]|] eqn:E2; [|done].
  destruct (from_client6 now client6 s2) as [[s3 o3]|] eqn:E3; [|done]. intros [= <- <-].
  rewrite !effects_app. eapply passes_app; [exact H1|]. eapply passes_app; [by eapply proxies_passes|].
  unfold from_client6 in E3. destruct client6 as [ci|]; [|simplify_eq; apply passes_none].
  destruct (ur_has_v6 s2); [by eapply client_v6_passes|simplify_eq; apply passes_none].
Qed.

Lemma pass_passes now rules input s s' out :
  udp_relay_pass now rules input s = Some (s', out) -> passes (ur_configs s) (ur_configs s') (effects_handles out).
Proof.
  unfold udp_relay_pass. destruct input as [envs|controls client proxies client6].
  - pose proof (for_configs_passes (associate_referenced rules true) envs [] (ur_configs s) (idle_takes rules)) as Hf.
    unfold idle_reconnect. destruct (for_configs _ _ _) as [[cfgs b] ev]. intros [= <- <-]. by rewrite effects_handle.
  - pose proof (for_configs_passes (fun e c => match e with Some e => control_closed e c | None => (c, false, []) end)
      controls [] (ur_configs s)) as Hf.
    unfold check_controls. destruct (for_configs _ _ _) as [[cfgs b] ev].
    assert (passes (ur_configs s) cfgs ev) as H1.
    { apply Hf. intros [e|] c; [apply control_closed_takes|apply takes_none]. }
    destruct b; [intros [= <- <-]; by rewrite effects_handle|].
    destruct (pass_data _ _ _ _ _) as [[s2 o2]|] eqn:E; [|done]. intros [= <- <-].
    rewrite effects_app, effects_handle. eapply passes_app; [exact H1|]. by apply pass_data_passes in E.
Qed.

(** Through any pass of the relay, whatever arrives and whichever call fails,
    every datagram to a proxy leaves through an open socket, no socket is closed
    twice, those of the configurations stay open and distinct, and of what the
    pass opened exactly what the configurations hold afterwards stays open. *)
Theorem udp_relay_pass_handles now rules input s s' out open :
  udp_relay_pass now rules input s = Some (s', out) -> assocs_wf open (ur_configs s) ->
  match run_handles open (effects_handles out) with
  | Illegal => True
  | Fault => False
  | Running open' =>
      open' = (open ∖ all_handles (ur_configs s)) ∪ all_handles (ur_configs s') /\
      assocs_wf open' (ur_configs s')
  end.
Proof.
  intros Hp Hw. pose proof (pass_passes now rules input s s' out Hp open Hw) as H1.
  destruct (run_handles _ _); [done..|]. by destruct H1 as (? & _ & ?).
Qed.

(** The first associations, of configurations that have none, and the end. *)
Lemma initial_passes rules envs cfgs :
  Forall (fun c => udp_connected c = false) cfgs ->
  let '(cfgs', _, ev) := initial_associations rules envs cfgs in passes cfgs cfgs' ev.
Proof.
  intros Hc. unfold initial_associations.
  enough (forall pre, let '(cfgs', _, ev) := for_configs (associate_referenced rules false) envs cfgs in
    passes (pre ++ cfgs) (pre ++ cfgs') ev) as Hp by exact (Hp []).
  revert envs. induction Hc as [|c cfgs Hc _ IH]; intros envs pre; [destruct envs; apply passes_none|].
  destruct envs as [|e envs]; [apply passes_none|]. cbn [for_configs].
  assert (let '(c', _, ev) := associate_referenced rules false e c in takes c c' ev) as Hf.
  { unfold associate_referenced. destruct (_ && is_proxy_config_referenced _ _); [|apply takes_none].
    pose proof (establish_takes e c Hc) as He. destruct (establish_udp_associate_for_config e c) as [[c2 ok] ev2]. apply He. }
  destruct (associate_referenced rules false e c) as [[c' b] ev]. specialize (IH envs (pre ++ [c'])).
  destruct (for_configs _ envs cfgs) as [[cfgs' bs] evs].
  eapply passes_app; [by apply takes_passes|]. by rewrite <- !(assoc_L (++)) in IH.
Qed.

Lemma close_passes cfgs :
  let '(cfgs', ev) := close_associations cfgs in passes cfgs cfgs' ev /\ all_handles cfgs' = ∅.
Proof.
  enough (forall pre, let '(cfgs', ev) := close_associations cfgs in
    passes (pre ++ cfgs) (pre ++ cfgs') ev /\ all_handles cfgs' = ∅) as Hp by exact (Hp []).
  induction cfgs as [|c cfgs IH]; intros pre; [by split; [apply passes_none|]|]. cbn [close_associations].
  destruct (drop_assoc_takes c) as [Hd _]. pose proof (close_assoc_none c) as Hn.
  change (assoc_handles (fst (close_assoc c))) with (assoc_handles (fst (drop_assoc c))) in Hn.
  destruct (drop_assoc c) as [c' ev]. cbn [fst snd] in *.
  specialize (IH (pre ++ [c'])). destruct (close_associations cfgs) as [cfgs' evs]. destruct IH as [IH He].
  split; [|rewrite all_handles_cons, Hn, He; set_solver].
  eapply passes_app; [by apply takes_passes|]. by rewrite <- !(assoc_L (++)) in IH.
Qed.
End Establish.
