(* ===== verification/Handler.v ===== *)
(** * Redirected connections (pb_relay.c)

    The listener's decision on an accepted socket, the handler that connects it
    to its proxy, and the blocking relay that moves the bytes when the
    completion-port pool does not take the connection. *)
From S2P Require Import Prelude CLib HashTable Util Types Matching ProxyConfig Socks5 Dns Http Process.
From S2P Require Import Rules ConnTrack UdpRelay AssocHandles.

(** ** Who may use a tracked flow *)

Definition relay_peer_ok_v4 (peer original_destination : Z) : bool :=
  (Z.shiftr (ntohl peer) 24 =? 127) || (peer =? original_destination).

Definition relay_peer_ok_v6 (peer original_destination : bytes) : bool :=
  memeq peer loopback6 || (memeq (take 12 peer) mapped_prefix && (at_ peer 12 =? 127)) ||
  memeq peer original_destination.

(** What the handler gets ([CONNECTION_CONFIG]). *)
Inductive destination := Dest4 (ip : Z) | Dest6 (ip6 : bytes).
Record CONNECTION_CONFIG := mkConnConfig {
  client_socket : Z; cc_dest : destination; cc_dest_port : Z; cc_proxy_config_id : Z }.

(** The surroundings of one accept: the allocation, [begin_connection_worker]
    and [CreateThread]. *)
Record AcceptEnv := mkAcceptEnv { ac_malloc : bool; ac_begins : bool; ac_thread : bool }.

(** An accepted socket is given to a handler or closed. *)
Inductive accepted := Dispatched (c : CONNECTION_CONFIG) | TurnedAway (closed : list handle_event).

Definition dispatch (e : AcceptEnv) (client : Z) (tracked : option CONNECTION_CONFIG) : accepted :=
  match tracked with
  | Some c => if ac_begins e && ac_thread e then Dispatched c else TurnedAway [Closed client]
  | None => TurnedAway [Closed client]
  end.

Definition accept_v4 (now : Z) (e : AcceptEnv) (client peer_ip peer_port : Z) (t : ConnTable)
  : option (ConnTable * accepted) :=
  if negb (ac_malloc e) then Some (t, TurnedAway [Closed client])
  else match get_connection_full now t peer_port false with
       | None => None
       | Some (t, Some (ip, port, id)) =>
           Some (t, dispatch e client
                      (if relay_peer_ok_v4 peer_ip ip then Some (mkConnConfig client (Dest4 ip) port id) else None))
       | Some (t, None) => Some (t, dispatch e client None)
       end.

Definition accept_v6 (now : Z) (e : AcceptEnv) (client : Z) (peer_ip6 : bytes) (peer_port : Z) (t : ConnTable)
  : option (ConnTable * accepted) :=
  if negb (ac_malloc e) then Some (t, TurnedAway [Closed client])
  else match get_connection_full_v6 now t peer_port false with
       | None => None
       | Some (t, Some (ip6, port, id)) =>
           Some (t, dispatch e client
                      (if relay_peer_ok_v6 peer_ip6 ip6 then Some (mkConnConfig client (Dest6 ip6) port id) else None))
       | Some (t, None) => Some (t, dispatch e client None)
       end.

(** ** The handler *)

(** The clock, the handle [socket] gives, whether [connect] succeeds, the
    stream of the proxy, the allocation of the transfer. *)
Record HandlerEnv := mkHandlerEnv {
  he_now : Z; he_socket : Z; he_connects : bool; he_stream : Sock; he_malloc : bool }.

Section Handler.
Context `{Platform} (inet_ntop6 : bytes -> bytes).

Definition connected (r : Sock * connect_result) : Sock * bool :=
  (fst r, match snd r with Connected => true | _ => false end).

(** The name is only looked up for a configuration that opts in. *)
Definition socks5_handshake (now : Z) (dns : DnsCaches) (cfg : PROXY_CONFIG) (dest : destination) (port : Z)
    (s : Sock) : Sock * bool :=
  match dest with
  | Dest6 ip6 =>
      match (if send_domain_to_proxy cfg then dns_cache_lookup_v6 now dns ip6 256 else None) with
      | Some cached_domain => connected (socks5_connect_domain cached_domain port s)
      | None => connected (socks5_connect_v6 ip6 port s)
      end
  | Dest4 ip =>
      match (if send_domain_to_proxy cfg then dns_cache_lookup now dns ip 256 else None) with
      | Some cached_domain => connected (socks5_connect_domain cached_domain port s)
      | None => connected (socks5_connect ip port s)
      end
  end.

Definition http_handshake (now : Z) (dns : DnsCaches) (cfg : PROXY_CONFIG) (dest : destination) (port : Z)
    (s : Sock) : option (Sock * bool) :=
  let '(s, r) := match dest with
                 | Dest6 ip6 => http_connect_v6 inet_ntop6 now dns cfg ip6 port s
                 | Dest4 ip => http_connect now dns cfg ip port s
                 end in
  match r with HttpFault => None | HttpReturns rc => Some (s, rc =? 0) end.

Definition proxy_handshake (now : Z) (dns : DnsCaches) (cfg : PROXY_CONFIG) (dest : destination) (port : Z)
    (s : Sock) : option (Sock * bool) :=
  match pc_type cfg with
  | PROXY_TYPE_SOCKS5 => Some (socks5_handshake now dns cfg dest port s)
  | PROXY_TYPE_HTTP => http_handshake now dns cfg dest port s
  end.

(** The handles opened and closed, and the two sockets for the transfer; [None]
    is a fault. *)
Definition connection_handler (e : HandlerEnv) (dns : DnsCaches) (cfgs : list PROXY_CONFIG) (c : CONNECTION_CONFIG)
  : option (list handle_event * option (Z * Z)) :=
  let client_sock := client_socket c in
  match find_proxy_config cfgs (cc_proxy_config_id c) with
  | None => Some ([Closed client_sock], None)
  | Some proxy =>
      if is_empty (host proxy) || (pc_port proxy =? 0) then Some ([Closed client_sock], None)
      else
        let proxy_ip := if resolved_ip proxy =? 0 then resolve_hostname (Some (host proxy)) else resolved_ip proxy in
        if proxy_ip =? 0 then Some ([Closed client_sock], None)
        else
          let socks_sock := he_socket e in
          if socks_sock =? INVALID_SOCKET then Some ([Closed client_sock], None)
          else
            let failed := Some ([Opened socks_sock; Closed client_sock; Closed socks_sock], None) in
            if negb (he_connects e) then failed
            else match proxy_handshake (he_now e) dns proxy (cc_dest c) (cc_dest_port c) (he_stream e) with
                 | None => None
                 | Some (_, false) => failed
                 | Some (_, true) =>
                     if he_malloc e then Some ([Opened socks_sock], Some (client_sock, socks_sock)) else failed
                 end
  end.
End Handler.

(** ** The blocking relay *)

(** What one round of [one_way_relay] meets: the shutdown event, nothing within
    a second, an error of [select] or [recv], bytes (none at the end of the
    stream). *)
Inductive relay_round := RoundShutdown | RoundTimeout | RoundError | RoundRecv (data : bytes).

(** The loop of one direction: whether the end was clean, and what was sent;
    [None] while it goes on. *)
Fixpoint one_way_loop (rounds : list relay_round) (sends : list Z) (sent : bytes) : option bool * bytes :=
  match rounds with
  | [] => (None, sent)
  | RoundShutdown :: _ | RoundError :: _ => (Some false, sent)
  | RoundTimeout :: rounds => one_way_loop rounds sends sent
  | RoundRecv [] :: _ => (Some true, sent)
  | RoundRecv data :: rounds =>
      let '(r, out, sends) := send_all sends data in
      match r with
      | None => (Some false, sent ++ out)
      | Some _ => one_way_loop rounds sends (sent ++ out)
      end
  end.

(** What the rounds delivered. *)
Fixpoint rounds_received (rounds : list relay_round) : bytes :=
  match rounds with
  | [] | RoundShutdown :: _ | RoundError :: _ | RoundRecv [] :: _ => []
  | RoundTimeout :: rounds => rounds_received rounds
  | RoundRecv data :: rounds => data ++ rounds_received rounds
  end.

(** The surroundings of a transfer: the pool took the sockets, the allocations,
    the registration, the upload thread. *)
Record TransferEnv := mkTransferEnv {
  te_pool : bool; te_pair : bool; te_registers : bool; te_configs : bool; te_thread : bool }.

(** [PoolOwns]: the pool closes the sockets (Relay).  [PairOwns]: the pair of the
    two blocking directions does (RelayPairs). *)
Inductive transfer := PoolOwns | ClosedBoth (events : list handle_event) | PairOwns.

Definition transfer_handler (e : TransferEnv) (client proxy : Z) : transfer :=
  let closed := ClosedBoth [Closed client; Closed proxy] in
  if te_pool e then PoolOwns
  else if negb (te_pair e) then closed
  else if negb (te_registers e) then closed
  else if negb (te_configs e) then closed
  else if negb (te_thread e) then closed
  else PairOwns.

Definition transfer_events (t : transfer) : list handle_event :=
  match t with ClosedBoth ev => ev | PoolOwns | PairOwns => [] end.
Definition taken_over (t : transfer) : bool :=
  match t with ClosedBoth _ => false | PoolOwns | PairOwns => true end.

(** ** What is let in *)

(** A socket reaches a handler only from a tracked TCP port, and only from this
    host or from the address the flow was meant for; every other is closed. *)
Lemma accept_v4_guarded now e client peer_ip peer_port t :
  ct_wf t ->
  exists t' r, accept_v4 now e client peer_ip peer_port t = Some (t', r) /\ ct_wf t' /\
    match r with
    | TurnedAway ev => ev = [Closed client]
    | Dispatched c => exists f, conn_of t (peer_port, false, false) = Some f /\
        (octet 0 peer_ip = 127 \/ peer_ip = orig_dest_ip f) /\
        c = mkConnConfig client (Dest4 (orig_dest_ip f)) (orig_dest_port f) (c_proxy_config_id f)
    end.
Proof.
  intros Hwf. unfold accept_v4. destruct (negb _); [by do 2 eexists|]. unfold get_connection_full.
  destruct (get_touch_spec now t peer_port false false Hwf) as (t' & -> & Hwt & _).
  destruct (conn_of t (peer_port, false, false)) as [f|]; cbn [option_map]; [|by do 2 eexists].
  do 2 eexists. split; [reflexivity|]. split; [done|].
  destruct (relay_peer_ok_v4 peer_ip (orig_dest_ip f)) eqn:Ep; cbn [dispatch]; [|done].
  destruct (_ && _); [|done]. exists f. split; [done|]. split; [|done].
  unfold relay_peer_ok_v4 in Ep. rewrite ntohl_first in Ep.
  apply orb_true_iff in Ep as [?%Z.eqb_eq|?%Z.eqb_eq]; auto.
Qed.

Lemma accept_v6_guarded now e client peer_ip6 peer_port t :
  ct_wf t ->
  exists t' r, accept_v6 now e client peer_ip6 peer_port t = Some (t', r) /\ ct_wf t' /\
    match r with
    | TurnedAway ev => ev = [Closed client]
    | Dispatched c => exists f, conn_of t (peer_port, false, true) = Some f /\
        (peer_ip6 = loopback6 \/ (take 12 peer_ip6 = mapped_prefix /\ at_ peer_ip6 12 = 127) \/
         peer_ip6 = orig_dest_ip6 f) /\
        c = mkConnConfig client (Dest6 (orig_dest_ip6 f)) (orig_dest_port f) (c_proxy_config_id f)
    end.
Proof.
  intros Hwf. unfold accept_v6. destruct (negb _); [by do 2 eexists|]. unfold get_connection_full_v6.
  destruct (get_touch_spec now t peer_port false true Hwf) as (t' & -> & Hwt & _).
  destruct (conn_of t (peer_port, false, true)) as [f|]; cbn [option_map]; [|by do 2 eexists].
  do 2 eexists. split; [reflexivity|]. split; [done|].
  destruct (relay_peer_ok_v6 peer_ip6 (orig_dest_ip6 f)) eqn:Ep; cbn [dispatch]; [|done].
  destruct (_ && _); [|done]. exists f. split; [done|]. split; [|done].
  unfold relay_peer_ok_v6, memeq in Ep. rewrite !orb_true_iff, andb_true_iff, !bool_decide_eq_true, Z.eqb_eq in Ep. tauto.
Qed.

(** ** What the proxy learns *)

Definition snooped_name (now : Z) (dns : DnsCaches) (dest : destination) : option bytes :=
  match dest with
  | Dest4 ip => dns_cache_lookup now dns ip 256
  | Dest6 ip6 => dns_cache_lookup_v6 now dns ip6 256
  end.

(** The CONNECT request for a name, or for the address. *)
Definition asked_for (name : option bytes) (dest : destination) (port : Z) : bytes :=
  match name, dest with
  | Some n, _ => connect_request SOCKS5_ATYP_DOMAIN (strnlen_s n 256 :: take (Z.to_nat (strnlen_s n 256)) n) port
  | None, Dest4 ip => connect_request SOCKS5_ATYP_IPV4 (ip_octets ip) port
  | None, Dest6 ip6 => connect_request SOCKS5_ATYP_IPV6 ip6 port
  end.

(** C25: Whatever the proxy answers and however the connection fails, only a prefix
    of the greeting and one CONNECT request goes out, the request only to a proxy
    that took the method without authentication: no credentials are sent.  The
    request names the destination when the configuration opted in and the name
    was snooped, and carries its address otherwise: a proxy that did not opt in
    learns no names. *)
Theorem socks5_handshake_sends now dns cfg dest port s :
  exists p name,
    sk_out (fst (socks5_handshake now dns cfg dest port s)) = sk_out s ++ p /\
    name = (if send_domain_to_proxy cfg then snooped_name now dns dest else None) /\
    (p `prefix_of` greeting \/
     p `prefix_of` greeting ++ asked_for name dest port /\
     exists reply, fst (recv_n (sk_in s) 2) = Some reply /\
       at_ reply 0 = SOCKS5_VERSION /\ at_ reply 1 = SOCKS5_AUTH_NONE).
Proof.
  set (name := if send_domain_to_proxy cfg then snooped_name now dns dest else None).
  enough (exists p, sk_out (fst (socks5_handshake now dns cfg dest port s)) = sk_out s ++ p /\
    (p = [] \/ exists q, sk_out (fst (connect_exchange (asked_for name dest port) s)) = sk_out s ++ q /\ p = q))
    as (p & Hp & [-> | (q & Hq & ->)]).
  - exists [], name. split; [done|]. split; [done|]. left. apply prefix_nil.
  - destruct (connect_exchange_out (asked_for name dest port) s) as (q' & Hq' & H). rewrite Hq in Hq'.
    apply app_inv_head in Hq' as <-. exists q, name. auto.
  - destruct (connect_exchange_out (asked_for name dest port) s) as (q & Hq & _).
    unfold socks5_handshake, name, snooped_name in *. clear name.
    destruct dest, (send_domain_to_proxy cfg); [destruct (dns_cache_lookup _ _ _ _)|..|destruct (dns_cache_lookup_v6 _ _ _ _)|];
      cbn [connected fst]; unfold socks5_connect_domain, socks5_connect, socks5_connect_v6;
      try (destruct (_ || _); [exists []; rewrite app_nil_r; by auto|]);
      (exists q; split; [exact Hq|right; by exists q]).
Qed.

(** ** The bytes of the blocking relay *)

Lemma one_way_loop_spec rounds sends sent :
  let '(r, out) := one_way_loop rounds sends sent in
  exists more, out = sent ++ more /\ more `prefix_of` rounds_received rounds /\
    (r <> Some false -> more = rounds_received rounds).
Proof.
  revert sends sent. induction rounds as [|x rounds IH]; intros sends sent; cbn [one_way_loop rounds_received].
  { exists []. by rewrite app_nil_r. }
  destruct x as [| | |[|b data]]; cbn [one_way_loop rounds_received];
    try (exists []; rewrite app_nil_r; split; [done|]; split; [apply prefix_nil|done]); [apply IH|].
  destruct (send_all sends (b :: data)) as [[r out] sends'] eqn:E.
  destruct (send_loop_prefix _ _ _ _ _ _ E) as [Hp Hr]. destruct r as [[]|].
  - rewrite (Hr eq_refl) in *. specialize (IH sends' (sent ++ b :: data)).
    destruct (one_way_loop rounds sends' (sent ++ b :: data)) as [r out']. destruct IH as (more & -> & Hm & Hc).
    exists ((b :: data) ++ more). split; [by rewrite <- (assoc_L (++))|]. split; [by apply prefix_app|].
    intros Hn. by rewrite (Hc Hn).
  - exists out. split; [done|]. split; [by apply prefix_app_r|done].
Qed.

(** Whatever the rounds and the sends do, the other side gets a prefix of what
    was received, and all of it when the direction ends cleanly or goes on. *)
Theorem one_way_relay_exact rounds sends :
  let '(r, out) := one_way_loop rounds sends [] in
  out `prefix_of` rounds_received rounds /\ (r <> Some false -> out = rounds_received rounds).
Proof.
  pose proof (one_way_loop_spec rounds sends []) as H. destruct (one_way_loop rounds sends []) as [r out].
  by destruct H as (more & -> & ? & ?).
Qed.

(** ** The sockets of a connection *)

Section HandlerSpec.
Context `{Platform} (inet_ntop6 : bytes -> bytes).

Lemma handshake_total now dns cfg dest port s :
  0 <= port < 2 ^ 16 -> is_Some (proxy_handshake inet_ntop6 now dns cfg dest port s).
Proof.
  intros Hp. unfold proxy_handshake. destruct (pc_type cfg); [|by eexists]. unfold http_handshake.
  assert (forall host_part ok, (length host_part <= 269)%nat ->
    exists s' rc, http_exchange (request_in_buffer (http_request host_part port)) ok s = (s', HttpReturns rc)) as Hx.
  { intros host_part ok Hl. rewrite request_fits_buffer by done. unfold http_exchange. destruct (sock_send _ s) as [s1 n].
    destruct (negb _); [by do 2 eexists|]. destruct (sock_recv _ s1). by do 2 eexists. }
  destruct dest as [ip|ip6]; [destruct (http_host_length now dns cfg ip (fun a => a) []) as [Hl _];
      unfold http_connect; destruct (Hx (http_host_v4 now dns cfg ip) status_ok_v4) as (s' & rc & ->); [lia|]
    |destruct (http_host_length now dns cfg 0 inet_ntop6 ip6) as [_ Hl];
      unfold http_connect_v6; destruct (Hx (http_host_v6 inet_ntop6 now dns cfg ip6) status_ok_v6) as (s' & rc & ->); [lia|]];
    by eexists.
Qed.

Lemma run_closed open s c :
  s ∉ open -> c ∈ open ->
  run_handles ({[s]} ∪ open) [Closed c; Closed s] = Running (open ∖ {[c]}).
Proof.
  intros Hs Hc. cbn [run_handles]. rewrite decide_True by set_solver. rewrite decide_True by set_solver. f_equal. set_solver.
Qed.

(** C26: Whatever fails on the way to the proxy or in setting the relay up: the
    accepted socket and the one to the proxy are closed exactly once and not used
    afterwards, unless both are open and one of the relays took them over. *)
Theorem connection_sockets e dns cfgs c te open :
  client_socket c ∈ open -> 0 <= cc_dest_port c < 2 ^ 16 ->
  exists ev handed, connection_handler inet_ntop6 e dns cfgs c = Some (ev, handed) /\
    match run_handles open (ev ++ match handed with
            | Some (client, proxy) => transfer_events (transfer_handler te client proxy)
            | None => [] end) with
    | Illegal => True
    | Fault => False
    | Running open' =>
        open' = match handed with
                | Some (client, proxy) => if taken_over (transfer_handler te client proxy) then {[proxy]} ∪ open
                    else open ∖ {[client]}
                | None => open ∖ {[client_socket c]}
                end /\
        match handed with Some (client, proxy) => client = client_socket c /\ proxy ∉ open | None => True end
    end.
Proof.
  intros Hc Hp. set (client := client_socket c) in *. unfold connection_handler. fold client.
  assert (run_handles open [Closed client] = Running (open ∖ {[client]})) as H1 by (cbn; by rewrite decide_True).
  assert (forall s, match run_handles open [Opened s; Closed client; Closed s] with
                    | Illegal => True | Fault => False | Running o => o = open ∖ {[client]} /\ True end) as H2.
  { intros s. cbn [run_handles]. case_decide as Hs; [done|]. pose proof (run_closed open s client Hs Hc) as Hr.
    cbn [run_handles] in Hr. by rewrite Hr. }
  destruct (find_proxy_config _ _) as [proxy|]; [|do 2 eexists; split; [reflexivity|]; rewrite app_nil_r, H1; done].
  destruct (_ || _); [do 2 eexists; split; [reflexivity|]; rewrite app_nil_r, H1; done|].
  destruct (_ =? 0); [do 2 eexists; split; [reflexivity|]; rewrite app_nil_r, H1; done|].
  destruct (_ =? _); [do 2 eexists; split; [reflexivity|]; rewrite app_nil_r, H1; done|].
  pose proof (H2 (he_socket e)) as Hfail.
  destruct (negb _); [do 2 eexists; split; [reflexivity|]; rewrite app_nil_r; by destruct (run_handles _ _)|].
  destruct (handshake_total (he_now e) dns proxy (cc_dest c) (cc_dest_port c) (he_stream e) Hp) as [[s' ok] ->].
  destruct ok; [|do 2 eexists; split; [reflexivity|]; rewrite app_nil_r; exact Hfail].
  destruct (he_malloc e); [|do 2 eexists; split; [reflexivity|]; rewrite app_nil_r; exact Hfail].
  do 2 eexists. split; [reflexivity|]. rewrite run_handles_app. cbn [run_handles]. case_decide as Hs; [done|].
  unfold transfer_handler. destruct (te_pool te); [done|].
  destruct (negb (te_pair te)); [cbn [transfer_events taken_over]; by rewrite run_closed|].
  destruct (negb (te_registers te)); [cbn [transfer_events taken_over]; by rewrite run_closed|].
  destruct (negb (te_configs te)); [cbn [transfer_events taken_over]; by rewrite run_closed|].
  destruct (negb (te_thread te)); [cbn [transfer_events taken_over]; by rewrite run_closed|].
  done.
Qed.
End HandlerSpec.
