(* ===== verification/Listeners.v ===== *)
(** * The two relay threads (local_proxy_server, udp_relay_server of pb_relay.c)

    Each thread creates its sockets, tells Start whether it is ready, serves
    until the engine stops and closes what it holds.  What a thread does is the
    list of its events, so that the sockets it was left with, the start result
    and the Winsock references can be counted on every path. *)
From S2P Require Import Prelude CLib HashTable Util Types Matching ProxyConfig Socks5 Process Rules ConnTrack.
From S2P Require Import UdpRelay AssocHandles Handler.

(** A socket is opened, used, closed or given to a worker; Winsock is taken into
    use and released; the start result is published. *)
Inductive thread_event :=
| OwnSocket (e : handle_event)
| GivenAway (h : Z)
| WinsockUp
| WinsockDown
| Published (ready : bool).

(** [publish_start_result]: the status, then the event. *)
Definition publish_start_result (ready : bool) : list thread_event := [Published ready].

(** ** Setting up *)

(** The IPv6 socket when it can be had and bound; the servers do without
    otherwise ([INVALID_SOCKET]). *)
Definition open_v6 (s : Z) (bound : bool) : list thread_event * Z :=
  if s =? INVALID_SOCKET then ([], INVALID_SOCKET)
  else if bound then ([OwnSocket (Opened s)], s)
  else ([OwnSocket (Opened s); OwnSocket (Closed s)], INVALID_SOCKET).

(** Both threads begin alike: Winsock, the IPv4 socket and its binding, each
    failure published and undone; the IPv6 socket; the good news. *)
Definition server_setup (winsock : bool) (s : Z) (bound : bool) (s6 : Z) (bound6 : bool)
  : list thread_event * option (Z * Z) :=
  if negb winsock then (publish_start_result false, None)
  else if s =? INVALID_SOCKET then ([WinsockUp] ++ publish_start_result false ++ [WinsockDown], None)
  else if negb bound then
    ([WinsockUp; OwnSocket (Opened s)] ++ publish_start_result false ++ [OwnSocket (Closed s); WinsockDown], None)
  else
    let '(ev, s6) := open_v6 s6 bound6 in
    ([WinsockUp; OwnSocket (Opened s)] ++ ev ++ publish_start_result true, Some (s, s6)).

(** ** The TCP listener *)

(** What the system answers while the sockets are set up. *)
Record ListenerEnv := mkListenerEnv {
  ln_winsock : bool;
  ln_socket : Z; ln_bind : bool; ln_listen : bool;
  ln_socket6 : Z; ln_bind6 : bool; ln_listen6 : bool
}.

(** The events up to the loop, and the two sockets when there is one. *)
Definition listener_setup (e : ListenerEnv) : list thread_event * option (Z * Z) :=
  server_setup (ln_winsock e) (ln_socket e) (ln_bind e && ln_listen e) (ln_socket6 e) (ln_bind6 e && ln_listen6 e).

(** What [accept] gives: the socket, where it comes from, the clock, the
    surroundings.  [in_before] is what the other threads did to the table of
    flows since the last accept. *)
Record arrival (A : Type) := mkArrival {
  in_socket : Z; in_peer : A; in_port : Z; in_now : Z; in_env : AcceptEnv; in_before : ConnTable -> ConnTable }.
Arguments mkArrival {A}.
Arguments in_socket {A}.
Arguments in_peer {A}.
Arguments in_port {A}.
Arguments in_now {A}.
Arguments in_env {A}.
Arguments in_before {A}.

(** A socket that went to a handler, with the table its flow was found in. *)
Record admission := mkAdmission {
  ad_table : ConnTable; ad_peer : destination; ad_peer_port : Z; ad_config : CONNECTION_CONFIG }.

Definition accept_events (r : accepted) : list thread_event :=
  match r with
  | Dispatched c => [GivenAway (client_socket c)]
  | TurnedAway ev => map OwnSocket ev
  end.

Definition admitted_of {A} (family : A -> destination) (i : arrival A) (t : ConnTable) (r : accepted) : list admission :=
  match r with
  | Dispatched c => [mkAdmission t (family (in_peer i)) (in_port i) c]
  | TurnedAway _ => []
  end.

(** One [accept] of a readable listening socket. *)
Definition accept_one {A} (family : A -> destination)
    (accept : Z -> AcceptEnv -> Z -> A -> Z -> ConnTable -> option (ConnTable * accepted))
    (i : arrival A) (t : ConnTable) : option (ConnTable * list thread_event * list admission) :=
  if in_socket i =? INVALID_SOCKET then Some (t, [], [])
  else
    let t := in_before i t in
    '(t', r) ← accept (in_now i) (in_env i) (in_socket i) (in_peer i) (in_port i) t;
    Some (t', OwnSocket (Opened (in_socket i)) :: accept_events r, admitted_of family i t r).

(** A round of the loop: nothing within a second (or an error of [select]), or
    what the readable sockets accept. *)
Inductive accept_round := NothingReady | Readable (v4 : option (arrival Z)) (v6 : option (arrival bytes)).

Definition when {A} (o : option A) (f : A -> ConnTable -> option (ConnTable * list thread_event * list admission))
    (t : ConnTable) : option (ConnTable * list thread_event * list admission) :=
  match o with Some a => f a t | None => Some (t, [], []) end.

(** The second listening socket is looked at when there is one. *)
Definition listener_round (listen_sock6 : Z) (r : accept_round) (t : ConnTable)
  : option (ConnTable * list thread_event * list admission) :=
  match r with
  | NothingReady => Some (t, [], [])
  | Readable v4 v6 =>
      '(t, ev, ad) ← when v4 (accept_one Dest4 accept_v4) t;
      '(t, ev', ad') ← when (if listen_sock6 =? INVALID_SOCKET then None else v6) (accept_one Dest6 accept_v6) t;
      Some (t, ev ++ ev', ad ++ ad')
  end.

(** The rounds until [running] is cleared. *)
Fixpoint listener_loop (listen_sock6 : Z) (rounds : list accept_round) (t : ConnTable)
  : option (ConnTable * list thread_event * list admission) :=
  match rounds with
  | [] => Some (t, [], [])
  | r :: rounds =>
      '(t, ev, ad) ← listener_round listen_sock6 r t;
      '(t, ev', ad') ← listener_loop listen_sock6 rounds t;
      Some (t, ev ++ ev', ad ++ ad')
  end.

Definition close_own (h : Z) : list thread_event := map OwnSocket (close_event h).

Definition local_proxy_server (e : ListenerEnv) (rounds : list accept_round) (t : ConnTable)
  : option (ConnTable * list thread_event * list admission) :=
  match listener_setup e with
  | (ev, None) => Some (t, ev, [])
  | (ev, Some (listen_sock, listen_sock6)) =>
      '(t, ev', ad) ← listener_loop listen_sock6 rounds t;
      Some (t, ev ++ ev' ++ OwnSocket (Closed listen_sock) :: close_own listen_sock6 ++ [WinsockDown], ad)
  end.

(** ** The UDP relay thread *)

Record UdpServerEnv := mkUdpServerEnv {
  us_winsock : bool;
  us_socket : Z; us_bind : bool;
  us_socket6 : Z; us_bind6 : bool
}.

Definition udp_setup (e : UdpServerEnv) : list thread_event * option (Z * Z) :=
  server_setup (us_winsock e) (us_socket e) (us_bind e) (us_socket6 e) (us_bind6 e).

(** What an effect of a pass does to sockets: clients are answered through the
    relay's own two. *)
Definition effect_event (sock sock6 : Z) (x : relay_effect) : list handle_event :=
  match x with
  | Handle e => [e]
  | ToProxy s _ _ => [Used s]
  | ToClient _ _ _ => [Used sock]
  | ToClient6 _ _ _ => [Used sock6]
  end.
Definition effect_events (sock sock6 : Z) (l : list relay_effect) : list handle_event := l ≫= effect_event sock sock6.

(** A pass of the loop with the clock and the rules it sees, behind what the
    other threads did to the table of flows. *)
Record udp_round := mkUdpRound { ud_before : ConnTable -> ConnTable; ud_now : Z; ud_rules : RuleStore; ud_input : pass_input }.

Section UdpServer.
Context `{Platform}.

Fixpoint udp_loop (rounds : list udp_round) (s : UdpRelay) : option (UdpRelay * list relay_effect) :=
  match rounds with
  | [] => Some (s, [])
  | r :: rounds =>
      '(s, out) ← udp_relay_pass (ud_now r) (ud_rules r) (ud_input r) (with_table s (ud_before r (ur_conns s)));
      '(s, out') ← udp_loop rounds s;
      Some (s, out ++ out')
  end.

(** [rules] and [envs] belong to the first associations. *)
Definition udp_relay_server (e : UdpServerEnv) (rules : RuleStore) (envs : list AssocEnv) (rounds : list udp_round)
    (cfgs : list PROXY_CONFIG) (t : ConnTable) : option (list PROXY_CONFIG * ConnTable * list thread_event) :=
  match udp_setup e with
  | (ev, None) => Some (cfgs, t, ev)
  | (ev, Some (sock, sock6)) =>
      let '(cfgs, _, ev1) := initial_associations rules envs cfgs in
      '(s, out) ← udp_loop rounds (mkUdpRelay cfgs t (negb (sock6 =? INVALID_SOCKET)));
      let '(cfgs, ev2) := close_associations (ur_configs s) in
      Some (cfgs, ur_conns s,
            ev ++ map OwnSocket (ev1 ++ effect_events sock sock6 out ++ ev2 ++ [Closed sock] ++ close_event sock6) ++
            [WinsockDown])
  end.
End UdpServer.

(** ** What the events amount to *)

(** The sockets of the thread: one given to a worker is no longer its own. *)
Definition own_sockets (l : list thread_event) : list handle_event :=
  l ≫= fun x => match x with OwnSocket e => [e] | GivenAway h => [Closed h] | _ => [] end.
Definition handed_over (l : list thread_event) : list Z := l ≫= fun x => match x with GivenAway h => [h] | _ => [] end.
Definition winsock (l : list thread_event) : list bool :=
  l ≫= fun x => match x with WinsockUp => [true] | WinsockDown => [false] | _ => [] end.
Definition published (l : list thread_event) : list bool :=
  l ≫= fun x => match x with Published b => [b] | _ => [] end.

Lemma own_sockets_app l1 l2 : own_sockets (l1 ++ l2) = own_sockets l1 ++ own_sockets l2.
Proof. apply bind_app. Qed.
Lemma handed_over_app l1 l2 : handed_over (l1 ++ l2) = handed_over l1 ++ handed_over l2.
Proof. apply bind_app. Qed.
Lemma winsock_app l1 l2 : winsock (l1 ++ l2) = winsock l1 ++ winsock l2.
Proof. apply bind_app. Qed.
Lemma published_app l1 l2 : published (l1 ++ l2) = published l1 ++ published l2.
Proof. apply bind_app. Qed.
#[local] Hint Rewrite own_sockets_app handed_over_app winsock_app published_app : thread.

Lemma own_socket_events l :
  own_sockets (map OwnSocket l) = l /\ handed_over (map OwnSocket l) = [] /\
  winsock (map OwnSocket l) = [] /\ published (map OwnSocket l) = [].
Proof. induction l as [|e l (IH1 & IH2 & IH3 & IH4)]; [done|]. split; [exact (f_equal (cons e) IH1)|done]. Qed.

(** Nothing but sockets: no start result, no use of Winsock. *)
Definition serving (l : list thread_event) : Prop := published l = [] /\ winsock l = [].

Lemma serving_app l1 l2 : serving l1 -> serving l2 -> serving (l1 ++ l2).
Proof. intros [H1 H2] [H3 H4]. split; autorewrite with thread; by rewrite ?H1, ?H2, ?H3, ?H4. Qed.

Lemma serving_sockets l : serving (map OwnSocket l).
Proof. destruct (own_socket_events l) as (_ & _ & ? & ?). done. Qed.

(** The sockets a server serves with, on top of what else is open. *)
Definition held (h h6 : Z) : gset Z := {[h]} ∪ valid_handle h6.
Definition takes_up (h h6 : Z) (l : list handle_event) : Prop :=
  forall open, match run_handles open l with
               | Illegal => True
               | Fault => False
               | Running o => o = held h h6 ∪ open /\ held h h6 ## open /\ {[h]} ## valid_handle h6
               end.

Lemma run_close_both h h6 o :
  held h h6 ## o -> {[h]} ## valid_handle h6 -> run_handles (held h h6 ∪ o) (Closed h :: close_event h6) = Running o.
Proof.
  unfold held. intros Hd H6. cbn [run_handles]. rewrite decide_True by set_solver.
  rewrite run_close by set_solver. f_equal. set_solver.
Qed.

Lemma balanced_around h h6 l1 l2 :
  takes_up h h6 l1 -> balanced l2 -> balanced (l1 ++ l2 ++ Closed h :: close_event h6).
Proof.
  intros H1 H2 open. rewrite run_handles_app. specialize (H1 open). destruct (run_handles open l1); [done..|].
  destruct H1 as (-> & Hd & H6). rewrite run_handles_app. specialize (H2 (held h h6 ∪ open)).
  destruct (run_handles _ l2); [done..|]. subst. by rewrite run_close_both.
Qed.

Definition server_ready (winsock : bool) (s : Z) (bound : bool) : bool := winsock && negb (s =? INVALID_SOCKET) && bound.

Lemma open_v6_takes s s6 bound6 :
  let '(ev, h6) := open_v6 s6 bound6 in
  serving ev /\ handed_over ev = [] /\ takes_up s h6 (Opened s :: own_sockets ev).
Proof.
  unfold open_v6, takes_up, held. destruct (Z.eqb_spec s6 INVALID_SOCKET) as [->|H6]; [|destruct bound6];
    (split; [done|]; split; [done|]; intros open; cbn; case_decide as H1; [done|]).
  - change (valid_handle INVALID_SOCKET) with (∅ : gset Z). set_solver.
  - case_decide as H2; [done|]. rewrite (valid_handle_valid _ H6). set_solver.
  - case_decide as H2; [done|]. rewrite decide_True by set_solver.
    change (valid_handle INVALID_SOCKET) with (∅ : gset Z). set_solver.
Qed.

(** The start result is published once; a server that is not ready has undone
    everything, one that is holds its sockets and Winsock. *)
Lemma server_setup_spec w s bound s6 bound6 :
  let '(ev, socks) := server_setup w s bound s6 bound6 in
  exists ev1 ev2, ev = ev1 ++ Published (server_ready w s bound) :: ev2 /\
    published ev1 = [] /\ handed_over ev1 = [] /\ published ev2 = [] /\ handed_over ev2 = [] /\
    match socks with
    | None => server_ready w s bound = false /\
        winsock (ev1 ++ ev2) = (if w then [true; false] else []) /\ balanced (own_sockets (ev1 ++ ev2))
    | Some (h, h6) => server_ready w s bound = true /\ w = true /\
        ev2 = [] /\ winsock ev1 = [true] /\ takes_up h h6 (own_sockets ev1)
    end.
Proof.
  unfold server_setup, server_ready. destruct w; cbn [negb andb]; [|by exists [], []].
  destruct (s =? INVALID_SOCKET); cbn [negb andb]; [by exists [WinsockUp], [WinsockDown]|].
  destruct bound; cbn [negb andb].
  - pose proof (open_v6_takes s s6 bound6) as H6. destruct (open_v6 s6 bound6) as [ev h6]. destruct H6 as ([H1 H2] & H3 & H4).
    exists ([WinsockUp; OwnSocket (Opened s)] ++ ev), []. autorewrite with thread. rewrite H1, H2, H3.
    by rewrite <- (assoc_L (++)).
  - exists [WinsockUp; OwnSocket (Opened s)], [OwnSocket (Closed s); WinsockDown]. do 7 (split; [done|]). apply balanced_once.
Qed.

(** ** The listener *)

(** The loop keeps nothing of what it accepts, and lets in what [accept_v4] and
    [accept_v6] let in. *)
Definition before_ok (f : ConnTable -> ConnTable) : Prop := forall t, ct_wf t -> ct_wf (f t).
Definition on_before {A} (o : option (arrival A)) : Prop :=
  match o with Some i => before_ok (in_before i) | None => True end.
Definition round_ok (r : accept_round) : Prop :=
  match r with
  | NothingReady => True
  | Readable v4 v6 => on_before v4 /\ on_before v6
  end.

(** A connection is let in to the destination of a tracked TCP flow of its port
    and family, from this host or from that destination. *)
Definition let_in (a : admission) : Prop :=
  let c := ad_config a in
  match ad_peer a with
  | Dest4 peer => exists f, conn_of (ad_table a) (ad_peer_port a, false, false) = Some f /\
      (octet 0 peer = 127 \/ peer = orig_dest_ip f) /\
      c = mkConnConfig (client_socket c) (Dest4 (orig_dest_ip f)) (orig_dest_port f) (c_proxy_config_id f)
  | Dest6 peer => exists f, conn_of (ad_table a) (ad_peer_port a, false, true) = Some f /\
      (peer = loopback6 \/ (take 12 peer = mapped_prefix /\ at_ peer 12 = 127) \/ peer = orig_dest_ip6 f) /\
      c = mkConnConfig (client_socket c) (Dest6 (orig_dest_ip6 f)) (orig_dest_port f) (c_proxy_config_id f)
  end.

Definition served (t : ConnTable) (r : option (ConnTable * list thread_event * list admission)) : Prop :=
  exists t' ev ad, r = Some (t', ev, ad) /\ ct_wf t' /\ serving ev /\ balanced (own_sockets ev) /\
      handed_over ev = map (fun a => client_socket (ad_config a)) ad /\ Forall let_in ad.

Lemma served_nothing t : ct_wf t -> served t (Some (t, [], [])).
Proof. intros Hw. exists t, [], []. do 5 (split; [done|]). constructor. Qed.

Lemma served_then t r k :
  served t r -> (forall t', ct_wf t' -> served t' (k t')) ->
  served t ('(t, ev, ad) ← r; '(t, ev', ad') ← k t; Some (t, ev ++ ev', ad ++ ad')).
Proof.
  intros (t1 & ev1 & ad1 & -> & Hw1 & Hs1 & Hb1 & Hg1 & Ha1) Hk. cbn [mbind option_bind].
  destruct (Hk t1 Hw1) as (t2 & ev2 & ad2 & -> & Hw2 & Hs2 & Hb2 & Hg2 & Ha2). cbn [mbind option_bind].
  exists t2, (ev1 ++ ev2), (ad1 ++ ad2). split; [done|]. split; [done|]. split; [by apply serving_app|].
  rewrite own_sockets_app, handed_over_app, map_app, Hg1, Hg2. split; [by apply balanced_app|]. split; [done|].
  by apply Forall_app.
Qed.

Lemma accept_one_served {A} (family : A -> destination) accept (i : arrival A) t :
  ct_wf t -> before_ok (in_before i) ->
  (forall now e client peer port t, ct_wf t -> exists t' r, accept now e client peer port t = Some (t', r) /\ ct_wf t' /\
      match r with
     | TurnedAway ev => ev = [Closed client]
     | Dispatched c => client_socket c = client /\ let_in (mkAdmission t (family peer) port c)
     end) ->
  served t (accept_one family accept i t).
Proof.
  intros Hw Hb Hacc. unfold accept_one. destruct (_ =? _); [by apply served_nothing|].
  destruct (Hacc (in_now i) (in_env i) (in_socket i) (in_peer i) (in_port i) _ (Hb t Hw)) as (t' & r & -> & Hw' & Hr).
  cbn [mbind option_bind]. do 3 eexists. split; [reflexivity|]. split; [done|]. destruct r as [c|ev].
  - destruct Hr as [Hc Hl]. split; [done|]. split; [cbn; rewrite Hc; apply balanced_once|]. split; [done|].
    constructor; [exact Hl|constructor].
  - subst ev. split; [done|]. split; [apply balanced_once|]. split; [done|constructor].
Qed.

Lemma accept_v4_admits now e client peer port t :
  ct_wf t -> exists t' r, accept_v4 now e client peer port t = Some (t', r) /\ ct_wf t' /\
    match r with
    | TurnedAway ev => ev = [Closed client]
    | Dispatched c => client_socket c = client /\ let_in (mkAdmission t (Dest4 peer) port c)
    end.
Proof.
  intros Hw. destruct (accept_v4_guarded now e client peer port t Hw) as (t' & r & E & Hw' & Hr).
  exists t', r. split; [done|]. split; [done|]. destruct r as [c|]; [|done]. destruct Hr as (f & Hf & Hp & ->).
  split; [done|]. by exists f.
Qed.

Lemma accept_v6_admits now e client peer port t :
  ct_wf t -> exists t' r, accept_v6 now e client peer port t = Some (t', r) /\ ct_wf t' /\
    match r with
    | TurnedAway ev => ev = [Closed client]
    | Dispatched c => client_socket c = client /\ let_in (mkAdmission t (Dest6 peer) port c)
    end.
Proof.
  intros Hw. destruct (accept_v6_guarded now e client peer port t Hw) as (t' & r & E & Hw' & Hr).
  exists t', r. split; [done|]. split; [done|]. destruct r as [c|]; [|done]. destruct Hr as (f & Hf & Hp & ->).
  split; [done|]. by exists f.
Qed.

Lemma when_served {A} (o : option (arrival A)) f t :
  ct_wf t -> on_before o -> (forall i, before_ok (in_before i) -> served t (f i t)) -> served t (when o f t).
Proof. intros Hw Hb Hf. destruct o as [i|]; [by apply Hf|by apply served_nothing]. Qed.

Lemma listener_round_served h6 r t : ct_wf t -> round_ok r -> served t (listener_round h6 r t).
Proof.
  intros Hw Hr. destruct r as [|v4 v6]; [by apply served_nothing|]. destruct Hr as [H4 H6]. cbn [listener_round].
  apply served_then.
  - apply when_served; [done..|]. intros i Hi. apply accept_one_served; [done..|]. apply accept_v4_admits.
  - intros t' Hw'. apply when_served; [done|by destruct (_ =? _)|]. intros i Hi.
    apply accept_one_served; [done..|]. apply accept_v6_admits.
Qed.

Lemma listener_loop_served h6 rounds t : ct_wf t -> Forall round_ok rounds -> served t (listener_loop h6 rounds t).
Proof.
  intros Hw Hr. revert t Hw. induction Hr as [|r rounds Hr _ IH]; intros t Hw; [by apply served_nothing|].
  cbn [listener_loop]. apply served_then; [by apply listener_round_served|exact IH].
Qed.

(** C27: The TCP relay thread, on every path of its set-up and through any rounds:
    it publishes its start result once, as ready exactly when its IPv4 socket
    listens, and nothing is accepted before; Winsock and every socket it opened
    or accepted is released, but for the accepted ones a handler got; and a
    handler only gets a socket of a tracked TCP flow of its port and family, from
    this host or from the destination of the flow. *)
Theorem local_proxy_server_sound e rounds t :
  ct_wf t -> Forall round_ok rounds ->
  let ready := server_ready (ln_winsock e) (ln_socket e) (ln_bind e && ln_listen e) in
  exists t' ev1 ev2 admissions,
    local_proxy_server e rounds t = Some (t', ev1 ++ Published ready :: ev2, admissions) /\ ct_wf t' /\
    published ev1 = [] /\ published ev2 = [] /\ handed_over ev1 = [] /\
    winsock (ev1 ++ ev2) = (if ln_winsock e then [true; false] else []) /\
    balanced (own_sockets (ev1 ++ ev2)) /\
    handed_over ev2 = map (fun a => client_socket (ad_config a)) admissions /\ Forall let_in admissions /\
    (ready = false -> admissions = []).
Proof.
  intros Hw Hr ready. unfold local_proxy_server, listener_setup.
  pose proof (server_setup_spec (ln_winsock e) (ln_socket e) (ln_bind e && ln_listen e) (ln_socket6 e)
    (ln_bind6 e && ln_listen6 e)) as Hs. fold ready in Hs.
  destruct (server_setup _ _ _ _ _) as [ev [[h h6]|]]; destruct Hs as (ev1 & ev2 & -> & P1 & G1 & P2 & G2 & Hs).
  - destruct Hs as (Er & Ew & -> & W1 & Hh).
    destruct (listener_loop_served h6 rounds t Hw Hr) as (t' & ev & ad & -> & Hw' & [Hp Hws] & Hb & Hg & Ha).
    cbn [mbind option_bind]. destruct (own_socket_events (Closed h :: close_event h6)) as (C1 & C2 & C3 & C4).
    exists t', ev1, (ev ++ map OwnSocket (Closed h :: close_event h6) ++ [WinsockDown]), ad.
    split; [by rewrite <- !(assoc_L (++))|]. autorewrite with thread.
    rewrite Hp, Hws, Hg, P1, W1, G1, C1, C2, C3, C4, Ew, Er. cbn [own_sockets handed_over winsock published mbind list_bind app].
    rewrite !app_nil_r. do 5 (split; [done|]). split; [by apply balanced_around|done].
  - destruct Hs as (Er & Hwn & Hb). exists t, ev1, ev2, []. by rewrite G2.
Qed.

(** ** The UDP relay thread *)

(** Answers over IPv6 leave only when there is a socket for them. *)
Definition answers_ok (has_v6 : bool) (x : relay_effect) : Prop :=
  match x with ToClient6 _ _ _ => has_v6 = true | _ => True end.

Lemma handles_answer b ev : Forall (answers_ok b) (map Handle ev).
Proof. apply Forall_map, Forall_true. by intros. Qed.
#[local] Hint Resolve handles_answer Forall_nil_2 : core.

(** The sockets of the relay itself in between: used, never closed. *)
Lemma frame_own h h6 b open out :
  (b = true -> h6 <> INVALID_SOCKET) -> Forall (answers_ok b) out -> held h h6 ## open ->
  match run_handles open (effects_handles out) with
  | Fault => True
  | Illegal => run_handles (held h h6 ∪ open) (effect_events h h6 out) = Illegal
  | Running o => match run_handles (held h h6 ∪ open) (effect_events h h6 out) with
                 | Illegal => True
                 | Fault => False
                 | Running o' => o' = held h h6 ∪ o /\ held h h6 ## o
                 end
  end.
Proof.
  intros Hb Hout. revert open. induction Hout as [|x out Hx _ IH]; intros open Hd; [done|].
  change (effects_handles (x :: out)) with (effect_handles x ++ effects_handles out).
  change (effect_events h h6 (x :: out)) with (effect_event h h6 x ++ effect_events h h6 out).
  destruct x as [s a d|ip p d|ip6 p d|[s|s|s]]; cbn [effect_handles effect_event app run_handles].
  - destruct (decide (s ∈ open)); [|done]. rewrite decide_True by set_solver. by apply IH.
  - rewrite decide_True by (unfold held; set_solver). by apply IH.
  - rewrite decide_True; [by apply IH|]. unfold held. rewrite (valid_handle_valid h6) by auto. set_solver.
  - destruct (decide (s ∈ open)); [by rewrite decide_True by set_solver|].
    destruct (decide (s ∈ held h h6 ∪ open)); [by destruct (run_handles _ (effects_handles out))|].
    replace ({[s]} ∪ (held h h6 ∪ open)) with (held h h6 ∪ ({[s]} ∪ open)) by set_solver. apply IH. set_solver.
  - destruct (decide (s ∈ open)); [|done]. rewrite decide_True by set_solver.
    replace ((held h h6 ∪ open) ∖ {[s]}) with (held h h6 ∪ (open ∖ {[s]})) by set_solver. apply IH. set_solver.
  - destruct (decide (s ∈ open)); [|done]. rewrite decide_True by set_solver. by apply IH.
Qed.

Section UdpServerSpec.
Context `{Platform}.

Lemma forward_answers b e1 sends e2 datagram c : Forall (answers_ok b) (snd (forward_v4 e1 sends e2 datagram c)).
Proof.
  unfold forward_v4, resend. destruct (ensure_connected e1 c) as [[c1 ok] ev]. destruct (negb ok); [apply handles_answer|].
  destruct sends; [apply Forall_app; split; [apply handles_answer|by repeat constructor]|].
  destruct (drop_assoc c1) as [c2 ev1]. destruct (establish_udp_associate_for_config e2 c2) as [[c3 ok3] ev2]. cbn [snd].
  repeat (apply Forall_app; split); auto using handles_answer; destruct ok3; by repeat constructor.
Qed.

Lemma forward6_answers b e1 datagram c : Forall (answers_ok b) (snd (forward_v6 e1 datagram c)).
Proof.
  unfold forward_v6. destruct (ensure_connected e1 c) as [[c1 ok] ev]. cbn [snd].
  apply Forall_app. split; [apply handles_answer|]. destruct ok; by repeat constructor.
Qed.

Lemma client_v4_answers now e1 sends e2 port data s s' b out :
  udp_from_client_v4 now e1 sends e2 port data s = Some (s', b, out) -> Forall (answers_ok (ur_has_v6 s)) out.
Proof.
  unfold udp_from_client_v4. destruct (is_empty data); [by intros [= <- <- <-]|]. destruct (_ <? _); [by intros [= <- <- <-]|].
  destruct (route_v4 now port s) as [[s1 [| |d p i c]]|]; [by intros [= <- <- <-]..| |done].
  pose proof (forward_answers (ur_has_v6 s) e1 sends e2 (encapsulate_v4 d p data) c) as Hf.
  destruct (forward_v4 _ _ _ _ _) as [[c' b'] o]. by intros [= <- <- <-].
Qed.

Lemma client_v6_answers now e1 port data s s' out :
  udp_from_client_v6 now e1 port data s = Some (s', out) -> Forall (answers_ok (ur_has_v6 s)) out.
Proof.
  unfold udp_from_client_v6. destruct (_ || _); [by intros [= <- <-]|].
  destruct (route_v6 now port s) as [[s1 [| |d p i c]]|]; [by intros [= <- <-]..| |done].
  pose proof (forward6_answers (ur_has_v6 s) e1 (encapsulate_v6 d p data) c) as Hf.
  destruct (forward_v6 _ _ _) as [c' o]. by intros [= <- <-].
Qed.

Lemma deliver_answers now data s s' out : deliver now data s = Some (s', out) -> Forall (answers_ok (ur_has_v6 s)) out.
Proof.
  unfold deliver. intros. repeat (case_match; simplify_eq/=; try done); repeat constructor; done.
Qed.

Lemma proxies_answers now l s s' out :
  ct_wf (ur_conns s) -> from_proxies now l s = Some (s', out) -> Forall (answers_ok (ur_has_v6 s)) out.
Proof.
  revert s out. induction l as [|[i r] l IH]; intros s out Hw; cbn [from_proxies]; [by intros [= <- <-]|].
  pose proof (from_proxies_total now [(i, r)] s Hw) as (s1' & o1' & E1 & Hw1 & _ & H61). cbn [from_proxies] in E1.
  destruct (udp_from_proxy now i r s) as [[s1 o1]|] eqn:E; [|done]. injection E1 as <- <-.
  destruct (from_proxies now l s1) as [[s2 o2]|] eqn:E2; [|done]. intros [= <- <-]. apply Forall_app. split.
  - unfold udp_from_proxy in E. destruct (ur_configs s !! i) as [c|]; [|by injection E as <- <-].
    destruct (_ || _); [by injection E as <- <-|]. destruct r; [by eapply deliver_answers|].
    destruct (drop_assoc c). injection E as <- <-. apply handles_answer.
  - rewrite <- H61. by eapply IH.
Qed.

Lemma pass_answers now rules input s s' out :
  ct_wf (ur_conns s) -> udp_relay_pass now rules input s = Some (s', out) -> Forall (answers_ok (ur_has_v6 s)) out.
Proof.
  intros Hw. unfold udp_relay_pass. destruct input as [envs|controls client proxies client6].
  { destruct (idle_reconnect _ _ _) as [[cfgs b] ev]. intros [= <- <-]. apply handles_answer. }
  destruct (check_controls _ _) as [[cfgs b] ev]. destruct b; [intros [= <- <-]; apply handles_answer|].
  set (s0 := with_configs s cfgs). change (ur_has_v6 s) with (ur_has_v6 s0).
  destruct (pass_data _ _ _ _ s0) as [[s3 o]|] eqn:E; [|done]. intros [= <- <-].
  apply Forall_app. split; [apply handles_answer|]. unfold pass_data in E.
  destruct (match client with None => _ | _ => _ end) as [[[s1 b1] o1]|] eqn:E1; [|done].
  assert (relay_ok s0 s1 /\ Forall (answers_ok (ur_has_v6 s0)) o1) as [(Hw1 & _ & H1) Ho1].
  { destruct client as [[ci|]|]; [|by simplify_eq..]. split; [|by eapply client_v4_answers].
    destruct (from_client_v4_total now (ci_env ci) (ci_sends ci) (ci_env2 ci) (ci_port ci) (ci_data ci) s0 Hw)
      as (s1' & b1' & o1' & E' & Hok). rewrite E1 in E'. by injection E' as <- <- <-. }
  destruct b1; [by simplify_eq|]. destruct (from_proxies_total now proxies s1 Hw1) as (s2 & o2 & E2 & Hw2 & _ & H2).
  rewrite E2 in E. apply (proxies_answers _ _ _ _ _ Hw1) in E2. rewrite H1 in E2.
  destruct (from_client6 now client6 s2) as [[s4 o4]|] eqn:E4; [|done]. simplify_eq.
  do 2 (apply Forall_app; split; [done|]). unfold from_client6 in E4. rewrite <- H1, <- H2.
  destruct client6 as [ci|]; [|by simplify_eq]. destruct (ur_has_v6 s2) eqn:E6; [|by simplify_eq].
  rewrite <- E6. by eapply client_v6_answers.
Qed.

Lemma udp_loop_spec rounds s :
  ct_wf (ur_conns s) -> Forall (fun r => before_ok (ud_before r)) rounds ->
  exists s' out, udp_loop rounds s = Some (s', out) /\ ct_wf (ur_conns s') /\
    passes (ur_configs s) (ur_configs s') (effects_handles out) /\ Forall (answers_ok (ur_has_v6 s)) out.
Proof.
  intros Hw Hr. revert s Hw. induction Hr as [|r rounds Hr _ IH]; intros s Hw.
  { exists s, []. split; [done|]. split; [done|]. split; [apply passes_none|done]. }
  cbn [udp_loop]. set (s0 := with_table s (ud_before r (ur_conns s))).
  destruct (udp_relay_pass_total (ud_now r) (ud_rules r) (ud_input r) s0 (Hr _ Hw)) as (s1 & o1 & E1 & Hw1 & _ & H1).
  rewrite E1. cbn [mbind option_bind]. destruct (IH s1 Hw1) as (s2 & o2 & -> & Hw2 & Hp2 & Ha2). cbn [mbind option_bind].
  do 2 eexists. split; [reflexivity|]. split; [done|]. split.
  - rewrite effects_app. eapply passes_app; [exact (pass_passes _ _ _ _ _ _ E1)|done].
  - apply Forall_app. split; [exact (pass_answers _ _ _ s0 _ _ (Hr _ Hw) E1)|]. by rewrite H1 in Ha2.
Qed.

Lemma effect_events_handle h h6 ev : effect_events h h6 (map Handle ev) = ev.
Proof. induction ev as [|x ev IH]; [done|]. exact (f_equal (cons x) IH). Qed.
Lemma effect_events_app h h6 l1 l2 : effect_events h h6 (l1 ++ l2) = effect_events h h6 l1 ++ effect_events h h6 l2.
Proof. apply bind_app. Qed.

(** What the thread does with its sockets while it serves: the associations of
    [cfgs] are closed, the two sockets of the relay stay. *)
Lemma serve_handles h h6 b cfgs cfgs' out open :
  (b = true -> h6 <> INVALID_SOCKET) -> Forall (answers_ok b) out ->
  passes cfgs cfgs' (effects_handles out) -> all_handles cfgs' = ∅ ->
  assocs_wf open cfgs -> held h h6 ## open ->
  match run_handles (held h h6 ∪ open) (effect_events h h6 out) with
  | Illegal => True
  | Fault => False
  | Running o => o = held h h6 ∪ open ∖ all_handles cfgs /\ held h h6 ## open ∖ all_handles cfgs
  end.
Proof.
  intros Hb Ha Hp He Hw Hd. pose proof (frame_own h h6 b open out Hb Ha Hd) as Hf. specialize (Hp open Hw).
  destruct (run_handles open (effects_handles out)) as [| |o]; [by rewrite Hf|done|].
  destruct Hp as (-> & _ & _). by rewrite He, union_empty_r_L in Hf.
Qed.

(** C23: The UDP relay thread, on every path of its set-up and through any passes:
    it publishes its start result once, as ready exactly when its IPv4 socket is
    bound, and touches no association before; every datagram, to a proxy or to a
    client, leaves through a socket that is open; and at its end Winsock, its own
    sockets and those of all associations, old and new, are released, each once. *)
Theorem udp_relay_server_sound e rules envs rounds cfgs t :
  ct_wf t -> Forall (fun r => before_ok (ud_before r)) rounds ->
  Forall (fun c => udp_connected c = false) cfgs ->
  let ready := server_ready (us_winsock e) (us_socket e) (us_bind e) in
  exists cfgs' t' ev1 ev2,
    udp_relay_server e rules envs rounds cfgs t = Some (cfgs', t', ev1 ++ Published ready :: ev2) /\ ct_wf t' /\
    published ev1 = [] /\ published ev2 = [] /\
    winsock (ev1 ++ ev2) = (if us_winsock e then [true; false] else []) /\
    (if ready then all_handles cfgs' = ∅ else cfgs' = cfgs) /\
    forall open, assocs_wf open cfgs ->
      match run_handles open (own_sockets (ev1 ++ ev2)) with
      | Illegal => True
      | Fault => False
      | Running open' => open' = if ready then open ∖ all_handles cfgs else open
      end.
Proof.
  intros Hw Hr Hc ready. unfold udp_relay_server, udp_setup.
  pose proof (server_setup_spec (us_winsock e) (us_socket e) (us_bind e) (us_socket6 e) (us_bind6 e)) as Hs.
  fold ready in Hs.
  destruct (server_setup _ _ _ _ _) as [ev [[h h6]|]]; destruct Hs as (ev1 & ev2 & -> & P1 & _ & P2 & _ & Hs).
  2:{ destruct Hs as (-> & W & Hb). exists cfgs, t, ev1, ev2. do 6 (split; [done|]). intros open _. apply Hb. }
  destruct Hs as (-> & -> & -> & W1 & Hh). pose proof (initial_passes rules envs cfgs Hc) as Hi.
  destruct (initial_associations rules envs cfgs) as [[cfgs1 b1] e1].
  destruct (udp_loop_spec rounds (mkUdpRelay cfgs1 t (negb (h6 =? INVALID_SOCKET))) Hw Hr) as (s' & out & -> & Hw' & Hp & Ha).
  cbn [mbind option_bind ur_configs ur_has_v6] in *. pose proof (close_passes (ur_configs s')) as Hcl.
  destruct (close_associations (ur_configs s')) as [cfgs2 e2]. destruct Hcl as [Hcl He].
  set (all := map Handle e1 ++ out ++ map Handle e2).
  set (serve := e1 ++ effect_events h h6 out ++ e2 ++ [Closed h] ++ close_event h6).
  assert (serve = effect_events h h6 all ++ Closed h :: close_event h6) as Hserve
    by (unfold serve, all; rewrite !effect_events_app, !effect_events_handle, <- !(assoc_L (++)); done).
  assert (passes cfgs cfgs2 (effects_handles all)) as Hall.
  { unfold all. rewrite !effects_app, !effects_handle. eapply passes_app; [exact Hi|]. by eapply passes_app. }
  assert (Forall (answers_ok (negb (h6 =? INVALID_SOCKET))) all) as Haa
    by (unfold all; rewrite !Forall_app; split; [apply handles_answer|split; [done|apply handles_answer]]).
  destruct (own_socket_events serve) as (C1 & C2 & C3 & C4).
  exists cfgs2, (ur_conns s'), ev1, (map OwnSocket serve ++ [WinsockDown]).
  split; [by rewrite <- !(assoc_L (++))|]. do 2 (split; [done|]). autorewrite with thread. rewrite C1, C3, C4, W1.
  do 3 (split; [done|]). intros open Hwf. cbn [own_sockets mbind list_bind app]. rewrite app_nil_r, run_handles_app, Hserve.
  specialize (Hh open). destruct (run_handles open (own_sockets ev1)) as [| |o]; [done..|]. destruct Hh as (-> & Hd & H6).
  rewrite run_handles_app. 
  assert (negb (h6 =? INVALID_SOCKET) = true -> h6 <> INVALID_SOCKET) as Hv by (by destruct (Z.eqb_spec h6 INVALID_SOCKET)).
  pose proof (serve_handles h h6 _ cfgs cfgs2 all open Hv Haa Hall He Hwf Hd) as Hrun.
  destruct (run_handles _ (effect_events h h6 all)) as [| |o]; [done..|]. destruct Hrun as [-> Hd2].
  by rewrite run_close_both.
Qed.
End UdpServerSpec.
