(* ===== verification/ProxyTest.v ===== *)
(** * The test calls of the API (pb_proxy.c)

    [ProxyBridge_TestProxyConfig] and its verbose variant: a connection to the
    configured proxy, a tunnel through it, and what is reported of both.
    [agrees] says when the proxy grants the tunnel, without the clients. *)
From S2P Require Import Prelude CLib HashTable Util Types ProxyConfig Socks5 Dns Http Process Rules ConnTrack.
From S2P Require Import UdpRelay AssocHandles Handler.





Section Test.
Context `{Platform}.


(** ** The verbose variant *)









(** ** What the calls report *)


















End Test.
