(* ===== verification/DirectCache.v ===== *)
(** * The cache of direct UDP decisions (udp_direct_* of pb_conntrack.c)

    A direct-mapped table of 4096 entries owned by the packet thread.  An IPv4
    address occupies the first four bytes of the 16 of an entry. *)
From S2P Require Import Prelude HashTable Types.

Record UDP_DIRECT_ENTRY := mkDirect {
  ud_source : bytes;
  ud_destination : bytes;
  ud_source_port : Z;
  ud_destination_port : Z;
  ud_ipv6 : bool;
  ud_generation : Z;
  ud_expires : Z
}.

Definition direct_zero : UDP_DIRECT_ENTRY :=
  mkDirect (replicate 16 0) (replicate 16 0) 0 0 false 0 0.

Definition udp_direct_init : list UDP_DIRECT_ENTRY := replicate (Z.to_nat 4096) direct_zero.

(** The bytes of an address that count for the family. *)
Definition addr_len (ipv6 : bool) : nat := if ipv6 then 16%nat else 4%nat.

Fixpoint direct_hash (source destination : bytes) (n : nat) (hash : Z) : Z :=
  match n, source, destination with
  | S n, s :: source, d :: destination => direct_hash source destination n (u32 (hash * 31 + s + d))
  | _, _, _ => hash
  end.

Definition udp_direct_slot (ipv6 : bool) (source : bytes) (source_port : Z) (destination : bytes)
    (destination_port : Z) : nat :=
  Z.to_nat (direct_hash source destination (addr_len ipv6)
    (Z.lxor (Z.lxor (u32 (Z.shiftl source_port 16)) destination_port) (if ipv6 then 1 else 0)) mod 4096).

Definition udp_direct_cached (now g_udp_generation : Z) (t : list UDP_DIRECT_ENTRY) (ipv6 : bool)
    (source : bytes) (source_port : Z) (destination : bytes) (destination_port : Z) : bool :=
  match t !! udp_direct_slot ipv6 source source_port destination destination_port with
  | None => false
  | Some entry =>
      (now <? ud_expires entry) && (ud_generation entry =? g_udp_generation) &&
      Bool.eqb (ud_ipv6 entry) ipv6 && (ud_source_port entry =? source_port) &&
      (ud_destination_port entry =? destination_port) &&
      memeq (take (addr_len ipv6) (ud_source entry)) (take (addr_len ipv6) source) &&
      memeq (take (addr_len ipv6) (ud_destination entry)) (take (addr_len ipv6) destination)
  end.

(** [memcpy] of the first [n] bytes over an array. *)
Definition overwrite (n : nat) (src dst : bytes) : bytes := take n src ++ drop n dst.

Definition udp_direct_remember (now : Z) (t : list UDP_DIRECT_ENTRY) (ipv6 : bool) (source : bytes)
    (source_port : Z) (destination : bytes) (destination_port generation : Z) : list UDP_DIRECT_ENTRY :=
  let slot := udp_direct_slot ipv6 source source_port destination destination_port in
  match t !! slot with
  | None => t
  | Some entry =>
      <[slot := mkDirect (overwrite (addr_len ipv6) source (ud_source entry))
                  (overwrite (addr_len ipv6) destination (ud_destination entry))
                  source_port destination_port ipv6 generation (u64 (now + 5000))]> t
  end.

(** ** Soundness and completeness *)

Record remembered := mkRemembered {
  rm_now : Z; rm_ipv6 : bool; rm_source : bytes; rm_sport : Z;
  rm_destination : bytes; rm_dport : Z; rm_generation : Z }.

Definition remember (t : list UDP_DIRECT_ENTRY) (r : remembered) : list UDP_DIRECT_ENTRY :=
  udp_direct_remember (rm_now r) t (rm_ipv6 r) (rm_source r) (rm_sport r) (rm_destination r)
    (rm_dport r) (rm_generation r).

(** An address of the family: at least the bytes that count. *)
Definition addr_ok (ipv6 : bool) (a : bytes) : Prop := length a = addr_len ipv6.

Definition remembered_ok (r : remembered) : Prop :=
  addr_ok (rm_ipv6 r) (rm_source r) /\ addr_ok (rm_ipv6 r) (rm_destination r) /\
  0 <= rm_now r /\ rm_now r + 5000 < 2 ^ 64.

(** An entry is blank or what one call stored. *)
Definition entry_from (ops : list remembered) (e : UDP_DIRECT_ENTRY) : Prop :=
  ud_expires e = 0 \/
  exists r, r ∈ ops /\ ud_ipv6 e = rm_ipv6 r /\ ud_source_port e = rm_sport r /\
    ud_destination_port e = rm_dport r /\ ud_generation e = rm_generation r /\
    ud_expires e = rm_now r + 5000 /\
    take (addr_len (rm_ipv6 r)) (ud_source e) = rm_source r /\
    take (addr_len (rm_ipv6 r)) (ud_destination e) = rm_destination r.

Lemma take_overwrite n src dst : length src = n -> take n (overwrite n src dst) = src.
Proof.
  intros Hl. unfold overwrite. rewrite (take_ge src) by lia. by rewrite take_app_length' by lia.
Qed.

Lemma remember_entries ops t r :
  Forall (entry_from ops) t -> remembered_ok r -> Forall (entry_from (ops ++ [r])) (remember t r).
Proof.
  intros Ht (Hs & Hd & Hn & Hb). assert (Forall (entry_from (ops ++ [r])) t) as Ht'.
  { eapply Forall_impl; [exact Ht|]. intros e [?|(x & Hx & He)]; [by left|].
    right. exists x. split; [apply elem_of_app; by left|done]. }
  unfold remember, udp_direct_remember. case_match; [|done].
  apply Forall_insert; [done|]. right. exists r. split; [apply elem_of_app; right; left|]. simpl.
  rewrite !take_overwrite by done. rewrite u64_small by lia. by split_and!.
Qed.

Lemma remember_all_entries ops :
  Forall remembered_ok ops -> Forall (entry_from ops) (fold_left remember ops udp_direct_init).
Proof.
  induction ops as [|r ops IH] using rev_ind; intros Hok.
  - apply Forall_replicate. by left.
  - apply Forall_app in Hok as [Hok Hr]. apply Forall_cons in Hr as [Hr _].
    rewrite fold_left_app. cbn [fold_left]. apply remember_entries; [by apply IH|exact Hr].
Qed.

Lemma remember_length t r : length (remember t r) = length t.
Proof. unfold remember, udp_direct_remember. case_match; [apply length_insert|done]. Qed.

(** C32: Hash collisions never mix flows up: a hit means that this very flow was
    found DIRECT under the current policy generation within the last five
    seconds. *)
Theorem udp_direct_sound ops now gen ipv6 source sport destination dport :
  Forall remembered_ok ops -> 0 <= now ->
  addr_ok ipv6 source -> addr_ok ipv6 destination ->
  udp_direct_cached now gen (fold_left remember ops udp_direct_init) ipv6 source sport destination dport = true ->
  exists r, r ∈ ops /\ r = mkRemembered (rm_now r) ipv6 source sport destination dport gen /\
            now < rm_now r + 5000.
Proof.
  intros Hok Hnow Hs Hd Hc. unfold udp_direct_cached in Hc.
  destruct (fold_left remember ops udp_direct_init !! _) as [e|] eqn:He; [|done].
  pose proof (remember_all_entries ops Hok) as Hall. rewrite Forall_lookup in Hall.
  specialize (Hall _ _ He). bool_prop. unfold addr_ok in *.
  destruct Hall as [Hz|(r & Hr & H6 & Hsp & Hdp & Hg & Hx & Hts & Htd)]; [lia|].
  exists r. split; [done|]. split; [|lia].
  match goal with H : Bool.eqb _ _ = true |- _ => apply eqb_prop in H; rename H into Hv6 end.
  assert (rm_ipv6 r = ipv6) as H6' by congruence. rewrite H6' in *.
  unfold memeq in *. bool_prop. rewrite Hts, Htd in *. rewrite !take_ge in * by lia.
  destruct r; simpl in *; congruence.
Qed.

(** A decision just stored is found until a policy change or five seconds later. *)
Theorem udp_direct_complete t r now gen :
  length t = Z.to_nat 4096 -> remembered_ok r ->
  udp_direct_cached now gen (remember t r) (rm_ipv6 r) (rm_source r) (rm_sport r)
    (rm_destination r) (rm_dport r) =
  (now <? rm_now r + 5000) && (rm_generation r =? gen).
Proof.
  intros Hl (Hs & Hd & Hn & Hb). unfold udp_direct_cached, remember, udp_direct_remember.
  set (slot := udp_direct_slot _ _ _ _ _).
  assert (slot < length t)%nat as Hslot.
  { unfold slot, udp_direct_slot. rewrite Hl.
    pose proof (Z.mod_pos_bound (direct_hash (rm_source r) (rm_destination r) (addr_len (rm_ipv6 r))
      (Z.lxor (Z.lxor (u32 (Z.shiftl (rm_sport r) 16)) (rm_dport r)) (if rm_ipv6 r then 1 else 0))) 4096).
    lia. }
  destruct (lookup_lt_is_Some_2 _ _ Hslot) as [e He]. rewrite He.
  rewrite list_lookup_insert_eq by done. simpl. rewrite !take_overwrite by done.
  unfold addr_ok in *. rewrite !take_ge by lia. rewrite u64_small by lia.
  unfold memeq. rewrite !bool_decide_eq_true_2 by done. rewrite !Z.eqb_refl, eqb_reflx.
  by rewrite !andb_true_r.
Qed.
