(* ===== verification/ConnLog.v ===== *)
(** * Logged connections and the periodic clean-up (pb_conntrack.c)

    The list that keeps a connection from being reported twice, bounded by a
    running count, and [cleanup_stale_connections], which sweeps the flows, the
    PID cache and this list. *)
From S2P Require Import Prelude HashTable Types Process ConnTrack.

Record LOGGED_CONNECTION := mkLogged { lg_pid : Z; lg_dest_ip : Z; lg_dest_port : Z; lg_action : RuleAction }.

#[export] Instance logged_eq_dec : EqDecision LOGGED_CONNECTION.
Proof. solve_decision. Defined.

Record LogState := mkLogState { logged_connections : list LOGGED_CONNECTION; g_logged_count : Z }.

Definition log_init : LogState := mkLogState [] 0.

Definition is_connection_already_logged (s : LogState) (pid dest_ip dest_port : Z) (a : RuleAction) : bool :=
  existsb (fun l => (lg_pid l =? pid) && (lg_dest_ip l =? dest_ip) && (lg_dest_port l =? dest_port) &&
                    bool_decide (lg_action l = a)) (logged_connections s).

(** The first locked section of [add_logged_connection]: cut the list behind its
    99th node.  The number of nodes cut is subtracted from the count only after
    the lock was released and taken again. *)
Definition log_trim (s : LogState) : LogState * Z :=
  if 100 <=? g_logged_count s then
    let l := logged_connections s in
    if 99 <? Z.of_nat (length l)
    then (mkLogState (take 99 l) (g_logged_count s), Z.of_nat (length l) - 99)
    else (s, 0)
  else (s, 0).

(** The second locked section. *)
Definition log_insert (alloc : bool) (freed : Z) (s : LogState) (e : LOGGED_CONNECTION) : LogState :=
  let count := g_logged_count s - freed in
  if alloc then mkLogState (e :: logged_connections s) (count + 1)
  else mkLogState (logged_connections s) count.

Definition add_logged_connection (alloc : bool) (s : LogState) (pid dest_ip dest_port : Z)
    (a : RuleAction) : LogState :=
  let '(s, freed) := log_trim s in
  log_insert alloc freed s (mkLogged pid dest_ip dest_port a).

Definition clear_logged_connections (s : LogState) : LogState := mkLogState [] 0.

(** ** cleanup_stale_connections *)

(** The sweep of the PID cache; its limit is not that of the look-ups. *)
Definition prune_pid_entries (now_cache : Z) (o : Owners) : Owners :=
  mkOwners (ht_sweep (fun e => negb (10000 <? age now_cache (pe_timestamp e))) (pid_cache o))
    (owner_cache o) (ow_generation o).

(** A list of more than a hundred is cut behind its hundredth node. *)
Definition cut_logged (s : LogState) : LogState :=
  if 100 <? Z.of_nat (length (logged_connections s))
  then mkLogState (take 100 (logged_connections s)) (g_logged_count s) else s.

(** [now] is the clock of the flow sweep, [now_cache] of the PID sweep. *)
Definition cleanup_stale_connections (now now_cache : Z) (c : ConnTable) (o : Owners) (s : LogState)
  : option (ConnTable * Owners * LogState) :=
  match cleanup_connections now c with
  | None => None
  | Some c => Some (c, prune_pid_entries now_cache o, cut_logged s)
  end.

(** ** The bound of the list *)

Definition log_wf (s : LogState) : Prop :=
  g_logged_count s = Z.of_nat (length (logged_connections s)) /\ g_logged_count s <= 100.

Lemma add_logged_wf alloc s pid ip port a :
  log_wf s -> log_wf (add_logged_connection alloc s pid ip port a).
Proof.
  intros [Hc Hb]. unfold add_logged_connection, log_trim, log_insert, log_wf.
  destruct (Z.leb_spec 100 (g_logged_count s)); [destruct (Z.ltb_spec 99 (Z.of_nat (length (logged_connections s))))|];
    destruct alloc; cbn [logged_connections g_logged_count length]; rewrite ?length_take; lia.
Qed.

(** The list never holds more than a hundred entries, the count is its length,
    the entry just added is found, and the others found are among the most
    recent 99 of before. *)
Theorem add_logged_spec alloc s pid ip port a :
  log_wf s ->
  let s' := add_logged_connection alloc s pid ip port a in
  log_wf s' /\ Z.of_nat (length (logged_connections s')) <= 100 /\
  (alloc = true -> is_connection_already_logged s' pid ip port a = true /\
     logged_connections s' = mkLogged pid ip port a :: take 99 (logged_connections s)).
Proof.
  intros Hwf s'. pose proof (add_logged_wf alloc s pid ip port a Hwf) as Hwf'. fold s' in Hwf'.
  split; [done|]. split; [destruct Hwf'; lia|]. intros ->.
  assert (logged_connections s' = mkLogged pid ip port a :: take 99 (logged_connections s)) as E.
  { unfold s', add_logged_connection, log_trim, log_insert. destruct Hwf as [Hc Hb].
    destruct (Z.leb_spec 100 (g_logged_count s)); [destruct (Z.ltb_spec 99 (Z.of_nat (length (logged_connections s))))|];
      cbn [logged_connections]; [done|lia|]. by rewrite take_ge by lia. }
  split; [|done]. unfold is_connection_already_logged. rewrite E. cbn [existsb].
  cbn [lg_pid lg_dest_ip lg_dest_port lg_action]. by rewrite !Z.eqb_refl, bool_decide_eq_true_2.
Qed.

(** The clean-up never fails, keeps the flow table exact, and with a bounded
    list leaves the logged connections as they are. *)
Theorem cleanup_stale_spec now now_cache c o s :
  ct_wf c -> owners_wf o -> log_wf s ->
  exists c' o', cleanup_stale_connections now now_cache c o s = Some (c', o', s) /\
    ct_wf c' /\ owners_wf o' /\
    forall k, ht_find (pid_cache o') k =
      match ht_find (pid_cache o) k with
      | Some e => if 10000 <? age now_cache (pe_timestamp e) then None else Some e
      | None => None
      end.
Proof.
  intros Hc Ho [Hl Hb].
  destruct (cleanup_buckets_ok now (Z.to_nat CONNECTION_HASH_SIZE) c Hc) as (c' & Hcl & Hwf' & _).
  unfold cleanup_stale_connections, cleanup_connections, cut_logged. rewrite Hcl.
  rewrite (proj2 (Z.ltb_ge _ _)) by lia. do 2 eexists. split; [reflexivity|]. split; [done|].
  split; [split; simpl; [apply ht_sweep_wf, Ho|apply Ho|apply Ho]|].
  intros k. cbn [prune_pid_entries pid_cache]. rewrite ht_find_sweep by apply Ho.
  destruct (ht_find _ k) as [e|]; [|done]. by destruct (10000 <? _).
Qed.

(** ** The window between the two locked sections

    One thread adds, another clears: the steps the lock makes atomic.  An add
    that cuts nothing holds the lock throughout. *)
Inductive log_step : LogState * option Z -> LogState * option Z -> Prop :=
| step_plain s alloc e : snd (log_trim s) = 0 -> log_step (s, None) (log_insert alloc 0 s e, None)
| step_trim s s' freed : log_trim s = (s', freed) -> 0 < freed -> log_step (s, None) (s', Some freed)
| step_insert s freed alloc e : log_step (s, Some freed) (log_insert alloc freed s e, None)
| step_clear s pending : log_step (s, pending) (clear_logged_connections s, pending).

Inductive log_reach : LogState * option Z -> Prop :=
| log_start : log_reach (log_init, None)
| log_next s s' : log_reach s -> log_step s s' -> log_reach s'.

Lemma log_fill n : (n <= 100)%nat -> exists l, length l = n /\ log_reach (mkLogState l (Z.of_nat n), None).
Proof.
  induction n as [|n IH]; intros Hn; [exists []; split; [done|constructor]|].
  destruct IH as (l & Hl & Hr); [lia|]. exists (mkLogged 0 0 0 RULE_ACTION_DIRECT :: l).
  split; [simpl; lia|].
  assert (mkLogState (mkLogged 0 0 0 RULE_ACTION_DIRECT :: l) (Z.of_nat (S n)) =
          log_insert true 0 (mkLogState l (Z.of_nat n)) (mkLogged 0 0 0 RULE_ACTION_DIRECT)) as ->.
  { unfold log_insert. cbn [logged_connections g_logged_count]. f_equal. lia. }
  eapply log_next; [exact Hr|]. apply step_plain. unfold log_trim. cbn [g_logged_count]. by rewrite (proj2 (Z.leb_gt _ _)) by lia.
Qed.

(** Clearing the log while an add is between its two locked sections leaves the
    count below the length of the list: the bound of the list drifts. *)
Theorem log_count_race :
  exists s, log_reach (s, None) /\ g_logged_count s < Z.of_nat (length (logged_connections s)).
Proof.
  destruct (log_fill 100) as (l & Hl & Hr); [done|].
  exists (log_insert true 1 (clear_logged_connections (mkLogState (take 99 l) 100))
            (mkLogged 0 0 0 RULE_ACTION_DIRECT)).
  split; [|vm_compute; done].
  eapply log_next; [eapply log_next; [eapply log_next; [exact Hr|]|]|].
  - apply (step_trim _ (mkLogState (take 99 l) 100) 1); [|done].
    unfold log_trim. cbn [g_logged_count logged_connections]. by rewrite Hl.
  - apply step_clear.
  - apply step_insert.
Qed.
