(* ===== verification/FlowMap.v ===== *)
(** * The flow table as a map (pb_conntrack.c)

    What the flow table promises to its callers, without nodes, chains and
    indexes: a finite map from the local port, the protocol and the family to
    what is known of the flow.  [flow_spec] says what every function of the
    table does to this map, and the heap of [ConnTrack] refines it. *)
From S2P Require Import Prelude HashTable Types Process ConnTrack.

(** ** The specification *)

Abbreviation flow_id := (Z * bool * bool)%type.

(** The two ends of a flow, by family: local and original destination address. *)
Record Flow := mkFlow {
  fl_ends : (Z * Z) + (bytes * bytes);
  fl_port : Z;
  fl_config : Z;
  fl_fin : Z;
  fl_generation : Z;
  fl_last : Z
}.

Abbreviation FlowMap := (gmap flow_id Flow).

Definition fl_touch (now : Z) (f : Flow) : Flow :=
  mkFlow (fl_ends f) (fl_port f) (fl_config f) (fl_fin f) (fl_generation f) now.
Definition fl_stamp (generation : Z) (f : Flow) : Flow :=
  mkFlow (fl_ends f) (fl_port f) (fl_config f) (fl_fin f) generation (fl_last f).
Definition fl_end (bit now : Z) (f : Flow) : Flow :=
  mkFlow (fl_ends f) (fl_port f) (fl_config f) (Z.lor (fl_fin f) bit) (fl_generation f) now.

(** A flow whose activity lies ahead of the clock of the clean-up counts as
    stale, which is what the unsigned difference of the code comes to. *)
Definition fl_stale (now : Z) (f : Flow) : bool :=
  (now <? fl_last f) ||
  ((if fl_fin f =? 3 then 60000 else CONNECTION_STALE_TIMEOUT_MS) <? now - fl_last f).

Definition fl_valid (now generation : Z) (ends : (Z * Z) + (bytes * bytes)) (port : Z) (f : Flow) : Prop :=
  fl_ends f = ends /\ fl_port f = port /\ fl_generation f = generation /\ now - fl_last f <= 20000.

(** ** The functions of the table *)

Inductive flow_op :=
| OpAdd (alloc : option Z) (now generation port : Z) (udp : bool) (ip dest dport cfg : Z)
| OpAdd6 (alloc : option Z) (now generation port : Z) (udp : bool) (ip6 dest6 : bytes) (dport cfg : Z)
| OpGet (now port : Z) (udp : bool)
| OpGetFull (now port : Z) (udp : bool)
| OpGetFull6 (now port : Z) (udp : bool)
| OpProxyId (port : Z) (udp : bool)
| OpTracked (port : Z) (udp v6 : bool)
| OpSender (dest6 : bytes) (dport : Z)
| OpStamp (port : Z) (v6 : bool) (generation : Z)
| OpFin (now port : Z) (v6 : bool) (bit : Z)
| OpRemove (port : Z) (udp v6 : bool)
| OpValidate (now generation port : Z) (ends : (Z * Z) + (bytes * bytes)) (dport : Z)
| OpCleanup (now : Z).

Inductive flow_result :=
| RDone
| RDest (r : option (Z * Z))
| RFull (r : option (Z * Z * Z))
| RFull6 (r : option (bytes * Z * Z))
| RId (id : Z)
| RBool (b : bool)
| RSender (r : option (bytes * Z)).

Definition no_answer (s : option ConnTable) : option (ConnTable * flow_result) := (fun s => (s, RDone)) <$> s.

Definition ct_exec (s : ConnTable) (op : flow_op) : option (ConnTable * flow_result) :=
  match op with
  | OpAdd alloc now g port udp ip dest dport cfg =>
      no_answer (add_connection alloc now g s port udp ip dest dport cfg)
  | OpAdd6 alloc now g port udp ip6 dest6 dport cfg =>
      no_answer (add_connection_v6 alloc now g s port udp ip6 dest6 dport cfg)
  | OpGet now port udp => '(s, r) ← get_connection now s port udp; Some (s, RDest r)
  | OpGetFull now port udp => '(s, r) ← get_connection_full now s port udp; Some (s, RFull r)
  | OpGetFull6 now port udp => '(s, r) ← get_connection_full_v6 now s port udp; Some (s, RFull6 r)
  | OpProxyId port udp => r ← get_connection_proxy_id s port udp; Some (s, RId r)
  | OpTracked port udp v6 => r ← is_connection_tracked s port udp v6; Some (s, RBool r)
  | OpSender dest6 dport => r ← find_v6_udp_sender s dest6 dport; Some (s, RSender r)
  | OpStamp port v6 g => no_answer (udp_flow_stamp s port v6 g)
  | OpFin now port v6 bit => no_answer (connection_fin now s port v6 bit)
  | OpRemove port udp v6 => no_answer (remove_connection s port udp v6)
  | OpValidate now g port (inl (ip, dest)) dport =>
      '(s, b) ← udp_flow_validate now g s port false ip [] dest [] dport; Some (s, RBool b)
  | OpValidate now g port (inr (ip6, dest6)) dport =>
      '(s, b) ← udp_flow_validate now g s port true 0 ip6 0 dest6 dport; Some (s, RBool b)
  | OpCleanup now => no_answer (cleanup_connections now s)
  end.

(** The clocks of a run stay below 2^63 milliseconds, and [calloc] gives what is
    not in use. *)
Definition clock_ok (now : Z) : Prop := 0 <= now < 2 ^ 63.

Definition op_ok (s : ConnTable) (op : flow_op) : Prop :=
  match op with
  | OpAdd alloc now _ _ _ _ _ _ _ | OpAdd6 alloc now _ _ _ _ _ _ _ => alloc_ok s alloc /\ clock_ok now
  | OpGet now _ _ | OpGetFull now _ _ | OpGetFull6 now _ _ | OpFin now _ _ _
  | OpValidate now _ _ _ _ | OpCleanup now => clock_ok now
  | _ => True
  end.

(** An add: nothing changes only when a new flow finds no memory. *)
Definition spec_add (alloc : option Z) (k : flow_id) (f : Flow) (M : FlowMap) : FlowMap :=
  match M !! k, alloc with
  | None, None => M
  | _, _ => <[k := f]> M
  end.

Definition is_v4 (f : Flow) : option (Z * Z) := match fl_ends f with inl e => Some e | inr _ => None end.
Definition is_v6 (f : Flow) : option (bytes * bytes) := match fl_ends f with inr e => Some e | inl _ => None end.

(** The senders [find_v6_udp_sender] chooses from. *)
Definition sender_of (M : FlowMap) (dest6 : bytes) (dport : Z) (ip6 : bytes) (port last : Z) : Prop :=
  exists f, M !! (port, true, true) = Some f /\ fl_ends f = inr (ip6, dest6) /\ fl_port f = dport /\ fl_last f = last.

Definition flow_spec (op : flow_op) (M M' : FlowMap) (r : flow_result) : Prop :=
  match op with
  | OpAdd alloc now g port udp ip dest dport cfg =>
      r = RDone /\ M' = spec_add alloc (port, udp, false) (mkFlow (inl (ip, dest)) dport cfg 0 g now) M
  | OpAdd6 alloc now g port udp ip6 dest6 dport cfg =>
      r = RDone /\ M' = spec_add alloc (port, udp, true) (mkFlow (inr (ip6, dest6)) dport cfg 0 g now) M
  | OpGet now port udp =>
      M' = alter (fl_touch now) (port, udp, false) M /\
      r = RDest (f ← M !! (port, udp, false); e ← is_v4 f; Some (snd e, fl_port f))
  | OpGetFull now port udp =>
      M' = alter (fl_touch now) (port, udp, false) M /\
      r = RFull (f ← M !! (port, udp, false); e ← is_v4 f; Some (snd e, fl_port f, fl_config f))
  | OpGetFull6 now port udp =>
      M' = alter (fl_touch now) (port, udp, true) M /\
      r = RFull6 (f ← M !! (port, udp, true); e ← is_v6 f; Some (snd e, fl_port f, fl_config f))
  | OpProxyId port udp => M' = M /\ r = RId (from_option fl_config 0 (M !! (port, udp, false)))
  | OpTracked port udp v6 => M' = M /\ r = RBool (bool_decide (is_Some (M !! (port, udp, v6))))
  | OpSender dest6 dport =>
      M' = M /\ match r with
                | RSender None => forall ip6 port last, ~ sender_of M dest6 dport ip6 port last
                | RSender (Some (ip6, port)) =>
                    exists last, sender_of M dest6 dport ip6 port last /\
                      forall ip6' port' last', sender_of M dest6 dport ip6' port' last' -> last' <= last
                | _ => False
                end
  | OpStamp port v6 g => r = RDone /\ M' = alter (fl_stamp g) (port, true, v6) M
  | OpFin now port v6 bit => r = RDone /\ M' = alter (fl_end bit now) (port, false, v6) M
  | OpRemove port udp v6 => r = RDone /\ M' = delete (port, udp, v6) M
  | OpValidate now g port ends dport =>
      let k := (port, true, match ends with inl _ => false | inr _ => true end) in
      exists valid, r = RBool valid /\
        (valid = true <-> exists f, M !! k = Some f /\ fl_valid now g ends dport f) /\
        M' = if valid then alter (fl_touch now) k M else delete k M
  | OpCleanup now => r = RDone /\ M' = filter (fun kf => fl_stale now kf.2 = false) M
  end.

(** ** The refinement relation *)

Definition view (c : CONNECTION_INFO) : Flow :=
  mkFlow (if is_ipv6 c then inr (src_ip6 c, orig_dest_ip6 c) else inl (src_ip c, orig_dest_ip c))
    (orig_dest_port c) (c_proxy_config_id c) (fin_flags c) (policy_generation c) (last_activity c).

Record refines (s : ConnTable) (M : FlowMap) : Prop := {
  rf_wf : ct_wf s;
  rf_view : forall k, M !! k = view <$> conn_of s k;
  rf_clock : forall k f, M !! k = Some f -> clock_ok (fl_last f)
}.

Lemma view_family s k c : ct_wf s -> conn_of s k = Some c -> is_ipv6 c = k.2.
Proof. intros Hwf (p & _ & <-)%conn_of_Some; [done|done]. Qed.

Lemma conn_init_refines : refines conn_init ∅.
Proof.
  split; [apply conn_init_wf| |]; intros k; rewrite lookup_empty; [|by intros f ?].
  rewrite conn_of_None; [done|apply conn_init_wf|]. intros p c. cbn [conn_init heap]. by rewrite lookup_empty.
Qed.

(** One flow changed in place, removed or written: the two sides agree. *)
Section Steps.
Context (s s' : ConnTable) (M : FlowMap) (k : flow_id).
Context (Hr : refines s M) (Hwf : ct_wf s').

Lemma refines_same : (forall k', conn_of s' k' = conn_of s k') -> refines s' M.
Proof. intros Hk. split; [done| |apply (rf_clock _ _ Hr)]. intros k'. by rewrite Hk, (rf_view _ _ Hr). Qed.

Lemma refines_alter (g : CONNECTION_INFO -> CONNECTION_INFO) (f : Flow -> Flow) :
  (forall k', conn_of s' k' = if decide (k = k') then g <$> conn_of s k' else conn_of s k') ->
  (forall c, view (g c) = f (view c)) ->
  (forall fl, clock_ok (fl_last fl) -> clock_ok (fl_last (f fl))) -> refines s' (alter f k M).
Proof.
  intros Hk Hg Hc. split; [done| |].
  - intros k'. rewrite lookup_alter, Hk. case_decide; [|apply (rf_view _ _ Hr)]. subst k'.
    rewrite (rf_view _ _ Hr). destruct (conn_of s k) as [c|]; cbn; [by rewrite Hg|done].
  - intros k' fl. rewrite lookup_alter. case_decide; [|apply (rf_clock _ _ Hr)].
    intros (f0 & Hf & ->)%fmap_Some. eapply Hc, (rf_clock _ _ Hr), Hf.
Qed.

Lemma refines_delete :
  (forall k', conn_of s' k' = if decide (k = k') then None else conn_of s k') -> refines s' (delete k M).
Proof.
  intros Hk. split; [done| |].
  - intros k'. rewrite lookup_delete, Hk. case_decide; [done|apply (rf_view _ _ Hr)].
  - intros k' fl [_ Hl]%lookup_delete_Some. by eapply rf_clock.
Qed.

Lemma refines_add alloc (P : CONNECTION_INFO -> Prop) f :
  added s s' alloc k P -> (forall c, P c -> is_ipv6 c = k.2 -> view c = f) -> clock_ok (fl_last f) ->
  refines s' (spec_add alloc k f M).
Proof.
  intros [Hne Hk] HP Hc.
  assert ((exists c, conn_of s' k = Some c /\ P c) -> refines s' (<[k := f]> M)) as Hins.
  { intros (c & Hs & Hc'). split; [done| |].
    - intros k'. rewrite lookup_insert. case_decide as E; [subst k'; rewrite Hs; cbn; f_equal|].
      + symmetry. apply HP; [done|]. by eapply view_family.
      + rewrite Hne by done. apply (rf_view _ _ Hr).
    - intros k' fl. rewrite lookup_insert. case_decide; [by intros [= <-]|apply (rf_clock _ _ Hr)]. }
  unfold spec_add. rewrite (rf_view _ _ Hr).
  destruct (conn_of s k) as [c|] eqn:E; cbn; [by apply Hins|]. destruct alloc; [by apply Hins|].
  apply refines_same. intros k'. destruct (decide (k' = k)) as [->|]; [by rewrite E|by apply Hne].
Qed.
End Steps.

(** ** Every function of the table does what the specification says *)

Definition step_refined (s : ConnTable) (M : FlowMap) (op : flow_op) : Prop :=
  exists s' r M', ct_exec s op = Some (s', r) /\ flow_spec op M M' r /\ refines s' M'.

Lemma view_ends s k c : ct_wf s -> conn_of s k = Some c ->
  fl_ends (view c) = if k.2 then inr (src_ip6 c, orig_dest_ip6 c) else inl (src_ip c, orig_dest_ip c).
Proof. intros Hwf Hc. cbn. by rewrite (view_family _ _ _ Hwf Hc). Qed.

Lemma touch_view now c : view (touch c now) = fl_touch now (view c).
Proof. done. Qed.

(** The three reading lookups are one search with a different answer. *)
Lemma get_refined s M now port udp v6 :
  refines s M -> clock_ok now ->
  exists s', get_touch now s port udp v6 = Some (s', conn_of s (port, udp, v6)) /\
             refines s' (alter (fl_touch now) (port, udp, v6) M).
Proof.
  intros Hr Hn. destruct (get_touch_spec now s port udp v6 (rf_wf _ _ Hr)) as (s' & Hg & Hwf' & Hk).
  exists s'. split; [done|]. by eapply refines_alter; [exact Hr|done|exact Hk|..].
Qed.

Lemma in_place_refined s M port udp v6 g f :
  refines s M -> (forall c, view (g c) = f (view c)) ->
  (forall c, flow_key (g c) = flow_key c /\ rev_hash (g c) = rev_hash c /\ in_rev (g c) = in_rev c /\
             rev_bucket (g c) = rev_bucket c /\ is_tracked (g c) = is_tracked c) ->
  (forall fl, clock_ok (fl_last fl) -> clock_ok (fl_last (f fl))) ->
  exists s', (found ← ct_find s port udp v6;
              match found with
              | None => Some s
              | Some p => c ← heap s !! p; Some (set_node s p (g c))
              end) = Some s' /\ refines s' (alter f (port, udp, v6) M).
Proof.
  intros Hr Hg Hf Hc. destruct (in_place_spec s port udp v6 g (rf_wf _ _ Hr) Hf) as (s' & Hs & Hwf' & Hk).
  exists s'. split; [done|]. by eapply refines_alter; [exact Hr|done|exact Hk|..].
Qed.

Lemma stale_view now c :
  clock_ok now -> clock_ok (last_activity c) -> conn_stale now c = fl_stale now (view c).
Proof.
  unfold clock_ok. intros Hn Hc. unfold conn_stale, fl_stale. cbn [view fl_last fl_fin].
  set (limit := if fin_flags c =? 3 then _ else _).
  assert (60000 <= limit <= 1800000) by (unfold limit, CONNECTION_STALE_TIMEOUT_MS; case_match; lia).
  destruct (Z.ltb_spec now (last_activity c)); cbn [orb].
  - unfold age. rewrite u64_sub_wrap by lia. apply Z.ltb_lt. lia.
  - by rewrite age_past by lia.
Qed.

Lemma sender_refined s M dest6 dport :
  refines s M ->
  exists r, find_v6_udp_sender s dest6 dport = Some r /\ flow_spec (OpSender dest6 dport) M M (RSender r).
Proof.
  intros Hr. pose proof (rf_wf _ _ Hr) as Hwf. unfold find_v6_udp_sender.
  destruct (best_sender_table s (is_v6_sender dest6 dport) (rev_hash_v6 dest6 dport) Hwf) as (r & -> & Hb).
  { by apply Z.mod_pos_bound. }
  { unfold is_v6_sender, memeq, rev_hash. intros c Hs. bool_prop. by subst; case_match. }
  assert (forall ip6 port last, sender_of M dest6 dport ip6 port last <->
    exists c, conn_of s (port, true, true) = Some c /\ is_v6_sender dest6 dport c = true /\
      src_ip6 c = ip6 /\ last_activity c = last) as Hs.
  { intros ip6 port last. unfold sender_of. rewrite (rf_view _ _ Hr).
    destruct (conn_of s (port, true, true)) as [c|] eqn:E; cbn; [|naive_solver].
    pose proof (view_ends _ _ _ Hwf E) as He. apply conn_of_Some in E as (p & _ & Hk); [|done].
    unfold flow_key in Hk. injection Hk as _ Hudp H6. cbn [snd] in He.
    assert (is_v6_sender dest6 dport c = true <-> orig_dest_port c = dport /\ orig_dest_ip6 c = dest6) as Hq.
    { unfold is_v6_sender, memeq. rewrite Hudp, H6, !andb_true_iff, Z.eqb_eq, bool_decide_eq_true. tauto. }
    split.
    - intros (f & [= <-] & Hf & Hp & Hl). rewrite Hf in He. injection He as -> ->. exists c.
      split_and!; try done. by apply Hq.
    - intros (? & [= <-] & [Hp <-]%Hq & <- & <-). eexists. split; [done|]. by rewrite He. }
  eexists. split; [reflexivity|]. split; [done|]. destruct r as [[p c]|]; cbn.
  - destruct Hb as (Hp & Hc & Hq & Hm).
    assert (flow_key c = (src_port c, true, true)) as Hk.
    { unfold is_v6_sender in Hq. bool_prop. unfold flow_key. congruence. }
    rewrite Hk in Hc. exists (last_activity c). split; [apply Hs; by exists c|].
    intros ip6' port' last' (c' & Hc' & Hq' & _ & <-)%Hs. by eapply Hm.
  - intros ip6 port last (c & Hc & Hq & _)%Hs. by rewrite (Hb _ _ Hc) in Hq.
Qed.

Lemma validate_refined s M now g port (v6 : bool) ip ip6 dest dest6 dport ends :
  refines s M -> clock_ok now -> ends = (if v6 : bool then inr (ip6, dest6) else inl (ip, dest)) ->
  exists s' valid,
    udp_flow_validate now g s port v6 ip ip6 dest dest6 dport = Some (s', valid) /\
    (valid = true <-> exists f, M !! (port, true, v6) = Some f /\ fl_valid now g ends dport f) /\
    refines s' (if valid then alter (fl_touch now) (port, true, v6) M else delete (port, true, v6) M).
Proof.
  intros Hr Hn ->. pose proof (rf_wf _ _ Hr) as Hwf. unfold udp_flow_validate. rewrite (rf_view _ _ Hr).
  destruct (conn_of_found s port true v6 Hwf) as [[-> E]|(p & c & -> & Hp & Hk & E)]; cbn [mbind option_bind].
  { rewrite E. exists s, false. split; [done|]. split; [naive_solver|].
    eapply refines_delete; [exact Hr|done|]. intros k'. case_decide; by subst. }
  rewrite Hp, E. cbn [mbind option_bind fmap option_fmap option_map].
  assert (clock_ok (last_activity c)) as Hl.
  { apply (rf_clock _ _ Hr (port, true, v6) (view c)). by rewrite (rf_view _ _ Hr), E. }
  pose proof (flow_valid_iff now g v6 ip ip6 dest dest6 dport c ltac:(unfold clock_ok in *; lia)
    ltac:(apply Hl)) as Hv.
  pose proof (view_ends _ _ _ Hwf E) as He. cbn [snd] in He.
  assert (flow_valid now g v6 ip ip6 dest dest6 dport c = true <->
          exists f, Some (view c) = Some f /\
            fl_valid now g (if v6 then inr (ip6, dest6) else inl (ip, dest)) dport f) as Hv'.
  { rewrite Hv. unfold fl_valid. cbn [view fl_port fl_generation fl_last] in *. clear Hv.
    split; [intros (? & Hx & ? & ?)|intros (f & [= <-] & Hx & ? & ? & ?)].
    - eexists. split; [reflexivity|]. rewrite He. split_and!; try done. by destruct v6, Hx as [-> ->].
    - rewrite He in Hx. split_and!; try done. destruct v6; by injection Hx. }
  destruct (flow_valid _ _ _ _ _ _ _ _ c) eqn:Ev.
  - exists (set_node s p (touch c now)), true. split; [done|]. split; [exact Hv'|].
    assert (ct_wf (set_node s p (touch c now))) as Hwf' by (by eapply set_node_wf).
    eapply (refines_alter s _ M _ Hr Hwf' (fun c => touch c now)); [|done|done].
    intros k'. rewrite (conn_of_insert s _ p (touch c now)) by (done || by rewrite Hp).
    change (flow_key (touch c now)) with (flow_key c). rewrite Hk. case_decide; [subst; by rewrite E|done].
  - destruct (drop_flow_spec s port true v6 p c Hwf Hp Hk) as (s' & -> & Hwf' & Hd).
    exists s', false. split; [done|]. split; [exact Hv'|]. by eapply refines_delete.
Qed.

Lemma cleanup_refined s M now :
  refines s M -> clock_ok now ->
  exists s', cleanup_connections now s = Some s' /\
    refines s' (filter (fun kf => fl_stale now kf.2 = false) M).
Proof.
  intros Hr Hn. destruct (cleanup_connections_spec now s (rf_wf _ _ Hr)) as (s' & Hc & Hwf' & Hk).
  exists s'. split; [done|]. split; [done| |].
  - intros k. rewrite map_lookup_filter, Hk, (rf_view _ _ Hr).
    destruct (conn_of s k) as [c|] eqn:E; [|done]. cbn.
    assert (clock_ok (last_activity c)) as Hl.
    { apply (rf_clock _ _ Hr k (view c)). by rewrite (rf_view _ _ Hr), E. }
    unfold kept. rewrite (stale_view now c Hn Hl). by destruct (fl_stale now (view c)).
  - intros k f [Hf _]%map_lookup_filter_Some. by eapply rf_clock.
Qed.

Lemma add_refined s M alloc now g port udp ip dest dport cfg :
  refines s M -> op_ok s (OpAdd alloc now g port udp ip dest dport cfg) ->
  step_refined s M (OpAdd alloc now g port udp ip dest dport cfg).
Proof.
  intros Hr [Ha Hn].
  destruct (add_connection_spec alloc now g s port udp ip dest dport cfg (rf_wf _ _ Hr) Ha) as (s' & Hs & Hwf' & Hadd).
  do 3 eexists. split; [cbn [ct_exec]; rewrite Hs; done|]. split; [done|].
  eapply refines_add; [exact Hr|done|exact Hadd| |done].
  intros c ([<- <- <- <- <-] & <- & <-) H6. unfold view. by rewrite H6.
Qed.

Lemma add6_refined s M alloc now g port udp ip6 dest6 dport cfg :
  refines s M -> op_ok s (OpAdd6 alloc now g port udp ip6 dest6 dport cfg) ->
  step_refined s M (OpAdd6 alloc now g port udp ip6 dest6 dport cfg).
Proof.
  intros Hr [Ha Hn].
  destruct (add_connection_v6_spec alloc now g s port udp ip6 dest6 dport cfg (rf_wf _ _ Hr) Ha) as (s' & Hs & Hwf' & Hadd).
  do 3 eexists. split; [cbn [ct_exec]; rewrite Hs; done|]. split; [done|].
  eapply refines_add; [exact Hr|done|exact Hadd| |done].
  intros c ([<- <- <- <- <-] & <- & <-) H6. unfold view. by rewrite H6.
Qed.

Lemma stamp_refined s M port v6 g : refines s M -> step_refined s M (OpStamp port v6 g).
Proof.
  intros Hr.
  destruct (in_place_refined s M port true v6 (fun c =>
    mkConn (src_port c) (c_is_udp c) (src_ip c) (orig_dest_ip c) (orig_dest_port c)
           (is_tracked c) (fin_flags c) g (last_activity c) (c_proxy_config_id c)
           (is_ipv6 c) (src_ip6 c) (orig_dest_ip6 c) (rev_bucket c) (in_rev c)) (fl_stamp g) Hr)
    as (s' & Hs & Hr'); try done.
  do 3 eexists. split; [cbn [ct_exec]; unfold udp_flow_stamp; rewrite Hs; done|]. done.
Qed.

Lemma fin_refined s M now port v6 bit :
  refines s M -> clock_ok now -> step_refined s M (OpFin now port v6 bit).
Proof.
  intros Hr Hok.
  destruct (in_place_refined s M port false v6 (fun c =>
    mkConn (src_port c) (c_is_udp c) (src_ip c) (orig_dest_ip c) (orig_dest_port c)
           (is_tracked c) (Z.lor (fin_flags c) bit) (policy_generation c) now (c_proxy_config_id c)
           (is_ipv6 c) (src_ip6 c) (orig_dest_ip6 c) (rev_bucket c) (in_rev c)) (fl_end bit now) Hr)
    as (s' & Hs & Hr'); try done.
  do 3 eexists. split; [cbn [ct_exec]; unfold connection_fin; rewrite Hs; done|]. done.
Qed.

(** A lookup of [get_touch] and the projection of its answer. *)
Ltac answer_lookup Hr Hok v6 :=
  match goal with |- context [ct_exec ?s (_ ?now ?port ?udp)] =>
    let s' := fresh "s'" in let Hg := fresh in let Hr' := fresh in let c := fresh "c" in let E := fresh in
    destruct (get_refined s _ now port udp v6 Hr Hok) as (s' & Hg & Hr');
    cbn [ct_exec]; unfold get_connection, get_connection_full, get_connection_full_v6; rewrite Hg;
    do 3 eexists; split; [done|]; split; [|exact Hr']; split; [done|];
    rewrite (rf_view _ _ Hr); destruct (conn_of s _) as [c|] eqn:E; [|done]; cbn; unfold is_v4, is_v6;
    by rewrite (view_ends _ _ _ (rf_wf _ _ Hr) E)
  end.

Lemma exec_refined s M op : refines s M -> op_ok s op -> step_refined s M op.
Proof.
  intros Hr Hok. pose proof (rf_wf _ _ Hr) as Hwf.
  destruct op as [| |now port udp|now port udp|now port udp|port udp|port udp v6|dest6 dport| |
    |port udp v6|now g port [[ip dest]|[ip6 dest6]] dport|now]; cbn [op_ok] in Hok.
  - by apply add_refined.
  - by apply add6_refined.
  - unfold step_refined. answer_lookup Hr Hok false.
  - unfold step_refined. answer_lookup Hr Hok false.
  - unfold step_refined. answer_lookup Hr Hok true.
  - do 3 eexists. split; [cbn [ct_exec]; rewrite proxy_id_ok by done; done|]. split; [|exact Hr]. split; [done|].
    rewrite (rf_view _ _ Hr). by destruct (conn_of s _).
  - do 3 eexists. split; [cbn [ct_exec]; rewrite tracked_ok by done; done|]. split; [|exact Hr]. split; [done|].
    rewrite (rf_view _ _ Hr). by destruct (conn_of s _).
  - destruct (sender_refined s M dest6 dport Hr) as (r & Hs & Hq).
    do 3 eexists. split; [cbn [ct_exec]; rewrite Hs; done|]. by split; [exact Hq|].
  - by apply stamp_refined.
  - by apply fin_refined.
  - destruct (remove_connection_spec s port udp v6 Hwf) as (s' & Hs & Hwf' & Hk).
    do 3 eexists. split; [cbn [ct_exec]; rewrite Hs; done|]. split; [done|]. by eapply refines_delete.
  - destruct (validate_refined s M now g port false ip [] dest [] dport _ Hr Hok eq_refl) as (s' & b & Hs & Hb & Hr').
    do 3 eexists. split; [cbn [ct_exec]; rewrite Hs; done|]. split; [exists b; by split_and!|exact Hr'].
  - destruct (validate_refined s M now g port true 0 ip6 0 dest6 dport _ Hr Hok eq_refl) as (s' & b & Hs & Hb & Hr').
    do 3 eexists. split; [cbn [ct_exec]; rewrite Hs; done|]. split; [exists b; by split_and!|exact Hr'].
  - destruct (cleanup_refined s M now Hr Hok) as (s' & Hs & Hr').
    do 3 eexists. split; [cbn [ct_exec]; rewrite Hs; done|]. by split.
Qed.

(** ** Runs *)

(** A run of the table: what the functions answered, one after the other. *)
Inductive ct_run : ConnTable -> list (flow_op * flow_result) -> ConnTable -> Prop :=
| run_nil s : ct_run s [] s
| run_cons s s1 s' op r tr :
    op_ok s op -> ct_exec s op = Some (s1, r) -> ct_run s1 tr s' -> ct_run s ((op, r) :: tr) s'.

Inductive map_run : FlowMap -> list (flow_op * flow_result) -> FlowMap -> Prop :=
| map_nil M : map_run M [] M
| map_cons M M1 M' op r tr : flow_spec op M M1 r -> map_run M1 tr M' -> map_run M ((op, r) :: tr) M'.

Lemma run_refined s tr s' M : refines s M -> ct_run s tr s' -> exists M', map_run M tr M' /\ refines s' M'.
Proof.
  intros Hr Hrun. revert M Hr. induction Hrun as [s|s s1 s' op r tr Hok He _ IH]; intros M Hr.
  { exists M. split; [constructor|done]. }
  destruct (exec_refined s M op Hr Hok) as (s2 & r2 & M1 & He2 & Hs & Hr1). rewrite He in He2. simplify_eq.
  destruct (IH _ Hr1) as (M' & Hm & Hr'). exists M'. split; [by econstructor|done].
Qed.

(** C7: The flow table of nodes, forward chains and reverse chains cannot be told
    from a finite map: in every state a run can reach, every function returns
    without following a dangling pointer, and what the run answered is an
    answer of the map. *)
Theorem conntrack_refines_map tr s :
  ct_run conn_init tr s ->
  (exists M, map_run ∅ tr M /\ refines s M) /\
  forall op, op_ok s op -> exists s' r, ct_exec s op = Some (s', r) /\ ct_run conn_init (tr ++ [(op, r)]) s'.
Proof.
  intros Hrun. destruct (run_refined _ _ _ _ conn_init_refines Hrun) as (M & Hm & Hr).
  split; [by exists M|]. intros op Hok. destruct (exec_refined s M op Hr Hok) as (s' & r & _ & He & _).
  exists s', r. split; [done|]. clear Hm Hr. revert Hrun. generalize conn_init. induction tr as [|x tr IH]; intros s0 Hrun.
  - inversion Hrun; subst. by econstructor; [..|constructor].
  - inversion Hrun; subst. econstructor; [done..|]. by apply IH.
Qed.
