(* ===== verification/CleanupWalk.v ===== *)
(** * The clean-up between other threads (pb_conntrack.c)

    [cleanup_stale_connections] holds the lock while it looks for a stale flow,
    gives it up to free the flow, and goes on from where [conn_ptr] points.  The
    walk is cut here into the sections the lock makes atomic, and between two of
    them any other thread may use the table.  Alone the walk is
    [cleanup_connections]; beside threads that only add, look up or mark flows
    it is safe and complete; beside one that frees a flow it can follow a
    pointer into freed memory. *)
From S2P Require Import Prelude HashTable Types Process ConnTrack FlowMap.

(** ** The walk

    Where the thread is while it does not hold the lock: before bucket [i], or
    inside it with [conn_ptr] at the head ([None]) or at the [next] of a node.
    A node that was unlinked is the walk's own until it is freed. *)
Inductive walker :=
| AtBucket (i : nat)
| Unlinked (i : nat) (link : option Z) (node : Z)
| Freed (i : nat) (link : option Z).

(** What [conn_ptr] reaches: the chain behind a node. *)
Fixpoint behind (q : Z) (l : list Z) : list Z :=
  match l with
  | [] => []
  | x :: l => if x =? q then l else behind q l
  end.

(** The chain [conn_ptr] is in, by the node it points into. *)
Definition link_chain (s : ConnTable) (i : nat) (link : option Z) : option Z :=
  match link with
  | None => Some (Z.of_nat i)
  | Some q => c ← heap s !! q; Some (fwd_hash_of c)
  end.

Definition link_rest (s : ConnTable) (b : Z) (link : option Z) : list Z :=
  let chain := bucket (connection_hash_table s) b in
  match link with None => chain | Some q => behind q chain end.

(** The inner loop up to the first stale flow: the link to it, and the node. *)
Fixpoint next_stale (now : Z) (h : gmap Z CONNECTION_INFO) (link : option Z) (l : list Z)
  : option (option (option Z * Z)) :=
  match l with
  | [] => Some None
  | p :: l =>
      c ← h !! p;
      if conn_stale now c then Some (Some (link, p)) else next_stale now h (Some p) l
  end.

(** The node [conn_ptr] leads to leaves both indexes. *)
Definition unlink_at (s : ConnTable) (b p : Z) : option ConnTable :=
  s ← rev_unlink (mkConnTable (heap s)
        (set_bucket (connection_hash_table s) b
           (remove_first (fun x => x =? p) (bucket (connection_hash_table s) b)))
        (connection_rev_table s)) p;
  Some (mkConnTable (delete p (heap s)) (connection_hash_table s) (connection_rev_table s)).

(** From taking the lock to giving it up. *)
Definition walk_section (now : Z) (s : ConnTable) (i : nat) (link : option Z) : option (ConnTable * walker) :=
  b ← link_chain s i link;
  found ← next_stale now (heap s) link (link_rest s b link);
  match found with
  | None => Some (s, AtBucket (S i))
  | Some (link, p) => s ← unlink_at s b p; Some (s, Unlinked i link p)
  end.

Definition n_chains : nat := Z.to_nat CONNECTION_HASH_SIZE.

Definition walk_step (now : Z) (sw : ConnTable * walker) : option (ConnTable * walker) :=
  let '(s, w) := sw in
  match w with
  | AtBucket i => if (i <? n_chains)%nat then walk_section now s i None else Some sw
  | Unlinked i link _ => Some (s, Freed i link)
  | Freed i link => walk_section now s i link
  end.

Fixpoint walk_run (now : Z) (n : nat) (sw : ConnTable * walker) : option (ConnTable * walker) :=
  match n with
  | O => Some sw
  | S n => sw ← walk_step now sw; walk_run now n sw
  end.

(** ** The other threads *)

Definition op_frees (op : flow_op) : bool :=
  match op with OpRemove _ _ _ | OpValidate _ _ _ _ _ | OpCleanup _ => true | _ => false end.

(** The flow an operation is about. *)
Definition op_key (op : flow_op) : option flow_id :=
  match op with
  | OpAdd _ _ _ port udp _ _ _ _ => Some (port, udp, false)
  | OpAdd6 _ _ _ port udp _ _ _ _ => Some (port, udp, true)
  | OpGet _ port udp | OpGetFull _ port udp | OpProxyId port udp => Some (port, udp, false)
  | OpGetFull6 _ port udp => Some (port, udp, true)
  | OpTracked port udp v6 | OpRemove port udp v6 => Some (port, udp, v6)
  | OpStamp port v6 _ => Some (port, true, v6)
  | OpFin _ port v6 _ => Some (port, false, v6)
  | OpValidate _ _ port (inl _) _ => Some (port, true, false)
  | OpValidate _ _ port (inr _) _ => Some (port, true, true)
  | OpSender _ _ | OpCleanup _ => None
  end.

(** The walk and other threads that free nothing and leave flow [k] alone.  A
    node that is being freed may even be handed out again at once, which is more
    than the allocator does. *)
Inductive walk_reach (now : Z) (k : flow_id) (s0 : ConnTable) : ConnTable * walker -> Prop :=
| reach_start : walk_reach now k s0 (s0, AtBucket 0)
| reach_walk sw sw' : walk_reach now k s0 sw -> walk_step now sw = Some sw' -> walk_reach now k s0 sw'
| reach_other s w op s' r :
    walk_reach now k s0 (s, w) -> op_ok s op -> op_frees op = false -> op_key op <> Some k ->
    ct_exec s op = Some (s', r) -> walk_reach now k s0 (s', w).

(** ** Alone *)

Lemma unlink_at_ok s p c :
  ct_wf s -> heap s !! p = Some c -> unlink_at s (fwd_hash_of c) p = drop_node s (fwd_hash_of c) p.
Proof.
  intros Hwf Hc. unfold unlink_at, drop_node. rewrite unlink_ptr_live; [done|].
  intros x. apply fwd_live; [done|]. apply fwd_hash_range.
Qed.

Lemma behind_app q pre rest : q ∉ pre -> behind q (pre ++ q :: rest) = rest.
Proof.
  induction pre as [|x pre IH]; intros Hq; cbn; [by rewrite Z.eqb_refl|].
  apply not_elem_of_cons in Hq as [Hne Hq]. destruct (Z.eqb_spec x q); [congruence|]. by apply IH.
Qed.

(** [conn_ptr] stands behind [pre] in chain [b]. *)
Definition stands (s : ConnTable) (b : Z) (pre : list Z) (rest : list Z) (link : option Z) : Prop :=
  bucket (connection_hash_table s) b = pre ++ rest /\ link = last pre.

Lemma stands_chain s i pre rest link :
  ct_wf s -> stands s (Z.of_nat i) pre rest link ->
  link_chain s i link = Some (Z.of_nat i) /\ link_rest s (Z.of_nat i) link = rest.
Proof.
  intros Hwf [Hb ->]. unfold link_rest. rewrite Hb. destruct pre as [|q pre _] using rev_ind; [done|].
  rewrite last_snoc, <- app_assoc. cbn [link_chain app].
  assert (q ∈ bucket (connection_hash_table s) (Z.of_nat i)) as Hq by (rewrite Hb, !elem_of_app; left; right; left).
  apply (ix_mem _ _ _ (ct_fwd _ Hwf)) in Hq as (c & -> & Hc); [|lia]. split; [by rewrite <- Hc|].
  apply behind_app. pose proof (ix_nodup _ _ _ (ct_fwd _ Hwf) (Z.of_nat i) ltac:(lia)) as Hn.
  rewrite Hb, <- app_assoc in Hn. apply NoDup_app in Hn as (_ & Hn & _).
  intros Hin. apply (Hn q); [done|]. left.
Qed.

(** Looking for the next stale flow behind [pre]. *)
Lemma next_stale_spec now h pre rest :
  (forall p, p ∈ rest -> is_Some (h !! p)) ->
  (next_stale now h (last pre) rest = Some None /\
   forall p c, p ∈ rest -> h !! p = Some c -> conn_stale now c = false) \/
  exists mid p c rest', rest = mid ++ p :: rest' /\ h !! p = Some c /\ conn_stale now c = true /\
    (forall x c, x ∈ mid -> h !! x = Some c -> conn_stale now c = false) /\
    next_stale now h (last pre) rest = Some (Some (last (pre ++ mid), p)).
Proof.
  revert pre. induction rest as [|p rest IH]; intros pre Hl; cbn [next_stale].
  { left. split; [done|]. by intros p c ?%elem_of_nil. }
  destruct (Hl p) as [c Hc]; [left|]. rewrite Hc. cbn [mbind option_bind]. destruct (conn_stale now c) eqn:Es.
  - right. exists [], p, c, rest. rewrite app_nil_r. split_and!; try done. by intros x c' ?%elem_of_nil.
  - replace (Some p) with (last (pre ++ [p])) by apply last_snoc.
    destruct (IH (pre ++ [p])) as [[-> Hn]|(mid & p' & c' & rest' & -> & Hp & Hs & Hm & ->)];
      [intros x Hx; apply Hl; by right| |].
    + left. split; [done|]. intros x cx [->|Hx]%elem_of_cons Hcx; [congruence|eauto].
    + right. exists (p :: mid), p', c', rest'. rewrite <- app_assoc. split_and!; try done.
      intros x cx [->|Hx]%elem_of_cons Hcx; [congruence|eauto].
Qed.

Lemma remove_first_mid p (pre rest : list Z) :
  p ∉ pre -> remove_first (fun x => x =? p) (pre ++ p :: rest) = pre ++ rest.
Proof.
  induction pre as [|x pre IH]; intros Hp; cbn; [by rewrite Z.eqb_refl|].
  apply not_elem_of_cons in Hp as [Hne Hp]. destruct (Z.eqb_spec x p); [congruence|]. f_equal. by apply IH.
Qed.

Lemma stands_live s i pre rest link p :
  ct_wf s -> stands s (Z.of_nat i) pre rest link -> p ∈ pre ++ rest ->
  exists c, heap s !! p = Some c /\ fwd_hash_of c = Z.of_nat i.
Proof.
  intros Hwf [Hb _] Hp. rewrite <- Hb in Hp. apply (ix_mem _ _ _ (ct_fwd _ Hwf)) in Hp; [done|lia].
Qed.

(** One section of the walk: it reaches the end of the bucket over live flows, or
    drops the first stale one and stands before what was behind it. *)
Lemma walk_section_ok now s i pre rest link :
  ct_wf s -> stands s (Z.of_nat i) pre rest link ->
  (walk_section now s i link = Some (s, AtBucket (S i)) /\
   forall p c, p ∈ rest -> heap s !! p = Some c -> conn_stale now c = false) \/
  exists mid p c rest' s', rest = mid ++ p :: rest' /\ heap s !! p = Some c /\ conn_stale now c = true /\
    (forall x c, x ∈ mid -> heap s !! x = Some c -> conn_stale now c = false) /\
    drop_node s (Z.of_nat i) p = Some s' /\ ct_wf s' /\ heap s' = delete p (heap s) /\
    stands s' (Z.of_nat i) (pre ++ mid) rest' (last (pre ++ mid)) /\
    walk_section now s i link = Some (s', Unlinked i (last (pre ++ mid)) p).
Proof.
  intros Hwf Hst. unfold walk_section. destruct (stands_chain s i pre rest link Hwf Hst) as [-> Hr].
  cbn [mbind option_bind]. rewrite Hr. pose proof Hst as [Hb ->].
  destruct (next_stale_spec now (heap s) pre rest) as [[-> Hn]|(mid & p & c & rest' & -> & Hp & Hs & Hm & ->)].
  - intros p Hp. destruct (stands_live s i pre rest _ p Hwf Hst) as (c & -> & _); [rewrite elem_of_app; by right|eauto].
  - left. done.
  - right. cbn [mbind option_bind].
    destruct (stands_live s i pre _ _ p Hwf Hst) as (c' & Hc' & Hh);
      [rewrite !elem_of_app, elem_of_cons; tauto|].
    rewrite Hp in Hc'. injection Hc' as <-.
    destruct (drop_node_ok s p c Hwf Hp) as (s' & Hd & Hwf' & Hheap & Hbk).
    pose proof (unlink_at_ok s p c Hwf Hp) as Hu. rewrite Hh in Hu, Hd. rewrite Hu, Hd.
    exists mid, p, c, rest', s'. split_and!; try done. split; [|done].
    rewrite Hbk by lia. rewrite decide_True by done. rewrite Hb, app_assoc. apply remove_first_mid.
    pose proof (ix_nodup _ _ _ (ct_fwd _ Hwf) (Z.of_nat i) ltac:(lia)) as Hnd.
    rewrite Hb, app_assoc in Hnd. apply NoDup_app in Hnd as (_ & Hnd & _).
    intros Hin. apply (Hnd p); [done|]. left.
Qed.

Lemma cleanup_chain_skip now b mid rest s :
  (forall x, x ∈ mid -> exists c, heap s !! x = Some c /\ conn_stale now c = false) ->
  cleanup_chain now b (mid ++ rest) s = cleanup_chain now b rest s.
Proof.
  induction mid as [|x mid IH]; intros Hm; cbn [app cleanup_chain]; [done|].
  destruct (Hm x) as (c & Hc & Hs); [left|]. rewrite Hc. cbn [mbind option_bind]. rewrite Hs. apply IH. intros y Hy. apply Hm. by right.
Qed.

Lemma walk_run_app now n m sw : walk_run now (n + m) sw = (walk_run now n sw ≫= walk_run now m).
Proof.
  revert sw. induction n as [|n IH]; intros sw; cbn; [done|]. destruct (walk_step now sw); cbn; [apply IH|done].
Qed.

(** The rest of a bucket, from any place in it. *)
Lemma walk_bucket now n : forall s i pre rest link w,
  ct_wf s -> stands s (Z.of_nat i) pre rest link -> length rest = n ->
  w = Freed i link \/ w = AtBucket i /\ link = None /\ (i < n_chains)%nat ->
  exists s' m, cleanup_chain now (Z.of_nat i) rest s = Some s' /\ ct_wf s' /\
    walk_run now m (s, w) = Some (s', AtBucket (S i)) /\ (m + 2 * size (heap s') = 1 + 2 * size (heap s))%nat.
Proof.
  induction n as [n IH] using lt_wf_ind. intros s i pre rest link w Hwf Hst Hlen Hw.
  assert (walk_step now (s, w) = walk_section now s i link) as Hstep.
  { destruct Hw as [->|(-> & -> & Hi)]; cbn [walk_step]; [done|].
    by rewrite (proj2 (Nat.ltb_lt _ _)). }
  assert (forall mid rest', rest = mid ++ rest' ->
    (forall x c, x ∈ mid -> heap s !! x = Some c -> conn_stale now c = false) ->
    cleanup_chain now (Z.of_nat i) rest s = cleanup_chain now (Z.of_nat i) rest' s) as Hskip.
  { intros mid rest' -> Hm. apply cleanup_chain_skip. intros x Hx.
    destruct (stands_live s i pre _ link x Hwf Hst) as (c & Hc & _); [rewrite !elem_of_app; tauto|]. eauto. }
  destruct (walk_section_ok now s i pre rest link Hwf Hst)
    as [[Hs Hn]|(mid & p & c & rest' & s1 & -> & Hp & Hsp & Hm & Hd & Hwf1 & Hh & Hst1 & Hs)].
  - exists s, 1%nat. rewrite (Hskip rest []) by (done || by rewrite app_nil_r).
    split; [done|]. split; [done|]. split; [|lia]. cbn [walk_run]. by rewrite Hstep, Hs.
  - rewrite (Hskip mid (p :: rest')) by done. cbn [cleanup_chain]. rewrite Hp. cbn [mbind option_bind].
    rewrite Hsp, Hd. cbn [mbind option_bind].
    destruct (IH (length rest')) with (s := s1) (i := i) (pre := pre ++ mid) (rest := rest')
      (link := last (pre ++ mid)) (w := Freed i (last (pre ++ mid))) as (s' & m & Hc & Hwf' & Hrun & Hsz); try done.
    { rewrite <- Hlen, length_app. cbn. lia. }
    { by left. }
    exists s', (S (S m)). split; [done|]. split; [done|]. split.
    + cbn [walk_run]. rewrite Hstep, Hs. exact Hrun.
    + rewrite Hh in Hsz. rewrite map_size_delete, Hp in Hsz. cbn in Hsz.
      assert (size (heap s) <> 0%nat) by (intros E%map_size_empty_inv; by rewrite E in Hp). lia.
Qed.

(** The walk over all buckets. *)
Lemma walk_alone now s :
  ct_wf s ->
  exists s' n, cleanup_connections now s = Some s' /\ ct_wf s' /\
    (n <= n_chains + 2 * size (heap s))%nat /\
    walk_run now n (s, AtBucket 0) = Some (s', AtBucket n_chains).
Proof.
  intros Hwf. unfold cleanup_connections. fold n_chains.
  assert (forall k, (k <= n_chains)%nat -> exists s' n, cleanup_buckets now k s = Some s' /\ ct_wf s' /\
    (n + 2 * size (heap s') = k + 2 * size (heap s))%nat /\
    walk_run now n (s, AtBucket 0) = Some (s', AtBucket k)) as Hk.
  { induction k as [|k IH]; intros Hk; cbn [cleanup_buckets].
    { exists s, 0%nat. by split_and!. }
    destruct IH as (s1 & n1 & -> & Hwf1 & Hn1 & Hr1); [lia|]. cbn [mbind option_bind].
    destruct (walk_bucket now (length (bucket (connection_hash_table s1) (Z.of_nat k))) s1 k []
      (bucket (connection_hash_table s1) (Z.of_nat k)) None (AtBucket k) Hwf1) as (s' & m & Hc & Hwf' & Hr & Hsz);
      [done|done|by right|].
    exists s', (n1 + m)%nat. split; [done|]. split; [done|]. split; [lia|].
    by rewrite walk_run_app, Hr1. }
  destruct (Hk n_chains) as (s' & n & Hc & Hwf' & Hn & Hr); [done|].
  exists s', n. split_and!; [done|done|lia|done].
Qed.

(** C19: Alone, the walk ends within two steps for every flow it frees and one for
    every bucket, and leaves exactly what the clean-up in one piece leaves. *)
Theorem cleanup_walk_alone now s :
  ct_wf s ->
  exists s' n, cleanup_connections now s = Some s' /\ ct_wf s' /\
    (n <= n_chains + 2 * size (heap s))%nat /\
    walk_run now n (s, AtBucket 0) = Some (s', AtBucket n_chains).
Proof. apply walk_alone. Qed.

(** ** From where another thread left it *)

(** The link the walk kept stands in its bucket. *)
Definition link_stands (s : ConnTable) (w : walker) : Prop :=
  match w with Freed i (Some q) => q ∈ bucket (connection_hash_table s) (Z.of_nat i) | _ => True end.

#[export] Instance link_stands_dec s w : Decision (link_stands s w).
Proof. destruct w as [i|i link p|i [q|]]; cbn [link_stands]; apply _. Defined.

(** As long as it does, a step of the walk reads no freed node and keeps the table
    well formed, whatever was added or taken out elsewhere. *)
Lemma walk_step_wf now s w :
  ct_wf s -> link_stands s w -> exists s' w', walk_step now (s, w) = Some (s', w') /\ ct_wf s'.
Proof.
  intros Hwf Hl.
  assert (forall i pre rest link, stands s (Z.of_nat i) pre rest link ->
    exists s' w', walk_section now s i link = Some (s', w') /\ ct_wf s') as Hsec.
  { intros i pre rest link Hst.
    destruct (walk_section_ok now s i pre rest link Hwf Hst)
      as [[E _]|(mid & p & c & rest' & s' & _ & _ & _ & _ & _ & Hwf' & _ & _ & E)]; rewrite E; by do 2 eexists. }
  destruct w as [i|i link p|i [q|]]; cbn [walk_step].
  - destruct (i <? n_chains)%nat; [by eapply (Hsec i [])|by do 2 eexists].
  - by do 2 eexists.
  - cbn [link_stands] in Hl. apply list_elem_of_split in Hl as (pre & rest & Hb).
    apply (Hsec i (pre ++ [q]) rest). split; [by rewrite Hb, <- app_assoc|by rewrite last_snoc].
  - by apply (Hsec i [] (bucket (connection_hash_table s) (Z.of_nat i))).
Qed.

(** ** Beside threads that free nothing *)

(** What such an operation does to the chains and to a flow it is not about. *)
Record grown (k : flow_id) (s s' : ConnTable) : Prop := {
  gr_wf : ct_wf s';
  gr_chain : forall b, 0 <= b -> exists new,
    bucket (connection_hash_table s') b = new ++ bucket (connection_hash_table s) b /\
    forall x, x ∈ new -> heap s !! x = None;
  gr_flow : forall p c, flow_key c = k -> heap s' !! p = Some c <-> heap s !! p = Some c
}.

Lemma rev_unlink_fwd s p s' : rev_unlink s p = Some s' -> connection_hash_table s' = connection_hash_table s.
Proof.
  unfold rev_unlink. intros (c & _ & Hs)%bind_Some. case_match; [by simplify_eq|].
  by apply bind_Some in Hs as (l & _ & [= <-]).
Qed.

Lemma rev_insert_fwd s p s' : rev_insert s p = Some s' -> connection_hash_table s' = connection_hash_table s.
Proof. unfold rev_insert. by intros (c & _ & [= <-])%bind_Some. Qed.

Lemma readdress_fwd s p f s' : readdress s p f = Some s' -> connection_hash_table s' = connection_hash_table s.
Proof.
  unfold readdress. intros (s1 & H1%rev_unlink_fwd & (c & _ & H2%rev_insert_fwd)%bind_Some)%bind_Some.
  by rewrite H2.
Qed.

Section Grown.
Context (k : flow_id) (s s' : ConnTable) (Hwf : ct_wf s) (Hwf' : ct_wf s').

Lemma grown_same : connection_hash_table s' = connection_hash_table s -> heap s' = heap s -> grown k s s'.
Proof.
  intros Ht Hh. split; [done| |by rewrite Hh]. intros b _. exists []. rewrite Ht. split; [done|].
  by intros x ?%elem_of_nil.
Qed.

Lemma grown_in_place p c c' :
  connection_hash_table s' = connection_hash_table s -> heap s' = <[p := c']> (heap s) ->
  heap s !! p = Some c -> flow_key c <> k -> flow_key c' <> k -> grown k s s'.
Proof.
  intros Ht Hh Hc Hk Hk'. split; [done| |].
  - intros b _. exists []. rewrite Ht. split; [done|]. by intros x ?%elem_of_nil.
  - intros q x Hx. rewrite Hh, lookup_insert. case_decide; [|done]. subst q. rewrite Hc.
    split; intros [= <-]; congruence.
Qed.

Lemma grown_linked p c :
  connection_hash_table s' = set_bucket (connection_hash_table s) (fwd_hash_of c)
    (p :: bucket (connection_hash_table s) (fwd_hash_of c)) ->
  heap s' = <[p := c]> (heap s) -> heap s !! p = None -> flow_key c <> k -> grown k s s'.
Proof.
  intros Ht Hh Hp Hk. split; [done| |].
  - intros b Hb. rewrite Ht, bucket_set; [|apply (ct_fwd _ Hwf)|apply fwd_hash_range|done].
    case_decide as E; [|exists []; split; [done|by intros x ?%elem_of_nil]].
    exists [p]. rewrite <- E. split; [done|]. by intros x ->%list_elem_of_singleton.
  - intros q x Hx. rewrite Hh, lookup_insert. case_decide; [|done]. subst q. rewrite Hp.
    split; [intros [= <-]; congruence|done].
Qed.
End Grown.

Lemma add_grows k s alloc port udp v6 f new s' :
  ct_wf s -> alloc_ok s alloc -> k <> (port, udp, v6) ->
  (forall x, flow_key x = (port, udp, v6) -> flow_key (f x) = (port, udp, v6)) ->
  (forall x, is_tracked (f x) = true) -> flow_key new = (port, udp, v6) -> is_tracked new = true ->
  (found ← ct_find s port udp v6;
   match found with Some p => readdress s p f | None => link_new s alloc new end) = Some s' ->
  grown k s s'.
Proof.
  intros Hwf Hal Hne Hk Ht Hnk Hnt.
  destruct (ct_find_spec s port udp v6 Hwf) as [(p & c & -> & Hp & Hc)|[-> Hn]]; cbn [mbind option_bind]; intros Hs.
  - pose proof (readdress_fwd _ _ _ _ Hs) as Hfwd.
    destruct (readdress_ok s p c f Hwf Hp) as (s1 & c' & Hr & Hwf' & Hh & c0 & b & -> & ->); try done.
    { by rewrite Hc. }
    rewrite Hs in Hr. injection Hr as <-.
    apply (grown_in_place k s s' Hwf' p c _ Hfwd Hh Hp); [congruence|].
    change (flow_key (f (set_rev c b false)) <> k). rewrite Hk; [congruence|done].
  - destruct alloc as [p|]; cbn in Hal, Hs; [|injection Hs as <-; by apply grown_same].
    pose proof (rev_insert_fwd _ _ _ Hs) as Hfwd.
    destruct (link_new_ok s p new Hwf Hal) as (s1 & Hl & Hwf' & Hh); [by rewrite Hnk|done|].
    cbn [link_new] in Hl. rewrite Hs in Hl. injection Hl as <-.
    apply (grown_linked k s s' Hwf Hwf' p (set_rev new (rev_hash new) true) Hfwd Hh Hal).
    change (flow_key new <> k). congruence.
Qed.

Lemma in_place_grows k s port udp v6 g s' :
  ct_wf s -> k <> (port, udp, v6) ->
  (forall c, flow_key (g c) = flow_key c /\ rev_hash (g c) = rev_hash c /\ in_rev (g c) = in_rev c /\
             rev_bucket (g c) = rev_bucket c /\ is_tracked (g c) = is_tracked c) ->
  (found ← ct_find s port udp v6;
   match found with None => Some s | Some p => c ← heap s !! p; Some (set_node s p (g c)) end) = Some s' ->
  grown k s s'.
Proof.
  intros Hwf Hne Hg.
  destruct (ct_find_spec s port udp v6 Hwf) as [(p & c & -> & Hp & Hc)|[-> Hn]]; cbn [mbind option_bind];
    [|intros [= <-]; by apply grown_same].
  rewrite Hp. cbn [mbind option_bind]. intros [= <-]. destruct (Hg c) as (H1 & H2 & H3 & H4 & H5).
  eapply grown_in_place; [by eapply set_node_wf|done|done|exact Hp|congruence|congruence].
Qed.

Lemma get_grows k now s port udp v6 s' r :
  ct_wf s -> k <> (port, udp, v6) -> get_touch now s port udp v6 = Some (s', r) -> grown k s s'.
Proof.
  intros Hwf Hne. unfold get_touch.
  destruct (ct_find_spec s port udp v6 Hwf) as [(p & c & -> & Hp & Hc)|[-> Hn]]; cbn [mbind option_bind];
    [|intros [= <- _]; by apply grown_same].
  rewrite Hp. cbn [mbind option_bind]. intros [= <- _].
  eapply grown_in_place; [by eapply set_node_wf|done|done|exact Hp|congruence|].
  change (flow_key c <> k). congruence.
Qed.

Lemma exec_grows k s op s' r :
  ct_wf s -> op_ok s op -> op_frees op = false -> op_key op <> Some k -> ct_exec s op = Some (s', r) ->
  grown k s s'.
Proof.
  intros Hwf Hok Hf Hk He.
  destruct op; try discriminate; cbn [ct_exec op_key op_ok] in *;
    try (apply bind_Some in He as (? & _ & [= <- _]); by apply grown_same).
  - apply fmap_Some in He as (s1 & He & [= <- _]). destruct Hok as [Ha _].
    eapply add_grows; [done|exact Ha| |..|exact He]; [congruence|..]; try done.
    intros x Hx. unfold flow_key in *. cbn. congruence.
  - apply fmap_Some in He as (s1 & He & [= <- _]). destruct Hok as [Ha _].
    eapply add_grows; [done|exact Ha| |..|exact He]; [congruence|..]; try done.
    intros x Hx. unfold flow_key in *. cbn. congruence.
  - unfold get_connection in He. destruct (get_touch _ _ _ _ _) as [[s1 c]|] eqn:E; [|done]. cbn in He.
    injection He as <- _. eapply get_grows; [done| |exact E]. congruence.
  - unfold get_connection_full in He. destruct (get_touch _ _ _ _ _) as [[s1 c]|] eqn:E; [|done]. cbn in He.
    injection He as <- _. eapply get_grows; [done| |exact E]. congruence.
  - unfold get_connection_full_v6 in He. destruct (get_touch _ _ _ _ _) as [[s1 c]|] eqn:E; [|done]. cbn in He.
    injection He as <- _. eapply get_grows; [done| |exact E]. congruence.
  - apply fmap_Some in He as (s1 & He & [= <- _]).
    eapply in_place_grows; [done| | |exact He]; [congruence|]. by intros c.
  - apply fmap_Some in He as (s1 & He & [= <- _]).
    eapply in_place_grows; [done| | |exact He]; [congruence|]. by intros c.
Qed.

Section Interleaved.
Context (now : Z) (k : flow_id) (s0 : ConnTable).

(** What the walk still has to look at: a stale flow [k] is in a later bucket or
    behind [conn_ptr]. *)
Definition ahead (s : ConnTable) (w : walker) : Prop :=
  match w with
  | AtBucket i => forall p c, heap s !! p = Some c -> flow_key c = k -> conn_stale now c = true ->
                    Z.of_nat i <= fwd_hash_of c
  | Unlinked i link _ | Freed i link =>
      exists pre rest, stands s (Z.of_nat i) pre rest link /\
        forall p c, heap s !! p = Some c -> flow_key c = k -> conn_stale now c = true ->
          Z.of_nat i < fwd_hash_of c \/ fwd_hash_of c = Z.of_nat i /\ p ∈ rest
  end.

Record walk_inv (s : ConnTable) (w : walker) : Prop := {
  wi_wf : ct_wf s;
  wi_ahead : ahead s w;
  wi_old : forall p c, flow_key c = k -> heap s !! p = Some c -> heap s0 !! p = Some c;
  wi_kept : forall p c, flow_key c = k -> heap s0 !! p = Some c -> conn_stale now c = false ->
              heap s !! p = Some c
}.

Lemma stands_grown s s' i pre rest link :
  grown k s s' -> stands s (Z.of_nat i) pre rest link ->
  exists pre' new, stands s' (Z.of_nat i) pre' (new ++ rest) link.
Proof.
  intros Hg [Hb ->]. destruct (gr_chain _ _ _ Hg (Z.of_nat i)) as (new & Hb' & _); [lia|].
  unfold stands. rewrite Hb', Hb. destruct pre as [|q pre _] using rev_ind.
  - by exists [], new.
  - exists (new ++ pre ++ [q]), []. by rewrite <- !app_assoc, !last_app.
Qed.

Lemma walk_inv_grown s s' w : grown k s s' -> walk_inv s w -> walk_inv s' w.
Proof.
  intros Hg [Hwf Ha Ho Hk]. split; [apply Hg| | |].
  - destruct w as [i|i link q|i link]; cbn [ahead] in *.
    + intros p c Hp Hc. apply (Ha p c); [|done]. by apply (gr_flow _ _ _ Hg p c Hc).
    + destruct Ha as (pre & rest & Hst & Ha). destruct (stands_grown _ _ _ _ _ _ Hg Hst) as (pre' & new & Hst').
      exists pre', (new ++ rest). split; [done|]. intros p c Hp Hc Hs.
      destruct (Ha p c) as [|[? ?]]; [by apply (gr_flow _ _ _ Hg p c Hc)|done|done|by left|].
      right. split; [done|]. rewrite elem_of_app. by right.
    + destruct Ha as (pre & rest & Hst & Ha). destruct (stands_grown _ _ _ _ _ _ Hg Hst) as (pre' & new & Hst').
      exists pre', (new ++ rest). split; [done|]. intros p c Hp Hc Hs.
      destruct (Ha p c) as [|[? ?]]; [by apply (gr_flow _ _ _ Hg p c Hc)|done|done|by left|].
      right. split; [done|]. rewrite elem_of_app. by right.
  - intros p c Hc Hp. apply Ho; [done|]. by apply (gr_flow _ _ _ Hg p c Hc).
  - intros p c Hc Hp Hs. apply (gr_flow _ _ _ Hg p c Hc). by apply Hk.
Qed.

(** A section of the walk from any place of a bucket. *)
Lemma section_inv s i pre rest link :
  ct_wf s -> stands s (Z.of_nat i) pre rest link ->
  (forall p c, heap s !! p = Some c -> flow_key c = k -> conn_stale now c = true ->
     Z.of_nat i < fwd_hash_of c \/ fwd_hash_of c = Z.of_nat i /\ p ∈ rest) ->
  (forall p c, flow_key c = k -> heap s !! p = Some c -> heap s0 !! p = Some c) ->
  (forall p c, flow_key c = k -> heap s0 !! p = Some c -> conn_stale now c = false -> heap s !! p = Some c) ->
  exists s' w', walk_section now s i link = Some (s', w') /\ walk_inv s' w'.
Proof.
  intros Hwf Hst Ha Ho Hk.
  destruct (walk_section_ok now s i pre rest link Hwf Hst)
    as [[Hs Hn]|(mid & p & c & rest' & s1 & -> & Hp & Hsp & Hm & Hd & Hwf1 & Hh & Hst1 & Hs)].
  - exists s, (AtBucket (S i)). split; [done|]. split; [done| |done|done]. intros p c Hp Hc Hst'.
    destruct (Ha p c Hp Hc Hst') as [|[_ Hin]]; [lia|]. by rewrite (Hn p c Hin Hp) in Hst'.
  - exists s1, (Unlinked i (last (pre ++ mid)) p). split; [done|]. split; [done| | |].
    + exists (pre ++ mid), rest'. split; [done|]. intros x cx Hx Hc Hsx.
      rewrite Hh in Hx. apply lookup_delete_Some in Hx as [Hne Hx].
      destruct (Ha x cx Hx Hc Hsx) as [|[He Hin]]; [by left|]. right. split; [done|].
      apply elem_of_app in Hin as [Hin|[->|Hin]%elem_of_cons]; [|done|done].
      by rewrite (Hm x cx Hin Hx) in Hsx.
    + intros x cx Hc Hx. rewrite Hh in Hx. apply lookup_delete_Some in Hx as [_ Hx]. by apply Ho.
    + intros x cx Hc Hx Hsx. rewrite Hh. apply lookup_delete_Some. split; [|by apply Hk].
      intros ->. rewrite (Hk x cx Hc Hx Hsx) in Hp. congruence.
Qed.

Lemma walk_step_inv s w : walk_inv s w -> exists s' w', walk_step now (s, w) = Some (s', w') /\ walk_inv s' w'.
Proof.
  intros Hi. pose proof Hi as [Hwf Ha Ho Hk]. destruct w as [i|i link q|i link]; cbn [walk_step].
  - destruct (Nat.ltb_spec i n_chains) as [Hlt|]; [|by exists s, (AtBucket i)].
    eapply (section_inv s i [] (bucket (connection_hash_table s) (Z.of_nat i)) None); [done|done| |done|done].
    intros p c Hp Hc Hs. specialize (Ha p c Hp Hc Hs).
    destruct (decide (fwd_hash_of c = Z.of_nat i)) as [E|]; [right|left; lia]. split; [done|].
    apply (ix_mem _ _ _ (ct_fwd _ Hwf)); [lia|eauto].
  - exists s, (Freed i link). split; [done|]. split; done.
  - destruct Ha as (pre & rest & Hst & Ha). by eapply section_inv.
Qed.

Lemma walk_reach_inv sw : ct_wf s0 -> walk_reach now k s0 sw -> walk_inv sw.1 sw.2.
Proof.
  intros Hwf Hr. induction Hr as [|[s w] [s' w'] _ IH Hs|s w op s' r _ IH Hok Hf Hk He]; cbn [fst snd] in *.
  - split; [done| |done|done]. intros p c Hp _ _. unfold fwd_hash_of. pose proof (fwd_hash_range (src_port c)). lia.
  - destruct (walk_step_inv s w IH) as (s1 & w1 & Hs1 & Hi). rewrite Hs in Hs1. by injection Hs1 as -> ->.
  - eapply walk_inv_grown; [|exact IH]. eapply exec_grows; [apply IH|done..|exact He].
Qed.

(** C18: Beside threads that only add, look up or mark flows, in any interleaving,
    the walk never follows a pointer to a freed node and the table stays well
    formed; and when the walk is over, a flow no other thread touched is gone
    exactly when it was stale. *)
Theorem cleanup_walk_interleaved s w :
  ct_wf s0 -> walk_reach now k s0 (s, w) ->
  ct_wf s /\ (exists sw', walk_step now (s, w) = Some sw') /\
  (w = AtBucket n_chains -> conn_of s k = conn_of s0 k ≫= kept now).
Proof.
  intros Hwf0 Hr. pose proof (walk_reach_inv (s, w) Hwf0 Hr) as Hi. cbn [fst snd] in Hi.
  split; [apply Hi|]. split; [destruct (walk_step_inv s w Hi) as (s' & w' & -> & _); eauto|].
  intros ->. destruct Hi as [Hwf Ha Ho Hk]. apply option_eq. intros c. rewrite conn_of_Some by done. split.
  - intros (p & Hp & Hc). apply bind_Some. exists c. split; [apply conn_of_Some; eauto|].
    unfold kept. destruct (conn_stale now c) eqn:Es; [|done]. specialize (Ha p c Hp Hc Es).
    unfold fwd_hash_of, n_chains in Ha. pose proof (fwd_hash_range (src_port c)). lia.
  - intros (c0 & (p & Hp & Hc)%conn_of_Some & Hkc)%bind_Some; [|done]. unfold kept in Hkc.
    destruct (conn_stale now c0) eqn:Es; [done|]. injection Hkc as <-. exists p. split; [by apply Hk|done].
Qed.
End Interleaved.

(** ** Beside a thread that frees a flow *)

(** C36: The walk has passed the live flow [q] and unlinked the stale flow behind it;
    while it frees that one, another thread removes the flow of [q].  The walk
    goes on from the link inside the freed node. *)
Theorem cleanup_walk_dangling now s i pre q p post cq cp :
  ct_wf s -> (i < n_chains)%nat ->
  bucket (connection_hash_table s) (Z.of_nat i) = pre ++ q :: p :: post ->
  heap s !! q = Some cq -> heap s !! p = Some cp -> conn_stale now cp = true ->
  (forall x c, x ∈ pre ++ [q] -> heap s !! x = Some c -> conn_stale now c = false) ->
  exists s1 s2,
    walk_step now (s, AtBucket i) = Some (s1, Unlinked i (Some q) p) /\ ct_wf s1 /\
    remove_connection s1 (src_port cq) (c_is_udp cq) (is_ipv6 cq) = Some s2 /\ ct_wf s2 /\
    walk_step now (s2, Unlinked i (Some q) p) = Some (s2, Freed i (Some q)) /\
    walk_step now (s2, Freed i (Some q)) = None.
Proof.
  intros Hwf Hi Hb Hq Hp Hsp Hn. cbn [walk_step]. rewrite (proj2 (Nat.ltb_lt _ _) Hi).
  destruct (walk_section_ok now s i [] (bucket (connection_hash_table s) (Z.of_nat i)) None Hwf)
    as [[_ Hall]|(mid & p' & c' & rest' & s1 & Hsplit & Hp' & Hsp' & Hm & Hd & Hwf1 & Hh & Hst1 & Hs)]; [done| |].
  { rewrite (Hall p cp) in Hsp; [done| |done]. rewrite Hb, elem_of_app, !elem_of_cons. tauto. }
  assert (mid = pre ++ [q] /\ p' = p) as [-> ->].
  { rewrite Hb in Hsplit. replace (pre ++ q :: p :: post) with ((pre ++ [q]) ++ p :: post) in Hsplit
      by (by rewrite <- app_assoc). revert Hsplit Hm Hn. generalize (pre ++ [q]). clear - Hp Hsp Hp' Hsp'.
    intros l. revert mid. induction l as [|x l IH]; intros [|y mid] Hsplit Hm Hn; cbn in Hsplit; injection Hsplit.
    - by intros _ ->.
    - intros _ <-. rewrite (Hm p cp) in Hsp; [done|left|done].
    - intros _ ->. rewrite (Hn p' c') in Hsp'; [done|left|done].
    - intros Hs <-. destruct (IH mid Hs) as [-> ->]; [| |done].
      + intros z c Hz. apply Hm. by right.
      + intros z c Hz. apply Hn. by right. }
  cbn [app] in Hs. rewrite Hs. rewrite last_snoc.
  assert (q <> p) as Hne.
  { intros ->. rewrite Hp in Hq. injection Hq as <-. rewrite (Hn p cp) in Hsp; [done| |done].
    rewrite elem_of_app. right. left. }
  assert (heap s1 !! q = Some cq) as Hq1 by (rewrite Hh, lookup_delete_ne by done; done).
  destruct (ct_find_spec s1 (src_port cq) (c_is_udp cq) (is_ipv6 cq) Hwf1) as [(q' & cq' & Hf & Hq' & Hk)|[_ Hno]];
    [|by destruct (Hno q cq Hq1)].
  assert (q' = q) as -> by (by eapply (ct_keys _ Hwf1); [exact Hq'|exact Hq1|]).
  destruct (drop_node_ok s1 q cq Hwf1 Hq1) as (s2 & Hd2 & Hwf2 & Hh2 & _).
  exists s1, s2. split_and!; try done.
  - unfold remove_connection. rewrite Hf. exact Hd2.
  - unfold walk_section, link_chain. by rewrite Hh2, lookup_delete_eq.
Qed.
