(* ===== verification/PortBitmap.v ===== *)
(** * Decisions per source port (the bitmaps of pb_internal.h and ProxyBridge.c)

    Two arrays of 2048 signed 32-bit words, one bit per port.  A decided port
    with the direct bit is passed without a rule check. *)
From S2P Require Import Prelude.

Record PortBits := mkPortBits {
  port_decided_bitmap : list Z;
  port_direct_bitmap : list Z
}.

Definition bits_init : PortBits :=
  mkPortBits (replicate (Z.to_nat 2048) 0) (replicate (Z.to_nat 2048) 0).

Definition word_of (p : Z) : nat := Z.to_nat (Z.shiftr p 5).
Definition bit_of (p : Z) : Z := Z.land p 31.

(** [(bitmap[p >> 5] >> (p & 31)) & 1], an arithmetic shift of a [LONG]. *)
Definition port_bit (bitmap : list Z) (p : Z) : bool :=
  negb (Z.land (Z.shiftr (nth (word_of p) bitmap 0) (bit_of p)) 1 =? 0).

Definition or_bit (bitmap : list Z) (p : Z) : list Z :=
  <[word_of p := Z.lor (nth (word_of p) bitmap 0) (s32 (Z.shiftl 1 (bit_of p)))]> bitmap.

Definition and_not_bit (bitmap : list Z) (p : Z) : list Z :=
  <[word_of p := Z.land (nth (word_of p) bitmap 0) (s32 (u32 (Z.lnot (Z.shiftl 1 (bit_of p)))))]> bitmap.

Definition port_is_decided (b : PortBits) (p : Z) : bool := port_bit (port_decided_bitmap b) p.
Definition port_is_direct (b : PortBits) (p : Z) : bool := port_bit (port_direct_bitmap b) p.

Definition port_set_direct (b : PortBits) (p : Z) : PortBits :=
  mkPortBits (or_bit (port_decided_bitmap b) p) (or_bit (port_direct_bitmap b) p).
Definition port_set_decided (b : PortBits) (p : Z) : PortBits :=
  mkPortBits (or_bit (port_decided_bitmap b) p) (port_direct_bitmap b).
Definition port_clear (b : PortBits) (p : Z) : PortBits :=
  mkPortBits (and_not_bit (port_decided_bitmap b) p) (and_not_bit (port_direct_bitmap b) p).

Definition consume_direct_decision (b : PortBits) (source_port : Z) (teardown : bool)
  : PortBits * bool :=
  let direct := port_is_decided b source_port && port_is_direct b source_port in
  (if teardown then port_clear b source_port else b, direct).

(** The loop of the setters over both arrays. *)
Definition port_clear_all (b : PortBits) : PortBits :=
  mkPortBits (map (fun _ => 0) (port_decided_bitmap b)) (map (fun _ => 0) (port_direct_bitmap b)).

(** ** The bitmaps as sets of ports *)

Definition is_port (p : Z) : Prop := 0 <= p < 65536.

Record bits_wf (b : PortBits) : Prop := {
  bw_decided : length (port_decided_bitmap b) = Z.to_nat 2048;
  bw_direct : length (port_direct_bitmap b) = Z.to_nat 2048;
  bw_subset : forall p, is_port p -> port_is_direct b p = true -> port_is_decided b p = true
}.

Lemma s32_testbit x k : 0 <= k < 32 -> Z.testbit (s32 x) k = Z.testbit x k.
Proof.
  intros Hk. rewrite <- (Z.mod_pow2_bits_low (s32 x) 32 k), <- (Z.mod_pow2_bits_low x 32 k) by lia.
  f_equal. unfold s32. rewrite Zminus_mod_idemp_l. f_equal. lia.
Qed.

Lemma u32_testbit x k : 0 <= k < 32 -> Z.testbit (u32 x) k = Z.testbit x k.
Proof. intros. unfold u32. apply Z.mod_pow2_bits_low. lia. Qed.

Lemma word_bit p q : is_port p -> is_port q -> word_of p = word_of q -> bit_of p = bit_of q -> p = q.
Proof.
  unfold is_port, word_of, bit_of. rewrite !Z.shiftr_div_pow2 by lia.
  replace 31 with (Z.ones 5) by reflexivity. rewrite !Z.land_ones by lia.
  change (2 ^ 5) with 32. intros Hp Hq Hw Hb.
  assert (p / 32 = q / 32) as Hd.
  { apply Z2Nat.inj; [apply Z.div_pos; lia..|done]. }
  rewrite (Z_div_mod_eq_full p 32), (Z_div_mod_eq_full q 32). lia.
Qed.

Lemma bit_of_range p : 0 <= bit_of p < 32.
Proof.
  unfold bit_of. replace 31 with (Z.ones 5) by reflexivity. rewrite Z.land_ones by lia.
  apply Z.mod_pos_bound. lia.
Qed.

Lemma word_of_bound p : is_port p -> (word_of p < Z.to_nat 2048)%nat.
Proof.
  unfold is_port, word_of. intros Hp. rewrite Z.shiftr_div_pow2 by lia. change (2 ^ 5) with 32.
  assert (p / 32 < 2048) by (apply Z.div_lt_upper_bound; lia).
  assert (0 <= p / 32) by (apply Z.div_pos; lia). lia.
Qed.

Lemma port_bit_testbit bitmap p : port_bit bitmap p = Z.testbit (nth (word_of p) bitmap 0) (bit_of p).
Proof.
  unfold port_bit. pose proof (bit_of_range p).
  replace 1 with (Z.ones 1) by reflexivity. rewrite Z.land_ones by lia. change (2 ^ 1) with 2.
  rewrite <- Z.bit0_mod, Z.shiftr_spec by lia. rewrite Z.add_0_l. by destruct (Z.testbit _ _).
Qed.

Lemma nth_insert_eq {A} (l : list A) i x d : (i < length l)%nat -> nth i (<[i := x]> l) d = x.
Proof. intros Hi. rewrite nth_lookup, list_lookup_insert_eq by done. done. Qed.

Lemma nth_insert_ne {A} (l : list A) i j x d : i <> j -> nth j (<[i := x]> l) d = nth j l d.
Proof. intros Hi. rewrite !nth_lookup, list_lookup_insert_ne by done. done. Qed.

Lemma or_bit_spec bitmap p q :
  length bitmap = Z.to_nat 2048 -> is_port p -> is_port q ->
  port_bit (or_bit bitmap p) q = (bool_decide (q = p) || port_bit bitmap q).
Proof.
  intros Hl Hp Hq. rewrite !port_bit_testbit. unfold or_bit.
  pose proof (bit_of_range p). pose proof (bit_of_range q). pose proof (word_of_bound p Hp).
  destruct (decide (word_of p = word_of q)) as [Hw|Hw].
  - rewrite <- Hw, nth_insert_eq by lia. rewrite Z.lor_spec, s32_testbit by lia.
    rewrite Z.shiftl_1_l, Z.pow2_bits_eqb by lia. rewrite orb_comm. f_equal.
    destruct (Z.eqb_spec (bit_of p) (bit_of q)) as [E|E]; symmetry.
    + apply bool_decide_eq_true. symmetry. by apply word_bit.
    + apply bool_decide_eq_false. congruence.
  - rewrite nth_insert_ne by done. rewrite bool_decide_eq_false_2 by congruence. done.
Qed.

Lemma and_not_bit_spec bitmap p q :
  length bitmap = Z.to_nat 2048 -> is_port p -> is_port q ->
  port_bit (and_not_bit bitmap p) q = (negb (bool_decide (q = p)) && port_bit bitmap q).
Proof.
  intros Hl Hp Hq. rewrite !port_bit_testbit. unfold and_not_bit.
  pose proof (bit_of_range p). pose proof (bit_of_range q). pose proof (word_of_bound p Hp).
  destruct (decide (word_of p = word_of q)) as [Hw|Hw].
  - rewrite <- Hw, nth_insert_eq by lia. rewrite Z.land_spec, s32_testbit, u32_testbit by lia.
    rewrite Z.lnot_spec, Z.shiftl_1_l, Z.pow2_bits_eqb by lia. rewrite andb_comm. f_equal. f_equal.
    destruct (Z.eqb_spec (bit_of p) (bit_of q)) as [E|E]; symmetry.
    + apply bool_decide_eq_true. symmetry. by apply word_bit.
    + apply bool_decide_eq_false. congruence.
  - rewrite nth_insert_ne by done. rewrite bool_decide_eq_false_2 by congruence. done.
Qed.

Lemma length_or_bit b p : length (or_bit b p) = length b.
Proof. apply length_insert. Qed.

Lemma length_and_not_bit b p : length (and_not_bit b p) = length b.
Proof. apply length_insert. Qed.

Lemma bits_init_wf : bits_wf bits_init.
Proof.
  split; [cbn [port_decided_bitmap port_direct_bitmap bits_init]; by rewrite length_replicate..|]. intros p Hp. unfold port_is_direct.
  rewrite port_bit_testbit. cbn [port_direct_bitmap bits_init].
  rewrite nth_lookup, lookup_replicate_2 by (by apply word_of_bound). simpl. by rewrite Z.bits_0.
Qed.

Lemma set_direct_wf b p : is_port p -> bits_wf b -> bits_wf (port_set_direct b p).
Proof.
  intros Hp [H1 H2 Hs]. split; simpl; rewrite ?length_or_bit; try done.
  intros q Hq. unfold port_is_direct, port_is_decided. simpl. rewrite !or_bit_spec by done.
  intros [->|Hd]%orb_true_iff; [done|]. apply orb_true_iff. right. by apply Hs.
Qed.

Lemma set_decided_wf b p : is_port p -> bits_wf b -> bits_wf (port_set_decided b p).
Proof.
  intros Hp [H1 H2 Hs]. split; simpl; rewrite ?length_or_bit; try done.
  intros q Hq Hd. unfold port_is_decided. simpl. rewrite or_bit_spec by done.
  apply orb_true_iff. right. by apply Hs.
Qed.

Lemma clear_wf b p : is_port p -> bits_wf b -> bits_wf (port_clear b p).
Proof.
  intros Hp [H1 H2 Hs]. split; simpl; rewrite ?length_and_not_bit; try done.
  intros q Hq. unfold port_is_direct, port_is_decided. simpl. rewrite !and_not_bit_spec by done.
  intros [Hn Hd]%andb_true_iff. apply andb_true_iff. split; [done|by apply Hs].
Qed.

Lemma consume_wf b p t : is_port p -> bits_wf b -> bits_wf (fst (consume_direct_decision b p t)).
Proof. intros. unfold consume_direct_decision. simpl. destruct t; [by apply clear_wf|done]. Qed.

#[export] Hint Resolve bits_init_wf set_direct_wf set_decided_wf clear_wf consume_wf : pb.

(** The three cached states of a port.  Caching DIRECT, caching another decision
    and forgetting act on the one port only; caching a non-direct decision
    leaves the direct bit of its port as it was. *)
Theorem port_bits_spec b p q :
  bits_wf b -> is_port p -> is_port q ->
  (port_is_decided (port_set_direct b p) q = (bool_decide (q = p) || port_is_decided b q) /\
   port_is_direct (port_set_direct b p) q = (bool_decide (q = p) || port_is_direct b q)) /\
  (port_is_decided (port_set_decided b p) q = (bool_decide (q = p) || port_is_decided b q) /\
   port_is_direct (port_set_decided b p) q = port_is_direct b q) /\
  (port_is_decided (port_clear b p) q = (negb (bool_decide (q = p)) && port_is_decided b q) /\
   port_is_direct (port_clear b p) q = (negb (bool_decide (q = p)) && port_is_direct b q)) /\
  bits_wf (port_set_direct b p) /\ bits_wf (port_set_decided b p) /\ bits_wf (port_clear b p).
Proof.
  intros Hwf Hp Hq. pose proof (bw_decided _ Hwf). pose proof (bw_direct _ Hwf).
  unfold port_is_decided, port_is_direct. simpl.
  rewrite !or_bit_spec, !and_not_bit_spec by done. split_and!; auto with pb.
Qed.

Lemma port_clear_eq b p : bits_wf b -> is_port p -> port_is_decided (port_clear b p) p = false.
Proof.
  intros Hwf Hp. unfold port_is_decided. simpl. rewrite and_not_bit_spec; [|apply Hwf|done|done].
  by rewrite bool_decide_eq_true_2.
Qed.

Lemma clear_all_bit (l : list Z) p : port_bit (map (fun _ => 0) l) p = false.
Proof.
  rewrite port_bit_testbit, nth_lookup. change (map (fun _ => 0) l) with ((fun _ : Z => 0) <$> l).
  rewrite list_lookup_fmap. destruct (l !! word_of p); simpl; apply Z.bits_0.
Qed.

Lemma clear_all_wf b : bits_wf b -> bits_wf (port_clear_all b).
Proof.
  intros [H1 H2 _]. split; simpl; [by rewrite length_map..|]. intros p _.
  unfold port_is_direct. simpl. by rewrite clear_all_bit.
Qed.

#[export] Hint Resolve clear_all_wf : pb.
