(* ===== verification/Packet.v ===== *)
(** * The packet processor (packet_processor of ProxyBridge.c)

    What happens to one captured packet: for IPv4 and IPv6, TCP and UDP, in
    both directions, which tables change and whether the packet is passed
    unmodified, rewritten or dropped; and the batch the results are queued in.

    Ports are kept in host order: the code converts on every read and write. *)
From S2P Require Import Prelude CLib HashTable Util Types Matching ProxyConfig Dns Process Rules.
From S2P Require Import Policy ConnTrack DirectCache ConnLog PortBitmap.

Definition LOCAL_UDP_RELAY_PORT : Z := 34011.

(** ** Packets *)

Record tcp_packet (A : Type) := mkTcp {
  t_src : A; t_dst : A; t_sport : Z; t_dport : Z;
  t_syn : bool; t_ack : bool; t_fin : bool; t_rst : bool; t_outbound : bool }.
Arguments mkTcp {A}.
Arguments t_src {A}.
Arguments t_dst {A}.
Arguments t_sport {A}.
Arguments t_dport {A}.
Arguments t_syn {A}.
Arguments t_ack {A}.
Arguments t_fin {A}.
Arguments t_rst {A}.
Arguments t_outbound {A}.

Record udp_packet (A : Type) := mkUdp {
  u_src : A; u_dst : A; u_sport : Z; u_dport : Z; u_length : Z; u_payload : bytes; u_outbound : bool }.
Arguments mkUdp {A}.
Arguments u_src {A}.
Arguments u_dst {A}.
Arguments u_sport {A}.
Arguments u_dport {A}.
Arguments u_length {A}.
Arguments u_payload {A}.
Arguments u_outbound {A}.

(** [Pass] queues the packet as captured, [Rewrite] queues it after its
    checksums were computed again. *)
Inductive verdict (P : Type) :=
| Pass (p : P)
| Rewrite (p : P)
| Drop.
Arguments Pass {P}.
Arguments Rewrite {P}.
Arguments Drop {P}.

(** ** The state of the processor *)

Record report_entry := mkReport { rp_pid : Z; rp_key : Z; rp_port : Z; rp_action : RuleAction; rp_config : Z }.

Record World := mkWorld {
  w_policy : PolicyState;
  w_owners : Owners;                      (* holds the current g_udp_generation *)
  w_conns : ConnTable;
  w_direct : list UDP_DIRECT_ENTRY;
  w_bits : PortBits;
  w_log : LogState;
  w_reports : list report_entry;          (* what the connection callback was told *)
  w_relay_port : Z;                       (* g_local_relay_port *)
  w_localhost_via_proxy : bool;
  w_callback : bool;                      (* g_connection_callback != NULL *)
  w_traffic_logging : bool
}.

Definition g_udp_generation (w : World) : Z := ow_generation (w_owners w).

Definition with_policy (w : World) (p : PolicyState) : World :=
  mkWorld p (w_owners w) (w_conns w) (w_direct w) (w_bits w) (w_log w) (w_reports w) (w_relay_port w)
          (w_localhost_via_proxy w) (w_callback w) (w_traffic_logging w).
Definition with_owners (w : World) (o : Owners) : World :=
  mkWorld (w_policy w) o (w_conns w) (w_direct w) (w_bits w) (w_log w) (w_reports w) (w_relay_port w)
          (w_localhost_via_proxy w) (w_callback w) (w_traffic_logging w).
Definition with_conns (w : World) (c : ConnTable) : World :=
  mkWorld (w_policy w) (w_owners w) c (w_direct w) (w_bits w) (w_log w) (w_reports w) (w_relay_port w)
          (w_localhost_via_proxy w) (w_callback w) (w_traffic_logging w).
Definition with_direct (w : World) (d : list UDP_DIRECT_ENTRY) : World :=
  mkWorld (w_policy w) (w_owners w) (w_conns w) d (w_bits w) (w_log w) (w_reports w) (w_relay_port w)
          (w_localhost_via_proxy w) (w_callback w) (w_traffic_logging w).
Definition with_bits (w : World) (b : PortBits) : World :=
  mkWorld (w_policy w) (w_owners w) (w_conns w) (w_direct w) b (w_log w) (w_reports w) (w_relay_port w)
          (w_localhost_via_proxy w) (w_callback w) (w_traffic_logging w).
Definition with_log (w : World) (l : LogState) (r : list report_entry) : World :=
  mkWorld (w_policy w) (w_owners w) (w_conns w) (w_direct w) (w_bits w) l r (w_relay_port w)
          (w_localhost_via_proxy w) (w_callback w) (w_traffic_logging w).
Definition with_dns (w : World) (d : DnsCaches) : World :=
  with_policy w (mkPolicy (p_switches (w_policy w)) (p_rules (w_policy w)) (p_proxies (w_policy w)) d).

(** The environment of one packet: the clock before the owner lookup, at its
    start, when the rules are matched and after it; the turns of the lookup;
    the outcomes of the allocations. *)
Record Env (A : Type) := mkEnv {
  e_now : Z; e_start : Z; e_match : Z; e_after : Z;
  e_turns : list (Turn A);
  e_alloc : option Z;
  e_log_alloc : bool;
  e_dns_alloc : bool }.
Arguments mkEnv {A}.
Arguments e_now {A}.
Arguments e_start {A}.
Arguments e_match {A}.
Arguments e_after {A}.
Arguments e_turns {A}.
Arguments e_alloc {A}.
Arguments e_log_alloc {A}.
Arguments e_dns_alloc {A}.

(** ** Helpers of the file *)

Definition is_proxy_server_endpoint (cfgs : list PROXY_CONFIG) (destination port : Z) : bool :=
  existsb (fun c => negb (config_id c =? 0) && (resolved_ip c =? destination) && (pc_port c =? port)) cfgs.

Definition is_proxy_udp_endpoint (cfgs : list PROXY_CONFIG) (destination port : Z) : bool :=
  existsb (fun c => udp_connected c && (fst (udp_relay_addr c) =? destination) &&
                    (ntohs (snd (udp_relay_addr c)) =? port)) cfgs.

Definition reset_stale_tcp_state (w : World) (source_port : Z) (v6 : bool) : option World :=
  if source_port =? w_relay_port w then Some w
  else
    c ← remove_connection (w_conns w) source_port false v6;
    Some (with_bits (with_conns w c) (port_clear (w_bits w) source_port)).

(** [(ntohl(ip) >> 24) & 0xFF] *)
Definition first_octet (ip : Z) : Z := Z.land (Z.shiftr (ntohl ip) 24) 0xFF.

Definition INADDR_LOOPBACK_N : Z := ipv4 127 0 0 1.

(** The bytes of an IPv4 address in memory. *)
Definition addr_bytes (ip : Z) : bytes := [octet 0 ip; octet 1 ip; octet 2 ip; octet 3 ip].

(** The 32-bit key of an IPv6 destination in the log: its four words folded. *)
Definition word_at (a : bytes) (i : nat) : Z :=
  ipv4 (nth (4 * i) a 0) (nth (4 * i + 1) a 0) (nth (4 * i + 2) a 0) (nth (4 * i + 3) a 0).
Definition v6_log_key (a : bytes) : Z :=
  Z.lxor (Z.lxor (Z.lxor (word_at a 0) (word_at a 1)) (word_at a 2)) (word_at a 3).

(** Packets the relays are sent and send. *)
Definition swap_tcp {A} (p : tcp_packet A) : tcp_packet A :=
  mkTcp (t_dst p) (t_src p) (t_sport p) (t_dport p) (t_syn p) (t_ack p) (t_fin p) (t_rst p) false.
Definition tcp_to_port {A} (p : tcp_packet A) (port : Z) : tcp_packet A :=
  mkTcp (t_src p) (t_dst p) (t_sport p) port (t_syn p) (t_ack p) (t_fin p) (t_rst p) (t_outbound p).
Definition tcp_from_port {A} (p : tcp_packet A) (port : Z) : tcp_packet A :=
  mkTcp (t_src p) (t_dst p) port (t_dport p) (t_syn p) (t_ack p) (t_fin p) (t_rst p) (t_outbound p).

(** Turn a packet around unless both ends are loopback. *)
Definition turn_tcp_v4 (p : tcp_packet Z) : tcp_packet Z :=
  if (first_octet (t_src p) =? 127) && (first_octet (t_dst p) =? 127) then p else swap_tcp p.
Definition turn_tcp_v6 (p : tcp_packet bytes) : tcp_packet bytes :=
  if memeq (t_src p) loopback6 && memeq (t_dst p) loopback6 then p else swap_tcp p.

Definition redirect_udp_v4 (p : udp_packet Z) : udp_packet Z :=
  if first_octet (u_src p) =? 127
  then mkUdp (u_src p) INADDR_LOOPBACK_N (u_sport p) LOCAL_UDP_RELAY_PORT (u_length p) (u_payload p) (u_outbound p)
  else mkUdp (u_dst p) (u_src p) (u_sport p) LOCAL_UDP_RELAY_PORT (u_length p) (u_payload p) false.

Definition redirect_udp_v6 (p : udp_packet bytes) : udp_packet bytes :=
  if memeq (u_src p) loopback6 && memeq (u_dst p) loopback6
  then mkUdp (u_src p) (u_dst p) (u_sport p) LOCAL_UDP_RELAY_PORT (u_length p) (u_payload p) (u_outbound p)
  else mkUdp (u_dst p) (u_src p) (u_sport p) LOCAL_UDP_RELAY_PORT (u_length p) (u_payload p) false.

Section Processor.
Context `{Platform} `{ProcessImages}.

(** Report a decision to the connection callback, once per key. *)
Definition report_connection (w : World) (log_alloc : bool) (pid key port : Z) (a : RuleAction) (cfg : Z) : World :=
  if w_callback w && (0 <? pid) then
    match get_process_name_from_pid pid MAX_PROCESS_NAME with
    | None => w
    | Some _ =>
        if is_connection_already_logged (w_log w) pid key port a then w
        else with_log w
               (if w_traffic_logging w then add_logged_connection log_alloc (w_log w) pid key port a
                else w_log w)
               (w_reports w ++ [mkReport pid key port a cfg])
    end
  else w.

Definition idle (w : World) : bool :=
  negb (g_has_active_rules (p_rules (w_policy w))) && negb (w_callback w).

(** *** Overrides of a PROXY decision *)

Definition override_tcp_v4 (via : bool) (dst : Z) (a : RuleAction) : RuleAction :=
  match a with
  | RULE_ACTION_PROXY =>
      if negb via && (Z.land dst 0xFF =? 127) then RULE_ACTION_DIRECT
      else if is_broadcast_or_multicast dst then RULE_ACTION_DIRECT
      else RULE_ACTION_PROXY
  | _ => a
  end.

Definition override_udp_v4 (via : bool) (dst port : Z) (a : RuleAction) : RuleAction :=
  match override_tcp_v4 via dst a with
  | RULE_ACTION_PROXY => if (port =? 67) || (port =? 68) then RULE_ACTION_DIRECT else RULE_ACTION_PROXY
  | a => a
  end.

Definition override_tcp_v6 (via : bool) (dst : bytes) (a : RuleAction) : RuleAction :=
  match a with
  | RULE_ACTION_PROXY => if negb via && is_loopback_v6 dst then RULE_ACTION_DIRECT else RULE_ACTION_PROXY
  | _ => a
  end.

Definition override_udp_v6 (via : bool) (dst : bytes) (port : Z) (a : RuleAction) : RuleAction :=
  match override_tcp_v6 via dst a with
  | RULE_ACTION_PROXY => if (port =? 546) || (port =? 547) then RULE_ACTION_DIRECT else RULE_ACTION_PROXY
  | a => a
  end.

(** *** IPv4 TCP *)

(** A packet of a flow without a cached decision: decide, report, act. *)
Definition tcp_decide_v4 (w : World) (e : Env Z) (p : tcp_packet Z)
  : option (World * verdict (tcp_packet Z)) :=
  match check_process_rule (w_policy w) (e_start e) (e_match e) (t_src p) (t_sport p) (t_dst p)
          (t_dport p) false (e_turns e) (w_owners w) with
  | None => None
  | Some (ow, d) =>
      let w := with_owners w ow in
      let a := override_tcp_v4 (w_localhost_via_proxy w) (t_dst p) (d_action d) in
      let w := if t_syn p && negb (t_ack p)
               then report_connection w (e_log_alloc e) (d_pid d) (t_dst p) (t_dport p) a (d_config d)
               else w in
      match a with
      | RULE_ACTION_DIRECT =>
          Some (if d_pid d =? 0 then w else with_bits w (port_set_direct (w_bits w) (t_sport p)), Pass p)
      | RULE_ACTION_BLOCK => Some (with_bits w (port_set_decided (w_bits w) (t_sport p)), Drop)
      | RULE_ACTION_PROXY =>
          c ← add_connection (e_alloc e) (e_after e) (g_udp_generation w) (w_conns w) (t_sport p) false
                (t_src p) (t_dst p) (t_dport p) (d_config d);
          Some (with_bits (with_conns w c) (port_set_decided (w_bits w) (t_sport p)),
                Rewrite (turn_tcp_v4 (tcp_to_port p (w_relay_port w))))
      end
  end.

(** A packet the relay sends to a client. *)
Definition tcp_from_relay_v4 (w : World) (e : Env Z) (p : tcp_packet Z)
  : option (World * verdict (tcp_packet Z)) :=
  match get_connection (e_now e) (w_conns w) (t_dport p) false with
  | None => None
  | Some (c, r) =>
      let p' := match r with Some (_, port) => tcp_from_port p port | None => p end in
      c ← (if t_rst p then remove_connection c (t_dport p) false false
           else if t_fin p then connection_fin (e_now e) c (t_dport p) false 2 else Some c);
      Some (with_conns w c, Rewrite (turn_tcp_v4 p'))
  end.

(** A packet of a tracked flow. *)
Definition tcp_tracked_v4 (w : World) (e : Env Z) (p : tcp_packet Z)
  : option (World * verdict (tcp_packet Z)) :=
  c ← (if t_rst p then remove_connection (w_conns w) (t_sport p) false false
       else if t_fin p then connection_fin (e_now e) (w_conns w) (t_sport p) false 1
       else Some (w_conns w));
  let bits := if t_rst p then port_clear (w_bits w) (t_sport p) else w_bits w in
  Some (with_bits (with_conns w c) bits, Rewrite (turn_tcp_v4 (tcp_to_port p (w_relay_port w)))).

Definition tcp_routed_v4 (w : World) (e : Env Z) (p : tcp_packet Z)
  : option (World * verdict (tcp_packet Z)) :=
  if t_sport p =? w_relay_port w then tcp_from_relay_v4 w e p
  else
    tracked ← is_connection_tracked (w_conns w) (t_sport p) false false;
    if (tracked : bool) then tcp_tracked_v4 w e p
    else if t_fin p || t_rst p then Some (w, Pass p)
    else if idle w then Some (w, Pass p)
    else tcp_decide_v4 w e p.

(** A new connection forgets what the port number stood for before. *)
Definition tcp_syn_reset_v4 (w : World) (p : tcp_packet Z) : option World :=
  if t_syn p && negb (t_ack p)
  then reset_stale_tcp_state
         (with_owners w (remove_cached_pid (w_owners w) (t_src p) (t_sport p) false)) (t_sport p) false
  else Some w.

Definition tcp_packet_v4 (w : World) (e : Env Z) (p : tcp_packet Z)
  : option (World * verdict (tcp_packet Z)) :=
  if negb (t_outbound p) then
    Some (w, if t_dport p =? w_relay_port w then Rewrite p else Pass p)
  else if negb (t_sport p =? w_relay_port w) &&
          is_proxy_server_endpoint (p_proxies (w_policy w)) (t_dst p) (t_dport p)
  then Some (w, Pass p)
  else
    w ← tcp_syn_reset_v4 w p;
    let '(bits, direct) :=
      if port_is_decided (w_bits w) (t_sport p)
      then consume_direct_decision (w_bits w) (t_sport p) (t_fin p || t_rst p)
      else (w_bits w, false) in
    let w := with_bits w bits in
    if (direct : bool) then Some (w, Pass p) else tcp_routed_v4 w e p.

(** *** IPv6 TCP *)

Definition tcp_decide_v6 (w : World) (e : Env bytes) (p : tcp_packet bytes)
  : option (World * verdict (tcp_packet bytes)) :=
  match check_process_rule_v6 (w_policy w) (e_start e) (e_match e) (t_src p) (t_sport p) (t_dst p)
          (t_dport p) false (e_turns e) (w_owners w) with
  | None => None
  | Some (ow, d) =>
      let w := with_owners w ow in
      let a := override_tcp_v6 (w_localhost_via_proxy w) (t_dst p) (d_action d) in
      let w := if t_syn p && negb (t_ack p)
               then report_connection w (e_log_alloc e) (d_pid d) (v6_log_key (t_dst p)) (t_dport p) a
                      (d_config d)
               else w in
      match a with
      | RULE_ACTION_DIRECT =>
          Some (if d_pid d =? 0 then w else with_bits w (port_set_direct (w_bits w) (t_sport p)), Pass p)
      | RULE_ACTION_BLOCK => Some (with_bits w (port_set_decided (w_bits w) (t_sport p)), Drop)
      | RULE_ACTION_PROXY =>
          c ← add_connection_v6 (e_alloc e) (e_after e) (g_udp_generation w) (w_conns w) (t_sport p) false
                (t_src p) (t_dst p) (t_dport p) (d_config d);
          Some (with_bits (with_conns w c) (port_set_decided (w_bits w) (t_sport p)),
                Rewrite (turn_tcp_v6 (tcp_to_port p (w_relay_port w))))
      end
  end.

Definition tcp_from_relay_v6 (w : World) (e : Env bytes) (p : tcp_packet bytes)
  : option (World * verdict (tcp_packet bytes)) :=
  match get_connection_full_v6 (e_now e) (w_conns w) (t_dport p) false with
  | None => None
  | Some (c, r) =>
      let orig_dst_port := match r with Some (_, port, _) => port | None => 0 end in
      let p' := if orig_dst_port =? 0 then p else tcp_from_port p orig_dst_port in
      c ← (if t_rst p then remove_connection c (t_dport p) false true
           else if t_fin p then connection_fin (e_now e) c (t_dport p) true 2 else Some c);
      Some (with_conns w c, Rewrite (turn_tcp_v6 p'))
  end.

Definition tcp_tracked_v6 (w : World) (e : Env bytes) (p : tcp_packet bytes)
  : option (World * verdict (tcp_packet bytes)) :=
  c ← (if t_rst p then remove_connection (w_conns w) (t_sport p) false true
       else if t_fin p then connection_fin (e_now e) (w_conns w) (t_sport p) true 1
       else Some (w_conns w));
  let bits := if t_rst p then port_clear (w_bits w) (t_sport p) else w_bits w in
  Some (with_bits (with_conns w c) bits, Rewrite (turn_tcp_v6 (tcp_to_port p (w_relay_port w)))).

Definition tcp_routed_v6 (w : World) (e : Env bytes) (p : tcp_packet bytes)
  : option (World * verdict (tcp_packet bytes)) :=
  if t_sport p =? w_relay_port w then tcp_from_relay_v6 w e p
  else
    tracked ← is_connection_tracked (w_conns w) (t_sport p) false true;
    if (tracked : bool) then tcp_tracked_v6 w e p
    else if t_fin p || t_rst p then Some (w, Pass p)
    else if is_ipv6_multicast_or_linklocal (t_dst p) then Some (w, Pass p)
    else if idle w then Some (w, Pass p)
    else tcp_decide_v6 w e p.

Definition tcp_packet_v6 (w : World) (e : Env bytes) (p : tcp_packet bytes)
  : option (World * verdict (tcp_packet bytes)) :=
  if negb (t_outbound p) then
    Some (w, if t_dport p =? w_relay_port w then Rewrite p else Pass p)
  else
    w ← (if t_syn p && negb (t_ack p) then reset_stale_tcp_state w (t_sport p) true else Some w);
    let '(bits, direct) :=
      if port_is_decided (w_bits w) (t_sport p)
      then consume_direct_decision (w_bits w) (t_sport p) (t_fin p || t_rst p)
      else (w_bits w, false) in
    let w := with_bits w bits in
    if (direct : bool) then Some (w, Pass p) else tcp_routed_v6 w e p.

(** *** DNS answers on their way in *)

(** The payload length is taken from the UDP header; [None] is a read behind
    the captured bytes. *)
Definition snoop_inbound {A} (w : World) (alloc : bool) (now : Z) (p : udp_packet A) : option World :=
  if u_sport p =? 53 then
    let len := u_length p - 8 in
    if 0 <? len then
      if Z.of_nat (length (u_payload p)) <? len then None
      else
        d ← snoop_dns_response alloc now (p_dns (w_policy w)) (take (Z.to_nat len) (u_payload p));
        Some (with_dns w d)
    else Some w
  else Some w.

(** *** IPv4 UDP *)

(** [generation] is the policy generation read before the packet was looked at. *)
Definition udp_decide_v4 (w : World) (generation : Z) (e : Env Z) (p : udp_packet Z)
  : option (World * verdict (udp_packet Z)) :=
  if idle w then Some (w, Pass p)
  else
    match check_process_rule (w_policy w) (e_start e) (e_match e) (u_src p) (u_sport p) (u_dst p)
            (u_dport p) true (e_turns e) (w_owners w) with
    | None => None
    | Some (ow, d) =>
        let w := with_owners w ow in
        let a := override_udp_v4 (w_localhost_via_proxy w) (u_dst p) (u_dport p) (d_action d) in
        let w := report_connection w (e_log_alloc e) (d_pid d) (u_dst p) (u_dport p) a (d_config d) in
        match a with
        | RULE_ACTION_BLOCK => Some (w, Drop)
        | RULE_ACTION_PROXY =>
            c ← add_connection (e_alloc e) (e_after e) (g_udp_generation w) (w_conns w) (u_sport p) true
                  (u_src p) (u_dst p) (u_dport p) (d_config d);
            c ← udp_flow_stamp c (u_sport p) false generation;
            Some (with_conns w c, Rewrite (redirect_udp_v4 p))
        | RULE_ACTION_DIRECT =>
            Some (if d_pid d =? 0 then w
                  else with_direct w
                         (udp_direct_remember (e_after e) (w_direct w) false (addr_bytes (u_src p))
                            (u_sport p) (addr_bytes (u_dst p)) (u_dport p) generation),
                  Pass p)
        end
    end.

(** A packet the UDP relay sends to a client. *)
Definition udp_from_relay_v4 (w : World) (e : Env Z) (p : udp_packet Z)
  : option (World * verdict (udp_packet Z)) :=
  match get_connection (e_now e) (w_conns w) (u_dport p) true with
  | None => None
  | Some (c, None) => Some (with_conns w c, Drop)
  | Some (c, Some (ip, port)) =>
      Some (with_conns w c,
            Rewrite (mkUdp ip (u_dst p) port (u_dport p) (u_length p) (u_payload p)
                       (if first_octet (u_dst p) =? 127 then u_outbound p else false)))
  end.

Definition udp_packet_v4 (w : World) (e : Env Z) (p : udp_packet Z)
  : option (World * verdict (udp_packet Z)) :=
  let generation := g_udp_generation w in
  if negb (u_outbound p) then
    if u_dport p =? LOCAL_UDP_RELAY_PORT then Some (w, Rewrite p)
    else w ← snoop_inbound w (e_dns_alloc e) (e_now e) p; Some (w, Pass p)
  else if negb (u_sport p =? LOCAL_UDP_RELAY_PORT) &&
          (is_proxy_udp_endpoint (p_proxies (w_policy w)) (u_dst p) (u_dport p) ||
           udp_direct_cached (e_now e) generation (w_direct w) false (addr_bytes (u_src p)) (u_sport p)
             (addr_bytes (u_dst p)) (u_dport p))
  then Some (w, Pass p)
  else if u_sport p =? LOCAL_UDP_RELAY_PORT then udp_from_relay_v4 w e p
  else
    match udp_flow_validate (e_now e) generation (w_conns w) (u_sport p) false (u_src p) [] (u_dst p) []
            (u_dport p) with
    | None => None
    | Some (c, true) => Some (with_conns w c, Rewrite (redirect_udp_v4 p))
    | Some (c, false) => udp_decide_v4 (with_conns w c) generation e p
    end.

(** *** IPv6 UDP *)

Definition udp_decide_v6 (w : World) (generation : Z) (e : Env bytes) (p : udp_packet bytes)
  : option (World * verdict (udp_packet bytes)) :=
  if is_ipv6_multicast_or_linklocal (u_dst p) then Some (w, Pass p)
  else if idle w then Some (w, Pass p)
  else
    match check_process_rule_v6 (w_policy w) (e_start e) (e_match e) (u_src p) (u_sport p) (u_dst p)
            (u_dport p) true (e_turns e) (w_owners w) with
    | None => None
    | Some (ow, d) =>
        let w := with_owners w ow in
        let a := override_udp_v6 (w_localhost_via_proxy w) (u_dst p) (u_dport p) (d_action d) in
        let w := report_connection w (e_log_alloc e) (d_pid d) (v6_log_key (u_dst p)) (u_dport p) a
                   (d_config d) in
        match a with
        | RULE_ACTION_BLOCK => Some (w, Drop)
        | RULE_ACTION_PROXY =>
            match find_proxy_config (p_proxies (w_policy w)) (d_config d) with
            | None => Some (w, Drop)
            | Some pc =>
                if negb (bool_decide (pc_type pc = PROXY_TYPE_SOCKS5)) then Some (w, Drop)
                else
                  c ← add_connection_v6 (e_alloc e) (e_after e) (g_udp_generation w) (w_conns w)
                        (u_sport p) true (u_src p) (u_dst p) (u_dport p) (d_config d);
                  c ← udp_flow_stamp c (u_sport p) true generation;
                  Some (with_conns w c, Rewrite (redirect_udp_v6 p))
            end
        | RULE_ACTION_DIRECT =>
            Some (if d_pid d =? 0 then w
                  else with_direct w
                         (udp_direct_remember (e_after e) (w_direct w) true (u_src p) (u_sport p)
                            (u_dst p) (u_dport p) generation),
                  Pass p)
        end
    end.

(** A reply for an untracked client is sent on with the relay's own port. *)
Definition udp_from_relay_v6 (w : World) (e : Env bytes) (p : udp_packet bytes)
  : option (World * verdict (udp_packet bytes)) :=
  match get_connection_full_v6 (e_now e) (w_conns w) (u_dport p) true with
  | None => None
  | Some (c, r) =>
      let '(src, sport) := match r with Some (ip6, port, _) => (ip6, port) | None => (u_src p, u_sport p) end in
      Some (with_conns w c,
            Rewrite (mkUdp src (u_dst p) sport (u_dport p) (u_length p) (u_payload p)
                       (if memeq (u_dst p) loopback6 then u_outbound p else false)))
  end.

Definition udp_packet_v6 (w : World) (e : Env bytes) (p : udp_packet bytes)
  : option (World * verdict (udp_packet bytes)) :=
  let generation := g_udp_generation w in
  if negb (u_outbound p) then
    if u_dport p =? LOCAL_UDP_RELAY_PORT then Some (w, Rewrite p)
    else w ← snoop_inbound w (e_dns_alloc e) (e_now e) p; Some (w, Pass p)
  else if u_sport p =? LOCAL_UDP_RELAY_PORT then udp_from_relay_v6 w e p
  else if udp_direct_cached (e_now e) generation (w_direct w) true (u_src p) (u_sport p) (u_dst p) (u_dport p)
  then Some (w, Pass p)
  else
    match udp_flow_validate (e_now e) generation (w_conns w) (u_sport p) true 0 (u_src p) 0 (u_dst p)
            (u_dport p) with
    | None => None
    | Some (c, true) => Some (with_conns w c, Rewrite (redirect_udp_v6 p))
    | Some (c, false) => udp_decide_v6 (with_conns w c) generation e p
    end.
End Processor.

(** ** The send batch *)

Definition PACKET_BATCH_SIZE : Z := 16.
Definition WINDIVERT_MTU_MAX : Z := 40 + 0xFFFF.
Definition PACKET_BATCH_BUFFER_SIZE : Z := PACKET_BATCH_SIZE * WINDIVERT_MTU_MAX.

(** The bytes queued so far, in order; [capacity] is that of the buffer. *)
Record PACKET_SEND_BATCH := mkBatch { b_packets : list bytes; b_capacity : Z }.

Definition b_length (b : PACKET_SEND_BATCH) : Z := Z.of_nat (length (concat (b_packets b))).
Definition b_count (b : PACKET_SEND_BATCH) : Z := Z.of_nat (length (b_packets b)).

Definition queue_packet_for_send (b : PACKET_SEND_BATCH) (packet : bytes) : PACKET_SEND_BATCH * bool :=
  if (PACKET_BATCH_SIZE <=? b_count b) || (b_capacity b - b_length b <? Z.of_nat (length packet))
  then (b, false)
  else (mkBatch (b_packets b ++ [packet]) (b_capacity b), true).

Definition queue_all (b : PACKET_SEND_BATCH) (packets : list bytes) : PACKET_SEND_BATCH :=
  fold_left (fun b p => fst (queue_packet_for_send b p)) packets b.

(** ** The policy switches *)

Definition bump (w : World) : World :=
  with_owners w (mkOwners (pid_cache (w_owners w)) (owner_cache (w_owners w))
                   (invalidate_udp_decisions (ow_generation (w_owners w)))).

Definition with_switches (w : World) (s : Switches) : World :=
  with_policy w (mkPolicy s (p_rules (w_policy w)) (p_proxies (w_policy w)) (p_dns (w_policy w))).

Definition ProxyBridge_SetLocalhostViaProxy (w : World) (enable : bool) : World :=
  bump (mkWorld (w_policy w) (w_owners w) (w_conns w) (w_direct w) (w_bits w) (w_log w) (w_reports w)
          (w_relay_port w) enable (w_callback w) (w_traffic_logging w)).

Definition ProxyBridge_SetLoopbackBypassEnabled (w : World) (enable : bool) : World :=
  let sw := p_switches (w_policy w) in
  let w' := with_switches w (mkSwitches enable (g_fail_closed_on_unknown_owner sw)
                               (g_proxy_udp_dns_enabled sw) (g_current_process_id sw)) in
  bump (if Bool.eqb (g_loopback_bypass_enabled sw) enable then w'
        else with_bits w' (port_clear_all (w_bits w'))).

Definition ProxyBridge_SetProxyUdpDnsEnabled (w : World) (enable : bool) : World :=
  let sw := p_switches (w_policy w) in
  let w' := with_switches w (mkSwitches (g_loopback_bypass_enabled sw) (g_fail_closed_on_unknown_owner sw)
                               enable (g_current_process_id sw)) in
  bump (if Bool.eqb (g_proxy_udp_dns_enabled sw) enable then w'
        else with_bits w' (port_clear_all (w_bits w'))).

Definition ProxyBridge_SetFailClosedOnUnknownOwner (w : World) (enable : bool) : World :=
  let sw := p_switches (w_policy w) in
  bump (with_switches w (mkSwitches (g_loopback_bypass_enabled sw) enable
                           (g_proxy_udp_dns_enabled sw) (g_current_process_id sw))).

Definition ProxyBridge_SetTrafficLoggingEnabled (w : World) (enable : bool) : World :=
  mkWorld (w_policy w) (w_owners w) (w_conns w) (w_direct w) (w_bits w)
          (if enable then w_log w else clear_logged_connections (w_log w)) (w_reports w)
          (w_relay_port w) (w_localhost_via_proxy w) (w_callback w) enable.

Definition ProxyBridge_ClearConnectionLogs (w : World) : World :=
  with_log w (clear_logged_connections (w_log w)) (w_reports w).
