(* ===== verification/PacketSafety.v ===== *)
(** * The packet processor keeps every table well formed

    It never fails either, but for one kind of packet: a DNS answer on its way in
    whose UDP header claims more bytes than were captured. *)
From S2P Require Import Prelude CLib HashTable Util Types Matching ProxyConfig Dns Process Rules.
From S2P Require Import Policy ConnTrack DirectCache ConnLog PortBitmap Packet.

(** ** Fresh addresses stay fresh *)

Lemma drop_node_fresh s h p s' q :
  drop_node s h p = Some s' -> heap s !! q = None -> heap s' !! q = None.
Proof.
  unfold drop_node, rev_unlink. intros Hd Hq.
  apply bind_Some in Hd as (l & _ & Hd). apply bind_Some in Hd as (s1 & Hs1 & Hd). simplify_eq.
  cbn [heap]. apply lookup_delete_None. destruct (decide (p = q)) as [->|Hne]; [by left|right].
  cbn [heap connection_rev_table] in Hs1. apply bind_Some in Hs1 as (c & Hc & Hs1).
  destruct (negb (in_rev c)); [by simplify_eq|]. apply bind_Some in Hs1 as (l2 & _ & Hs1).
  simplify_eq. cbn [heap]. by rewrite lookup_insert_ne.
Qed.

Lemma remove_connection_fresh s port udp v6 s' q :
  remove_connection s port udp v6 = Some s' -> heap s !! q = None -> heap s' !! q = None.
Proof.
  unfold remove_connection. intros (f & _ & Hr)%bind_Some. destruct f; [by eapply drop_node_fresh|by simplify_eq].
Qed.

Lemma udp_flow_validate_fresh now gen s port v6 ip ip6 dest dest6 dport s' b q :
  udp_flow_validate now gen s port v6 ip ip6 dest dest6 dport = Some (s', b) ->
  heap s !! q = None -> heap s' !! q = None.
Proof.
  unfold udp_flow_validate. intros (f & _ & Hr)%bind_Some Hq. destruct f as [p|]; [|by simplify_eq].
  apply bind_Some in Hr as (c & Hc & Hr). case_match.
  - simplify_eq. cbn [set_node heap]. apply lookup_insert_None. split; [done|]. congruence.
  - apply bind_Some in Hr as (s1 & Hd & Hr). simplify_eq. by eapply drop_node_fresh.
Qed.

Lemma alloc_ok_fresh s s' alloc :
  (forall q, heap s !! q = None -> heap s' !! q = None) -> alloc_ok s alloc -> alloc_ok s' alloc.
Proof. destruct alloc as [p|]; simpl; auto. Qed.

(** ** Total operations of the flow table *)

Lemma add_total alloc now g s port udp ip dest dport cfg :
  ct_wf s -> alloc_ok s alloc ->
  exists s', add_connection alloc now g s port udp ip dest dport cfg = Some s' /\ ct_wf s'.
Proof.
  intros Hwf Hal.
  edestruct (add_ok s alloc port udp false) with (P := fun _ : CONNECTION_INFO => True) as (s' & Hs & Hw & _);
    [done|done| | | | | | |exists s'; split; [exact Hs|done]]; try done.
  intros x Hx. unfold flow_key in *. simpl. by simplify_eq.
Qed.

Lemma add_v6_total alloc now g s port udp ip6 dest6 dport cfg :
  ct_wf s -> alloc_ok s alloc ->
  exists s', add_connection_v6 alloc now g s port udp ip6 dest6 dport cfg = Some s' /\ ct_wf s'.
Proof.
  intros Hwf Hal.
  edestruct (add_ok s alloc port udp true) with (P := fun _ : CONNECTION_INFO => True) as (s' & Hs & Hw & _);
    [done|done| | | | | | |exists s'; split; [exact Hs|done]]; try done.
  intros x Hx. unfold flow_key in *. simpl. by simplify_eq.
Qed.

Lemma validate_total now g s port v6 ip ip6 dest dest6 dport :
  ct_wf s ->
  exists s' b, udp_flow_validate now g s port v6 ip ip6 dest dest6 dport = Some (s', b) /\ ct_wf s'.
Proof.
  intros Hwf. unfold udp_flow_validate.
  destruct (ct_find_spec s port true v6 Hwf) as [(p & c & -> & Hp & Hk)|[-> _]]; cbn [mbind option_bind];
    [|eauto]. rewrite Hp. cbn [mbind option_bind]. case_match.
  - do 2 eexists. split; [done|]. by eapply set_node_wf.
  - destruct (drop_flow_spec s port true v6 p c Hwf Hp Hk) as (s' & -> & Hwf' & _). eauto.
Qed.

Lemma get_total now s port udp :
  ct_wf s -> exists s' r, get_connection now s port udp = Some (s', r) /\ ct_wf s'.
Proof.
  intros Hwf. destruct (get_touch_spec now s port udp false Hwf) as (s' & Hg & Hwf' & _).
  unfold get_connection. rewrite Hg. eauto.
Qed.

Lemma get_v6_total now s port udp :
  ct_wf s -> exists s' r, get_connection_full_v6 now s port udp = Some (s', r) /\ ct_wf s'.
Proof.
  intros Hwf. destruct (get_touch_spec now s port udp true Hwf) as (s' & Hg & Hwf' & _).
  unfold get_connection_full_v6. rewrite Hg. eauto.
Qed.

Lemma remove_total s port udp v6 :
  ct_wf s -> exists s', remove_connection s port udp v6 = Some s' /\ ct_wf s'.
Proof. intros Hwf. destruct (remove_connection_spec s port udp v6 Hwf) as (s' & ? & ? & _). eauto. Qed.

Lemma fin_total now s port v6 bit :
  ct_wf s -> exists s', connection_fin now s port v6 bit = Some s' /\ ct_wf s'.
Proof. intros Hwf. destruct (stamp_and_fin_spec now s port v6 0 bit Hwf) as [_ (s' & ? & ? & _)]. eauto. Qed.

Lemma stamp_total s port v6 g :
  ct_wf s -> exists s', udp_flow_stamp s port v6 g = Some s' /\ ct_wf s'.
Proof. intros Hwf. destruct (stamp_and_fin_spec 0 s port v6 g 0 Hwf) as [(s' & ? & ? & _) _]. eauto. Qed.

(** ** Well-formed states and environments *)

Record world_wf (w : World) : Prop := {
  ww_owners : owners_wf (w_owners w);
  ww_conns : ct_wf (w_conns w);
  ww_direct : length (w_direct w) = Z.to_nat 4096;
  ww_bits : bits_wf (w_bits w);
  ww_log : log_wf (w_log w);
  ww_dns : dns_wf (p_dns (w_policy w));
  ww_flags : flags_ok (p_rules (w_policy w))
}.

(** The allocator gives a fresh address, and the owner lookup is given enough
    turns to see its deadline. *)
Record env_ok {A} (w : World) (e : Env A) : Prop := {
  eo_alloc : alloc_ok (w_conns w) (e_alloc e);
  eo_turns : exists t, t ∈ e_turns e /\ u64 (e_start e + OWNER_LOOKUP_TIMEOUT_MS) <= tn_now t
}.

Lemma with_owners_wf w o : world_wf w -> owners_wf o -> world_wf (with_owners w o).
Proof. intros [] ?. by split. Qed.
Lemma with_conns_wf w c : world_wf w -> ct_wf c -> world_wf (with_conns w c).
Proof. intros [] ?. by split. Qed.
Lemma with_bits_wf w b : world_wf w -> bits_wf b -> world_wf (with_bits w b).
Proof. intros [] ?. by split. Qed.
Lemma with_direct_wf w d : world_wf w -> length d = Z.to_nat 4096 -> world_wf (with_direct w d).
Proof. intros [] ?. by split. Qed.
Lemma with_log_wf w l r : world_wf w -> log_wf l -> world_wf (with_log w l r).
Proof. intros [] ?. by split. Qed.
Lemma with_dns_wf w d : world_wf w -> dns_wf d -> world_wf (with_dns w d).
Proof. intros [] ?. by split. Qed.

#[export] Hint Resolve with_owners_wf with_conns_wf with_bits_wf with_direct_wf with_log_wf with_dns_wf
  add_logged_wf ww_owners ww_conns ww_direct ww_bits ww_log ww_dns ww_flags : pb.

Lemma remember_length_eq t now v6 s sp d dp g :
  length t = Z.to_nat 4096 -> length (udp_direct_remember now t v6 s sp d dp g) = Z.to_nat 4096.
Proof. intros Hl. unfold udp_direct_remember. case_match; [by rewrite length_insert|done]. Qed.

#[export] Hint Resolve remember_length_eq : pb.

Section Safety.
Context `{Platform} `{ProcessImages}.

Lemma report_wf w alloc pid key port a cfg :
  world_wf w -> world_wf (report_connection w alloc pid key port a cfg).
Proof.
  intros Hw. unfold report_connection. repeat case_match; auto with pb.
Qed.

Lemma report_conns w alloc pid key port a cfg :
  w_conns (report_connection w alloc pid key port a cfg) = w_conns w.
Proof. unfold report_connection. by repeat case_match. Qed.

Lemma check_v4_total w e ip sp dip dp udp :
  world_wf w -> env_ok w e ->
  exists ow d, check_process_rule (w_policy w) (e_start e) (e_match e) ip sp dip dp udp (e_turns e) (w_owners w)
               = Some (ow, d) /\ owners_wf ow.
Proof.
  intros Hw He. unfold check_process_rule. case_match; [eauto with pb|].
  destruct (resolve_loop_total (lookup_v4 ip sp dip dp udp) _ (e_turns e) (w_owners w)
    (lookup_v4_wf ip sp dip dp udp) (eo_turns _ _ He)) as (ow & pid & Hr & Hwf); [auto with pb|].
  unfold resolve_process_owner_v4. rewrite Hr. eauto.
Qed.

Lemma check_v6_total w e ip sp dip dp udp :
  world_wf w -> env_ok w e ->
  exists ow d, check_process_rule_v6 (w_policy w) (e_start e) (e_match e) ip sp dip dp udp (e_turns e) (w_owners w)
               = Some (ow, d) /\ owners_wf ow.
Proof.
  intros Hw He. unfold check_process_rule_v6. case_match; [eauto with pb|].
  destruct (resolve_loop_total (lookup_v6 ip sp dip dp udp) _ (e_turns e) (w_owners w)
    (lookup_v6_wf ip sp dip dp udp) (eo_turns _ _ He)) as (ow & pid & Hr & Hwf); [auto with pb|].
  unfold resolve_process_owner_v6. rewrite Hr. eauto.
Qed.

Lemma report_fields w alloc pid key port a cfg :
  let w' := report_connection w alloc pid key port a cfg in
  w_conns w' = w_conns w /\ w_bits w' = w_bits w /\ w_direct w' = w_direct w /\
  w_owners w' = w_owners w /\ w_policy w' = w_policy w /\ w_relay_port w' = w_relay_port w.
Proof. unfold report_connection. by repeat case_match. Qed.

(** The state behind the report of a TCP decision. *)
Lemma reported_wf (b : bool) w alloc pid key port a cfg :
  world_wf w ->
  world_wf (if b then report_connection w alloc pid key port a cfg else w) /\
  w_conns (if b then report_connection w alloc pid key port a cfg else w) = w_conns w.
Proof. destruct b; [split; [by apply report_wf|apply report_conns]|done]. Qed.

Lemma tcp_decide_v4_total w e p :
  world_wf w -> env_ok w e -> is_port (t_sport p) ->
  exists w' v, tcp_decide_v4 w e p = Some (w', v) /\ world_wf w'.
Proof.
  intros Hw He Hp. unfold tcp_decide_v4.
  destruct (check_v4_total w e (t_src p) (t_sport p) (t_dst p) (t_dport p) false Hw He)
    as (ow & d & -> & Ho).
  set (a := override_tcp_v4 _ _ _).
  destruct (reported_wf (t_syn p && negb (t_ack p)) (with_owners w ow) (e_log_alloc e) (d_pid d) (t_dst p)
    (t_dport p) a (d_config d)) as [Hw1 Hc1]; [auto with pb|].
  revert Hw1 Hc1. generalize (if t_syn p && negb (t_ack p) then
    report_connection (with_owners w ow) (e_log_alloc e) (d_pid d) (t_dst p) (t_dport p) a (d_config d)
    else with_owners w ow). intros w1 Hw1 Hc1.
  destruct a.
  - destruct (add_total (e_alloc e) (e_after e) (g_udp_generation w1) (w_conns w1) (t_sport p) false
      (t_src p) (t_dst p) (t_dport p) (d_config d)) as (c & -> & Hc);
      [auto with pb|rewrite Hc1; apply (eo_alloc _ _ He)|].
    cbn [mbind option_bind]. do 2 eexists. split; [done|]. auto with pb.
  - do 2 eexists. split; [done|]. case_match; auto with pb.
  - do 2 eexists. split; [done|]. auto with pb.
Qed.

Lemma tcp_decide_v6_total w e p :
  world_wf w -> env_ok w e -> is_port (t_sport p) ->
  exists w' v, tcp_decide_v6 w e p = Some (w', v) /\ world_wf w'.
Proof.
  intros Hw He Hp. unfold tcp_decide_v6.
  destruct (check_v6_total w e (t_src p) (t_sport p) (t_dst p) (t_dport p) false Hw He)
    as (ow & d & -> & Ho).
  set (a := override_tcp_v6 _ _ _).
  destruct (reported_wf (t_syn p && negb (t_ack p)) (with_owners w ow) (e_log_alloc e) (d_pid d)
    (v6_log_key (t_dst p)) (t_dport p) a (d_config d)) as [Hw1 Hc1]; [auto with pb|].
  revert Hw1 Hc1. generalize (if t_syn p && negb (t_ack p) then
    report_connection (with_owners w ow) (e_log_alloc e) (d_pid d) (v6_log_key (t_dst p)) (t_dport p) a (d_config d)
    else with_owners w ow). intros w1 Hw1 Hc1.
  destruct a.
  - destruct (add_v6_total (e_alloc e) (e_after e) (g_udp_generation w1) (w_conns w1) (t_sport p) false
      (t_src p) (t_dst p) (t_dport p) (d_config d)) as (c & -> & Hc);
      [auto with pb|rewrite Hc1; apply (eo_alloc _ _ He)|].
    cbn [mbind option_bind]. do 2 eexists. split; [done|]. auto with pb.
  - do 2 eexists. split; [done|]. case_match; auto with pb.
  - do 2 eexists. split; [done|]. auto with pb.
Qed.

(** The FIN and RST bookkeeping of both relay directions. *)
Lemma teardown_total s port v6 now bit (rst fin : bool) :
  ct_wf s ->
  exists s', (if rst then remove_connection s port false v6
              else if fin then connection_fin now s port v6 bit else Some s) = Some s' /\ ct_wf s'.
Proof.
  intros Hwf. destruct rst; [by apply remove_total|]. destruct fin; [by apply fin_total|eauto].
Qed.

Lemma tcp_routed_v4_total w e p :
  world_wf w -> env_ok w e -> is_port (t_sport p) ->
  exists w' v, tcp_routed_v4 w e p = Some (w', v) /\ world_wf w'.
Proof.
  intros Hw He Hp. unfold tcp_routed_v4. case_match.
  - unfold tcp_from_relay_v4.
    destruct (get_total (e_now e) (w_conns w) (t_dport p) false) as (c & r & -> & Hc); [auto with pb|].
    destruct (teardown_total c (t_dport p) false (e_now e) 2 (t_rst p) (t_fin p) Hc) as (c' & -> & Hc').
    cbn [mbind option_bind]. do 2 eexists. split; [done|]. auto with pb.
  - rewrite tracked_ok by auto with pb. cbn [mbind option_bind]. case_match.
    + unfold tcp_tracked_v4.
      destruct (teardown_total (w_conns w) (t_sport p) false (e_now e) 1 (t_rst p) (t_fin p)) as (c' & -> & Hc');
        [auto with pb|]. cbn [mbind option_bind]. do 2 eexists. split; [done|]. case_match; auto with pb.
    + case_match; [eauto|]. case_match; [eauto|]. by apply tcp_decide_v4_total.
Qed.

Lemma tcp_routed_v6_total w e p :
  world_wf w -> env_ok w e -> is_port (t_sport p) ->
  exists w' v, tcp_routed_v6 w e p = Some (w', v) /\ world_wf w'.
Proof.
  intros Hw He Hp. unfold tcp_routed_v6. case_match.
  - unfold tcp_from_relay_v6.
    destruct (get_v6_total (e_now e) (w_conns w) (t_dport p) false) as (c & r & -> & Hc); [auto with pb|].
    destruct (teardown_total c (t_dport p) true (e_now e) 2 (t_rst p) (t_fin p) Hc) as (c' & -> & Hc').
    cbn [mbind option_bind]. do 2 eexists. split; [done|]. auto with pb.
  - rewrite tracked_ok by auto with pb. cbn [mbind option_bind]. case_match.
    + unfold tcp_tracked_v6.
      destruct (teardown_total (w_conns w) (t_sport p) true (e_now e) 1 (t_rst p) (t_fin p)) as (c' & -> & Hc');
        [auto with pb|]. cbn [mbind option_bind]. do 2 eexists. split; [done|]. case_match; auto with pb.
    + case_match; [eauto|]. case_match; [eauto|]. case_match; [eauto|]. by apply tcp_decide_v6_total.
Qed.

Lemma reset_total w port v6 :
  world_wf w -> is_port port ->
  exists w', reset_stale_tcp_state w port v6 = Some w' /\ world_wf w' /\
    (forall q, heap (w_conns w) !! q = None -> heap (w_conns w') !! q = None).
Proof.
  intros Hw Hp. unfold reset_stale_tcp_state. case_match; [eauto|].
  destruct (remove_total (w_conns w) port false v6) as (c & Hr & Hc); [auto with pb|].
  rewrite Hr. cbn [mbind option_bind]. eexists. split; [done|]. split; [auto with pb|].
  intros q. by eapply remove_connection_fresh.
Qed.

Lemma env_ok_fresh {A} w w' (e : Env A) :
  (forall q, heap (w_conns w) !! q = None -> heap (w_conns w') !! q = None) -> env_ok w e -> env_ok w' e.
Proof. intros Hf [Ha Ht]. split; [by eapply alloc_ok_fresh|done]. Qed.

(** The bitmap fast path of both TCP handlers. *)
Lemma fast_path_wf w port (teardown : bool) :
  world_wf w -> is_port port ->
  world_wf (with_bits w (fst (if port_is_decided (w_bits w) port
                              then consume_direct_decision (w_bits w) port teardown
                              else (w_bits w, false)))).
Proof. intros Hw Hp. case_match; cbn [fst]; auto with pb. Qed.

Lemma tcp_packet_v4_total w e p :
  world_wf w -> env_ok w e -> is_port (t_sport p) ->
  exists w' v, tcp_packet_v4 w e p = Some (w', v) /\ world_wf w'.
Proof.
  intros Hw He Hp. unfold tcp_packet_v4. case_match; [eauto|]. case_match; [eauto|].
  assert (exists w1, tcp_syn_reset_v4 w p = Some w1 /\ world_wf w1 /\ env_ok w1 e) as (w1 & -> & Hw1 & He1).
  { unfold tcp_syn_reset_v4. case_match; [|eauto].
    destruct (reset_total (with_owners w (remove_cached_pid (w_owners w) (t_src p) (t_sport p) false))
      (t_sport p) false) as (w1 & -> & Hw1 & Hf); [auto 6 with pb|done|].
    exists w1. split; [done|]. split; [done|]. apply (env_ok_fresh w); [exact Hf|exact He]. }
  cbn [mbind option_bind].
  pose proof (fast_path_wf w1 (t_sport p) (t_fin p || t_rst p) Hw1 Hp) as Hw2.
  destruct (if port_is_decided _ _ then _ else _) as [bits direct]. cbn [fst] in Hw2.
  destruct direct; [eauto|]. apply tcp_routed_v4_total; [done| |done]. by apply (env_ok_fresh w1).
Qed.

Lemma tcp_packet_v6_total w e p :
  world_wf w -> env_ok w e -> is_port (t_sport p) ->
  exists w' v, tcp_packet_v6 w e p = Some (w', v) /\ world_wf w'.
Proof.
  intros Hw He Hp. unfold tcp_packet_v6. case_match; [eauto|].
  assert (exists w1, (if t_syn p && negb (t_ack p) then reset_stale_tcp_state w (t_sport p) true else Some w)
    = Some w1 /\ world_wf w1 /\ env_ok w1 e) as (w1 & -> & Hw1 & He1).
  { case_match; [|eauto].
    destruct (reset_total w (t_sport p) true Hw Hp) as (w1 & -> & Hw1 & Hf).
    exists w1. split; [done|]. split; [done|]. apply (env_ok_fresh w); [exact Hf|exact He]. }
  cbn [mbind option_bind].
  pose proof (fast_path_wf w1 (t_sport p) (t_fin p || t_rst p) Hw1 Hp) as Hw2.
  destruct (if port_is_decided _ _ then _ else _) as [bits direct]. cbn [fst] in Hw2.
  destruct direct; [eauto|]. apply tcp_routed_v6_total; [done| |done]. by apply (env_ok_fresh w1).
Qed.

(** The length of the payload is taken from the UDP header: a DNS answer on its way
    in that claims more than was captured is read behind its end. *)
Definition overlong {A} (p : udp_packet A) : Prop :=
  u_outbound p = false /\ u_dport p <> LOCAL_UDP_RELAY_PORT /\ u_sport p = 53 /\
  Z.of_nat (length (u_payload p)) < u_length p - 8.

(** A result that is there and well formed, except for [bad] input, which has none. *)
Definition total_but {A} (bad : Prop) (r : option (World * A)) : Prop :=
  (bad /\ r = None) \/ (~ bad /\ exists w v, r = Some (w, v) /\ world_wf w).

Lemma total_but_good {A} bad (r : option (World * A)) w v :
  ~ bad -> r = Some (w, v) -> world_wf w -> total_but bad r.
Proof. intros Hb -> Hw. right. eauto. Qed.

Lemma snoop_inbound_total {A} w alloc now (p : udp_packet A) :
  world_wf w -> Forall is_octet (u_payload p) -> u_outbound p = false -> u_dport p <> LOCAL_UDP_RELAY_PORT ->
  total_but (overlong p) (w ← snoop_inbound w alloc now p; Some (w, Pass p)).
Proof.
  intros Hw Hb Ho Hd. unfold snoop_inbound. destruct (Z.eqb_spec (u_sport p) 53) as [Hs|Hs].
  2:{ eapply total_but_good; [by intros (_ & _ & ? & _)|done|done]. }
  destruct (Z.ltb_spec 0 (u_length p - 8)) as [Hl|Hl].
  2:{ eapply total_but_good; [intros (_ & _ & _ & ?); lia|done|done]. }
  destruct (Z.ltb_spec (Z.of_nat (length (u_payload p))) (u_length p - 8)) as [Hlt|Hge]; [by left|].
  destruct (snoop_total alloc now (p_dns (w_policy w)) (take (Z.to_nat (u_length p - 8)) (u_payload p)))
    as (d & E); [by apply Forall_take|]. rewrite E. cbn [mbind option_bind].
  eapply total_but_good; [intros (_ & _ & _ & ?); lia|done|]. apply with_dns_wf; [done|].
  destruct (snoop_extends _ _ _ _ _ (ww_dns _ Hw) E) as [->|(q & off & _ & Hx)]; [auto with pb|apply Hx].
Qed.

Lemma udp_decide_v4_total w g e p :
  world_wf w -> env_ok w e -> exists w' v, udp_decide_v4 w g e p = Some (w', v) /\ world_wf w'.
Proof.
  intros Hw He. unfold udp_decide_v4. case_match; [eauto|].
  destruct (check_v4_total w e (u_src p) (u_sport p) (u_dst p) (u_dport p) true Hw He)
    as (ow & d & -> & Ho).
  set (a := override_udp_v4 _ _ _ _).
  destruct (reported_wf true (with_owners w ow) (e_log_alloc e) (d_pid d) (u_dst p) (u_dport p) a (d_config d))
    as [Hw1 Hc1]; [auto with pb|]. revert Hw1 Hc1. generalize (report_connection (with_owners w ow)
    (e_log_alloc e) (d_pid d) (u_dst p) (u_dport p) a (d_config d)). intros w1 Hw1 Hc1.
  destruct a.
  - destruct (add_total (e_alloc e) (e_after e) (g_udp_generation w1) (w_conns w1) (u_sport p) true
      (u_src p) (u_dst p) (u_dport p) (d_config d)) as (c & -> & Hc);
      [auto with pb|rewrite Hc1; apply (eo_alloc _ _ He)|]. cbn [mbind option_bind].
    destruct (stamp_total c (u_sport p) false g Hc) as (c' & -> & Hc').
    cbn [mbind option_bind]. do 2 eexists. split; [done|]. auto with pb.
  - do 2 eexists. split; [done|]. case_match; auto with pb.
  - eauto.
Qed.

Lemma udp_decide_v6_total w g e p :
  world_wf w -> env_ok w e -> exists w' v, udp_decide_v6 w g e p = Some (w', v) /\ world_wf w'.
Proof.
  intros Hw He. unfold udp_decide_v6. case_match; [eauto|]. case_match; [eauto|].
  destruct (check_v6_total w e (u_src p) (u_sport p) (u_dst p) (u_dport p) true Hw He)
    as (ow & d & -> & Ho).
  set (a := override_udp_v6 _ _ _ _).
  destruct (reported_wf true (with_owners w ow) (e_log_alloc e) (d_pid d) (v6_log_key (u_dst p)) (u_dport p) a
    (d_config d)) as [Hw1 Hc1]; [auto with pb|]. revert Hw1 Hc1. generalize (report_connection (with_owners w ow)
    (e_log_alloc e) (d_pid d) (v6_log_key (u_dst p)) (u_dport p) a (d_config d)). intros w1 Hw1 Hc1.
  destruct a.
  - destruct (find_proxy_config _ _) as [pc|]; [|eauto]. case_match; [eauto|].
    destruct (add_v6_total (e_alloc e) (e_after e) (g_udp_generation w1) (w_conns w1) (u_sport p) true
      (u_src p) (u_dst p) (u_dport p) (d_config d)) as (c & -> & Hc);
      [auto with pb|rewrite Hc1; apply (eo_alloc _ _ He)|]. cbn [mbind option_bind].
    destruct (stamp_total c (u_sport p) true g Hc) as (c' & -> & Hc').
    cbn [mbind option_bind]. do 2 eexists. split; [done|]. auto with pb.
  - do 2 eexists. split; [done|]. case_match; auto with pb.
  - eauto.
Qed.

Lemma udp_packet_v4_total w e p :
  world_wf w -> env_ok w e -> Forall is_octet (u_payload p) -> total_but (overlong p) (udp_packet_v4 w e p).
Proof.
  intros Hw He Hp. unfold udp_packet_v4. destruct (u_outbound p) eqn:Eo; cbn [negb].
  2:{ destruct (Z.eqb_spec (u_dport p) LOCAL_UDP_RELAY_PORT); [|by apply snoop_inbound_total].
      eapply total_but_good; [by intros (_ & ? & _)|done|done]. }
  right. split; [intros (? & _); congruence|].
  case_match; [eauto|]. case_match.
  { unfold udp_from_relay_v4.
    destruct (get_total (e_now e) (w_conns w) (u_dport p) true) as (c & [[ip port]|] & -> & Hc);
      [auto with pb|..]; do 2 eexists; (split; [done|]); auto with pb. }
  destruct (udp_flow_validate _ _ _ _ _ _ _ _ _ _) as [[c b]|] eqn:Hv.
  2:{ destruct (validate_total (e_now e) (g_udp_generation w) (w_conns w) (u_sport p) false (u_src p) []
        (u_dst p) [] (u_dport p)) as (? & ? & ? & _); [auto with pb|congruence]. }
  assert (ct_wf c) as Hc.
  { destruct (validate_total (e_now e) (g_udp_generation w) (w_conns w) (u_sport p) false (u_src p) []
        (u_dst p) [] (u_dport p)) as (c' & b' & Hv' & ?); [auto with pb|]. rewrite Hv in Hv'. by simplify_eq. }
  destruct b; [do 2 eexists; split; [done|]; auto with pb|].
  apply udp_decide_v4_total; [auto with pb|]. apply (env_ok_fresh w); [|done].
  intros q. by eapply udp_flow_validate_fresh.
Qed.

Lemma udp_packet_v6_total w e p :
  world_wf w -> env_ok w e -> Forall is_octet (u_payload p) -> total_but (overlong p) (udp_packet_v6 w e p).
Proof.
  intros Hw He Hp. unfold udp_packet_v6. destruct (u_outbound p) eqn:Eo; cbn [negb].
  2:{ destruct (Z.eqb_spec (u_dport p) LOCAL_UDP_RELAY_PORT); [|by apply snoop_inbound_total].
      eapply total_but_good; [by intros (_ & ? & _)|done|done]. }
  right. split; [intros (? & _); congruence|].
  case_match.
  { unfold udp_from_relay_v6.
    destruct (get_v6_total (e_now e) (w_conns w) (u_dport p) true) as (c & [[[ip port] cfg]|] & -> & Hc);
      [auto with pb|..]; do 2 eexists; (split; [done|]); auto with pb. }
  case_match; [eauto|].
  destruct (udp_flow_validate _ _ _ _ _ _ _ _ _ _) as [[c b]|] eqn:Hv.
  2:{ destruct (validate_total (e_now e) (g_udp_generation w) (w_conns w) (u_sport p) true 0 (u_src p)
        0 (u_dst p) (u_dport p)) as (? & ? & ? & _); [auto with pb|congruence]. }
  assert (ct_wf c) as Hc.
  { destruct (validate_total (e_now e) (g_udp_generation w) (w_conns w) (u_sport p) true 0 (u_src p)
        0 (u_dst p) (u_dport p)) as (c' & b' & Hv' & ?); [auto with pb|]. rewrite Hv in Hv'. by simplify_eq. }
  destruct b; [do 2 eexists; split; [done|]; auto with pb|].
  apply udp_decide_v6_total; [auto with pb|]. apply (env_ok_fresh w); [|done].
  intros q. by eapply udp_flow_validate_fresh.
Qed.

(** Whatever a TCP packet holds, the processor reads no dangling pointer, its
    owner lookup ends, and every table, cache and bitmap stays well formed. *)
Theorem tcp_processing_safe w e4 e6 p4 p6 :
  world_wf w -> env_ok w e4 -> env_ok w e6 -> is_port (t_sport p4) -> is_port (t_sport p6) ->
  (exists w' v, tcp_packet_v4 w e4 p4 = Some (w', v) /\ world_wf w') /\
  (exists w' v, tcp_packet_v6 w e6 p6 = Some (w', v) /\ world_wf w').
Proof. intros. split; [by apply tcp_packet_v4_total|by apply tcp_packet_v6_total]. Qed.

(** The same for every datagram of bytes but one: an inbound DNS answer whose
    header claims more than was captured, and only that, is read behind its end. *)
Theorem udp_processing_safe w e4 e6 p4 p6 :
  world_wf w -> env_ok w e4 -> env_ok w e6 ->
  Forall is_octet (u_payload p4) -> Forall is_octet (u_payload p6) ->
  total_but (overlong p4) (udp_packet_v4 w e4 p4) /\ total_but (overlong p6) (udp_packet_v6 w e6 p6).
Proof. intros. split; [by apply udp_packet_v4_total|by apply udp_packet_v6_total]. Qed.
End Safety.
