(* ===== verification/PacketPolicy.v ===== *)
(** * The packet processor enforces the decisions

    Which packets leave unmodified and why, what happens to a new connection,
    how a redirected flow and the replies of the relay fit together, UDP
    decisions of either family that race with policy changes, the send batch and
    the policy switches. *)
From S2P Require Import Prelude CLib HashTable Util Types Matching ProxyConfig Dns Process Rules.
From S2P Require Import Policy ConnTrack DirectCache ConnLog PortBitmap Packet PacketSafety.

Section Enforcement.
Context `{Platform} `{ProcessImages}.

(** ** Why a TCP packet is passed *)

(** The IPv4 decision of a packet in a state. *)
Definition decided_v4 (w : World) (e : Env Z) (p : tcp_packet Z) (a : RuleAction) : Prop :=
  exists ow d, check_process_rule (w_policy w) (e_start e) (e_match e) (t_src p) (t_sport p) (t_dst p)
                 (t_dport p) false (e_turns e) (w_owners w) = Some (ow, d) /\
               override_tcp_v4 (w_localhost_via_proxy w) (t_dst p) (d_action d) = a.

Lemma tcp_decide_v4_verdict w e p w' v :
  tcp_decide_v4 w e p = Some (w', v) ->
  match v with
  | Pass q => q = p /\ decided_v4 w e p RULE_ACTION_DIRECT
  | Drop => decided_v4 w e p RULE_ACTION_BLOCK
  | Rewrite q => q = turn_tcp_v4 (tcp_to_port p (w_relay_port w)) /\ decided_v4 w e p RULE_ACTION_PROXY
  end.
Proof.
  unfold tcp_decide_v4, decided_v4. destruct (check_process_rule _ _ _ _ _ _ _ _ _ _) as [[ow d]|]; [|done].
  cbv zeta. change (w_localhost_via_proxy (with_owners w ow)) with (w_localhost_via_proxy w).
  destruct (override_tcp_v4 _ _ _) eqn:Ea.
  - intros (c & _ & Hv)%bind_Some. simplify_eq. split; [|eauto].
    destruct (report_fields (with_owners w ow) (e_log_alloc e) (d_pid d) (t_dst p) (t_dport p)
      RULE_ACTION_PROXY (d_config d)) as (_ & _ & _ & _ & _ & Hr). case_match; [by rewrite Hr|done].
  - intros ?. simplify_eq. split; [done|eauto].
  - intros ?. simplify_eq. eauto.
Qed.

(** C4: An outbound IPv4 TCP packet leaves unmodified only if it goes to a
    configured proxy server, its port holds a DIRECT decision, it ends a flow
    that is not tracked, no rule is active, or it was decided DIRECT now; it is
    dropped only when it was decided BLOCK. *)
Theorem tcp_v4_verdict_justified w e p w1 w' v :
  world_wf w -> t_outbound p = true -> is_port (t_sport p) ->
  tcp_syn_reset_v4 w p = Some w1 -> tcp_packet_v4 w e p = Some (w', v) ->
  match v with
  | Pass q => q = p /\
      ((t_sport p <> w_relay_port w /\
        is_proxy_server_endpoint (p_proxies (w_policy w)) (t_dst p) (t_dport p) = true) \/
       (port_is_decided (w_bits w1) (t_sport p) = true /\ port_is_direct (w_bits w1) (t_sport p) = true) \/
       (t_sport p <> w_relay_port w1 /\ is_connection_tracked (w_conns w1) (t_sport p) false false = Some false /\
        (t_fin p || t_rst p = true \/ idle w1 = true \/
         exists b, decided_v4 (with_bits w1 b) e p RULE_ACTION_DIRECT)))
  | Drop => exists b, decided_v4 (with_bits w1 b) e p RULE_ACTION_BLOCK
  | Rewrite _ => True
  end.
Proof.
  intros Hw Ho Hp Hreset. unfold tcp_packet_v4. rewrite Ho. simpl negb. cbn iota.
  destruct (negb (t_sport p =? w_relay_port w) &&
    is_proxy_server_endpoint (p_proxies (w_policy w)) (t_dst p) (t_dport p)) eqn:Eend.
  { intros ?; simplify_eq. split; [done|]. left. by bool_prop. }
  rewrite Hreset. cbn [mbind option_bind].
  assert (snd (if port_is_decided (w_bits w1) (t_sport p)
               then consume_direct_decision (w_bits w1) (t_sport p) (t_fin p || t_rst p)
               else (w_bits w1, false)) = true ->
          port_is_decided (w_bits w1) (t_sport p) = true /\ port_is_direct (w_bits w1) (t_sport p) = true) as Hd.
  { destruct (port_is_decided _ _) eqn:E; [|done]. unfold consume_direct_decision. cbn [snd].
    rewrite E. done. }
  destruct (if port_is_decided _ _ then _ else _) as [bits direct]. cbn [snd] in Hd.
  destruct direct; [intros ?; simplify_eq; split; [done|]; right; left; by apply Hd|].
  unfold tcp_routed_v4. change (w_relay_port (with_bits w1 bits)) with (w_relay_port w1).
  destruct (Z.eqb_spec (t_sport p) (w_relay_port w1)).
  { unfold tcp_from_relay_v4. destruct (get_connection _ _ _ _) as [[c r]|]; [|done].
    intros (c' & _ & ?)%bind_Some. by simplify_eq. }
  change (w_conns (with_bits w1 bits)) with (w_conns w1).
  intros (tracked & Ht & Hv)%bind_Some. destruct tracked.
  { unfold tcp_tracked_v4 in Hv. apply bind_Some in Hv as (c & _ & ?). by simplify_eq. }
  destruct (t_fin p || t_rst p)%bool eqn:Ef; [simplify_eq; split; [done|]; right; right; auto|].
  change (idle (with_bits w1 bits)) with (idle w1) in Hv.
  destruct (idle w1) eqn:Ei; [simplify_eq; split; [done|]; right; right; auto|].
  apply tcp_decide_v4_verdict in Hv. destruct v; [|done|eauto].
  destruct Hv as [-> ?]. split; [done|]. right; right. split_and!; eauto.
Qed.

(** ** A new connection *)

(** The flow a TCP connection from a port is tracked as. *)
Definition tcp_flow (w : World) (port : Z) (v6 : bool) : option CONNECTION_INFO :=
  conn_of (w_conns w) (port, false, v6).

Lemma reset_clean w port v6 :
  world_wf w -> is_port port -> port <> w_relay_port w ->
  exists w1, reset_stale_tcp_state w port v6 = Some w1 /\ world_wf w1 /\
    port_is_decided (w_bits w1) port = false /\ tcp_flow w1 port v6 = None /\
    (forall port' v6', (port', v6') <> (port, v6) -> tcp_flow w1 port' v6' = tcp_flow w port' v6') /\
    w_owners w1 = w_owners w /\ w_policy w1 = w_policy w /\ w_relay_port w1 = w_relay_port w /\
    w_callback w1 = w_callback w /\ w_localhost_via_proxy w1 = w_localhost_via_proxy w /\
    (forall q, heap (w_conns w) !! q = None -> heap (w_conns w1) !! q = None).
Proof.
  intros Hw Hp Hr. unfold reset_stale_tcp_state. rewrite (proj2 (Z.eqb_neq _ _) Hr).
  destruct (remove_connection_spec (w_conns w) port false v6) as (c & Hc & Hcw & Hk); [auto with pb|].
  rewrite Hc. cbn [mbind option_bind]. eexists. split; [reflexivity|].
  split; [auto 7 with pb|]. split; [by apply port_clear_eq; [auto with pb|]|].
  unfold tcp_flow. cbn [w_conns with_bits with_conns]. split; [rewrite Hk; by rewrite decide_True|].
  split; [intros port' v6' Hne; rewrite Hk; rewrite decide_False; [done|congruence]|].
  do 5 (split; [done|]). intros q. by eapply remove_connection_fresh.
Qed.

Lemma syn_reset_clean w p :
  world_wf w -> is_port (t_sport p) -> t_syn p = true -> t_ack p = false -> t_sport p <> w_relay_port w ->
  exists w1, tcp_syn_reset_v4 w p = Some w1 /\ world_wf w1 /\
    port_is_decided (w_bits w1) (t_sport p) = false /\ tcp_flow w1 (t_sport p) false = None /\
    tcp_flow w1 (t_sport p) true = tcp_flow w (t_sport p) true /\
    w_owners w1 = remove_cached_pid (w_owners w) (t_src p) (t_sport p) false /\
    w_policy w1 = w_policy w /\ w_relay_port w1 = w_relay_port w /\ w_callback w1 = w_callback w /\
    w_localhost_via_proxy w1 = w_localhost_via_proxy w /\
    (forall q, heap (w_conns w) !! q = None -> heap (w_conns w1) !! q = None).
Proof.
  intros Hw Hp Hs Ha Hr. unfold tcp_syn_reset_v4. rewrite Hs, Ha. cbn [andb negb].
  destruct (reset_clean (with_owners w (remove_cached_pid (w_owners w) (t_src p) (t_sport p) false))
    (t_sport p) false) as (w1 & -> & Hw1 & Hd & Hf & Hf' & Ho & Hpol & Hrel & Hcb & Hloc & Hfr);
    [auto 6 with pb|done|done|].
  exists w1. split_and!; try done. by apply (Hf' (t_sport p) true).
Qed.

(** With a clean slate, a SYN goes where no flow and no cached decision can take
    it: to the decision, unless it ends a flow at once or no rule is active. *)
Lemma syn_routed w w1 e p :
  world_wf w1 -> t_outbound p = true -> t_sport p <> w_relay_port w ->
  is_proxy_server_endpoint (p_proxies (w_policy w)) (t_dst p) (t_dport p) = false ->
  tcp_syn_reset_v4 w p = Some w1 -> port_is_decided (w_bits w1) (t_sport p) = false ->
  tcp_flow w1 (t_sport p) false = None ->
  w_policy w1 = w_policy w -> w_relay_port w1 = w_relay_port w -> w_callback w1 = w_callback w ->
  tcp_packet_v4 w e p =
    if (t_fin p || t_rst p || idle w)%bool then Some (w1, Pass p) else tcp_decide_v4 w1 e p.
Proof.
  intros Hw1 Ho Hr Hend Hreset Hdec Hflow Hpol Hrel Hcb.
  unfold tcp_packet_v4. rewrite Ho. cbn [negb]. cbn iota. rewrite Hend, andb_false_r.
  rewrite Hreset. cbn [mbind option_bind]. rewrite Hdec.
  assert (with_bits w1 (w_bits w1) = w1) as -> by by destruct w1. cbn iota.
  unfold tcp_routed_v4. rewrite Hrel, (proj2 (Z.eqb_neq _ _) Hr), tracked_ok by auto with pb.
  unfold tcp_flow in Hflow. rewrite Hflow. cbn [mbind option_bind].
  rewrite bool_decide_eq_false_2 by (by intros [? ?]). cbn iota.
  assert (idle w1 = idle w) as -> by (unfold idle; by rewrite Hpol, Hcb).
  by destruct (t_fin p || t_rst p)%bool.
Qed.

(** Where a PROXY decision is not carried out: loopback, unless that is asked for,
    and addresses that are not those of one host. *)
Definition kept_local_v4 (w : World) (dst : Z) : Prop :=
  (w_localhost_via_proxy w = false /\ Z.land dst 0xFF = 127) \/ is_broadcast_or_multicast dst = true.

Lemma override_v4_spec w dst :
  (kept_local_v4 w dst /\ override_tcp_v4 (w_localhost_via_proxy w) dst RULE_ACTION_PROXY = RULE_ACTION_DIRECT) \/
  (~ kept_local_v4 w dst /\ override_tcp_v4 (w_localhost_via_proxy w) dst RULE_ACTION_PROXY = RULE_ACTION_PROXY).
Proof.
  unfold kept_local_v4, override_tcp_v4. destruct (w_localhost_via_proxy w), (Z.eqb_spec (Z.land dst 0xFF) 127),
    (is_broadcast_or_multicast dst); cbn [negb andb]; intuition congruence.
Qed.

(** The decision of a SYN whose port has no flow: what becomes of the packet and
    what is tracked. *)
Lemma syn_decided w e p :
  world_wf w -> env_ok w e -> t_syn p = true -> t_ack p = false -> tcp_flow w (t_sport p) false = None ->
  exists ow d w' v,
    check_process_rule (w_policy w) (e_start e) (e_match e) (t_src p) (t_sport p) (t_dst p) (t_dport p)
      false (e_turns e) (w_owners w) = Some (ow, d) /\
    tcp_decide_v4 w e p = Some (w', v) /\
    match override_tcp_v4 (w_localhost_via_proxy w) (t_dst p) (d_action d) with
    | RULE_ACTION_DIRECT => v = Pass p /\ tcp_flow w' (t_sport p) false = None
    | RULE_ACTION_BLOCK => v = Drop /\ tcp_flow w' (t_sport p) false = None
    | RULE_ACTION_PROXY =>
        v = Rewrite (turn_tcp_v4 (tcp_to_port p (w_relay_port w))) /\
        match tcp_flow w' (t_sport p) false with
        | Some c => orig_dest_ip c = t_dst p /\ orig_dest_port c = t_dport p /\
                    c_proxy_config_id c = d_config d
        | None => e_alloc e = None
        end
    end.
Proof.
  intros Hw He Hs Ha Hflow.
  destruct (check_v4_total w e (t_src p) (t_sport p) (t_dst p) (t_dport p) false Hw He)
    as (ow & d & Hcheck & Howw).
  exists ow, d. unfold tcp_decide_v4. rewrite Hcheck. cbv zeta.
  change (w_localhost_via_proxy (with_owners _ _)) with (w_localhost_via_proxy w).
  rewrite Hs, Ha. cbn [andb negb]. cbn iota.
  set (a := override_tcp_v4 _ _ _). set (w2 := report_connection _ _ _ _ _ _ _).
  assert (world_wf w2 /\ w_conns w2 = w_conns w /\ w_relay_port w2 = w_relay_port w) as (Hw2 & Hc2 & Hr2).
  { split; [apply report_wf; auto with pb|].
    match goal with w2 := report_connection ?x ?al ?pi ?k ?po ?ac ?cf |- _ =>
      destruct (report_fields x al pi k po ac cf) as (E1 & _ & _ & _ & _ & E6) end.
    split; [exact E1|exact E6]. }
  clearbody w2. destruct a.
  - destruct (add_ok (w_conns w2) (e_alloc e) (t_sport p) false false
      (fun c => mkConn (src_port c) (c_is_udp c) (t_src p) (t_dst p) (t_dport p) true 0 (g_udp_generation w2)
                  (e_after e) (d_config d) false (src_ip6 c) (orig_dest_ip6 c) (rev_bucket c) (in_rev c))
      (mkConn (t_sport p) false (t_src p) (t_dst p) (t_dport p) true 0 (g_udp_generation w2) (e_after e)
         (d_config d) false zero16 zero16 0 false)
      (fun c => orig_dest_ip c = t_dst p /\ orig_dest_port c = t_dport p /\ c_proxy_config_id c = d_config d))
      as (c & Hadd & _ & _ & Hkey); try done.
    + auto with pb.
    + rewrite Hc2. apply (eo_alloc _ _ He).
    + intros x Hx. unfold flow_key in *. simpl. by injection Hx as -> -> _.
    + unfold add_connection. rewrite Hadd. cbn [mbind option_bind]. do 2 eexists.
      split; [done|]. split; [done|]. split; [by rewrite Hr2|].
      unfold tcp_flow. cbn [w_conns with_bits with_conns].
      destruct (conn_of (w_conns w2) _), (e_alloc e); first [by destruct Hkey as (x & -> & ?)|by rewrite Hkey].
  - do 2 eexists. split; [done|]. split; [done|]. split; [done|].
    case_match; unfold tcp_flow in *; cbn [w_conns with_bits]; by rewrite Hc2.
  - do 2 eexists. split; [done|]. split; [done|]. split; [done|].
    unfold tcp_flow in *. cbn [w_conns with_bits]. by rewrite Hc2.
Qed.

(** C2: A SYN (without ACK) that leaves the host from any port but the relay's is
    treated as a new connection whatever its port number was used for before: no
    cached decision and no tracked flow of that port plays a part.  To a
    configured proxy server it passes.  A SYN with FIN or RST passes, and so does
    every one while no rule is active and nobody is told of connections.
    Otherwise [check_process_rule] decides: DIRECT passes it and BLOCK drops it,
    and neither leaves a tracked flow; PROXY passes it when the destination is
    kept local - 127.x unless localhost goes through the proxy, broadcast,
    multicast - and otherwise turns it to the relay and tracks its destination
    with the configuration of the rule.  Only when the flow cannot be allocated
    is it turned to the relay without being tracked. *)
Theorem new_tcp_v4_enforced w e p :
  world_wf w -> env_ok w e -> t_outbound p = true -> is_port (t_sport p) ->
  t_syn p = true -> t_ack p = false -> t_sport p <> w_relay_port w ->
  if is_proxy_server_endpoint (p_proxies (w_policy w)) (t_dst p) (t_dport p)
  then tcp_packet_v4 w e p = Some (w, Pass p)
  else exists w' v, tcp_packet_v4 w e p = Some (w', v) /\
    let untracked := tcp_flow w' (t_sport p) false = None in
    if (t_fin p || t_rst p || idle w)%bool then v = Pass p /\ untracked
    else exists ow d,
      check_process_rule (w_policy w) (e_start e) (e_match e) (t_src p) (t_sport p) (t_dst p) (t_dport p)
        false (e_turns e) (remove_cached_pid (w_owners w) (t_src p) (t_sport p) false) = Some (ow, d) /\
      match d_action d with
      | RULE_ACTION_DIRECT => v = Pass p /\ untracked
      | RULE_ACTION_BLOCK => v = Drop /\ untracked
      | RULE_ACTION_PROXY =>
          (kept_local_v4 w (t_dst p) -> v = Pass p /\ untracked) /\
          (~ kept_local_v4 w (t_dst p) ->
           v = Rewrite (turn_tcp_v4 (tcp_to_port p (w_relay_port w))) /\
           match tcp_flow w' (t_sport p) false with
           | Some c => orig_dest_ip c = t_dst p /\ orig_dest_port c = t_dport p /\
                       c_proxy_config_id c = d_config d
           | None => e_alloc e = None
           end)
      end.
Proof.
  intros Hw He Ho Hp Hs Ha Hr. destruct (is_proxy_server_endpoint _ _ _) eqn:Hend.
  { unfold tcp_packet_v4. by rewrite Ho, Hend, (proj2 (Z.eqb_neq _ _) Hr). }
  destruct (syn_reset_clean w p Hw Hp Hs Ha Hr)
    as (w1 & Hreset & Hw1 & Hdec & Hflow & _ & How & Hpol & Hrel & Hcb & Hloc & Hfresh).
  rewrite (syn_routed w w1 e p) by done. cbv zeta.
  destruct (t_fin p || t_rst p || idle w)%bool; [by exists w1, (Pass p)|].
  assert (env_ok w1 e) as He1 by (by eapply env_ok_fresh).
  destruct (syn_decided w1 e p Hw1 He1 Hs Ha Hflow) as (ow & d & w' & v & Hcheck & Hv & Hm).
  rewrite Hpol, How in Hcheck. exists w', v. split; [done|]. exists ow, d. split; [done|].
  rewrite Hloc, Hrel in Hm. destruct (d_action d); [|exact Hm..].
  destruct (override_v4_spec w (t_dst p)) as [[Hk Eo]|[Hk Eo]]; rewrite Eo in Hm; by split.
Qed.

(** ** A cached BLOCK *)

(** A port marked decided without the direct bit is treated exactly like an
    undecided one: the mark a BLOCK leaves spares no rule check. *)
Theorem blocked_port_rechecked w e p :
  world_wf w -> is_port (t_sport p) -> t_outbound p = true -> t_syn p && negb (t_ack p) = false ->
  t_fin p = false -> t_rst p = false -> port_is_direct (w_bits w) (t_sport p) = false ->
  is_connection_tracked (w_conns w) (t_sport p) false false = Some false ->
  t_sport p <> w_relay_port w -> idle w = false ->
  is_proxy_server_endpoint (p_proxies (w_policy w)) (t_dst p) (t_dport p) = false ->
  tcp_packet_v4 (with_bits w (port_set_decided (w_bits w) (t_sport p))) e p =
  tcp_decide_v4 (with_bits w (port_set_decided (w_bits w) (t_sport p))) e p /\
  tcp_packet_v4 w e p = tcp_decide_v4 w e p.
Proof.
  intros Hw Hp Ho Hs Hf Hr Hd Ht Hrel Hi Hend.
  assert (forall w', w_conns w' = w_conns w -> w_policy w' = w_policy w -> w_relay_port w' = w_relay_port w ->
    idle w' = false -> port_is_direct (w_bits w') (t_sport p) = false ->
    tcp_packet_v4 w' e p = tcp_decide_v4 (with_bits w' (w_bits w')) e p) as Hgen.
  { intros w' Hc Hpol Hrp Hi' Hd'. unfold tcp_packet_v4, tcp_syn_reset_v4. rewrite Ho. cbn [negb]. cbn iota.
    rewrite Hpol, Hend, andb_false_r, Hs. cbn [mbind option_bind]. unfold consume_direct_decision.
    rewrite Hd', andb_false_r, Hf, Hr. cbn [orb]. cbn iota.
    assert ((if port_is_decided (w_bits w') (t_sport p) then (w_bits w', false) else (w_bits w', false))
            = (w_bits w', false)) as -> by (by case_match).
    unfold tcp_routed_v4. change (w_relay_port (with_bits _ _)) with (w_relay_port w').
    rewrite Hrp, (proj2 (Z.eqb_neq _ _) Hrel). change (w_conns (with_bits _ _)) with (w_conns w').
    rewrite Hc, Ht. cbn [mbind option_bind]. cbn iota. rewrite Hf, Hr. cbn [orb]. cbn iota.
    change (idle (with_bits w' (w_bits w'))) with (idle w'). by rewrite Hi'. }
  split.
  - by rewrite Hgen.
  - by rewrite Hgen.
Qed.

(** ** Redirection and restoration *)

(** The reply of the local relay to the packet it was given: back to where that
    came from, with any flags. *)
Definition relay_reply {A} (p : tcp_packet A) (syn ack fin rst : bool) : tcp_packet A :=
  mkTcp (t_dst p) (t_src p) (t_dport p) (t_sport p) syn ack fin rst true.

(** A packet of the relay passes the endpoint test and the cached decisions, as
    long as the relay's own port has no DIRECT decision. *)
Lemma from_relay_reached w e r :
  t_outbound r = true -> t_sport r = w_relay_port w -> port_is_direct (w_bits w) (w_relay_port w) = false ->
  exists o bits, tcp_packet_v4 w e r = tcp_from_relay_v4 (with_bits (with_owners w o) bits) e r.
Proof.
  intros Ho Hs Hd. unfold tcp_packet_v4. rewrite Ho, Hs, Z.eqb_refl. cbn [negb andb]. cbn iota.
  set (o := if t_syn r && negb (t_ack r) then remove_cached_pid (w_owners w) (t_src r) (t_sport r) false else w_owners w).
  exists o.
  assert (tcp_syn_reset_v4 w r = Some (with_owners w o)) as ->.
  { unfold tcp_syn_reset_v4, reset_stale_tcp_state, o. rewrite Hs.
    change (w_relay_port (with_owners _ _)) with (w_relay_port w). rewrite Z.eqb_refl.
    destruct (t_syn r && negb (t_ack r)); [done|]. by destruct w. }
  cbn [mbind option_bind]. change (w_bits (with_owners w o)) with (w_bits w).
  unfold consume_direct_decision. rewrite Hd, andb_false_r.
  destruct (port_is_decided _ _); (eexists; unfold tcp_routed_v4; rewrite Hs; cbn [w_relay_port with_bits with_owners];
    by rewrite Z.eqb_refl).
Qed.

Lemma fin_keeps now s port v6 bit :
  ct_wf s ->
  exists s', connection_fin now s port v6 bit = Some s' /\ ct_wf s' /\
    orig_dest_port <$> conn_of s' (port, false, v6) = orig_dest_port <$> conn_of s (port, false, v6).
Proof.
  intros Hwf.
  destruct (in_place_spec s port false v6 (fun c =>
    mkConn (src_port c) (c_is_udp c) (src_ip c) (orig_dest_ip c) (orig_dest_port c)
      (is_tracked c) (Z.lor (fin_flags c) bit) (policy_generation c) now (c_proxy_config_id c)
      (is_ipv6 c) (src_ip6 c) (orig_dest_ip6 c) (rev_bucket c) (in_rev c)) Hwf) as (s' & Hs & Hw & Hk); [done|].
  exists s'. split; [exact Hs|]. split; [done|]. rewrite Hk, decide_True by done. by destruct (conn_of s _).
Qed.

(** What the relay answers to a packet of a flow reaches the client as an answer
    of the destination. *)
Lemma relay_answer_restored w e p c syn ack fin rst :
  world_wf w -> tcp_flow w (t_sport p) false = Some c -> orig_dest_port c = t_dport p -> t_outbound p = true ->
  port_is_direct (w_bits w) (w_relay_port w) = false ->
  exists w', tcp_packet_v4 w e (relay_reply (turn_tcp_v4 (tcp_to_port p (w_relay_port w))) syn ack fin rst) =
    Some (w', Rewrite (mkTcp (t_dst p) (t_src p) (t_dport p) (t_sport p) syn ack fin rst
                         ((first_octet (t_src p) =? 127) && (first_octet (t_dst p) =? 127)))).
Proof.
  intros Hw Hc Hport Ho Hd. set (r := relay_reply _ _ _ _ _).
  assert (t_sport r = w_relay_port w) as Hsr by (unfold r, turn_tcp_v4; by case_match).
  assert (t_dport r = t_sport p) as Hdr by (unfold r, turn_tcp_v4; by case_match).
  assert (t_outbound r = true) as Hor by done.
  destruct (from_relay_reached w e r Hor Hsr Hd) as (o & bits & ->).
  unfold tcp_from_relay_v4, get_connection. rewrite Hdr. cbn [w_conns with_bits with_owners].
  destruct (get_touch_spec (e_now e) (w_conns w) (t_sport p) false false) as (s' & -> & Hw' & _); [auto with pb|].
  unfold tcp_flow in Hc. rewrite Hc. cbn [option_map]. rewrite Hport.
  assert (exists c', (if t_rst r then remove_connection s' (t_sport p) false false
    else if t_fin r then connection_fin (e_now e) s' (t_sport p) false 2 else Some s') = Some c') as (c' & ->).
  { destruct (t_rst r); [destruct (remove_connection_spec s' (t_sport p) false false Hw') as (? & -> & _); eauto|].
    destruct (t_fin r); [|eauto]. destruct (fin_keeps (e_now e) s' (t_sport p) false 2 Hw') as (? & -> & _). eauto. }
  cbn [mbind option_bind]. eexists. do 3 f_equal. unfold r, turn_tcp_v4. cbn [tcp_to_port t_src t_dst].
  destruct (first_octet (t_src p) =? 127) eqn:E1, (first_octet (t_dst p) =? 127) eqn:E2;
    cbn [andb swap_tcp tcp_to_port relay_reply tcp_from_port t_src t_dst t_sport t_dport t_syn t_ack t_fin t_rst t_outbound];
    rewrite ?E1, ?E2; done.
Qed.

(** A packet of a tracked flow is turned to the relay, and its flow stays. *)
Lemma tracked_redirected w e p c :
  world_wf w -> tcp_flow w (t_sport p) false = Some c -> t_outbound p = true -> is_port (t_sport p) ->
  is_port (w_relay_port w) -> t_sport p <> w_relay_port w ->
  is_proxy_server_endpoint (p_proxies (w_policy w)) (t_dst p) (t_dport p) = false ->
  t_syn p && negb (t_ack p) = false -> t_rst p = false -> port_is_direct (w_bits w) (t_sport p) = false ->
  exists w' c', tcp_packet_v4 w e p = Some (w', Rewrite (turn_tcp_v4 (tcp_to_port p (w_relay_port w)))) /\
    world_wf w' /\ w_relay_port w' = w_relay_port w /\
    port_is_direct (w_bits w') (w_relay_port w) = port_is_direct (w_bits w) (w_relay_port w) /\
    tcp_flow w' (t_sport p) false = Some c' /\ orig_dest_port c' = orig_dest_port c.
Proof.
  intros Hw Hc Ho Hp Hrp Hr Hend Hs Hrst Hd. unfold tcp_packet_v4, tcp_syn_reset_v4.
  rewrite Ho, Hend, Hs, andb_false_r. cbn [negb mbind option_bind]. cbn iota.
  unfold consume_direct_decision. rewrite Hd, andb_false_r.
  set (bits := if port_is_decided (w_bits w) (t_sport p) then
    (if (t_fin p || t_rst p)%bool then port_clear (w_bits w) (t_sport p) else w_bits w) else w_bits w).
  assert (bits_wf bits /\ port_is_direct bits (w_relay_port w) = port_is_direct (w_bits w) (w_relay_port w)) as [Hbw Hbd].
  { pose proof (ww_bits _ Hw) as Hb. unfold bits. destruct (port_is_decided _ _), (t_fin p || t_rst p)%bool; try done.
    split; [by apply clear_wf|]. destruct (port_bits_spec (w_bits w) (t_sport p) (w_relay_port w) Hb Hp Hrp) as (_ & _ & [_ E] & _). rewrite E.
    by rewrite bool_decide_eq_false_2 by congruence. }
  replace (if port_is_decided (w_bits w) (t_sport p) then _ else _) with (bits, false)
    by (unfold bits; by destruct (port_is_decided _ _)).
  unfold tcp_routed_v4. cbn [w_relay_port w_conns with_bits]. rewrite (proj2 (Z.eqb_neq _ _) Hr), tracked_ok by auto with pb.
  unfold tcp_flow in Hc. rewrite Hc. cbn [mbind option_bind]. rewrite bool_decide_eq_true_2 by done. cbn iota.
  unfold tcp_tracked_v4. rewrite Hrst. cbn [w_conns w_bits w_relay_port with_bits].
  assert (exists s, (if t_fin p then connection_fin (e_now e) (w_conns w) (t_sport p) false 1 else Some (w_conns w)) = Some s /\
    ct_wf s /\ orig_dest_port <$> conn_of s (t_sport p, false, false) = Some (orig_dest_port c)) as (s & -> & Hsw & Hk).
  { destruct (t_fin p); [|exists (w_conns w); rewrite Hc; auto with pb].
    destruct (fin_keeps (e_now e) (w_conns w) (t_sport p) false 1) as (s & E & Hsw & Hk); [auto with pb|].
    exists s. by rewrite Hk, Hc. }
  apply fmap_Some in Hk as (c' & Hc' & Hpc). cbn [mbind option_bind]. do 2 eexists. split; [done|].
  split; [auto 6 with pb|]. by split_and!.
Qed.

(** C20: An IPv4 packet of a tracked connection to the port it was opened to - not a
    fresh SYN, not a RST, from a port without a DIRECT decision, not to a proxy
    server - leaves the outbound handler addressed to the relay's port: turned
    around and inbound, or in place when both ends are loopback.  Whatever the
    relay answers to that very packet, with any flags, is then rewritten by the
    same handler into an answer of the destination and port the client addressed,
    to the client's address and port, as long as the number of the relay's port
    has no DIRECT decision either. *)
Theorem tcp_v4_redirect_restore w e p c :
  world_wf w -> tcp_flow w (t_sport p) false = Some c -> orig_dest_port c = t_dport p ->
  t_outbound p = true -> is_port (t_sport p) -> is_port (w_relay_port w) -> t_sport p <> w_relay_port w ->
  is_proxy_server_endpoint (p_proxies (w_policy w)) (t_dst p) (t_dport p) = false ->
  t_syn p && negb (t_ack p) = false -> t_rst p = false ->
  port_is_direct (w_bits w) (t_sport p) = false -> port_is_direct (w_bits w) (w_relay_port w) = false ->
  let lo := (first_octet (t_src p) =? 127) && (first_octet (t_dst p) =? 127) in
  exists w1 q, tcp_packet_v4 w e p = Some (w1, Rewrite q) /\
    q = mkTcp (if lo then t_src p else t_dst p) (if lo then t_dst p else t_src p) (t_sport p) (w_relay_port w)
          (t_syn p) (t_ack p) (t_fin p) (t_rst p) lo /\
    forall e2 syn ack fin rst, exists w2,
      tcp_packet_v4 w1 e2 (relay_reply q syn ack fin rst) =
        Some (w2, Rewrite (mkTcp (t_dst p) (t_src p) (t_dport p) (t_sport p) syn ack fin rst lo)).
Proof.
  intros Hw Hc Hport Ho Hp Hrp Hr Hend Hs Hrst Hd Hdr lo.
  destruct (tracked_redirected w e p c) as (w1 & c' & Hv & Hw1 & Hrel & Hd1 & Hc1 & Hp1); try done.
  exists w1, (turn_tcp_v4 (tcp_to_port p (w_relay_port w))). split; [exact Hv|]. split.
  - unfold turn_tcp_v4, lo, tcp_to_port, swap_tcp. cbn [t_src t_dst]. rewrite Ho.
    by destruct (first_octet (t_src p) =? 127), (first_octet (t_dst p) =? 127).
  - intros e2 syn ack fin rst. rewrite <- Hrel. eapply relay_answer_restored; [done|exact Hc1|congruence|done|].
    by rewrite Hrel, Hd1.
Qed.

(** The reply of the relay to a packet of an IPv6 flow is restored likewise. *)
Theorem tcp_v6_redirect_restore w e p c syn ack fin rst w' v :
  world_wf w -> tcp_flow w (t_sport p) true = Some c -> orig_dest_port c = t_dport p ->
  t_outbound p = true -> t_dport p <> 0 ->
  let r := relay_reply (turn_tcp_v6 (tcp_to_port p (w_relay_port w))) syn ack fin rst in
  tcp_routed_v6 w e r = Some (w', v) ->
  t_sport r = w_relay_port w /\
  exists q, v = Rewrite q /\ t_src q = t_dst p /\ t_sport q = t_dport p /\ t_dst q = t_src p /\
            t_dport q = t_sport p /\
            (t_outbound q = true <-> t_src p = loopback6 /\ t_dst p = loopback6).
Proof.
  intros Hw Hc Hport Ho Hz r.
  assert (t_sport r = w_relay_port w) as Hsr by (unfold r, turn_tcp_v6; by case_match).
  assert (t_dport r = t_sport p) as Hdr by (unfold r, turn_tcp_v6; by case_match).
  unfold tcp_routed_v6. rewrite Hsr, Z.eqb_refl. unfold tcp_from_relay_v6, get_connection_full_v6. rewrite Hdr.
  destruct (get_touch_spec (e_now e) (w_conns w) (t_sport p) false true) as (s' & -> & _ & _); [auto with pb|].
  unfold tcp_flow in Hc. rewrite Hc. cbn [option_map]. rewrite Hport, (proj2 (Z.eqb_neq _ _) Hz).
  intros (c' & _ & Hv)%bind_Some. simplify_eq. split; [done|]. eexists. split; [done|].
  unfold r, turn_tcp_v6, memeq. cbn [tcp_to_port t_src t_dst].
  destruct (decide (t_src p = loopback6)) as [E1|E1], (decide (t_dst p = loopback6)) as [E2|E2];
    rewrite ?(bool_decide_eq_true_2 (t_src p = loopback6)), ?(bool_decide_eq_true_2 (t_dst p = loopback6)),
      ?(bool_decide_eq_false_2 (t_src p = loopback6)), ?(bool_decide_eq_false_2 (t_dst p = loopback6)) by done;
    cbn [andb swap_tcp tcp_to_port relay_reply tcp_from_port t_src t_dst t_sport t_dport t_outbound];
    rewrite ?(bool_decide_eq_true_2 (t_src p = loopback6)), ?(bool_decide_eq_true_2 (t_dst p = loopback6)),
      ?(bool_decide_eq_false_2 (t_src p = loopback6)), ?(bool_decide_eq_false_2 (t_dst p = loopback6)) by done;
    cbn [andb swap_tcp t_src t_dst t_sport t_dport t_outbound];
    split_and!; try done; split; try done; tauto.
Qed.

(** ** UDP decisions and policy changes *)

(** A remembered DIRECT decision of another generation is never a hit. *)
Lemma direct_other_generation now now' gen gen' t v6 s sp d dp :
  gen <> gen' ->
  udp_direct_cached now' gen' (udp_direct_remember now t v6 s sp d dp gen) v6 s sp d dp = false.
Proof.
  intros Hg. unfold udp_direct_cached, udp_direct_remember.
  destruct (t !! udp_direct_slot v6 s sp d dp) as [e|] eqn:He; [|by rewrite He].
  rewrite list_lookup_insert_eq by (by eapply lookup_lt_Some). cbn [ud_generation].
  rewrite (proj2 (Z.eqb_neq gen gen') Hg). by rewrite andb_false_r.
Qed.

(** A flow of another generation is never valid. *)
Lemma validate_other_generation now gen s port v6 ip ip6 dest dest6 dport s' b :
  ct_wf s ->
  (forall c, conn_of s (port, true, v6) = Some c -> policy_generation c <> gen) ->
  udp_flow_validate now gen s port v6 ip ip6 dest dest6 dport = Some (s', b) -> b = false.
Proof.
  intros Hwf Hg. unfold udp_flow_validate.
  destruct (ct_find_spec s port true v6 Hwf) as [(p & c & -> & Hp & Hk)|[-> _]]; cbn [mbind option_bind];
    [|by intros ?; simplify_eq]. rewrite Hp. cbn [mbind option_bind].
  assert (flow_valid now gen v6 ip ip6 dest dest6 dport c = false) as ->.
  { unfold flow_valid. rewrite (proj2 (Z.eqb_neq (policy_generation c) gen)); [by rewrite andb_false_r|].
    apply Hg. apply conn_of_Some; eauto. }
  intros (? & _ & ?)%bind_Some. by simplify_eq.
Qed.

(** A flow stamped with another generation is given up when it is used next. *)
Lemma stale_stamp s port v6 g gen s' now ip ip6 dest dest6 dport :
  ct_wf s -> udp_flow_stamp s port v6 g = Some s' -> g <> gen ->
  exists s2, udp_flow_validate now gen s' port v6 ip ip6 dest dest6 dport = Some (s2, false).
Proof.
  intros Hwf Hst Hg. destruct (stamp_and_fin_spec 0 s port v6 g 0 Hwf) as [(s1 & E & Hwf1 & Hk) _].
  rewrite Hst in E. injection E as <-.
  destruct (validate_total now gen s' port v6 ip ip6 dest dest6 dport Hwf1) as (s2 & b & Hv & _).
  assert (b = false) as ->; [|by exists s2]. eapply validate_other_generation; [exact Hwf1| |exact Hv].
  intros c Hc. specialize (Hk (port, true, v6)). rewrite decide_True, Hc in Hk by done.
  destruct (conn_of s _); simplify_eq/=. congruence.
Qed.

(** Nothing of a decision is in the tables of [w'] that the next datagram of the
    flow could be passed or redirected by; a DIRECT decision without an owner is
    not remembered at all. *)
Definition not_kept (w w' : World) (pid : Z) {P} (v : verdict P) (cached : bool)
    (valid : option (ConnTable * bool)) : Prop :=
  match v with
  | Pass _ => if pid =? 0 then w_direct w' = w_direct w else cached = false
  | Rewrite _ => exists s, valid = Some (s, false)
  | Drop => w_direct w' = w_direct w /\ w_conns w' = w_conns w
  end.

Lemma race_v4 w g now' e p ow d w' v :
  world_wf w -> env_ok w e -> idle w = false ->
  check_process_rule (w_policy w) (e_start e) (e_match e) (u_src p) (u_sport p) (u_dst p) (u_dport p) true
    (e_turns e) (w_owners w) = Some (ow, d) ->
  ow_generation ow <> g -> udp_decide_v4 w g e p = Some (w', v) ->
  not_kept w w' (d_pid d) v
    (udp_direct_cached now' (g_udp_generation w') (w_direct w') false (addr_bytes (u_src p)) (u_sport p)
       (addr_bytes (u_dst p)) (u_dport p))
    (udp_flow_validate now' (g_udp_generation w') (w_conns w') (u_sport p) false (u_src p) [] (u_dst p) []
       (u_dport p)).
Proof.
  intros Hw He Hi Hcheck Hg. unfold udp_decide_v4. rewrite Hi, Hcheck. cbv zeta.
  set (a := override_udp_v4 _ _ _ _). set (w1 := report_connection _ _ _ _ _ _ _).
  assert (w_conns w1 = w_conns w /\ w_direct w1 = w_direct w /\ g_udp_generation w1 = ow_generation ow) as (Hc & Hd & How).
  { destruct (report_fields (with_owners w ow) (e_log_alloc e) (d_pid d) (u_dst p) (u_dport p) a (d_config d))
      as (Hc & _ & Hd & How & _). unfold g_udp_generation, w1. by rewrite Hc, Hd, How. }
  clearbody w1. destruct a.
  - intros (c & Hadd & (c' & Hst & [= <- <-])%bind_Some)%bind_Some. cbn [not_kept].
    destruct (add_total (e_alloc e) (e_after e) (g_udp_generation w1) (w_conns w1) (u_sport p) true
      (u_src p) (u_dst p) (u_dport p) (d_config d)) as (c2 & E & Hc2);
      [rewrite Hc; auto with pb|rewrite Hc; apply (eo_alloc _ _ He)|]. rewrite Hadd in E. injection E as <-.
    eapply stale_stamp; [exact Hc2|exact Hst|]. change (g_udp_generation (with_conns w1 c')) with (g_udp_generation w1).
    congruence.
  - intros [= <- <-]. unfold not_kept. destruct (d_pid d =? 0); [done|]. cbn [w_direct with_direct].
    apply direct_other_generation. change (g_udp_generation (with_direct w1 _)) with (g_udp_generation w1). congruence.
  - by intros [= <- <-].
Qed.

Lemma race_v6 w g now' e p ow d w' v :
  world_wf w -> env_ok w e -> idle w = false -> is_ipv6_multicast_or_linklocal (u_dst p) = false ->
  check_process_rule_v6 (w_policy w) (e_start e) (e_match e) (u_src p) (u_sport p) (u_dst p) (u_dport p) true
    (e_turns e) (w_owners w) = Some (ow, d) ->
  ow_generation ow <> g -> udp_decide_v6 w g e p = Some (w', v) ->
  not_kept w w' (d_pid d) v
    (udp_direct_cached now' (g_udp_generation w') (w_direct w') true (u_src p) (u_sport p) (u_dst p) (u_dport p))
    (udp_flow_validate now' (g_udp_generation w') (w_conns w') (u_sport p) true 0 (u_src p) 0 (u_dst p) (u_dport p)).
Proof.
  intros Hw He Hi Hm Hcheck Hg. unfold udp_decide_v6. rewrite Hm, Hi, Hcheck. cbv zeta.
  set (a := override_udp_v6 _ _ _ _). set (w1 := report_connection _ _ _ _ _ _ _).
  assert (w_conns w1 = w_conns w /\ w_direct w1 = w_direct w /\ g_udp_generation w1 = ow_generation ow) as (Hc & Hd & How).
  { destruct (report_fields (with_owners w ow) (e_log_alloc e) (d_pid d) (v6_log_key (u_dst p)) (u_dport p) a (d_config d))
      as (Hc & _ & Hd & How & _). unfold g_udp_generation, w1. by rewrite Hc, Hd, How. }
  clearbody w1. destruct a.
  - destruct (find_proxy_config _ _) as [pc|]; [destruct (negb _)|]; [by intros [= <- <-]| |by intros [= <- <-]].
    intros (c & Hadd & (c' & Hst & [= <- <-])%bind_Some)%bind_Some. cbn [not_kept].
    destruct (add_v6_total (e_alloc e) (e_after e) (g_udp_generation w1) (w_conns w1) (u_sport p) true
      (u_src p) (u_dst p) (u_dport p) (d_config d)) as (c2 & E & Hc2);
      [rewrite Hc; auto with pb|rewrite Hc; apply (eo_alloc _ _ He)|]. rewrite Hadd in E. injection E as <-.
    eapply stale_stamp; [exact Hc2|exact Hst|]. change (g_udp_generation (with_conns w1 c')) with (g_udp_generation w1).
    congruence.
  - intros [= <- <-]. unfold not_kept. destruct (d_pid d =? 0); [done|]. cbn [w_direct with_direct].
    apply direct_other_generation. change (g_udp_generation (with_direct w1 _)) with (g_udp_generation w1). congruence.
  - by intros [= <- <-].
Qed.

(** C9: A UDP decision, of either family, that was being taken while the policy or
    an owner changed - the generation at its end is not the one read when the
    datagram was looked at - is not kept.  After a PROXY decision the tracked flow
    is given up at its next datagram, after a DIRECT one of a known process the
    cache of direct decisions does not know the flow, and a DIRECT decision
    without an owner and a BLOCK leave nothing behind. *)
Theorem udp_decision_race w g now' :
  world_wf w -> idle w = false ->
  (forall e p ow d w' v, env_ok w e ->
     check_process_rule (w_policy w) (e_start e) (e_match e) (u_src p) (u_sport p) (u_dst p) (u_dport p) true
       (e_turns e) (w_owners w) = Some (ow, d) ->
     ow_generation ow <> g -> udp_decide_v4 w g e p = Some (w', v) ->
     not_kept w w' (d_pid d) v
       (udp_direct_cached now' (g_udp_generation w') (w_direct w') false (addr_bytes (u_src p)) (u_sport p)
          (addr_bytes (u_dst p)) (u_dport p))
       (udp_flow_validate now' (g_udp_generation w') (w_conns w') (u_sport p) false (u_src p) [] (u_dst p) []
          (u_dport p))) /\
  (forall e p ow d w' v, env_ok w e -> is_ipv6_multicast_or_linklocal (u_dst p) = false ->
     check_process_rule_v6 (w_policy w) (e_start e) (e_match e) (u_src p) (u_sport p) (u_dst p) (u_dport p) true
       (e_turns e) (w_owners w) = Some (ow, d) ->
     ow_generation ow <> g -> udp_decide_v6 w g e p = Some (w', v) ->
     not_kept w w' (d_pid d) v
       (udp_direct_cached now' (g_udp_generation w') (w_direct w') true (u_src p) (u_sport p) (u_dst p) (u_dport p))
       (udp_flow_validate now' (g_udp_generation w') (w_conns w') (u_sport p) true 0 (u_src p) 0 (u_dst p)
          (u_dport p))).
Proof. intros Hw Hi. split; intros; [by eapply race_v4|by eapply race_v6]. Qed.
End Enforcement.

(** ** The batch *)

Lemma queue_bounded b p :
  b_length b <= b_capacity b -> b_count b <= PACKET_BATCH_SIZE ->
  b_length (fst (queue_packet_for_send b p)) <= b_capacity (fst (queue_packet_for_send b p)) /\
  b_count (fst (queue_packet_for_send b p)) <= PACKET_BATCH_SIZE.
Proof.
  intros Hl Hc. unfold queue_packet_for_send.
  destruct (Z.leb_spec PACKET_BATCH_SIZE (b_count b)); [done|].
  destruct (Z.ltb_spec (b_capacity b - b_length b) (Z.of_nat (length p))); [done|]. simpl.
  unfold b_length, b_count, PACKET_BATCH_SIZE in *. cbn [b_packets b_capacity].
  rewrite concat_app, !length_app. simpl. rewrite app_nil_r. lia.
Qed.

(** Queueing never writes behind the buffer, and the packets of one received
    batch, rewritten in place, all fit: none is lost and their order stays. *)
Theorem batch_keeps_all b packets :
  b_packets b = [] -> b_capacity b = PACKET_BATCH_BUFFER_SIZE ->
  b_length (queue_all b packets) <= b_capacity (queue_all b packets) /\
  (Z.of_nat (length packets) <= PACKET_BATCH_SIZE ->
   Z.of_nat (length (concat packets)) <= PACKET_BATCH_BUFFER_SIZE ->
   b_packets (queue_all b packets) = packets).
Proof.
  intros Hb Hcap.
  assert (forall ps b, b_length b <= b_capacity b -> b_count b <= PACKET_BATCH_SIZE ->
            b_length (queue_all b ps) <= b_capacity (queue_all b ps)) as Hbound.
  { induction ps as [|p ps IH]; intros b0 Hl Hc; simpl; [done|].
    destruct (queue_bounded b0 p Hl Hc). by apply IH. }
  split.
  { apply Hbound; unfold b_length, b_count; rewrite Hb; [rewrite Hcap|]; by vm_compute. }
  assert (forall ps b, b_capacity b = PACKET_BATCH_BUFFER_SIZE ->
    b_count b + Z.of_nat (length ps) <= PACKET_BATCH_SIZE ->
    b_length b + Z.of_nat (length (concat ps)) <= PACKET_BATCH_BUFFER_SIZE ->
    b_packets (queue_all b ps) = b_packets b ++ ps) as Hall.
  { induction ps as [|p ps IH]; intros b0 Hc Hn Hl; simpl; [by rewrite app_nil_r|].
    simpl in Hn, Hl. rewrite length_app in Hl. unfold queue_packet_for_send.
    rewrite (proj2 (Z.leb_gt _ _)) by lia. rewrite Hc, (proj2 (Z.ltb_ge _ _)) by lia. cbn [orb]. cbn iota.
    cbn [fst]. rewrite IH.
    - cbn [b_packets]. by rewrite <- app_assoc.
    - done.
    - unfold b_count in *. cbn [b_packets]. rewrite length_app. simpl. lia.
    - unfold b_length in *. cbn [b_packets]. rewrite concat_app, length_app. simpl. rewrite app_nil_r. lia. }
  intros Hn Hl. rewrite Hall; [by rewrite Hb|done| |].
  - unfold b_count. rewrite Hb. simpl. lia.
  - unfold b_length. rewrite Hb. simpl. lia.
Qed.

(** ** The policy switches *)

(** Turning the loopback bypass or the DNS switch over forgets every cached TCP
    decision; every switch makes all UDP decisions stale. *)
Theorem switches_invalidate w enable q :
  world_wf w -> - 2 ^ 31 <= g_udp_generation w < 2 ^ 31 ->
  (g_loopback_bypass_enabled (p_switches (w_policy w)) <> enable ->
   port_is_decided (w_bits (ProxyBridge_SetLoopbackBypassEnabled w enable)) q = false) /\
  (g_proxy_udp_dns_enabled (p_switches (w_policy w)) <> enable ->
   port_is_decided (w_bits (ProxyBridge_SetProxyUdpDnsEnabled w enable)) q = false) /\
  Forall (fun w' => g_udp_generation w' <> g_udp_generation w /\ world_wf w')
    [ProxyBridge_SetLocalhostViaProxy w enable; ProxyBridge_SetLoopbackBypassEnabled w enable;
     ProxyBridge_SetProxyUdpDnsEnabled w enable; ProxyBridge_SetFailClosedOnUnknownOwner w enable].
Proof.
  intros Hw Hg. pose proof (invalidate_changes _ Hg) as Hch. split_and!.
  - intros Hne. unfold ProxyBridge_SetLoopbackBypassEnabled.
    rewrite (proj2 (eqb_false_iff _ _) Hne). unfold port_is_decided. apply clear_all_bit.
  - intros Hne. unfold ProxyBridge_SetProxyUdpDnsEnabled.
    rewrite (proj2 (eqb_false_iff _ _) Hne). unfold port_is_decided. apply clear_all_bit.
  - assert (forall w', world_wf w' -> g_udp_generation w' = g_udp_generation w ->
              g_udp_generation (bump w') <> g_udp_generation w /\ world_wf (bump w')) as Hbump.
    { intros w' [[? ? ?] ? ? ? ? ? ?] E. rewrite <- E in Hch |- *. split; [done|by split]. }
    assert (forall sw, world_wf (with_switches w sw) /\
              world_wf (with_bits (with_switches w sw) (port_clear_all (w_bits (with_switches w sw))))) as Hsw.
    { intros sw. assert (world_wf (with_switches w sw)) as Hs by (destruct Hw; by split). auto with pb. }
    assert (world_wf (mkWorld (w_policy w) (w_owners w) (w_conns w) (w_direct w) (w_bits w) (w_log w)
      (w_reports w) (w_relay_port w) enable (w_callback w) (w_traffic_logging w))) as Hl
      by (destruct Hw; by split).
    unfold ProxyBridge_SetLocalhostViaProxy, ProxyBridge_SetLoopbackBypassEnabled,
      ProxyBridge_SetProxyUdpDnsEnabled, ProxyBridge_SetFailClosedOnUnknownOwner.
    repeat first [apply Forall_nil_2 | apply Forall_cons_2];
      repeat case_match; apply Hbump; try done; apply Hsw.
Qed.
