(* ===== verification/PacketFamilies.v ===== *)
(** * IPv6 connections, and the two families beside each other

    What happens to a new IPv6 connection, as [PacketPolicy] has it for IPv4; and
    the port bitmaps, which both families share although a port number belongs
    to each of them separately. *)
From S2P Require Import Prelude CLib HashTable Util Types Matching ProxyConfig Dns Process Rules.
From S2P Require Import Policy ConnTrack DirectCache ConnLog PortBitmap Packet PacketSafety PacketPolicy.

Section Families.
Context `{Platform} `{ProcessImages}.

(** ** A new IPv6 connection *)

(** With a clean slate, a SYN goes where no flow and no cached decision can take
    it: to the decision, unless it ends a flow at once, is multicast or
    link-local, or no rule is active. *)
Lemma syn_routed_v6 w w1 e p :
  world_wf w1 -> t_outbound p = true -> t_syn p = true -> t_ack p = false -> t_sport p <> w_relay_port w ->
  reset_stale_tcp_state w (t_sport p) true = Some w1 -> port_is_decided (w_bits w1) (t_sport p) = false ->
  tcp_flow w1 (t_sport p) true = None ->
  w_policy w1 = w_policy w -> w_relay_port w1 = w_relay_port w -> w_callback w1 = w_callback w ->
  tcp_packet_v6 w e p =
    if (t_fin p || t_rst p || is_ipv6_multicast_or_linklocal (t_dst p) || idle w)%bool then Some (w1, Pass p)
    else tcp_decide_v6 w1 e p.
Proof.
  intros Hw1 Ho Hs Ha Hr Hreset Hdec Hflow Hpol Hrel Hcb.
  unfold tcp_packet_v6. rewrite Ho, Hs, Ha. cbn [negb andb]. cbn iota. rewrite Hreset.
  cbn [mbind option_bind]. rewrite Hdec.
  assert (with_bits w1 (w_bits w1) = w1) as -> by by destruct w1. cbn iota.
  unfold tcp_routed_v6. rewrite Hrel, (proj2 (Z.eqb_neq _ _) Hr), tracked_ok by auto with pb.
  unfold tcp_flow in Hflow. rewrite Hflow. cbn [mbind option_bind].
  rewrite bool_decide_eq_false_2 by (by intros [? ?]). cbn iota.
  assert (idle w1 = idle w) as -> by (unfold idle; by rewrite Hpol, Hcb).
  by destruct (t_fin p || t_rst p)%bool, (is_ipv6_multicast_or_linklocal (t_dst p)).
Qed.

(** What tracking a redirected connection leaves for its port. *)
Lemma tracked_as_v6 w alloc now g port ip6 dest6 dport cfg c :
  world_wf w -> alloc_ok (w_conns w) alloc ->
  add_connection_v6 alloc now g (w_conns w) port false ip6 dest6 dport cfg = Some c ->
  match conn_of c (port, false, true) with
  | Some c => orig_dest_ip6 c = dest6 /\ orig_dest_port c = dport /\ c_proxy_config_id c = cfg
  | None => alloc = None
  end.
Proof.
  intros Hw Ha Hadd.
  destruct (add_connection_v6_spec alloc now g (w_conns w) port false ip6 dest6 dport cfg) as (c' & Hc & _ & Hk);
    [auto with pb|done|]. rewrite Hadd in Hc. injection Hc as <-. destruct Hk as [_ Hk].
  destruct (conn_of (w_conns w) _), alloc;
    first [by rewrite Hk|destruct Hk as (x & -> & [] & _ & ?); by split_and!].
Qed.

(** Where a PROXY decision is not carried out: loopback, unless that is asked for. *)
Definition kept_local_v6 (w : World) (dst : bytes) : Prop :=
  w_localhost_via_proxy w = false /\ is_loopback_v6 dst = true.

Lemma override_v6_spec w dst :
  (kept_local_v6 w dst /\ override_tcp_v6 (w_localhost_via_proxy w) dst RULE_ACTION_PROXY = RULE_ACTION_DIRECT) \/
  (~ kept_local_v6 w dst /\ override_tcp_v6 (w_localhost_via_proxy w) dst RULE_ACTION_PROXY = RULE_ACTION_PROXY).
Proof.
  unfold kept_local_v6, override_tcp_v6. destruct (w_localhost_via_proxy w), (is_loopback_v6 dst);
    cbn [negb andb]; intuition congruence.
Qed.

(** The decision of a SYN whose port has no flow. *)
Lemma syn_decided_v6 w e p :
  world_wf w -> env_ok w e -> t_syn p = true -> t_ack p = false -> tcp_flow w (t_sport p) true = None ->
  exists ow d w' v,
    check_process_rule_v6 (w_policy w) (e_start e) (e_match e) (t_src p) (t_sport p) (t_dst p) (t_dport p)
      false (e_turns e) (w_owners w) = Some (ow, d) /\
    tcp_decide_v6 w e p = Some (w', v) /\
    match override_tcp_v6 (w_localhost_via_proxy w) (t_dst p) (d_action d) with
    | RULE_ACTION_DIRECT => v = Pass p /\ tcp_flow w' (t_sport p) true = None
    | RULE_ACTION_BLOCK => v = Drop /\ tcp_flow w' (t_sport p) true = None
    | RULE_ACTION_PROXY =>
        v = Rewrite (turn_tcp_v6 (tcp_to_port p (w_relay_port w))) /\
        match tcp_flow w' (t_sport p) true with
        | Some c => orig_dest_ip6 c = t_dst p /\ orig_dest_port c = t_dport p /\
                    c_proxy_config_id c = d_config d
        | None => e_alloc e = None
        end
    end.
Proof.
  intros Hw He Hs Ha Hflow.
  destruct (check_v6_total w e (t_src p) (t_sport p) (t_dst p) (t_dport p) false Hw He)
    as (ow & d & Hcheck & Howw).
  exists ow, d. unfold tcp_decide_v6. rewrite Hcheck. cbv zeta.
  change (w_localhost_via_proxy (with_owners _ _)) with (w_localhost_via_proxy w).
  rewrite Hs, Ha. cbn [andb negb]. cbn iota.
  set (a := override_tcp_v6 _ _ _). set (w2 := report_connection _ _ _ _ _ _ _).
  assert (world_wf w2 /\ w_conns w2 = w_conns w /\ w_relay_port w2 = w_relay_port w) as (Hw2 & Hc2 & Hr2).
  { split; [apply report_wf; auto with pb|].
    match goal with w2 := report_connection ?x ?al ?pi ?k ?po ?ac ?cf |- _ =>
      destruct (report_fields x al pi k po ac cf) as (E1 & _ & _ & _ & _ & E6) end.
    split; [exact E1|exact E6]. }
  clearbody w2. destruct a.
  - assert (alloc_ok (w_conns w2) (e_alloc e)) as Hal by (rewrite Hc2; apply (eo_alloc _ _ He)).
    destruct (add_v6_total (e_alloc e) (e_after e) (g_udp_generation w2) (w_conns w2) (t_sport p) false
      (t_src p) (t_dst p) (t_dport p) (d_config d)) as (c & Hadd & _); [auto with pb|done|].
    rewrite Hadd. cbn [mbind option_bind]. do 2 eexists. split; [done|]. split; [done|]. split; [by rewrite Hr2|].
    exact (tracked_as_v6 w2 _ _ _ _ _ _ _ _ _ Hw2 Hal Hadd).
  - do 2 eexists. split; [done|]. split; [done|]. split; [done|].
    case_match; unfold tcp_flow in *; cbn [w_conns with_bits]; by rewrite Hc2.
  - do 2 eexists. split; [done|]. split; [done|]. split; [done|].
    unfold tcp_flow in *. cbn [w_conns with_bits]. by rewrite Hc2.
Qed.

(** C3: An IPv6 SYN (without ACK) that leaves the host from any port but the relay's
    is treated as a new connection whatever its port number was used for before.
    A SYN with FIN or RST passes, one to a multicast or link-local address
    passes, and so does every one while no rule is active and nobody is told of
    connections.  Otherwise [check_process_rule_v6] decides: DIRECT passes it and
    BLOCK drops it, and neither leaves a tracked flow; PROXY passes it when the
    destination is loopback and localhost does not go through the proxy, and
    otherwise turns it to the relay and tracks its destination with the
    configuration of the rule.  Only when the flow cannot be allocated is it
    turned to the relay without being tracked. *)
Theorem new_tcp_v6_enforced w e p :
  world_wf w -> env_ok w e -> t_outbound p = true -> is_port (t_sport p) ->
  t_syn p = true -> t_ack p = false -> t_sport p <> w_relay_port w ->
  exists w' v, tcp_packet_v6 w e p = Some (w', v) /\
    let untracked := tcp_flow w' (t_sport p) true = None in
    if (t_fin p || t_rst p || is_ipv6_multicast_or_linklocal (t_dst p) || idle w)%bool then v = Pass p /\ untracked
    else exists ow d,
      check_process_rule_v6 (w_policy w) (e_start e) (e_match e) (t_src p) (t_sport p) (t_dst p) (t_dport p)
        false (e_turns e) (w_owners w) = Some (ow, d) /\
      match d_action d with
      | RULE_ACTION_DIRECT => v = Pass p /\ untracked
      | RULE_ACTION_BLOCK => v = Drop /\ untracked
      | RULE_ACTION_PROXY =>
          (kept_local_v6 w (t_dst p) -> v = Pass p /\ untracked) /\
          (~ kept_local_v6 w (t_dst p) ->
           v = Rewrite (turn_tcp_v6 (tcp_to_port p (w_relay_port w))) /\
           match tcp_flow w' (t_sport p) true with
           | Some c => orig_dest_ip6 c = t_dst p /\ orig_dest_port c = t_dport p /\
                       c_proxy_config_id c = d_config d
           | None => e_alloc e = None
           end)
      end.
Proof.
  intros Hw He Ho Hp Hs Ha Hr.
  destruct (reset_clean w (t_sport p) true Hw Hp Hr)
    as (w1 & Hreset & Hw1 & Hdec & Hflow & _ & How & Hpol & Hrel & Hcb & Hloc & Hfresh).
  rewrite (syn_routed_v6 w w1 e p) by done. cbv zeta.
  destruct (_ || idle w)%bool; [by exists w1, (Pass p)|].
  assert (env_ok w1 e) as He1 by (by eapply env_ok_fresh).
  destruct (syn_decided_v6 w1 e p Hw1 He1 Hs Ha Hflow) as (ow & d & w' & v & Hcheck & Hv & Hm).
  rewrite Hpol, How in Hcheck. exists w', v. split; [done|]. exists ow, d. split; [done|].
  rewrite Hloc, Hrel in Hm. destruct (d_action d); [|exact Hm..].
  destruct (override_v6_spec w (t_dst p)) as [[Hk Eo]|[Hk Eo]]; rewrite Eo in Hm; by split.
Qed.

(** ** Both families on one port number *)

(** C35: An IPv6 connection is being relayed.  An IPv4 connection of the same port
    number starts and is decided DIRECT.  From then on the packets of the IPv6
    connection leave the host unmodified: its flow is still tracked, but the
    cached decision, which does not say whose it is, is looked at first. *)
Theorem shared_port_bypass w e4 e6 p4 p6 c ow d :
  world_wf w -> is_port (t_sport p4) -> t_outbound p4 = true ->
  t_syn p4 = true -> t_ack p4 = false -> t_fin p4 = false -> t_rst p4 = false ->
  t_sport p4 <> w_relay_port w -> idle w = false ->
  is_proxy_server_endpoint (p_proxies (w_policy w)) (t_dst p4) (t_dport p4) = false ->
  check_process_rule (w_policy w) (e_start e4) (e_match e4) (t_src p4) (t_sport p4) (t_dst p4) (t_dport p4)
    false (e_turns e4) (remove_cached_pid (w_owners w) (t_src p4) (t_sport p4) false) = Some (ow, d) ->
  override_tcp_v4 (w_localhost_via_proxy w) (t_dst p4) (d_action d) = RULE_ACTION_DIRECT -> d_pid d <> 0 ->
  tcp_flow w (t_sport p4) true = Some c ->
  t_outbound p6 = true -> t_sport p6 = t_sport p4 -> t_syn p6 = false ->
  exists w' w'',
    tcp_packet_v4 w e4 p4 = Some (w', Pass p4) /\ tcp_flow w' (t_sport p4) true = Some c /\
    tcp_packet_v6 w' e6 p6 = Some (w'', Pass p6).
Proof.
  intros Hw Hp Ho Hs Ha Hf Hrst Hr Hi Hend Hcheck Hdir Hpid Hc Ho6 Hsp Hs6.
  destruct (syn_reset_clean w p4 Hw Hp Hs Ha Hr)
    as (w1 & Hreset & Hw1 & Hdec & Hflow & H6 & How & Hpol & Hrel & Hcb & Hloc & Hfresh).
  rewrite (syn_routed w w1 e4 p4), Hf, Hrst, Hi by done. cbn [orb]. cbn iota.
  unfold tcp_decide_v4. cbn [w_policy w_owners with_bits]. rewrite Hpol, How, Hcheck. cbv zeta.
  change (w_localhost_via_proxy (with_owners _ _)) with (w_localhost_via_proxy w1). rewrite Hloc.
  rewrite Hs, Ha, Hdir. cbn [andb negb]. cbn iota. rewrite (proj2 (Z.eqb_neq _ _) Hpid).
  set (w2 := report_connection _ _ _ _ _ _ _).
  assert (w_conns w2 = w_conns w1 /\ w_bits w2 = w_bits w1) as [Hc2 Hb2].
  { match goal with w2 := report_connection ?x ?al ?pi ?k ?po ?ac ?cf |- _ =>
      destruct (report_fields x al pi k po ac cf) as (E1 & E2 & _) end. by split. }
  clearbody w2. do 2 eexists. split; [done|]. split.
  { unfold tcp_flow in *. cbn [w_conns with_bits]. by rewrite Hc2, H6. }
  assert (bits_wf (w_bits w2)) as Hbw by (rewrite Hb2; apply Hw1).
  unfold tcp_packet_v6. rewrite Ho6, Hs6. cbn [negb andb]. cbn iota. cbn [mbind option_bind w_bits with_bits].
  rewrite Hsp. destruct (port_bits_spec (w_bits w2) (t_sport p4) (t_sport p4) Hbw Hp Hp) as [[H1 H2] _].
  rewrite bool_decide_eq_true_2 in H1, H2 by done. cbn [orb] in H1, H2.
  unfold consume_direct_decision. by rewrite H1, H2.
Qed.
End Families.
