(* ===== verification/PacketVerdicts.v ===== *)
(** * Why a packet leaves as it does

    The reasons for the verdict on a datagram of either family and on an IPv6
    TCP packet: what may leave unmodified, what is dropped, what is redirected. *)
From S2P Require Import Prelude CLib HashTable Util Types Matching ProxyConfig Dns Process Rules.
From S2P Require Import Policy ConnTrack DirectCache ConnLog PortBitmap Packet PacketSafety.

Section Verdicts.
Context `{Platform} `{ProcessImages}.

(** ** Datagrams over IPv4 *)

(** The decision of a datagram in a state. *)
Definition udp_decided_v4 (w : World) (e : Env Z) (p : udp_packet Z) (a : RuleAction) : Prop :=
  exists ow d, check_process_rule (w_policy w) (e_start e) (e_match e) (u_src p) (u_sport p) (u_dst p)
                 (u_dport p) true (e_turns e) (w_owners w) = Some (ow, d) /\
               override_udp_v4 (w_localhost_via_proxy w) (u_dst p) (u_dport p) (d_action d) = a.

Lemma udp_decide_v4_verdict w g e p w' v :
  udp_decide_v4 w g e p = Some (w', v) ->
  match v with
  | Pass q => q = p /\ (idle w = true \/ udp_decided_v4 w e p RULE_ACTION_DIRECT)
  | Drop => udp_decided_v4 w e p RULE_ACTION_BLOCK
  | Rewrite q => q = redirect_udp_v4 p /\ udp_decided_v4 w e p RULE_ACTION_PROXY
  end.
Proof.
  unfold udp_decide_v4, udp_decided_v4. destruct (idle w); [intros ?; simplify_eq; auto|].
  destruct (check_process_rule _ _ _ _ _ _ _ _ _ _) as [[ow d]|]; [|done].
  cbv zeta. change (w_localhost_via_proxy (with_owners w ow)) with (w_localhost_via_proxy w).
  destruct (override_udp_v4 _ _ _ _) eqn:Ea.
  - intros (c & _ & Hv)%bind_Some. apply bind_Some in Hv as (c' & _ & Hv). simplify_eq. eauto.
  - intros ?. simplify_eq. eauto 6.
  - intros ?. simplify_eq. eauto.
Qed.

(** What the relay sends back gets the address of the origin its client talks to. *)
Definition answer_of (f : CONNECTION_INFO) (p q : udp_packet Z) : Prop :=
  u_src q = orig_dest_ip f /\ u_sport q = orig_dest_port f /\ u_dst q = u_dst p /\ u_dport q = u_dport p /\
  u_payload q = u_payload p.

(** The validation of the flow of a datagram before it is decided. *)
Definition flow_checked (w : World) (e : Env Z) (p : udp_packet Z) (c : ConnTable) (valid : bool) : Prop :=
  udp_flow_validate (e_now e) (g_udp_generation w) (w_conns w) (u_sport p) false (u_src p) [] (u_dst p) []
    (u_dport p) = Some (c, valid).

(** C5: An outbound IPv4 datagram leaves unmodified only if it goes to the relay
    address of a proxy, this very flow is remembered as DIRECT, no rule is
    active, or it was decided DIRECT now.  It is dropped only when it was decided
    BLOCK, or it is an answer for a client that is not tracked any more.  It goes
    to the relay only when its flow still holds a PROXY decision or it was
    decided so now, and an answer of the relay reaches the client as one of the
    origin the client talked to. *)
Theorem udp_v4_verdict_justified w e p w' v :
  world_wf w -> u_outbound p = true -> udp_packet_v4 w e p = Some (w', v) ->
  match v with
  | Pass q => q = p /\ u_sport p <> LOCAL_UDP_RELAY_PORT /\
      (is_proxy_udp_endpoint (p_proxies (w_policy w)) (u_dst p) (u_dport p) = true \/
       udp_direct_cached (e_now e) (g_udp_generation w) (w_direct w) false (addr_bytes (u_src p)) (u_sport p)
         (addr_bytes (u_dst p)) (u_dport p) = true \/
       exists c, flow_checked w e p c false /\
         (idle w = true \/ udp_decided_v4 (with_conns w c) e p RULE_ACTION_DIRECT))
  | Drop =>
      (u_sport p = LOCAL_UDP_RELAY_PORT /\ conn_of (w_conns w) (u_dport p, true, false) = None) \/
      exists c, flow_checked w e p c false /\ udp_decided_v4 (with_conns w c) e p RULE_ACTION_BLOCK
  | Rewrite q =>
      (u_sport p = LOCAL_UDP_RELAY_PORT /\
       exists f, conn_of (w_conns w) (u_dport p, true, false) = Some f /\ answer_of f p q) \/
      (q = redirect_udp_v4 p /\ exists c valid, flow_checked w e p c valid /\
         (valid = true \/ udp_decided_v4 (with_conns w c) e p RULE_ACTION_PROXY))
  end.
Proof.
  intros Hw Ho. unfold udp_packet_v4. rewrite Ho. cbn [negb]. cbv zeta.
  destruct (Z.eqb_spec (u_sport p) LOCAL_UDP_RELAY_PORT) as [Hs|Hs]; cbn [negb andb].
  - unfold udp_from_relay_v4, get_connection.
    destruct (get_touch_spec (e_now e) (w_conns w) (u_dport p) true false (ww_conns _ Hw)) as (c & -> & _).
    destruct (conn_of (w_conns w) (u_dport p, true, false)) as [f|]; cbn [option_map]; intros ?; simplify_eq.
    + left. split; [done|]. exists f. by repeat split.
    + left. done.
  - destruct (is_proxy_udp_endpoint _ _ _ || _) eqn:Eb.
    { intros ?; simplify_eq. split; [done|]. split; [done|]. apply orb_true_iff in Eb. tauto. }
    unfold flow_checked. destruct (udp_flow_validate _ _ _ _ _ _ _ _ _ _) as [[c [|]]|]; [|..|done].
    { intros ?; simplify_eq. right. split; [done|]. exists c, true. auto. }
    intros Hv. apply udp_decide_v4_verdict in Hv. change (idle (with_conns w c)) with (idle w) in Hv. destruct v.
    + destruct Hv as [-> Hv]. split; [done|]. split; [done|]. right; right. by exists c.
    + right. destruct Hv as [-> Hv]. split; [done|]. exists c, false. auto.
    + right. by exists c.
Qed.

(** ** Datagrams over IPv6 *)

Definition udp_decided_v6 (w : World) (e : Env bytes) (p : udp_packet bytes) (a : RuleAction) (cfg : Z) : Prop :=
  exists ow d, check_process_rule_v6 (w_policy w) (e_start e) (e_match e) (u_src p) (u_sport p) (u_dst p)
                 (u_dport p) true (e_turns e) (w_owners w) = Some (ow, d) /\
               override_udp_v6 (w_localhost_via_proxy w) (u_dst p) (u_dport p) (d_action d) = a /\ d_config d = cfg.

(** The configuration that can carry datagrams. *)
Definition carries_udp (w : World) (cfg : Z) : Prop :=
  exists c, find_proxy_config (p_proxies (w_policy w)) cfg = Some c /\ pc_type c = PROXY_TYPE_SOCKS5.

Lemma udp_decide_v6_verdict w g e p w' v :
  udp_decide_v6 w g e p = Some (w', v) ->
  match v with
  | Pass q => q = p /\ (is_ipv6_multicast_or_linklocal (u_dst p) = true \/ idle w = true \/
                        exists cfg, udp_decided_v6 w e p RULE_ACTION_DIRECT cfg)
  | Drop => exists cfg, udp_decided_v6 w e p RULE_ACTION_BLOCK cfg \/
                        (udp_decided_v6 w e p RULE_ACTION_PROXY cfg /\ ~ carries_udp w cfg)
  | Rewrite q => q = redirect_udp_v6 p /\ exists cfg, udp_decided_v6 w e p RULE_ACTION_PROXY cfg /\ carries_udp w cfg
  end.
Proof.
  unfold udp_decide_v6, udp_decided_v6, carries_udp.
  destruct (is_ipv6_multicast_or_linklocal _); [intros ?; simplify_eq; auto|].
  destruct (idle w); [intros ?; simplify_eq; auto|].
  destruct (check_process_rule_v6 _ _ _ _ _ _ _ _ _ _) as [[ow d]|]; [|done].
  cbv zeta. change (w_localhost_via_proxy (with_owners w ow)) with (w_localhost_via_proxy w).
  destruct (override_udp_v6 _ _ _ _) eqn:Ea.
  - destruct (report_fields (with_owners w ow) (e_log_alloc e) (d_pid d) (v6_log_key (u_dst p)) (u_dport p)
      RULE_ACTION_PROXY (d_config d)) as (_ & _ & _ & _ & -> & _).
    change (w_policy (with_owners w ow)) with (w_policy w).
    destruct (find_proxy_config _ _) as [c|] eqn:Ec.
    + destruct (bool_decide_reflect (pc_type c = PROXY_TYPE_SOCKS5)) as [Ht|Ht]; cbn [negb].
      * intros (t & _ & Hv)%bind_Some. apply bind_Some in Hv as (t' & _ & Hv). simplify_eq. split; [done|].
        exists (d_config d). split; [by exists ow, d|by exists c].
      * intros ?. simplify_eq. exists (d_config d). right. split; [by exists ow, d|]. intros (c' & Hc' & ?). congruence.
    + intros ?. simplify_eq. exists (d_config d). right. split; [by exists ow, d|]. intros (c' & Hc' & _). congruence.
  - intros ?. simplify_eq. split; [done|]. right; right. by exists (d_config d), ow, d.
  - intros ?. simplify_eq. exists (d_config d). left. by exists ow, d.
Qed.

Definition flow_checked_v6 (w : World) (e : Env bytes) (p : udp_packet bytes) (c : ConnTable) (valid : bool) : Prop :=
  udp_flow_validate (e_now e) (g_udp_generation w) (w_conns w) (u_sport p) true 0 (u_src p) 0 (u_dst p)
    (u_dport p) = Some (c, valid).

(** The same over IPv6: multicast and link-local destinations also pass, and a
    PROXY decision whose configuration cannot carry datagrams drops them. *)
Theorem udp_v6_verdict_justified w e p w' v :
  u_outbound p = true -> u_sport p <> LOCAL_UDP_RELAY_PORT -> udp_packet_v6 w e p = Some (w', v) ->
  match v with
  | Pass q => q = p /\
      (udp_direct_cached (e_now e) (g_udp_generation w) (w_direct w) true (u_src p) (u_sport p) (u_dst p) (u_dport p) = true \/
       exists c, flow_checked_v6 w e p c false /\
         (is_ipv6_multicast_or_linklocal (u_dst p) = true \/ idle w = true \/
          exists cfg, udp_decided_v6 (with_conns w c) e p RULE_ACTION_DIRECT cfg))
  | Drop => exists c cfg, flow_checked_v6 w e p c false /\
      (udp_decided_v6 (with_conns w c) e p RULE_ACTION_BLOCK cfg \/
       (udp_decided_v6 (with_conns w c) e p RULE_ACTION_PROXY cfg /\ ~ carries_udp w cfg))
  | Rewrite q => q = redirect_udp_v6 p /\ exists c valid, flow_checked_v6 w e p c valid /\
      (valid = true \/ exists cfg, udp_decided_v6 (with_conns w c) e p RULE_ACTION_PROXY cfg /\ carries_udp w cfg)
  end.
Proof.
  intros Ho Hs. unfold udp_packet_v6. rewrite Ho. cbn [negb]. cbv zeta. rewrite (proj2 (Z.eqb_neq _ _) Hs).
  destruct (udp_direct_cached _ _ _ _ _ _ _ _); [intros ?; simplify_eq; auto|].
  unfold flow_checked_v6. destruct (udp_flow_validate _ _ _ _ _ _ _ _ _ _) as [[c [|]]|]; [|..|done].
  { intros ?; simplify_eq. split; [done|]. exists c, true. auto. }
  intros Hv. apply udp_decide_v6_verdict in Hv. change (idle (with_conns w c)) with (idle w) in Hv.
  change (carries_udp (with_conns w c)) with (carries_udp w) in Hv. destruct v.
  - destruct Hv as [-> Hv]. split; [done|]. right. by exists c.
  - destruct Hv as [-> Hv]. split; [done|]. exists c, false. auto.
  - destruct Hv as [cfg Hv]. by exists c, cfg.
Qed.

(** ** TCP over IPv6 *)

Definition decided_v6 (w : World) (e : Env bytes) (p : tcp_packet bytes) (a : RuleAction) : Prop :=
  exists ow d, check_process_rule_v6 (w_policy w) (e_start e) (e_match e) (t_src p) (t_sport p) (t_dst p)
                 (t_dport p) false (e_turns e) (w_owners w) = Some (ow, d) /\
               override_tcp_v6 (w_localhost_via_proxy w) (t_dst p) (d_action d) = a.

Lemma tcp_decide_v6_verdict w e p w' v :
  tcp_decide_v6 w e p = Some (w', v) ->
  match v with
  | Pass q => q = p /\ decided_v6 w e p RULE_ACTION_DIRECT
  | Drop => decided_v6 w e p RULE_ACTION_BLOCK
  | Rewrite q => decided_v6 w e p RULE_ACTION_PROXY
  end.
Proof.
  unfold tcp_decide_v6, decided_v6. destruct (check_process_rule_v6 _ _ _ _ _ _ _ _ _ _) as [[ow d]|]; [|done].
  cbv zeta. change (w_localhost_via_proxy (with_owners w ow)) with (w_localhost_via_proxy w).
  destruct (override_tcp_v6 _ _ _) eqn:Ea.
  - intros (c & _ & Hv)%bind_Some. simplify_eq. eauto.
  - intros ?. simplify_eq. split; [done|eauto].
  - intros ?. simplify_eq. eauto.
Qed.

(** The state an outbound packet is judged in: a SYN first forgets what the port
    stood for. *)
Definition syn_reset_v6 (w : World) (p : tcp_packet bytes) : option World :=
  if t_syn p && negb (t_ack p) then reset_stale_tcp_state w (t_sport p) true else Some w.

(** An outbound IPv6 TCP packet leaves unmodified only for one of these reasons
    and is dropped only when it was decided BLOCK. *)
Theorem tcp_v6_verdict_justified w e p w1 w' v :
  t_outbound p = true -> syn_reset_v6 w p = Some w1 -> tcp_packet_v6 w e p = Some (w', v) ->
  match v with
  | Pass q => q = p /\
      ((port_is_decided (w_bits w1) (t_sport p) = true /\ port_is_direct (w_bits w1) (t_sport p) = true) \/
       (t_sport p <> w_relay_port w1 /\ is_connection_tracked (w_conns w1) (t_sport p) false true = Some false /\
        (t_fin p || t_rst p = true \/ is_ipv6_multicast_or_linklocal (t_dst p) = true \/ idle w1 = true \/
         exists b, decided_v6 (with_bits w1 b) e p RULE_ACTION_DIRECT)))
  | Drop => exists b, decided_v6 (with_bits w1 b) e p RULE_ACTION_BLOCK
  | Rewrite _ => True
  end.
Proof.
  intros Ho Hreset. unfold tcp_packet_v6. rewrite Ho. cbn [negb]. unfold syn_reset_v6 in Hreset. rewrite Hreset.
  cbn [mbind option_bind].
  assert (snd (if port_is_decided (w_bits w1) (t_sport p)
               then consume_direct_decision (w_bits w1) (t_sport p) (t_fin p || t_rst p)
               else (w_bits w1, false)) = true ->
          port_is_decided (w_bits w1) (t_sport p) = true /\ port_is_direct (w_bits w1) (t_sport p) = true) as Hd.
  { destruct (port_is_decided _ _) eqn:E; [|done]. unfold consume_direct_decision. cbn [snd]. by rewrite E. }
  destruct (if port_is_decided _ _ then _ else _) as [bits direct]. cbn [snd] in Hd.
  destruct direct; [intros ?; simplify_eq; split; [done|]; left; by apply Hd|].
  unfold tcp_routed_v6. change (w_relay_port (with_bits w1 bits)) with (w_relay_port w1).
  destruct (Z.eqb_spec (t_sport p) (w_relay_port w1)).
  { unfold tcp_from_relay_v6. destruct (get_connection_full_v6 _ _ _ _) as [[c r]|]; [|done].
    intros (c' & _ & ?)%bind_Some. by simplify_eq. }
  change (w_conns (with_bits w1 bits)) with (w_conns w1). change (idle (with_bits w1 bits)) with (idle w1).
  intros (tracked & Ht & Hv)%bind_Some. destruct tracked.
  { unfold tcp_tracked_v6 in Hv. apply bind_Some in Hv as (c & _ & ?). by simplify_eq. }
  destruct (t_fin p || t_rst p)%bool eqn:Ef; [simplify_eq; split; [done|]; right; split_and!; auto|].
  destruct (is_ipv6_multicast_or_linklocal _) eqn:Em; [simplify_eq; split; [done|]; right; split_and!; auto|].
  destruct (idle w1) eqn:Ei; [simplify_eq; split; [done|]; right; split_and!; auto|].
  apply tcp_decide_v6_verdict in Hv. destruct v; [|done|eauto].
  destruct Hv as [-> ?]. split; [done|]. right. split_and!; eauto 6.
Qed.
End Verdicts.
