(* ===== verification/Engine.v ===== *)
(** * The running engine (ProxyBridge.c)

    The packet thread's loop over batches, a pass of the clean-up thread, what
    Start and Stop do to the tables, and the threads of the engine together on
    one state, the clean-up of the flows in the sections of its lock. *)
From S2P Require Import Prelude CLib HashTable Util Types Matching ProxyConfig Socks5 Dns Process Observer Rules.
From S2P Require Import Policy ConnTrack UdpRelay AssocHandles Handler DirectCache ConnLog PortBitmap Packet.
From S2P Require Import PacketSafety PacketPolicy FlowMap CleanupWalk.

(** ** The packet thread *)

(** What the driver's parser finds in front of the buffer. *)
Inductive captured :=
| CapTcp4 (p : tcp_packet Z) | CapUdp4 (p : udp_packet Z) | CapOther4
| CapTcp6 (p : tcp_packet bytes) | CapUdp6 (p : udp_packet bytes) | CapOther6
| CapNoIp.

Definition queued {P} (v : verdict P) : option P :=
  match v with Pass p | Rewrite p => Some p | Drop => None end.

(** The surroundings of one packet, for either family. *)
Record packet_env := mkPacketEnv { pe_v4 : Env Z; pe_v6 : Env bytes }.

(** What one call of [WinDivertRecvEx] gives: the addresses, each with the
    direction and the surroundings its packet will meet, and the bytes. *)
Record batch_input := mkBatchInput { bi_addresses : list (bool * (World -> packet_env)); bi_packets : bytes }.

Inductive recv_input := RecvStopped | RecvError (ends : bool) | RecvBatch (b : batch_input).

Section PacketThread.
Context `{Platform} `{ProcessImages}.
(** [WinDivertHelperParsePacket]: the headers of the first packet and its
    length; and the packet's bytes once the fields were written. *)
Context (parse : bool -> bytes -> option (captured * nat)) (write : captured -> bytes -> bytes).

(** One packet: the state, and the packet when it is queued for the send. *)
Definition classify (w : World) (e : packet_env) (c : captured) : option (World * option captured) :=
  match c with
  | CapTcp4 p => '(w, v) ← tcp_packet_v4 w (pe_v4 e) p; Some (w, CapTcp4 <$> queued v)
  | CapUdp4 p => '(w, v) ← udp_packet_v4 w (pe_v4 e) p; Some (w, CapUdp4 <$> queued v)
  | CapTcp6 p => '(w, v) ← tcp_packet_v6 w (pe_v6 e) p; Some (w, CapTcp6 <$> queued v)
  | CapUdp6 p => '(w, v) ← udp_packet_v6 w (pe_v6 e) p; Some (w, CapUdp6 <$> queued v)
  | CapOther6 => Some (w, Some CapOther6)
  | CapOther4 | CapNoIp => Some (w, None)
  end.

(** The loop over a batch.  A packet that cannot be parsed leaves no next one. *)
Fixpoint packet_batch (addresses : list (bool * (World -> packet_env))) (packets : bytes) (w : World)
    (b : PACKET_SEND_BATCH) : option (World * PACKET_SEND_BATCH) :=
  match addresses with
  | [] => Some (w, b)
  | (outbound, env) :: addresses =>
      if is_empty packets then Some (w, b)
      else match parse outbound packets with
           | None => Some (w, b)
           | Some (c, n) =>
               match classify w (env w) c with
               | None => None
               | Some (w, out) =>
                   packet_batch addresses (drop n packets) w
                     match out with
                     | Some c => fst (queue_packet_for_send b (write c (take n packets)))
                     | None => b
                     end
               end
           end
  end.

(** The thread, and the batches it hands to [WinDivertSendEx]. *)
Fixpoint packet_processor (l : list recv_input) (w : World) : option (World * list (list bytes)) :=
  match l with
  | [] | RecvStopped :: _ | RecvError true :: _ => Some (w, [])
  | RecvError false :: l => packet_processor l w
  | RecvBatch b :: l =>
      '(w, batch) ← packet_batch (bi_addresses b) (bi_packets b) w (mkBatch [] PACKET_BATCH_BUFFER_SIZE);
      '(w, sent) ← packet_processor l w;
      Some (w, if 0 <? b_count batch then b_packets batch :: sent else sent)
  end.

(** *** Packets leave the rules alone *)

Definition rules_kept {A} (w : World) (r : option (World * A)) : Prop :=
  match r with Some (w', _) => p_rules (w_policy w') = p_rules (w_policy w) | None => True end.

Lemma kept_bind {A B} (w : World) (m : option A) (f : A -> option (World * B)) :
  (forall x, m = Some x -> rules_kept w (f x)) -> rules_kept w (m ≫= f).
Proof. destruct m; cbn; auto. Qed.

Lemma kept_from {A} (w w1 : World) (r : option (World * A)) :
  p_rules (w_policy w1) = p_rules (w_policy w) -> rules_kept w1 r -> rules_kept w r.
Proof. unfold rules_kept. destruct r as [[w' a]|]; [|done]. congruence. Qed.

Lemma report_policy w alloc pid key port a cfg :
  w_policy (report_connection w alloc pid key port a cfg) = w_policy w.
Proof. apply report_fields. Qed.

Ltac keep_rules := repeat first
  [ done
  | progress cbn [rules_kept with_owners with_conns with_bits with_direct with_log with_dns with_policy w_policy p_rules]
  | rewrite report_policy
  | apply kept_bind; intros ? ?
  | case_match ].

Lemma tcp_routed_v4_rules w e p : rules_kept w (tcp_routed_v4 w e p).
Proof. unfold tcp_routed_v4, tcp_from_relay_v4, tcp_tracked_v4, tcp_decide_v4. keep_rules. Qed.
Lemma tcp_routed_v6_rules w e p : rules_kept w (tcp_routed_v6 w e p).
Proof. unfold tcp_routed_v6, tcp_from_relay_v6, tcp_tracked_v6, tcp_decide_v6. keep_rules. Qed.
Lemma udp_decide_v4_rules w g e p : rules_kept w (udp_decide_v4 w g e p).
Proof. unfold udp_decide_v4. keep_rules. Qed.
Lemma udp_decide_v6_rules w g e p : rules_kept w (udp_decide_v6 w g e p).
Proof. unfold udp_decide_v6. keep_rules. Qed.

Lemma reset_policy w port v6 w1 : reset_stale_tcp_state w port v6 = Some w1 -> w_policy w1 = w_policy w.
Proof. unfold reset_stale_tcp_state. case_match; [by intros [= <-]|]. by intros (c & _ & [= <-])%bind_Some. Qed.

Lemma tcp_packet_v4_rules w e p : rules_kept w (tcp_packet_v4 w e p).
Proof.
  unfold tcp_packet_v4. do 2 (case_match; [done|]). apply kept_bind. intros w1 Hr. apply (kept_from w w1).
  { unfold tcp_syn_reset_v4 in Hr. case_match; [|by simplify_eq]. by rewrite (reset_policy _ _ _ _ Hr). }
  destruct (if port_is_decided _ _ then _ else _) as [bits direct]. destruct direct; [done|].
  by apply (kept_from w1 (with_bits w1 bits)), tcp_routed_v4_rules.
Qed.

Lemma tcp_packet_v6_rules w e p : rules_kept w (tcp_packet_v6 w e p).
Proof.
  unfold tcp_packet_v6. case_match; [done|]. apply kept_bind. intros w1 Hr. apply (kept_from w w1).
  { case_match; [|by simplify_eq]. by rewrite (reset_policy _ _ _ _ Hr). }
  destruct (if port_is_decided _ _ then _ else _) as [bits direct]. destruct direct; [done|].
  by apply (kept_from w1 (with_bits w1 bits)), tcp_routed_v6_rules.
Qed.

Lemma snoop_rules {A} w alloc now (p : udp_packet A) w1 :
  snoop_inbound w alloc now p = Some w1 -> p_rules (w_policy w1) = p_rules (w_policy w).
Proof.
  unfold snoop_inbound. repeat case_match; try (by intros [= <-]); try done. by intros (d & _ & [= <-])%bind_Some.
Qed.

Lemma udp_packet_v4_rules w e p : rules_kept w (udp_packet_v4 w e p).
Proof.
  unfold udp_packet_v4, udp_from_relay_v4. repeat case_match; try done.
  - apply kept_bind. intros w1 Hr. exact (snoop_rules _ _ _ _ _ Hr).
  - match goal with |- rules_kept _ (udp_decide_v4 ?w1 _ _ _) => by apply (kept_from w w1), udp_decide_v4_rules end.
Qed.

Lemma udp_packet_v6_rules w e p : rules_kept w (udp_packet_v6 w e p).
Proof.
  unfold udp_packet_v6, udp_from_relay_v6. repeat case_match; try done.
  - apply kept_bind. intros w1 Hr. exact (snoop_rules _ _ _ _ _ Hr).
  - match goal with |- rules_kept _ (udp_decide_v6 ?w1 _ _ _) => by apply (kept_from w w1), udp_decide_v6_rules end.
Qed.

Lemma classify_rules w e c : rules_kept w (classify w e c).
Proof.
  destruct c as [p|p| |p|p| |]; cbn [classify]; try done; apply kept_bind; intros [w1 v] Hr; cbn.
  - pose proof (tcp_packet_v4_rules w (pe_v4 e) p) as Hk. by rewrite Hr in Hk.
  - pose proof (udp_packet_v4_rules w (pe_v4 e) p) as Hk. by rewrite Hr in Hk.
  - pose proof (tcp_packet_v6_rules w (pe_v6 e) p) as Hk. by rewrite Hr in Hk.
  - pose proof (udp_packet_v6_rules w (pe_v6 e) p) as Hk. by rewrite Hr in Hk.
Qed.

Lemma packet_batch_rules addresses packets w b : rules_kept w (packet_batch addresses packets w b).
Proof.
  revert packets w b. induction addresses as [|[o env] addresses IH]; intros packets w b; cbn [packet_batch]; [done|].
  case_match; [done|]. destruct (parse o packets) as [[c n]|]; [|done].
  pose proof (classify_rules w (env w) c) as Hc. destruct (classify w (env w) c) as [[w1 out]|]; [|done].
  by apply (kept_from w w1).
Qed.

(** *** Against the packets one by one *)

(** The packets of a batch that go on, without a buffer. *)
Fixpoint passed_on (addresses : list (bool * (World -> packet_env))) (packets : bytes) (w : World)
  : option (World * list bytes) :=
  match addresses with
  | [] => Some (w, [])
  | (outbound, env) :: addresses =>
      match packets, parse outbound packets with
      | [], _ | _, None => Some (w, [])
      | _, Some (c, n) =>
          '(w, out) ← classify w (env w) c;
          '(w, rest) ← passed_on addresses (drop n packets) w;
          Some (w, match out with Some c => write c (take n packets) :: rest | None => rest end)
      end
  end.

(** What the parser gives is a packet in front of the buffer; its port is 16 bits
    wide and its payload consists of bytes.  Writing the fields keeps the length.
    That a UDP header tells the truth about the length is not asked for. *)
Definition captured_ok (c : captured) : Prop :=
  match c with
  | CapTcp4 p => is_port (t_sport p) | CapTcp6 p => is_port (t_sport p)
  | CapUdp4 p => Forall is_octet (u_payload p) | CapUdp6 p => Forall is_octet (u_payload p)
  | _ => True
  end.
Definition parses_well : Prop :=
  forall o b c n, parse o b = Some (c, n) -> (n <= length b)%nat /\ captured_ok c.
Definition writes_in_place : Prop := forall c b, length (write c b) = length b.

(** A DNS answer on its way in that claims more bytes than were captured. *)
Definition overlong_capture (c : captured) : Prop :=
  match c with CapUdp4 p => overlong p | CapUdp6 p => overlong p | _ => False end.

(** Such an answer is one of the packets of a batch. *)
Fixpoint reads_behind (addresses : list (bool * (World -> packet_env))) (packets : bytes) : Prop :=
  match addresses with
  | [] => False
  | (outbound, _) :: addresses =>
      match packets, parse outbound packets with
      | [], _ | _, None => False
      | _, Some (c, n) => overlong_capture c \/ reads_behind addresses (drop n packets)
      end
  end.

Definition env_good (env : World -> packet_env) : Prop :=
  forall w, world_wf w -> env_ok w (pe_v4 (env w)) /\ env_ok w (pe_v6 (env w)).

Lemma total_but_fmap {A B} bad (r : option (World * A)) (f : A -> B) :
  total_but bad r -> total_but bad ('(w, v) ← r; Some (w, f v)).
Proof. intros [[Hb ->]|(Hb & w & v & -> & Hw)]; [by left|]. by eapply total_but_good. Qed.

Lemma classify_total w e c :
  world_wf w -> env_ok w (pe_v4 e) -> env_ok w (pe_v6 e) -> captured_ok c ->
  total_but (overlong_capture c) (classify w e c).
Proof.
  intros Hw H4 H6 Hc. destruct c as [p|p| |p|p| |]; cbn [classify captured_ok overlong_capture] in *;
    try (right; split; [by intros []|]; by do 2 eexists).
  - destruct (tcp_packet_v4_total w (pe_v4 e) p Hw H4 Hc) as (w' & v & -> & Hw'). right. split; [by intros []|]. by do 2 eexists.
  - by apply (total_but_fmap _ _ (fun v => CapUdp4 <$> queued v)), udp_packet_v4_total.
  - destruct (tcp_packet_v6_total w (pe_v6 e) p Hw H6 Hc) as (w' & v & -> & Hw'). right. split; [by intros []|]. by do 2 eexists.
  - by apply (total_but_fmap _ _ (fun v => CapUdp6 <$> queued v)), udp_packet_v6_total.
Qed.

(** The loop gets to the end of a batch exactly when there is none in it. *)
Lemma passed_on_total addresses packets w :
  parses_well -> Forall (fun a => env_good (snd a)) addresses -> world_wf w ->
  (exists w' sent, passed_on addresses packets w = Some (w', sent) /\ world_wf w' /\ ~ reads_behind addresses packets) \/
  (passed_on addresses packets w = None /\ reads_behind addresses packets).
Proof.
  intros Hp Hf. revert packets w. induction Hf as [|[o env] addresses He Hf IH]; intros packets w Hw.
  { left. exists w, []. by split_and!; [..|intros []]. }
  cbn [passed_on reads_behind snd] in *.
  destruct packets as [|x rest] eqn:Ex; [left; exists w, []; by split_and!; [..|intros []]|]. rewrite <- Ex in *.
  destruct (parse o packets) as [[c n]|] eqn:Epa; [|left; exists w, []; by split_and!; [..|intros []]].
  destruct (Hp o packets c n Epa) as [Hn Hc]. destruct (He w Hw) as [H4 H6].
  destruct (classify_total w (env w) c Hw H4 H6 Hc) as [[Hb ->]|(Hb & w1 & out & -> & Hw1)]; cbn [mbind option_bind];
    [by right; split; [|left]|].
  destruct (IH (drop n packets) w1 Hw1) as [(w2 & sent & -> & Hw2 & Hno)|[-> Hr]]; cbn [mbind option_bind];
    [left; do 2 eexists; split; [reflexivity|]; split; [done|tauto]|right; split; [done|by right]].
Qed.

Lemma passed_on_size addresses packets w w' sent :
  parses_well -> writes_in_place -> passed_on addresses packets w = Some (w', sent) ->
  (length sent <= length addresses)%nat /\ (length (concat sent) <= length packets)%nat.
Proof.
  intros Hp Hwr. revert packets w w' sent. induction addresses as [|[o env] addresses IH]; intros packets w w' sent.
  { intros [= _ <-]. cbn. lia. }
  cbn [passed_on]. destruct packets as [|x rest] eqn:Ex; [intros [= _ <-]; cbn; lia|]. rewrite <- Ex in *.
  destruct (parse o packets) as [[c n]|] eqn:Epa; [|intros [= _ <-]; cbn; lia].
  destruct (Hp o packets c n Epa) as [Hn _].
  intros ([w1 out] & _ & ([w2 sent'] & Hr & [= _ <-])%bind_Some)%bind_Some.
  apply IH in Hr as [H1 H2]. rewrite length_drop in H2.
  destruct out; cbn [concat length]; [rewrite length_app, Hwr, length_take|]; lia.
Qed.

Lemma batch_is_passed addresses packets w b :
  packet_batch addresses packets w b = '(w', sent) ← passed_on addresses packets w; Some (w', queue_all b sent).
Proof.
  revert packets w b. induction addresses as [|[o env] addresses IH]; intros packets w b; cbn [packet_batch passed_on]; [done|].
  destruct packets as [|x rest] eqn:Ex; [done|]. rewrite <- Ex. replace (is_empty packets) with false by (by rewrite Ex).
  destruct (parse o packets) as [[c n]|]; [|done]. destruct (classify w (env w) c) as [[w1 out]|]; [|done].
  cbn [mbind option_bind]. rewrite IH. destruct (passed_on addresses (drop n packets) w1) as [[w2 sent]|]; [|done].
  cbn [mbind option_bind]. by destruct out.
Qed.

Lemma queue_capacity l b : b_capacity (queue_all b l) = b_capacity b.
Proof.
  revert b. induction l as [|x l IH]; intros b; [done|].
  change (queue_all b (x :: l)) with (queue_all (fst (queue_packet_for_send b x)) l). rewrite IH.
  unfold queue_packet_for_send. by case_match.
Qed.

(** C11: The packets of one received batch are decided in order, and exactly those
    that are passed or rewritten are sent, in that order and in one batch: of at
    most 16 packets that fill the receive buffer at most, the send buffer never
    refuses one and never overflows.  The batch gets to its end exactly unless it
    holds a DNS answer on its way in whose UDP header claims more bytes than were
    captured: the code reads behind that packet. *)
Theorem batch_sends_what_passes addresses packets w :
  parses_well -> writes_in_place ->
  Z.of_nat (length addresses) <= PACKET_BATCH_SIZE -> Z.of_nat (length packets) <= PACKET_BATCH_BUFFER_SIZE ->
  packet_batch addresses packets w (mkBatch [] PACKET_BATCH_BUFFER_SIZE) =
    ('(w', sent) ← passed_on addresses packets w; Some (w', mkBatch sent PACKET_BATCH_BUFFER_SIZE)) /\
  (Forall (fun a => env_good (snd a)) addresses -> world_wf w ->
   (exists w' sent, passed_on addresses packets w = Some (w', sent) /\ world_wf w' /\ ~ reads_behind addresses packets) \/
   passed_on addresses packets w = None /\ reads_behind addresses packets).
Proof.
  intros Hp Hwr Hn Hl. split.
  2:{ by apply passed_on_total. }
  rewrite batch_is_passed. destruct (passed_on addresses packets w) as [[w' sent]|] eqn:E; [|done].
  cbn [mbind option_bind]. destruct (passed_on_size _ _ _ _ _ Hp Hwr E) as [H1 H2].
  destruct (batch_keeps_all (mkBatch [] PACKET_BATCH_BUFFER_SIZE) sent eq_refl eq_refl) as [_ Hk].
  specialize (Hk ltac:(lia) ltac:(lia)). pose proof (queue_capacity sent (mkBatch [] PACKET_BATCH_BUFFER_SIZE)) as Hcap.
  destruct (queue_all _ sent) as [ps cap]. cbn in Hk, Hcap. by subst.
Qed.
End PacketThread.

(** ** A pass of the clean-up thread *)

(** The clocks of the sweeps, in order. *)
Record clocks := mkClocks { ck_conns : Z; ck_conn_pids : Z; ck_pids : Z; ck_owners : Z; ck_dns : Z }.

Definition cleanup_pass (k : clocks) (w : World) : option World :=
  match cleanup_stale_connections (ck_conns k) (ck_conn_pids k) (w_conns w) (w_owners w) (w_log w) with
  | None => None
  | Some (c, o, l) =>
      let o := cleanup_stale_owner_cache (ck_owners k) (cleanup_stale_pid_cache (ck_pids k) o) in
      let w := with_log (with_owners (with_conns w c) o) l (w_reports w) in
      Some (with_dns w (cleanup_stale_dns_cache (ck_dns k) (p_dns (w_policy w))))
  end.

(** The thread: whether the wait for the shutdown event timed out and [running]
    was still set, and the clocks of the pass. *)
Fixpoint cleanup_worker (l : list (option clocks)) (w : World) : option World :=
  match l with
  | [] | None :: _ => Some w
  | Some k :: l => w ← cleanup_pass k w; cleanup_worker l w
  end.

(** What a pass does behind the sweep of the flows. *)
Definition cleanup_rest (k : clocks) (w : World) : World :=
  let o := prune_pid_entries (ck_conn_pids k) (w_owners w) in
  let o := cleanup_stale_owner_cache (ck_owners k) (cleanup_stale_pid_cache (ck_pids k) o) in
  let w := with_log (with_owners w o) (cut_logged (w_log w)) (w_reports w) in
  with_dns w (cleanup_stale_dns_cache (ck_dns k) (p_dns (w_policy w))).

Lemma cleanup_pass_parts k w :
  cleanup_pass k w = c ← cleanup_connections (ck_conns k) (w_conns w); Some (cleanup_rest k (with_conns w c)).
Proof. unfold cleanup_pass, cleanup_stale_connections. by destruct (cleanup_connections _ _). Qed.

Lemma prune_pid_wf now o : owners_wf o -> owners_wf (prune_pid_entries now o).
Proof. intros Ho. split; simpl; [apply ht_sweep_wf, Ho|apply Ho|apply Ho]. Qed.

Lemma cleanup_rest_wf k w : world_wf w -> world_wf (cleanup_rest k w).
Proof.
  intros Hw. unfold cleanup_rest. pose proof (ww_dns _ Hw). pose proof (ww_log _ Hw) as [Hl Hb].
  assert (cut_logged (w_log w) = w_log w) as -> by (unfold cut_logged; by rewrite (proj2 (Z.ltb_ge _ _)) by lia).
  pose proof (prune_pid_wf (ck_conn_pids k) (w_owners w) (ww_owners _ Hw)). auto 9 with pb.
Qed.

(** ** The tables at Stop and Start *)

(** [free] on every node of a bucket; [None] when one is not there any more. *)
Fixpoint free_chain (h : gmap Z CONNECTION_INFO) (l : list Z) : option (gmap Z CONNECTION_INFO) :=
  match l with
  | [] => Some h
  | p :: l => _ ← h !! p; free_chain (delete p h) l
  end.

(** The buckets below [n]. *)
Fixpoint free_buckets (n : nat) (h : gmap Z CONNECTION_INFO) (t : list (list Z)) : option (gmap Z CONNECTION_INFO) :=
  match n with
  | O => Some h
  | S n => h ← free_buckets n h t; free_chain h (bucket t (Z.of_nat n))
  end.

Definition free_connections (c : ConnTable) : option ConnTable :=
  h ← free_buckets (Z.to_nat CONNECTION_HASH_SIZE) (heap c) (connection_hash_table c);
  Some (mkConnTable h (map (fun _ => []) (connection_hash_table c)) (map (fun _ => []) (connection_rev_table c))).

(** [ProxyBridge_Stop] behind the end of the threads. *)
Definition stop_tables (w : World) : option World :=
  c ← free_connections (w_conns w);
  Some (mkWorld (w_policy w) (clear_owner_event_cache (clear_pid_cache (w_owners w))) c (w_direct w)
          (port_clear_all (w_bits w)) (clear_logged_connections (w_log w)) (w_reports w) (w_relay_port w)
          (w_localhost_via_proxy w) (w_callback w) (w_traffic_logging w)).

Definition with_rules (w : World) (r : RuleStore) : World :=
  with_policy w (mkPolicy (p_switches (w_policy w)) r (p_proxies (w_policy w)) (p_dns (w_policy w))).
Definition with_proxies (w : World) (c : list PROXY_CONFIG) : World :=
  with_policy w (mkPolicy (p_switches (w_policy w)) (p_rules (w_policy w)) c (p_dns (w_policy w))).

(** [ProxyBridge_Start] on the tables: a new generation, an empty DNS cache, and
    the flags of the rules at its end. *)
Definition start_tables (w : World) : World :=
  let w := with_dns (bump w) dns_cache_init in
  bump (with_rules w (update_has_active_rules true (p_rules (w_policy w)))).

Lemma free_chain_ok h l :
  NoDup l -> (forall p, p ∈ l -> is_Some (h !! p)) ->
  exists h', free_chain h l = Some h' /\ forall p, h' !! p = if decide (p ∈ l) then None else h !! p.
Proof.
  revert h. induction l as [|q l IH]; intros h Hnd Hl; cbn [free_chain].
  { exists h. split; [done|]. intros p. by rewrite decide_False by apply not_elem_of_nil. }
  apply NoDup_cons in Hnd as [Hq Hnd]. destruct (Hl q) as [c ->]; [left|]. cbn [mbind option_bind].
  destruct (IH (delete q h) Hnd) as (h' & -> & Hh').
  { intros p Hp. rewrite lookup_delete_ne by (intros ->; done). apply Hl. by right. }
  exists h'. split; [done|]. intros p. rewrite Hh'. destruct (decide (p = q)) as [->|Hne].
  - rewrite decide_False, lookup_delete_eq, decide_True by (done || left). done.
  - rewrite lookup_delete_ne by done. destruct (decide (p ∈ l)); [rewrite decide_True by (by right)|rewrite decide_False by set_solver]; done.
Qed.

Lemma free_buckets_ok n h t :
  indexed fwd_hash_of h t ->
  exists h', free_buckets n h t = Some h' /\
    forall p, h' !! p = c ← h !! p; if fwd_hash_of c <? Z.of_nat n then None else Some c.
Proof.
  intros Hix. induction n as [|n (h1 & Hh1 & IH)]; cbn [free_buckets].
  { exists h. split; [done|]. intros p. destruct (h !! p) as [c|]; [|done]. cbn.
    pose proof (fwd_hash_range (src_port c)). unfold fwd_hash_of. by rewrite (proj2 (Z.ltb_ge _ _)) by lia. }
  rewrite Hh1. cbn [mbind option_bind].
  destruct (free_chain_ok h1 (bucket t (Z.of_nat n))) as (h' & -> & Hh').
  { apply (ix_nodup _ _ _ Hix). lia. }
  { intros p Hp. apply (ix_mem _ _ _ Hix) in Hp as (c & Hc & Hb); [|lia]. exists c. rewrite IH, Hc. cbn.
    by rewrite (proj2 (Z.ltb_ge _ _)) by lia. }
  exists h'. split; [done|]. intros p. rewrite Hh', IH. destruct (h !! p) as [c|] eqn:Hc; cbn; [|by case_decide].
  assert (p ∈ bucket t (Z.of_nat n) <-> fwd_hash_of c = Z.of_nat n) as Hin.
  { rewrite (ix_mem _ _ _ Hix) by lia. rewrite Hc. naive_solver. }
  case_decide as Hd; rewrite Hin in Hd.
  - by rewrite (proj2 (Z.ltb_lt _ _)) by lia.
  - destruct (Z.ltb_spec (fwd_hash_of c) (Z.of_nat n)), (Z.ltb_spec (fwd_hash_of c) (Z.of_nat (S n))); (done || lia).
Qed.

Lemma map_empty_replicate {A} (l : list (list A)) : map (fun _ => []) l = replicate (length l) ([] : list A).
Proof. induction l; [done|]. cbn. by f_equal. Qed.

Lemma free_connections_init c : ct_wf c -> free_connections c = Some conn_init.
Proof.
  intros [Hf Hr _ _]. unfold free_connections.
  destruct (free_buckets_ok (Z.to_nat CONNECTION_HASH_SIZE) _ _ Hf) as (h & -> & Hh). cbn [mbind option_bind].
  f_equal. unfold conn_init. rewrite !map_empty_replicate.
  replace (length (connection_hash_table c)) with (Z.to_nat CONNECTION_HASH_SIZE) by (rewrite <- (ix_length _ _ _ Hf); lia).
  replace (length (connection_rev_table c)) with (Z.to_nat CONNECTION_HASH_SIZE) by (rewrite <- (ix_length _ _ _ Hr); lia).
  f_equal. apply map_eq. intros p. rewrite Hh, lookup_empty. destruct (heap c !! p) as [x|]; [|done]. cbn.
  pose proof (fwd_hash_range (src_port x)). unfold fwd_hash_of. by rewrite (proj2 (Z.ltb_lt _ _)) by lia.
Qed.

Lemma ht_empty_bucket {A K} `{HashKey A K} h : bucket (ht_empty : list (list A)) h = [].
Proof. unfold ht_empty. apply bucket_replicate. Qed.

Lemma cleared_owners_wf s : owners_wf (clear_owner_event_cache (clear_pid_cache s)).
Proof. split; [apply ht_empty_wf..|]. intros h e. cbn. rewrite ht_empty_bucket. by intros ?%elem_of_nil. Qed.

Lemma bump_wf w : world_wf w -> world_wf (bump w).
Proof. intros [[? ? ?] ? ? ? ? ? ?]. split; [by split|done..]. Qed.

Lemma with_rules_wf w r : world_wf w -> flags_ok r -> world_wf (with_rules w r).
Proof. intros [] ?. by split. Qed.
Lemma with_proxies_wf w c : world_wf w -> world_wf (with_proxies w c).
Proof. intros []. by split. Qed.
Lemma with_switches_wf w sw : world_wf w -> world_wf (with_switches w sw).
Proof. intros []. by split. Qed.

Lemma start_tables_wf w : world_wf w -> world_wf (start_tables w).
Proof.
  intros Hw. unfold start_tables. apply bump_wf, with_rules_wf; [|apply update_flags].
  apply with_dns_wf; [by apply bump_wf|apply dns_init_wf].
Qed.

Lemma stop_tables_total w :
  world_wf w -> exists w', stop_tables w = Some w' /\ world_wf w' /\ w_policy w' = w_policy w.
Proof.
  intros Hw. unfold stop_tables. rewrite free_connections_init by apply Hw. cbn [mbind option_bind].
  eexists. split; [reflexivity|]. split; [|done].
  split; cbn [w_owners w_conns w_direct w_bits w_log w_policy]; try apply Hw;
    [apply cleared_owners_wf|apply conn_init_wf|apply clear_all_wf, Hw|done].
Qed.

(** C13: After Stop nothing of the run is left to decide a later packet by: every
    node of the flow table was freed exactly once, no flow is tracked, no port
    has a decision, no owner is known, the log is empty; the rules, switches and
    proxies stay. *)
Theorem stop_forgets w :
  world_wf w ->
  exists w', stop_tables w = Some w' /\ world_wf w' /\ w_policy w' = w_policy w /\
    heap (w_conns w') = ∅ /\ (forall k, conn_of (w_conns w') k = None) /\
    (forall p, port_is_decided (w_bits w') p = false /\ port_is_direct (w_bits w') p = false) /\
    (forall now ip port udp, get_cached_pid now (w_owners w') ip port udp = 0) /\
    (forall now l lp r rp udp, get_owner_event_pid now l lp r rp udp (w_owners w') = 0) /\
    logged_connections (w_log w') = [] /\ g_logged_count (w_log w') = 0.
Proof.
  intros Hw. destruct (stop_tables_total w Hw) as (w' & E & Hw' & Ep). exists w'. split; [done|]. split; [done|].
  split; [done|]. unfold stop_tables in E. rewrite free_connections_init in E by apply Hw. injection E as <-.
  clear Hw' Ep. cbn [w_policy w_conns w_bits w_owners w_log]. split; [done|]. split.
  { intros k. apply conn_of_None; [apply conn_init_wf|]. intros p c Hc. cbn [conn_init heap] in Hc. by rewrite lookup_empty in Hc. }
  split; [intros p; split; apply clear_all_bit|]. split.
  { intros now ip port udp. unfold get_cached_pid, ht_find. cbn. by rewrite ht_empty_bucket. }
  split; [|done]. intros now l lp r rp udp. unfold get_owner_event_pid. cbn. by rewrite ht_empty_bucket.
Qed.

(** ** The threads together

    The packet thread, the observers, the clean-up, the two relays, the calls of
    the user interface and a restart, in any order on one state.  A step is a
    whole batch, event, relay pass or call; the clean-up of the flows goes one
    section at a time, and the sweeps behind it are one step. *)

Inductive switch_call :=
| SetLocalhostViaProxy (b : bool) | SetLoopbackBypassEnabled (b : bool) | SetProxyUdpDnsEnabled (b : bool)
| SetFailClosedOnUnknownOwner (b : bool) | SetTrafficLoggingEnabled (b : bool) | ClearConnectionLogs
| SetConnectionCallback (b : bool).

Definition ProxyBridge_SetConnectionCallback (w : World) (callback : bool) : World :=
  mkWorld (w_policy w) (w_owners w) (w_conns w) (w_direct w) (w_bits w) (w_log w) (w_reports w) (w_relay_port w)
          (w_localhost_via_proxy w) callback (w_traffic_logging w).

Definition apply_switch (w : World) (c : switch_call) : World :=
  match c with
  | SetLocalhostViaProxy b => ProxyBridge_SetLocalhostViaProxy w b
  | SetLoopbackBypassEnabled b => ProxyBridge_SetLoopbackBypassEnabled w b
  | SetProxyUdpDnsEnabled b => ProxyBridge_SetProxyUdpDnsEnabled w b
  | SetFailClosedOnUnknownOwner b => ProxyBridge_SetFailClosedOnUnknownOwner w b
  | SetTrafficLoggingEnabled b => ProxyBridge_SetTrafficLoggingEnabled w b
  | ClearConnectionLogs => ProxyBridge_ClearConnectionLogs w
  | SetConnectionCallback b => ProxyBridge_SetConnectionCallback w b
  end.

(** [en_next_config_id] belongs to the proxy table, [en_relay_v6] says whether
    the UDP relay has its IPv6 socket, and [en_walk] is where the clean-up thread
    is in its pass over the flows, with the clock it read at the start. *)
Record Engine := mkEngine {
  en_world : World; en_next_config_id : Z; en_relay_v6 : bool; en_walk : option (Z * walker) }.

(** The state the library is loaded with, in process [pid]. *)
Definition world_init (pid : Z) : World :=
  mkWorld (mkPolicy (mkSwitches false false false pid) rules_init [] dns_cache_init) owners_init conn_init
          udp_direct_init bits_init log_init [] 34010 false false true.
Definition engine_init (pid : Z) : Engine := mkEngine (world_init pid) 1 false None.

Definition set_world (s : Engine) (w : World) : Engine :=
  mkEngine w (en_next_config_id s) (en_relay_v6 s) (en_walk s).
Definition set_walk (s : Engine) (k : option (Z * walker)) : Engine :=
  mkEngine (en_world s) (en_next_config_id s) (en_relay_v6 s) k.

(** ** Loading and unloading the library (DllMain)

    Attaching stores the process id; detaching stops a running engine, closes
    the sockets of the configurations and frees the rules. *)
Definition DllMain_attach (pid : Z) : Engine := engine_init pid.

Fixpoint close_proxy_sockets (cfgs : list PROXY_CONFIG) : list PROXY_CONFIG * list handle_event :=
  match cfgs with
  | [] => ([], [])
  | c :: cfgs =>
      let '(c, ev) := close_assoc c in
      let '(cfgs, evs) := close_proxy_sockets cfgs in (c :: cfgs, ev ++ evs)
  end.

Definition free_rules (r : RuleStore) : RuleStore :=
  mkRuleStore [] (g_next_rule_id r) (g_has_active_rules r) (g_has_domain_rules r) (rs_generation r) (rs_flushes r).

Definition DllMain_detach (running : bool) (s : Engine) : option (Engine * list handle_event) :=
  w ← (if running then stop_tables (en_world s) else Some (en_world s));
  let '(cfgs, ev) := close_proxy_sockets (p_proxies (w_policy w)) in
  Some (set_world s (with_rules (with_proxies w cfgs) (free_rules (p_rules (w_policy w)))), ev).

Lemma close_proxy_sockets_spec cfgs open :
  assocs_wf open cfgs ->
  let '(cfgs', ev) := close_proxy_sockets cfgs in
  run_handles open ev = Running (open ∖ all_handles cfgs) /\ all_handles cfgs' = ∅.
Proof.
  revert open. induction cfgs as [|c cfgs IH]; intros open Hw; cbn [close_proxy_sockets].
  { split; [|done]. cbn. f_equal. change (all_handles []) with (∅ : gset Z). set_solver. }
  destruct Hw as (Hc & Hd & Hw). pose proof (run_close_assoc open c Hc) as Hr. pose proof (close_assoc_none c) as Hn.
  destruct (close_assoc c) as [c' ev]. cbn [fst snd] in *.
  specialize (IH (open ∖ assoc_handles c)). destruct (close_proxy_sockets cfgs) as [cfgs' evs].
  destruct IH as [IH1 IH2]; [eapply assocs_wf_in; [exact Hw|]; pose proof (assocs_wf_open _ _ Hw); set_solver|].
  rewrite run_handles_app, Hr, IH1, !all_handles_cons, Hn, IH2. split; [f_equal|]; set_solver.
Qed.

(** Unloading the library leaves no rule and no socket of a configuration, and
    closes each of them once. *)
Theorem detach_releases running s open :
  world_wf (en_world s) -> assocs_wf open (p_proxies (w_policy (en_world s))) ->
  exists s' ev, DllMain_detach running s = Some (s', ev) /\
    rules_list (p_rules (w_policy (en_world s'))) = [] /\ all_handles (p_proxies (w_policy (en_world s'))) = ∅ /\
    run_handles open ev = Running (open ∖ all_handles (p_proxies (w_policy (en_world s)))).
Proof.
  intros Hw Ha. unfold DllMain_detach.
  assert (exists w, (if running then stop_tables (en_world s) else Some (en_world s)) = Some w /\
    w_policy w = w_policy (en_world s)) as (w & -> & Ep).
  { destruct running; [|by eexists]. destruct (stop_tables_total _ Hw) as (w & E & _ & Ep). by exists w. }
  cbn [mbind option_bind]. rewrite Ep. pose proof (close_proxy_sockets_spec _ open Ha) as Hc.
  destruct (close_proxy_sockets _) as [cfgs ev]. destruct Hc. by do 2 eexists.
Qed.

Inductive engine_event :=
| EnPackets (b : batch_input)
| EnObserve (alloc : bool) (now : Z) (e : driver_event)
| EnCleanBegin (now : Z) | EnCleanWalk | EnCleanEnd (k : clocks)
| EnUdpRelay (now : Z) (input : pass_input)
| EnAccept4 (now : Z) (e : AcceptEnv) (client peer_ip peer_port : Z)
| EnAccept6 (now : Z) (e : AcceptEnv) (client : Z) (peer_ip6 : bytes) (peer_port : Z)
| EnSwitch (c : switch_call)
| EnRule (op : rule_op)
| EnProxy (op : store_op)
| EnRestart (v6 : bool).

Section Engine.
Context `{Platform} `{ProcessImages}.
Context (parse : bool -> bytes -> option (captured * nat)) (write : captured -> bytes -> bytes).
Context (hton_ipv6 : list Z -> bytes).

Definition packets_step (b : batch_input) (w : World) : option World :=
  fst <$> packet_batch parse write (bi_addresses b) (bi_packets b) w (mkBatch [] PACKET_BATCH_BUFFER_SIZE).

Definition relay_pass_step (now : Z) (input : pass_input) (v6 : bool) (w : World) : option World :=
  '(s, _) ← udp_relay_pass now (p_rules (w_policy w)) input (mkUdpRelay (p_proxies (w_policy w)) (w_conns w) v6);
  Some (with_proxies (with_conns w (ur_conns s)) (ur_configs s)).

(** The call changes the rules; when it makes the decisions stale it does so for
    the whole engine. *)
Definition rule_step (op : rule_op) (w : World) : option World :=
  r ← apply_rule_op true (p_rules (w_policy w)) op;
  let w' := with_rules w r in
  Some (if rs_generation r =? rs_generation (p_rules (w_policy w)) then w' else bump w').

Definition proxy_step (op : store_op) (s : Engine) : Engine :=
  let w := en_world s in
  let p := mkProxyStore (p_proxies (w_policy w)) (en_next_config_id s) (g_udp_generation w) [] in
  let p' := apply_store_op p op in
  let w' := with_proxies w (g_proxy_configs p') in
  mkEngine (if ps_generation p' =? g_udp_generation w then w' else bump w') (g_next_config_id p') (en_relay_v6 s)
    (en_walk s).

(** The clean-up thread: the walk over the flows, a section between two releases
    of the lock at a time, and the rest of the pass when it is over. *)
Definition clean_begin (now : Z) (s : Engine) : Engine :=
  match en_walk s with None => set_walk s (Some (now, AtBucket 0)) | Some _ => s end.

Definition clean_walk (s : Engine) : option Engine :=
  match en_walk s with
  | None => Some s
  | Some (now, k) =>
      '(t, k) ← walk_step now (w_conns (en_world s), k);
      Some (set_walk (set_world s (with_conns (en_world s) t)) (Some (now, k)))
  end.

Definition clean_end (k : clocks) (s : Engine) : Engine :=
  match en_walk s with
  | Some (_, AtBucket i) =>
      if (i <? n_chains)%nat then s else set_walk (set_world s (cleanup_rest k (en_world s))) None
  | _ => s
  end.

(** Stop waits for the clean-up thread. *)
Definition restart (v6 : bool) (s : Engine) : option Engine :=
  match en_walk s with
  | Some _ => Some s
  | None => w ← stop_tables (en_world s); Some (mkEngine (start_tables w) (en_next_config_id s) v6 None)
  end.

Definition engine_step (e : engine_event) (s : Engine) : option Engine :=
  let w := en_world s in
  match e with
  | EnPackets b => set_world s <$> packets_step b w
  | EnObserve alloc now e => Some (set_world s (with_owners w (fst (observe hton_ipv6 alloc now e (w_owners w)))))
  | EnCleanBegin now => Some (clean_begin now s)
  | EnCleanWalk => clean_walk s
  | EnCleanEnd k => Some (clean_end k s)
  | EnUdpRelay now input => set_world s <$> relay_pass_step now input (en_relay_v6 s) w
  | EnAccept4 now ac client ip port =>
      '(t, _) ← accept_v4 now ac client ip port (w_conns w); Some (set_world s (with_conns w t))
  | EnAccept6 now ac client ip6 port =>
      '(t, _) ← accept_v6 now ac client ip6 port (w_conns w); Some (set_world s (with_conns w t))
  | EnSwitch c => Some (set_world s (apply_switch w c))
  | EnRule op => set_world s <$> rule_step op w
  | EnProxy op => Some (proxy_step op s)
  | EnRestart v6 => restart v6 s
  end.

Fixpoint engine_run (l : list engine_event) (s : Engine) : option Engine :=
  match l with
  | [] => Some s
  | e :: l => s ← engine_step e s; engine_run l s
  end.

Lemma clean_walks now n t k s t' k' :
  walk_run now n (t, k) = Some (t', k') -> t = w_conns (en_world s) -> en_walk s = Some (now, k) ->
  engine_run (replicate n EnCleanWalk) s = Some (set_walk (set_world s (with_conns (en_world s) t')) (Some (now, k'))).
Proof.
  revert t k s. induction n as [|n IH]; intros t k s Hr -> Hk.
  { injection Hr as <- <-. cbn. unfold set_walk, set_world. rewrite <- Hk. by destruct s as [[] ? ? ?]. }
  cbn [walk_run] in Hr. apply bind_Some in Hr as ([t1 k1] & Hs & Hr).
  cbn [replicate engine_run engine_step]. unfold clean_walk. rewrite Hk, Hs. cbn [mbind option_bind].
  by rewrite (IH t1 k1 _ Hr) by done.
Qed.

(** Undisturbed, the sections of the clean-up thread add up to its pass. *)
Lemma clean_undisturbed k s :
  world_wf (en_world s) -> en_walk s = None ->
  exists n s', engine_run (EnCleanBegin (ck_conns k) :: replicate n EnCleanWalk ++ [EnCleanEnd k]) s = Some s' /\
    cleanup_pass k (en_world s) = Some (en_world s') /\ en_walk s' = None.
Proof.
  intros Hw Hn. destruct (walk_alone (ck_conns k) (w_conns (en_world s)) (ww_conns _ Hw)) as (t & n & Hc & _ & _ & Hr).
  exists n, (set_walk (set_world s (cleanup_rest k (with_conns (en_world s) t))) None).
  rewrite cleanup_pass_parts, Hc. split; [|done].
  cbn [engine_run engine_step mbind option_bind]. unfold clean_begin. rewrite Hn.
  assert (forall l1 l2 s, engine_run (l1 ++ l2) s = s ← engine_run l1 s; engine_run l2 s) as Happ.
  { induction l1 as [|x l1 IH]; intros l2 s0; [done|]. cbn [app engine_run]. destruct (engine_step x s0); [apply IH|done]. }
  rewrite Happ, (clean_walks _ _ _ _ (set_walk s _) _ _ Hr) by done. reflexivity.
Qed.

(** The allocator gives fresh addresses and positions are unsigned. *)
Definition event_ok (e : engine_event) : Prop :=
  match e with
  | EnPackets b => Forall (fun a => env_good (snd a)) (bi_addresses b)
  | EnRule op => op_position_ok op
  | _ => True
  end.

(** A move of the only rule behind the first place. *)
Definition moves_only_rule (op : rule_op) (r : RuleStore) : Prop :=
  match op with
  | OpMoveRule id pos => id <> 0 /\ 2 <= pos /\ exists x, rules_list r = [x] /\ rule_id x = id
  | _ => False
  end.

(** The link the clean-up thread kept does not stand in its bucket any more. *)
Definition walk_displaced (s : Engine) : Prop :=
  match en_walk s with Some (_, k) => ~ link_stands (w_conns (en_world s)) k | None => False end.

(** What the engine cannot be relied on to survive: a DNS answer that lies about
    its length, the move of the only rule, and a clean-up that goes on from a
    node another thread freed meanwhile. *)
Definition hazard (e : engine_event) (s : Engine) : Prop :=
  match e with
  | EnPackets b => reads_behind parse (bi_addresses b) (bi_packets b)
  | EnRule op => moves_only_rule op (p_rules (w_policy (en_world s)))
  | EnCleanWalk => walk_displaced s
  | _ => False
  end.

(** What the engine of process [pid] can get to in [n] steps.  [EnRestart] is a
    Stop and the next Start, with or without the IPv6 socket of the UDP relay. *)
Inductive engine_reach (pid : Z) : nat -> Engine -> Prop :=
| engine_start : engine_reach pid 0 (engine_init pid)
| engine_next n s e s' :
    engine_reach pid n s -> event_ok e -> ~ hazard e s -> engine_step e s = Some s' -> engine_reach pid (S n) s'.

(** The invariant after [n] calls that can use up a rule id. *)
Record engine_wf (n : nat) (s : Engine) : Prop := {
  ew_world : world_wf (en_world s);
  ew_rules : rules_wf (p_rules (w_policy (en_world s)));
  ew_next : g_next_rule_id (p_rules (w_policy (en_world s))) <= 1 + Z.of_nat n
}.

Lemma engine_wf_same n s w :
  engine_wf n s -> world_wf w -> p_rules (w_policy w) = p_rules (w_policy (en_world s)) -> engine_wf (S n) (set_world s w).
Proof. intros [H1 H2 H3] Hw E. split; cbn [set_world en_world]; rewrite ?E; [done|done|lia]. Qed.

Lemma apply_switch_wf w c :
  world_wf w -> world_wf (apply_switch w c) /\ p_rules (w_policy (apply_switch w c)) = p_rules (w_policy w).
Proof.
  intros Hw. destruct c; cbn [apply_switch]; unfold ProxyBridge_SetLocalhostViaProxy, ProxyBridge_SetLoopbackBypassEnabled,
    ProxyBridge_SetProxyUdpDnsEnabled, ProxyBridge_SetFailClosedOnUnknownOwner, ProxyBridge_SetTrafficLoggingEnabled,
    ProxyBridge_ClearConnectionLogs.
  - split; [apply bump_wf|done]. destruct Hw; by split.
  - split; [apply bump_wf|by case_match]. case_match; [by apply with_switches_wf|].
    apply with_bits_wf; [by apply with_switches_wf|]. apply clear_all_wf, Hw.
  - split; [apply bump_wf|by case_match]. case_match; [by apply with_switches_wf|].
    apply with_bits_wf; [by apply with_switches_wf|]. apply clear_all_wf, Hw.
  - split; [by apply bump_wf, with_switches_wf|done].
  - split; [|done]. destruct Hw; split; cbn; try done. by destruct b.
  - split; [|done]. by apply with_log_wf.
  - split; [|done]. destruct Hw. by split.
Qed.

Lemma update_rules_wf r : rules_wf r -> rules_wf (update_has_active_rules true r).
Proof.
  intros [H1 H2 H3 H4 H5]. destruct (update_flags true r) as (Hf & El & En & Eg).
  split; rewrite ?El, ?En, ?Eg; try done. unfold invalidate_udp_decisions. apply s32_range.
Qed.

Hypothesis parse_ok : parses_well parse.

(** An event is handled and keeps the invariant, or it is one of the hazards. *)
Definition handled (n : nat) (r : option Engine) (bad : Prop) : Prop :=
  (exists s, r = Some s /\ engine_wf (S n) s) \/ bad.

Lemma handled_same n s w bad :
  engine_wf n s -> world_wf w -> p_rules (w_policy w) = p_rules (w_policy (en_world s)) ->
  handled n (Some (set_world s w)) bad.
Proof. intros Hs Hw E. left. eexists. split; [done|]. by apply engine_wf_same. Qed.

Lemma packets_step_wf n b s :
  engine_wf n s -> Forall (fun a => env_good (snd a)) (bi_addresses b) ->
  handled n (set_world s <$> packets_step b (en_world s)) (reads_behind parse (bi_addresses b) (bi_packets b)).
Proof.
  intros Hwf Hf. unfold packets_step.
  pose proof (packet_batch_rules parse write (bi_addresses b) (bi_packets b) (en_world s) (mkBatch [] PACKET_BATCH_BUFFER_SIZE)) as Hr.
  rewrite batch_is_passed in *.
  destruct (passed_on_total parse write (bi_addresses b) (bi_packets b) (en_world s) parse_ok Hf (ew_world _ _ Hwf))
    as [(w' & sent & E & Hw' & _)|[_ ?]]; [|by right].
  rewrite E in *. by apply handled_same.
Qed.

Lemma rule_step_wf n op s :
  engine_wf n s -> Z.of_nat n < 2 ^ 32 - 2 -> op_position_ok op ->
  handled n (set_world s <$> rule_step op (en_world s)) (moves_only_rule op (p_rules (w_policy (en_world s)))).
Proof.
  intros [Hw Hr Hn] Hlt Hop. unfold rule_step.
  destruct (apply_rule_op true (p_rules (w_policy (en_world s))) op) as [r|] eqn:Ha.
  2:{ right. destruct op; try discriminate Ha. cbn in Ha, Hop. apply move_outcomes; [done|]. by case_match. }
  left. cbn [mbind option_bind fmap option_fmap option_map]. eexists. split; [reflexivity|].
  destruct (apply_rule_op_wf true _ op r Hr ltac:(lia) Hop Ha) as [Hr' Hn'].
  assert (world_wf (with_rules (en_world s) r)) as Hw' by (apply with_rules_wf; [done|apply Hr']).
  split; cbn [set_world en_world]; case_match; try done; try (by apply bump_wf); cbn; lia.
Qed.

Lemma clean_walk_wf n s : engine_wf n s -> handled n (clean_walk s) (walk_displaced s).
Proof.
  intros Hwf. unfold clean_walk, walk_displaced. destruct (en_walk s) as [[now k]|].
  2:{ left. eexists. split; [done|]. destruct Hwf. split; [done|done|lia]. }
  destruct (decide (link_stands (w_conns (en_world s)) k)) as [Hl|]; [|by right]. left.
  destruct (walk_step_wf now (w_conns (en_world s)) k) as (t & k' & -> & Ht); [apply Hwf|done|].
  eexists. split; [done|]. destruct Hwf as [Hw Hr Hn].
  split; cbn [set_walk set_world en_world]; [by apply with_conns_wf|done|cbn; lia].
Qed.

Lemma clean_end_wf n k s : engine_wf n s -> engine_wf (S n) (clean_end k s).
Proof.
  intros [Hw Hr Hn]. assert (engine_wf (S n) s) as Hs by (split; [done|done|lia]). unfold clean_end.
  destruct (en_walk s) as [[now [i|i link p|i link]]|]; [|done..]. case_match; [done|].
  split; cbn [set_walk set_world en_world]; [by apply cleanup_rest_wf|done|cbn; lia].
Qed.

Lemma restart_wf n v6 s bad : engine_wf n s -> handled n (restart v6 s) bad.
Proof.
  intros [Hw Hr Hn]. unfold restart. left. destruct (en_walk s).
  { eexists. split; [done|]. split; [done|done|lia]. }
  destruct (stop_tables_total (en_world s) Hw) as (w' & -> & Hw' & Ep). cbn [mbind option_bind].
  eexists. split; [reflexivity|]. split; cbn [en_world]; [by apply start_tables_wf|..]; cbn; rewrite Ep.
  - by apply update_rules_wf.
  - destruct (update_flags true (p_rules (w_policy (en_world s)))) as (_ & _ & -> & _). lia.
Qed.

Lemma accept_wf n now ac client ip6 ip port s bad :
  engine_wf n s ->
  handled n ('(t, _) ← accept_v4 now ac client ip port (w_conns (en_world s)); Some (set_world s (with_conns (en_world s) t))) bad /\
  handled n ('(t, _) ← accept_v6 now ac client ip6 port (w_conns (en_world s)); Some (set_world s (with_conns (en_world s) t))) bad.
Proof.
  intros Hwf. pose proof (ew_world _ _ Hwf) as Hw.
  assert (forall t, ct_wf t -> handled n (Some (set_world s (with_conns (en_world s) t))) bad) as Hh
    by (intros t Ht; apply handled_same; [done|by apply with_conns_wf|done]).
  unfold accept_v4, accept_v6, get_connection_full, get_connection_full_v6.
  destruct (get_touch_spec now (w_conns (en_world s)) port false false (ww_conns _ Hw)) as (t & -> & Ht & _).
  destruct (get_touch_spec now (w_conns (en_world s)) port false true (ww_conns _ Hw)) as (t6 & -> & Ht6 & _).
  split; (destruct (negb _); [apply Hh, Hw|]); destruct (option_map _ _) as [[[? ?] ?]|]; by apply Hh.
Qed.

Lemma engine_step_wf n e s :
  engine_wf n s -> Z.of_nat n < 2 ^ 32 - 2 -> event_ok e -> handled n (engine_step e s) (hazard e s).
Proof.
  intros Hwf Hlt Hok. pose proof (ew_world _ _ Hwf) as Hw.
  destruct e as [b|alloc now e|now| |k|now input|now ac client ip port|now ac client ip6 port|c|op|op|v6];
    cbn [engine_step event_ok hazard] in *.
  - by apply packets_step_wf.
  - apply handled_same; [done| |done]. apply with_owners_wf; [done|]. apply observe_wf, Hw.
  - left. eexists. split; [done|]. destruct Hwf. unfold clean_begin. destruct (en_walk s); (split; [done|done|cbn; lia]).
  - by apply clean_walk_wf.
  - left. eexists. split; [done|]. by apply clean_end_wf.
  - unfold relay_pass_step.
    destruct (udp_relay_pass_total now (p_rules (w_policy (en_world s))) input
      (mkUdpRelay (p_proxies (w_policy (en_world s))) (w_conns (en_world s)) (en_relay_v6 s)) (ww_conns _ Hw)) as (s' & out & -> & Hc & _).
    apply handled_same; [done| |done]. by apply with_proxies_wf, with_conns_wf.
  - by apply (accept_wf n now ac client [] ip port s).
  - by apply (accept_wf n now ac client ip6 0 port s).
  - destruct (apply_switch_wf (en_world s) c Hw). by apply handled_same.
  - by apply rule_step_wf.
  - left. eexists. split; [reflexivity|]. destruct Hwf as [_ Hr Hn].
    assert (forall l, world_wf (with_proxies (en_world s) l)) as Hp by (intros l; by apply with_proxies_wf).
    split; cbn [proxy_step en_world]; case_match; try done; try (by apply bump_wf); cbn; lia.
  - by apply restart_wf.
Qed.

Lemma engine_init_wf pid : engine_wf 0 (engine_init pid).
Proof.
  split; cbn [engine_init en_world world_init w_policy p_rules]; [|apply rules_init_wf|done].
  split; cbn; [apply owners_init_wf|apply conn_init_wf|apply length_replicate|apply bits_init_wf|by split|apply dns_init_wf|].
  apply rules_init_wf.
Qed.

Lemma engine_reach_wf pid n s : engine_reach pid n s -> Z.of_nat n < 2 ^ 32 - 1 -> engine_wf n s.
Proof.
  induction 1 as [|n s e s' Hr IH Hok Hz Hs]; intros Hlt; [apply engine_init_wf|].
  destruct (engine_step_wf n e s (IH ltac:(lia)) ltac:(lia) Hok) as [(s1 & E & Hw)|?]; [by simplify_eq|done].
Qed.

(** C6: The threads of the engine on one state, in any order: received batches,
    owner events, the two relays, the accepting of connections, calls of the user
    interface, a stop and a new start, each as one step, and the clean-up of the
    flows one section of its lock at a time, with the sweeps behind it as one
    step.  In every state they can get to every table is well formed, and
    whatever comes next is handled without following a dangling pointer or
    reading behind a packet and leaves every table well formed - with three
    exceptions, each a defect of the code: a batch that holds a DNS answer whose
    UDP header claims more bytes than were captured, the move of the only rule
    behind the first place, and a section of the clean-up whose saved link stood
    in a node that another thread took out meanwhile. *)
Theorem engine_never_faults pid n s e :
  engine_reach pid n s -> Z.of_nat n < 2 ^ 32 - 2 -> event_ok e ->
  world_wf (en_world s) /\ rules_wf (p_rules (w_policy (en_world s))) /\
  ((exists s', engine_step e s = Some s' /\ world_wf (en_world s') /\ rules_wf (p_rules (w_policy (en_world s')))) \/
   hazard e s).
Proof.
  intros Hr Hlt Hok. pose proof (engine_reach_wf pid n s Hr ltac:(lia)) as Hwf.
  split; [apply Hwf|]. split; [apply Hwf|].
  destruct (engine_step_wf n e s Hwf Hlt Hok) as [(s' & -> & [Hw' Hr' _])|?]; [left; by exists s'|by right].
Qed.
End Engine.
