(* ===== verification/Lifecycle.v ===== *)
(** * Start and Stop (ProxyBridge.c)

    The handles of the running engine (threads, events, driver handles, the
    relay pool) and the calls that create and release them on every path; the
    text of the capture filter. *)
From S2P Require Import Prelude CLib HashTable Util Types ProxyConfig Socks5 Process Rules ConnTrack UdpRelay.
From S2P Require Import AssocHandles Packet.

(** ** Global handles *)

Inductive global :=
| shutdown_event | proxy_ready_event | udp_relay_ready_event | workers_done_event
| owner_update_event | owner_socket_handle | owner_flow_handle | owner_socket_thread | owner_flow_thread
| proxy_thread | udp_relay_thread | cleanup_thread | windivert_handle | packet_thread
| g_relay_done_event | g_iocp.

Definition global_index (g : global) : nat :=
  match g with
  | shutdown_event => 0 | proxy_ready_event => 1 | udp_relay_ready_event => 2 | workers_done_event => 3
  | owner_update_event => 4 | owner_socket_handle => 5 | owner_flow_handle => 6 | owner_socket_thread => 7
  | owner_flow_thread => 8 | proxy_thread => 9 | udp_relay_thread => 10 | cleanup_thread => 11
  | windivert_handle => 12 | packet_thread => 13 | g_relay_done_event => 14 | g_iocp => 15
  end%nat.
Definition same_global (g g' : global) : bool := Nat.eqb (global_index g) (global_index g').

(** [lf_events] is what was created and closed so far. *)
Record LState := mkLState {
  lf_running : bool;
  lf_handles : global -> option Z;
  lf_relay_workers : list Z;
  lf_events : list handle_event
}.

(** No handle, not running. *)
Definition life_init : LState := mkLState false (fun _ => None) [] [].

Definition set_running (b : bool) (s : LState) : LState :=
  mkLState b (lf_handles s) (lf_relay_workers s) (lf_events s).
Definition set_handle (g : global) (h : option Z) (ev : list handle_event) (s : LState) : LState :=
  mkLState (lf_running s) (fun g' => if same_global g' g then h else lf_handles s g') (lf_relay_workers s)
    (lf_events s ++ ev).
Definition set_workers (l : list Z) (ev : list handle_event) (s : LState) : LState :=
  mkLState (lf_running s) (lf_handles s) l (lf_events s ++ ev).

(** What the system answers during one Start: the handle of every creation
    (none when it fails), of every worker of the pool, whether the listeners
    report ready in time, and the number of processors. *)
Record StartEnv := mkStartEnv {
  se_creates : global -> option Z;
  se_workers : list (option Z);
  se_processors : Z;
  se_proxy_ready : bool;
  se_udp_ready : bool
}.

Definition opened (h : option Z) : list handle_event := match h with Some h => [Opened h] | None => [] end.
Definition created {A} (o : option A) : bool := match o with Some _ => true | None => false end.

(** A creation stored in its variable. *)
Definition create (e : StartEnv) (g : global) (s : LState) : LState * bool :=
  (set_handle g (se_creates e g) (opened (se_creates e g)) s, created (se_creates e g)).

(** Waited for, closed and set to NULL, when there is one. *)
Definition close_handle (g : global) (s : LState) : LState :=
  match lf_handles s g with
  | Some h => set_handle g None [Closed h] s
  | None => s
  end.

Definition close_all (gs : list global) (s : LState) : LState := fold_left (fun s g => close_handle g s) gs s.

Definition close_thread : global -> LState -> LState := close_handle.

(** ** The parts *)

Definition lifecycle_events : list global :=
  [shutdown_event; proxy_ready_event; udp_relay_ready_event; workers_done_event].
Definition close_lifecycle_events : LState -> LState := close_all lifecycle_events.

Definition create_lifecycle_events (e : StartEnv) (s : LState) : LState * bool :=
  let s := fold_left (fun s g => fst (create e g s)) lifecycle_events s in
  if forallb (fun g => created (se_creates e g)) lifecycle_events then (s, true)
  else (close_lifecycle_events s, false).

Definition stop_owner_observers : LState -> LState :=
  close_all [owner_socket_handle; owner_flow_handle; owner_socket_thread; owner_flow_thread; owner_update_event].

(** Parts in order, up to the first that fails. *)
Fixpoint run_steps (l : list (LState -> LState * bool)) (s : LState) : LState * bool :=
  match l with
  | [] => (s, true)
  | f :: l => let '(s, ok) := f s in if (ok : bool) then run_steps l s else (s, false)
  end.

(** Both threads are created before either is looked at. *)
Definition start_owner_threads (e : StartEnv) (s : LState) : LState * bool :=
  let '(s, ok1) := create e owner_socket_thread s in
  let '(s, ok2) := create e owner_flow_thread s in
  (s, ok1 && ok2).

Definition start_owner_observers (e : StartEnv) (s : LState) : LState * bool :=
  let '(s, ok) := create e owner_update_event s in
  if negb ok then (s, false)
  else
    let '(s, ok) := run_steps [create e owner_socket_handle; create e owner_flow_handle; start_owner_threads e] s in
    if ok then (s, true) else (stop_owner_observers s, false).

(** Half the processors, between 2 and 8. *)
Definition pool_size (processors : Z) : Z :=
  let n := processors ÷ 2 in
  let n := if n <? 2 then 2 else n in
  if 8 <? n then 8 else n.

(** The threads that could be created, closed up in [g_relay_workers]. *)
Definition pool_workers (e : StartEnv) : list Z :=
  omap id (take (Z.to_nat (pool_size (se_processors e))) (se_workers e)).

Definition relay_pool_start (e : StartEnv) (s : LState) : LState * bool :=
  if created (lf_handles s g_iocp) then (s, true)
  else
    let '(s, ok) := create e g_relay_done_event s in
    if negb ok then (s, false)
    else
      let '(s, ok) := create e g_iocp s in
      if negb ok then (close_handle g_relay_done_event s, false)
      else
        let s := set_workers (pool_workers e) (map Opened (pool_workers e)) s in
        if is_empty (pool_workers e) then (close_handle g_relay_done_event (close_handle g_iocp s), false)
        else (s, true).

Definition relay_pool_stop (s : LState) : LState :=
  if negb (created (lf_handles s g_iocp)) then s
  else close_all [g_iocp; g_relay_done_event] (set_workers [] (map Closed (lf_relay_workers s)) s).

Definition request_runtime_stop (s : LState) : LState := stop_owner_observers (set_running false s).

Definition wait_for_runtime_workers (s : LState) : LState :=
  relay_pool_stop (close_all [packet_thread; windivert_handle; proxy_thread; udp_relay_thread; cleanup_thread] s).

Definition runtime_stop (s : LState) : LState :=
  close_lifecycle_events (wait_for_runtime_workers (request_runtime_stop s)).

(** *** The capture filter *)

Definition FILTER_BUFFER_SIZE : Z := 1024.

(** One [proto.DstPort == a or proto.SrcPort == a]. *)
Definition port_clause (proto : bytes) (port : Z) : bytes :=
  str "(" ++ proto ++ str ".DstPort == " ++ print_dec port ++ str " or " ++ proto ++ str ".SrcPort == " ++
  print_dec port ++ str ")".

Definition capture_clause (proto : bytes) (port : Z) : bytes :=
  proto ++ str " and (outbound or loopback or " ++ port_clause proto port ++ str ")".

Definition capture_filter (g_local_relay_port : Z) : bytes :=
  str "not impostor and (" ++
  str "(" ++ capture_clause (str "tcp") g_local_relay_port ++ str ") or " ++
  str "(" ++ capture_clause (str "udp") LOCAL_UDP_RELAY_PORT ++ str " and " ++
    str "udp.SrcPort != 67 and udp.DstPort != 67 and udp.SrcPort != 68 and udp.DstPort != 68) or " ++
  str "(udp and not outbound and udp.SrcPort == 53) or " ++
  str "(ipv6 and udp and not outbound and udp.SrcPort == 53) or " ++
  str "(ipv6 and " ++ capture_clause (str "tcp") g_local_relay_port ++ str ") or " ++
  str "(ipv6 and " ++ capture_clause (str "udp") LOCAL_UDP_RELAY_PORT ++ str " and " ++
    str "udp.SrcPort != 546 and udp.DstPort != 546 and udp.SrcPort != 547 and udp.DstPort != 547))".

(** Its text is never cut, whatever the port of the relay. *)
Lemma capture_filter_fits port : 0 <= port < 2 ^ 16 -> Z.of_nat (length (capture_filter port)) < FILTER_BUFFER_SIZE.
Proof.
  intros Hp. assert (length (print_dec port) <= 5)%nat by (apply (dec_digits_length 4); simpl; lia).
  unfold capture_filter, capture_clause, port_clause. rewrite !length_app.
  change (length (print_dec LOCAL_UDP_RELAY_PORT)) with 5%nat. unfold FILTER_BUFFER_SIZE.
  repeat match goal with |- context [length (str ?x)] => let n := eval vm_compute in (length (str x)) in
    change (length (str x)) with n end. lia.
Qed.

(** [wait_for_worker_ready] *)
Definition ready (b : bool) (s : LState) : LState * bool := (s, b).

Definition start_steps (e : StartEnv) (socks5 : bool) : list (LState -> LState * bool) :=
  [start_owner_observers e; create e proxy_thread; ready (se_proxy_ready e)] ++
  (if socks5 then [create e udp_relay_thread; ready (se_udp_ready e)] else []) ++
  [create e cleanup_thread; create e windivert_handle; create e packet_thread].

Definition ProxyBridge_Start (e : StartEnv) (socks5 : bool) (s : LState) : LState * bool :=
  if lf_running s then (s, false)
  else
    let '(s, ok) := create_lifecycle_events e s in
    if negb ok then (s, false)
    else
      let s := fst (relay_pool_start e (set_running true s)) in
      let '(s, ok) := run_steps (start_steps e socks5) s in
      if ok then (s, true) else (runtime_stop s, false).

Definition ProxyBridge_Stop (s : LState) : LState * bool :=
  if negb (lf_running s) then (s, false) else (runtime_stop s, true).

(** ** Who holds what *)

(** [o] is open: what was open before ([base]), and what the variables hold,
    each in one of them. *)
Record owned (base o : gset Z) (s : LState) : Prop := {
  lo_handles : forall g h, lf_handles s g = Some h -> h ∈ o /\ h ∉ base;
  lo_one : forall g g' h, lf_handles s g = Some h -> lf_handles s g' = Some h -> g = g';
  lo_workers : forall h, h ∈ lf_relay_workers s -> (h ∈ o) /\ (h ∉ base) /\ forall g, lf_handles s g <> Some h;
  lo_nodup : NoDup (lf_relay_workers s);
  lo_all : forall h, h ∈ o -> h ∈ base \/ (exists g, lf_handles s g = Some h) \/ h ∈ lf_relay_workers s;
  lo_base : base ⊆ o
}.

Definition life_inv (base : gset Z) (s : LState) : Prop :=
  match run_handles base (lf_events s) with
  | Illegal => True
  | Fault => False
  | Running o => owned base o s
  end.

Lemma same_global_true g g' : same_global g g' = true <-> g = g'.
Proof. split; [|intros ->; apply Nat.eqb_refl]. intros H%Nat.eqb_eq. by destruct g, g'. Qed.

#[export] Instance global_eq_dec : EqDecision global.
Proof. solve_decision. Defined.

Lemma handle_set g h ev s g' :
  lf_handles (set_handle g h ev s) g' = if decide (g' = g) then h else lf_handles s g'.
Proof.
  cbn. case_decide as E; [subst; by rewrite (proj2 (same_global_true g g))|].
  destruct (same_global g' g) eqn:H; [by apply same_global_true in H|done].
Qed.

Lemma create_inv base e g s :
  life_inv base s -> lf_handles s g = None -> life_inv base (fst (create e g s)).
Proof.
  unfold life_inv, create. cbn [fst set_handle lf_events]. intros Hi Hg. rewrite run_handles_app.
  destruct (run_handles base (lf_events s)) as [| |o]; [done..|]. destruct Hi as [Hh H1 Hw Hnd Ha Hb].
  destruct (se_creates e g) as [h|] eqn:Ec; cbn [opened run_handles].
  - case_decide as Hho; [done|]. split; cbn [lf_relay_workers]; [| | |done| |set_solver].
    + intros g' h'. rewrite handle_set. case_decide; [intros [= <-]; set_solver|]. intros Hg'. apply Hh in Hg'. set_solver.
    + intros g1 g2 h'. rewrite !handle_set. repeat case_decide; subst; try done.
      * intros [= <-] H2. destruct (Hh _ _ H2). done.
      * intros H2 [= <-]. destruct (Hh _ _ H2). done.
      * apply H1.
    + intros h' Hin. destruct (Hw h' Hin) as (? & ? & Hn). split; [set_solver|]. split; [done|].
      intros g'. rewrite handle_set. case_decide; [|apply Hn]. intros [= <-]. done.
    + intros h' [->%elem_of_singleton|Hin]%elem_of_union.
      * right. left. exists g. by rewrite handle_set, decide_True.
      * destruct (Ha h' Hin) as [?|[[g' Hg']|?]]; [auto| |auto]. right. left. exists g'.
        rewrite handle_set, decide_False; [done|]. intros ->. congruence.
  - assert (forall g', lf_handles (set_handle g None [] s) g' = lf_handles s g') as He.
    { intros g'. rewrite handle_set. case_decide; [by subst|done]. }
    split; cbn [lf_relay_workers]; [intros g' h'|intros g1 g2 h'|intros h' Hin|done|intros h' Hin|done].
    + rewrite He. apply Hh.
    + rewrite !He. apply H1.
    + destruct (Hw h' Hin) as (? & ? & Hn). split; [done|]. split; [done|]. intros g'. rewrite He. apply Hn.
    + destruct (Ha h' Hin) as [?|[[g' Hg']|?]]; [auto| |auto]. right. left. exists g'. by rewrite He.
Qed.

Lemma close_handle_inv base g s : life_inv base s -> life_inv base (close_handle g s).
Proof.
  unfold close_handle. destruct (lf_handles s g) as [h|] eqn:Hg; [|done].
  unfold life_inv. cbn [set_handle lf_events]. intros Hi. rewrite run_handles_app.
  destruct (run_handles base (lf_events s)) as [| |o]; [done..|]. destruct Hi as [Hh H1 Hw Hnd Ha Hb].
  destruct (Hh g h Hg) as [Hho Hhb]. cbn [run_handles]. rewrite decide_True by done.
  split; cbn [lf_relay_workers]; [| | |done| |set_solver].
  - intros g' h'. rewrite handle_set. case_decide as E; [done|]. intros Hg'. destruct (Hh g' h' Hg').
    assert (h' <> h) by (intros ->; apply E; by eapply H1). set_solver.
  - intros g1 g2 h'. rewrite !handle_set. repeat case_decide; try done. apply H1.
  - intros h' Hin. destruct (Hw h' Hin) as (? & ? & Hn). assert (h' <> h) by (intros ->; by apply (Hn g)).
    split; [set_solver|]. split; [done|]. intros g'. rewrite handle_set. case_decide; [done|apply Hn].
  - intros h' [Hin Hne]%elem_of_difference. destruct (Ha h' Hin) as [?|[[g' Hg']|?]]; [auto| |auto]. right. left. exists g'.
    rewrite handle_set, decide_False; [done|]. intros ->. set_solver.
Qed.

Lemma handle_close g s g' : lf_handles (close_handle g s) g' = if decide (g' = g) then None else lf_handles s g'.
Proof.
  unfold close_handle. destruct (lf_handles s g) as [h|] eqn:Hg; [by rewrite handle_set|].
  case_decide; [by subst|done].
Qed.

Lemma close_handle_rest g s :
  lf_running (close_handle g s) = lf_running s /\ lf_relay_workers (close_handle g s) = lf_relay_workers s.
Proof. unfold close_handle. by destruct (lf_handles s g). Qed.

Lemma close_all_spec base gs s :
  (life_inv base s -> life_inv base (close_all gs s)) /\
  (forall g, lf_handles (close_all gs s) g = if decide (g ∈ gs) then None else lf_handles s g) /\
  lf_running (close_all gs s) = lf_running s /\ lf_relay_workers (close_all gs s) = lf_relay_workers s.
Proof.
  unfold close_all. revert s. induction gs as [|g gs IH]; intros s; cbn [fold_left].
  { split; [done|]. split; [|done]. intros g. by rewrite decide_False by apply not_elem_of_nil. }
  destruct (IH (close_handle g s)) as (Hi & Hh & Hr & Hw). destruct (close_handle_rest g s) as [Er Ew].
  split; [intros H; by apply Hi, close_handle_inv|]. split; [|split; congruence].
  intros g'. rewrite Hh, handle_close.
  destruct (decide (g' ∈ gs)), (decide (g' = g)), (decide (g' ∈ g :: gs)); set_solver.
Qed.

(** ** Parts that create some of the handles *)

(** [f] creates at most the handles [gs], which have to be free. *)
Definition creates (f : LState -> LState * bool) (gs : list global) : Prop :=
  forall base s, life_inv base s -> (forall g, g ∈ gs -> lf_handles s g = None) ->
  let s' := fst (f s) in
  life_inv base s' /\ (forall g, g ∉ gs -> lf_handles s' g = lf_handles s g) /\
  lf_running s' = lf_running s /\ lf_relay_workers s' = lf_relay_workers s.

Lemma creates_create e g : creates (create e g) [g].
Proof.
  intros base s Hi Hg. split; [apply create_inv; [done|apply Hg; left]|]. split; [|done].
  intros g' Hg'. cbn [create fst]. rewrite handle_set, decide_False; [done|]. intros ->. apply Hg'. left.
Qed.

Lemma creates_ready b : creates (ready b) [].
Proof. by intros base s Hi _. Qed.

Lemma creates_steps fs gss :
  Forall2 creates fs gss -> NoDup (concat gss) -> creates (run_steps fs) (concat gss).
Proof.
  induction 1 as [|f gs fs gss Hf _ IH]; intros Hnd base s Hi Hg; cbn [run_steps concat] in *; [done|].
  apply NoDup_app in Hnd as (_ & Hx & Hnd). destruct (Hf base s Hi) as (H1 & H2 & H3 & H4); [set_solver|].
  destruct (f s) as [s1 ok]. cbn [fst] in *. destruct ok.
  - destruct (IH Hnd base s1 H1) as (G1 & G2 & G3 & G4).
    { intros g Hin. rewrite H2; [set_solver|]. intros Hgs. by apply (Hx g). }
    split; [done|]. split; [|split; congruence]. intros g Hn. rewrite G2 by set_solver. apply H2. set_solver.
  - split; [done|]. split; [|done]. intros g Hn. apply H2. set_solver.
Qed.

(** A part followed by the closing of some handles when it fails. *)
Lemma creates_or_closes f gs cs :
  creates f gs -> cs ⊆ gs ->
  creates (fun s => let '(s, ok) := f s in if (ok : bool) then (s, true) else (close_all cs s, false)) gs.
Proof.
  intros Hf Hc base s Hi Hg. destruct (Hf base s Hi Hg) as (H1 & H2 & H3 & H4). destruct (f s) as [s1 ok].
  cbn [fst] in *. destruct ok; [done|]. destruct (close_all_spec base cs s1) as (G1 & G2 & G3 & G4). cbn [fst].
  split; [auto|]. split; [|split; congruence]. intros g Hn. rewrite G2, decide_False; [auto|]. set_solver.
Qed.

Definition owner_globals : list global :=
  [owner_update_event; owner_socket_handle; owner_flow_handle; owner_socket_thread; owner_flow_thread].

Lemma creates_owner_threads e : creates (start_owner_threads e) [owner_socket_thread; owner_flow_thread].
Proof.
  intros base s Hi Hg. unfold start_owner_threads.
  destruct (creates_create e owner_socket_thread base s Hi) as (H1 & H2 & H3 & H4); [set_solver|].
  destruct (create e owner_socket_thread s) as [s1 ok1]. cbn [fst] in *.
  destruct (creates_create e owner_flow_thread base s1 H1) as (G1 & G2 & G3 & G4).
  { intros g Hin. rewrite H2; [apply Hg; set_solver|set_solver]. }
  destruct (create e owner_flow_thread s1) as [s2 ok2]. cbn [fst] in *. split; [done|]. split; [|split; congruence].
  intros g Hn. rewrite G2, H2; [done|set_solver..].
Qed.

Lemma creates_owner_observers e : creates (start_owner_observers e) owner_globals.
Proof.
  intros base s Hi Hg. unfold start_owner_observers.
  destruct (creates_create e owner_update_event base s Hi) as (H1 & H2 & H3 & H4); [intros g ?; apply Hg; set_solver|].
  destruct (create e owner_update_event s) as [s1 ok]. cbn [fst] in *.
  destruct ok; cbn [negb]; [|split; [done|]; split; [intros g Hn; apply H2; set_solver|done]].
  set (fs := [create e owner_socket_handle; create e owner_flow_handle; start_owner_threads e]).
  assert (creates (run_steps fs) [owner_socket_handle; owner_flow_handle; owner_socket_thread; owner_flow_thread]) as Hsteps.
  { apply (creates_steps fs [[owner_socket_handle]; [owner_flow_handle]; [owner_socket_thread; owner_flow_thread]]).
    - do 2 (constructor; [apply creates_create|]). constructor; [apply creates_owner_threads|constructor].
    - apply (bool_decide_eq_true_1 _). reflexivity. }
  destruct (Hsteps base s1 H1) as (G1 & G2 & G3 & G4).
  { intros g Hin. rewrite H2; [apply Hg; set_solver|set_solver]. }
  destruct (run_steps fs s1) as [s2 ok2]. cbn [fst] in *.
  assert (forall g, g ∉ owner_globals -> lf_handles s2 g = lf_handles s g) as Hout.
  { intros g Hn. rewrite G2, H2; [done|set_solver..]. }
  destruct ok2; [cbn [fst]; split; [done|]; split; [done|]; split; congruence|].
  destruct (close_all_spec base [owner_socket_handle; owner_flow_handle; owner_socket_thread; owner_flow_thread;
    owner_update_event] s2) as (C1 & C2 & C3 & C4).
  cbn [fst]. unfold stop_owner_observers. split; [auto|]. split; [|split; congruence].
  intros g Hn. rewrite C2, decide_False; [auto|set_solver].
Qed.

Definition step_globals (socks5 : bool) : list (list global) :=
  [owner_globals; [proxy_thread]; []] ++ (if socks5 then [[udp_relay_thread]; []] else []) ++
  [[cleanup_thread]; [windivert_handle]; [packet_thread]].

Lemma step_globals_apart socks5 g :
  g ∈ concat (step_globals socks5) -> (g ∉ [g_relay_done_event; g_iocp]) /\ (g ∉ lifecycle_events).
Proof.
  intros Hg. enough (Forall (fun g => (g ∉ [g_relay_done_event; g_iocp]) /\ (g ∉ lifecycle_events))
    (concat (step_globals socks5))) as H by (rewrite Forall_forall in H; by apply H).
  destruct socks5; apply (bool_decide_eq_true_1 _); reflexivity.
Qed.

Lemma creates_start e socks5 : creates (run_steps (start_steps e socks5)) (concat (step_globals socks5)).
Proof.
  apply creates_steps.
  - unfold start_steps, step_globals. destruct socks5; cbn [app];
      repeat (constructor; [first [apply creates_owner_observers|apply creates_create|apply creates_ready]|]); constructor.
  - apply (bool_decide_eq_true_1 _). by destruct socks5.
Qed.

Lemma creates_lifecycle e :
  creates (fun s => (fold_left (fun s g => fst (create e g s)) lifecycle_events s, true)) lifecycle_events.
Proof.
  enough (forall gs, NoDup gs -> creates (fun s => (fold_left (fun s g => fst (create e g s)) gs s, true)) gs) as H
    by (apply H, (bool_decide_eq_true_1 _); reflexivity).
  induction gs as [|g gs IH]; intros Hnd base s Hi Hg; cbn [fold_left fst]; [done|].
  apply NoDup_cons in Hnd as [Hn Hnd]. destruct (creates_create e g base s Hi) as (H1 & H2 & H3 & H4); [set_solver|].
  destruct (IH Hnd base _ H1) as (G1 & G2 & G3 & G4); [intros g' Hin; rewrite H2; set_solver|]. cbn [fst] in *.
  split; [done|]. split; [|split; congruence]. intros g' Hn'. rewrite G2, H2; [done|set_solver..].
Qed.

(** ** The pool's threads *)

Lemma run_opens o l :
  run_handles o (map Opened l) = Illegal \/
  run_handles o (map Opened l) = Running (list_to_set l ∪ o) /\ NoDup l /\ forall h, h ∈ l -> h ∉ o.
Proof.
  revert o. induction l as [|h l IH]; intros o; cbn [map run_handles].
  { right. split; [f_equal; set_solver|]. split; [apply NoDup_nil_2|]. by intros h ?%elem_of_nil. }
  case_decide as Ho; [by left|]. destruct (IH ({[h]} ∪ o)) as [->|(-> & Hnd & Hn)]; [by left|]. right.
  split; [f_equal; set_solver|]. split; [apply NoDup_cons; split; [|done]; intros Hin; apply (Hn h Hin); set_solver|].
  intros h' [->|Hin]%elem_of_cons; [done|]. specialize (Hn h' Hin). set_solver.
Qed.

Lemma run_closes o l :
  NoDup l -> (forall h, h ∈ l -> h ∈ o) -> run_handles o (map Closed l) = Running (o ∖ list_to_set l).
Proof.
  revert o. induction l as [|h l IH]; intros o Hnd Ho; cbn [map run_handles].
  - f_equal. set_solver.
  - apply NoDup_cons in Hnd as [Hn Hnd]. rewrite decide_True by (apply Ho; left). rewrite IH; [f_equal; set_solver|done|].
    intros h' Hin. assert (h' <> h) by (intros ->; done). specialize (Ho h'). set_solver.
Qed.

Lemma set_workers_open base l s :
  life_inv base s -> lf_relay_workers s = [] -> life_inv base (set_workers l (map Opened l) s).
Proof.
  unfold life_inv. cbn [set_workers lf_events]. intros Hi Hw. rewrite run_handles_app.
  destruct (run_handles base (lf_events s)) as [| |o]; [done..|]. destruct Hi as [Hh H1 _ _ Ha Hb].
  destruct (run_opens o l) as [->|(-> & Hnd & Hn)]; [done|]. split; cbn [set_workers lf_handles lf_relay_workers]; [| | |done| |set_solver].
  - intros g h Hg. destruct (Hh g h Hg). set_solver.
  - apply H1.
  - intros h Hin. specialize (Hn h Hin). split; [set_solver|]. split; [set_solver|]. intros g Hg. by destruct (Hh g h Hg).
  - intros h [Hin|Hin]%elem_of_union; [set_solver|]. destruct (Ha h Hin) as [?|[?|Hin']]; [auto..|]. rewrite Hw in Hin'. by apply elem_of_nil in Hin'.
Qed.

Lemma set_workers_close base s :
  life_inv base s -> life_inv base (set_workers [] (map Closed (lf_relay_workers s)) s).
Proof.
  unfold life_inv. cbn [set_workers lf_events]. intros Hi. rewrite run_handles_app.
  destruct (run_handles base (lf_events s)) as [| |o]; [done..|]. destruct Hi as [Hh H1 Hw Hnd Ha Hb].
  rewrite run_closes by (try done; intros h Hin; by apply Hw).
  split; cbn [set_workers lf_handles lf_relay_workers].
  - intros g h Hg. destruct (Hh g h Hg). split; [|done]. apply elem_of_difference. split; [done|].
    intros Hin%elem_of_list_to_set. destruct (Hw h Hin) as (_ & _ & Hno). by apply (Hno g).
  - apply H1.
  - by intros h ?%elem_of_nil.
  - apply NoDup_nil_2.
  - intros h [Hin Hn]%elem_of_difference. rewrite elem_of_list_to_set in Hn. destruct (Ha h Hin) as [?|[?|?]]; auto. done.
  - intros h Hin. apply elem_of_difference. split; [by apply Hb|]. intros Hl%elem_of_list_to_set. by destruct (Hw h Hl) as (_ & ? & _).
Qed.

Lemma running_inv base b s : life_inv base s -> life_inv base (set_running b s).
Proof.
  unfold life_inv. cbn [set_running lf_events]. destruct (run_handles _ _) as [| |o]; [done..|].
  intros [Hh H1 Hw Hnd Ha Hb]. by split.
Qed.

(** Without the port there is no event of the pool and no thread of it. *)
Definition pool_ok (s : LState) : Prop :=
  lf_handles s g_iocp = None -> lf_handles s g_relay_done_event = None /\ lf_relay_workers s = [].

Lemma relay_pool_start_spec base e s :
  life_inv base s -> lf_handles s g_iocp = None -> lf_handles s g_relay_done_event = None ->
  lf_relay_workers s = [] ->
  let s' := fst (relay_pool_start e s) in
  life_inv base s' /\ pool_ok s' /\ lf_running s' = lf_running s /\
  forall g, g ∉ [g_relay_done_event; g_iocp] -> lf_handles s' g = lf_handles s g.
Proof.
  intros Hi Hp Hd Hw. unfold relay_pool_start. rewrite Hp. cbn [created].
  destruct (creates_create e g_relay_done_event base s Hi) as (H1 & H2 & H3 & H4); [set_solver|].
  destruct (create e g_relay_done_event s) as [s1 ok1] eqn:E1. cbn [fst] in *.
  assert (lf_handles s1 g_iocp = None) as Hp1 by (rewrite H2; [done|set_solver]).
  destruct ok1; cbn [negb].
  2:{ cbn [fst]. assert (lf_handles s1 g_relay_done_event = None) as Hd1.
      { unfold create in E1. injection E1 as <- Hc. rewrite handle_set, decide_True by done. by destruct (se_creates e _). }
      split; [done|]. split; [intros _; split; congruence|]. split; [done|]. intros g Hn. apply H2. set_solver. }
  destruct (creates_create e g_iocp base s1 H1) as (G1 & G2 & G3 & G4); [set_solver|].
  destruct (create e g_iocp s1) as [s2 ok2] eqn:E2. cbn [fst] in *.
  assert (lf_relay_workers s2 = []) as Hw2 by congruence.
  destruct ok2; cbn [negb].
  2:{ cbn [fst]. destruct (close_handle_rest g_relay_done_event s2) as [C1 C2].
      split; [by apply close_handle_inv|]. split; [intros _; rewrite handle_close, decide_True by done; split; congruence|].
      split; [congruence|]. intros g Hn. rewrite handle_close, decide_False, G2, H2 by set_solver. done. }
  pose proof (set_workers_open base (pool_workers e) s2 G1 Hw2) as K1.
  set (s3 := set_workers (pool_workers e) (map Opened (pool_workers e)) s2) in *.
  assert (forall g, g ∉ [g_relay_done_event; g_iocp] -> lf_handles s3 g = lf_handles s g) as Hout
    by (intros g Hn; cbn; rewrite G2, H2; [done|set_solver..]).
  destruct (is_empty (pool_workers e)) eqn:Ew; cbn [fst].
  - destruct (close_handle_rest g_iocp s3) as [C1 C2].
    destruct (close_handle_rest g_relay_done_event (close_handle g_iocp s3)) as [D1 D2].
    split; [by do 2 apply close_handle_inv|]. split.
    { intros _. rewrite !handle_close, decide_True by done. split; [done|]. rewrite D2, C2. cbn. by destruct (pool_workers e). }
    split; [rewrite D1, C1; cbn; congruence|]. intros g Hn. rewrite !handle_close, !decide_False by set_solver. auto.
  - split; [done|]. split; [|split; [cbn; congruence|done]]. intros Hn.
    exfalso. unfold create in E2. injection E2 as <- Hc. cbn in Hn. by rewrite Hn in Hc.
Qed.

(** ** Stopping *)

Definition quiet (s : LState) : Prop :=
  lf_running s = false /\ (forall g, lf_handles s g = None) /\ lf_relay_workers s = [].

Lemma runtime_stop_spec base s :
  life_inv base s -> pool_ok s -> life_inv base (runtime_stop s) /\ quiet (runtime_stop s).
Proof.
  intros Hi Hp. unfold runtime_stop, close_lifecycle_events, wait_for_runtime_workers, request_runtime_stop, stop_owner_observers.
  set (l1 := [owner_socket_handle; owner_flow_handle; owner_socket_thread; owner_flow_thread; owner_update_event]).
  set (l2 := [packet_thread; windivert_handle; proxy_thread; udp_relay_thread; cleanup_thread]).
  destruct (close_all_spec base l1 (set_running false s)) as (A1 & A2 & A3 & A4).
  destruct (close_all_spec base l2 (close_all l1 (set_running false s))) as (B1 & B2 & B3 & B4).
  set (s2 := close_all l2 (close_all l1 (set_running false s))) in *.
  assert (life_inv base s2) as Hi2 by (by apply B1, A1, running_inv).
  assert (pool_ok s2) as Hp2.
  { unfold pool_ok. rewrite !B2, !A2, B4, A4. exact Hp. }
  assert (lf_running s2 = false) as Hr2 by (by rewrite B3, A3).
  assert (exists s3, relay_pool_stop s2 = s3 /\ life_inv base s3 /\ lf_running s3 = false /\ lf_relay_workers s3 = [] /\
    lf_handles s3 g_iocp = None /\ lf_handles s3 g_relay_done_event = None /\
    forall g, g ∈ l1 \/ g ∈ l2 -> lf_handles s3 g = None) as (s3 & -> & H1 & H2 & H3 & H4 & H5 & H6).
  { eexists. split; [reflexivity|]. unfold relay_pool_stop.
    assert (forall g, g ∈ l1 \/ g ∈ l2 -> lf_handles s2 g = None) as Hn.
    { intros g Hg. rewrite B2, A2. repeat case_decide; [done..|]. tauto. }
    destruct (lf_handles s2 g_iocp) eqn:E; cbn [created negb].
    - destruct (close_all_spec base [g_iocp; g_relay_done_event]
        (set_workers [] (map Closed (lf_relay_workers s2)) s2)) as (C1 & C2 & C3 & C4).
      split; [by apply C1, set_workers_close|]. split; [by rewrite C3|]. split; [by rewrite C4|].
      rewrite !C2, !decide_True by set_solver. split; [done|]. split; [done|].
      intros g Hg. rewrite C2. case_decide; [done|]. by apply Hn.
    - destruct (Hp2 E). by repeat split. }
  destruct (close_all_spec base lifecycle_events s3) as (D1 & D2 & D3 & D4).
  split; [by apply D1|]. split; [by rewrite D3|]. split; [|by rewrite D4]. intros g. rewrite D2. case_decide as Hg; [done|].
  assert (g = g_iocp \/ g = g_relay_done_event \/ (g ∈ l1 \/ g ∈ l2) \/ g ∈ lifecycle_events) as Hc
    by (destruct g; apply (bool_decide_eq_true_1 _); reflexivity).
  by destruct Hc as [-> | [-> | [Hc | Hc]]]; auto.
Qed.

(** ** Start and Stop *)

Lemma quiet_start base e socks5 s :
  life_inv base s -> quiet s ->
  let '(s', ok) := ProxyBridge_Start e socks5 s in
  life_inv base s' /\ if (ok : bool) then lf_running s' = true /\ pool_ok s' else quiet s'.
Proof.
  intros Hi (Hr & Hn & Hw). unfold ProxyBridge_Start. rewrite Hr. unfold create_lifecycle_events.
  destruct (creates_lifecycle e base s Hi) as (A1 & A2 & A3 & A4); [intros; apply Hn|].
  set (s1 := fold_left (fun s g => fst (create e g s)) lifecycle_events s) in *. cbn [fst] in *.
  destruct (forallb _ _) eqn:Ef.
  2:{ cbn [negb]. destruct (close_all_spec base lifecycle_events s1) as (B1 & B2 & B3 & B4).
      split; [by apply B1|]. split; [unfold close_lifecycle_events; congruence|].
      split; [|unfold close_lifecycle_events; congruence]. intros g. unfold close_lifecycle_events. rewrite B2.
      case_decide; [done|]. by rewrite A2. }
  cbn [negb]. destruct (relay_pool_start_spec base e (set_running true s1)) as (P1 & P2 & P3 & P4);
    [by apply running_inv
    |cbn [set_running lf_handles]; rewrite A2; [apply Hn|apply (bool_decide_eq_true_1 _); reflexivity]..
    |cbn [set_running lf_relay_workers]; congruence|].
  set (s2 := fst (relay_pool_start e (set_running true s1))) in *.
  destruct (creates_start e socks5 base s2 P1) as (S1 & S2 & S3 & S4).
  { intros g Hg. destruct (step_globals_apart socks5 g Hg) as [Hd Hl]. rewrite P4 by done.
    cbn [set_running lf_handles]. rewrite A2; [apply Hn|done]. }
  destruct (run_steps (start_steps e socks5) s2) as [s3 ok]. cbn [fst] in *.
  assert (pool_ok s3) as Hp3.
  { unfold pool_ok. rewrite !S2, S4; [exact P2|..];
      intros Hg; destruct (step_globals_apart socks5 _ Hg) as [Hd _]; apply Hd; repeat constructor. }
  destruct ok; [split; [done|]; split; [rewrite S3, P3; done|done]|]. by apply runtime_stop_spec.
Qed.

(** The calls of the user interface, one after the other. *)
Inductive life_call := Start (e : StartEnv) (socks5 : bool) | Stop.

Definition life_step (s : LState) (c : life_call) : LState :=
  match c with
  | Start e socks5 => fst (ProxyBridge_Start e socks5 s)
  | Stop => fst (ProxyBridge_Stop s)
  end.
Definition life_run (calls : list life_call) (s : LState) : LState := fold_left life_step calls s.

(** Between two calls: running with its pool, or with nothing at all. *)
Definition life_ok (base : gset Z) (s : LState) : Prop :=
  life_inv base s /\ if lf_running s then pool_ok s else quiet s.

Lemma life_step_ok base c s : life_ok base s -> life_ok base (life_step s c).
Proof.
  intros [Hi Hs]. destruct c as [e socks5|]; cbn [life_step].
  - destruct (lf_running s) eqn:Er.
    + unfold ProxyBridge_Start. rewrite Er. cbn [fst]. split; [done|by rewrite Er].
    + pose proof (quiet_start base e socks5 s Hi Hs) as H. destruct (ProxyBridge_Start e socks5 s) as [s1 ok].
      destruct H as [H1 H2]. cbn [fst]. split; [done|]. destruct ok; [by destruct H2 as [-> ?]|by rewrite (proj1 H2)].
  - unfold ProxyBridge_Stop. destruct (lf_running s) eqn:Er; cbn [negb fst]; [|by split; [|rewrite Er]].
    destruct (runtime_stop_spec base s Hi Hs) as [H1 H2]. split; [done|]. by rewrite (proj1 H2).
Qed.

Lemma life_run_ok base calls s : life_ok base s -> life_ok base (life_run calls s).
Proof. revert s. induction calls as [|c calls IH]; intros s Hs; [done|]. by apply IH, life_step_ok. Qed.

(** C16: After any sequence of Starts, whatever fails in them, and Stops: no handle
    was closed twice or when it was not open, and whenever the engine is not
    running no variable holds a handle and none is left open. *)
Theorem start_stop_balanced calls open :
  let s := life_run calls life_init in
  (lf_running s = false -> quiet s) /\
  match run_handles open (lf_events s) with
  | Illegal => True
  | Fault => False
  | Running open' => lf_running s = false -> open' = open
  end.
Proof.
  cbn zeta. assert (life_ok open life_init) as H0.
  { split; [|done]. split; try done; [intros h ?%elem_of_nil; done|apply NoDup_nil_2|auto]. }
  destruct (life_run_ok open calls life_init H0) as [Hi Hs]. set (s := life_run calls life_init) in *.
  split; [intros Hr; by rewrite Hr in Hs|]. revert Hi. unfold life_inv. destruct (run_handles _ _) as [| |o]; [done..|].
  intros [_ _ _ _ Ha Hb] Hr. rewrite Hr in Hs. destruct Hs as (_ & Hn & Hw). apply leibniz_equiv. intros h. split; [|apply Hb].
  intros Hin. destruct (Ha h Hin) as [?|[[g Hg]|Hin']]; [done|by rewrite Hn in Hg|]. rewrite Hw in Hin'. by apply elem_of_nil in Hin'.
Qed.
