(* ===== verification/Scenarios.v ===== *)
(** * Concrete inputs of the components

    Patterns, rules, proxy configurations, DNS answers, owners and flows on
    which the hypotheses of the components' theorems hold, with what the
    theorems then say. *)
From S2P Require Import Prelude CLib HashTable Util Types Matching ProxyConfig Dns Process Rules.
From S2P Require Import Policy ConnTrack DirectCache.

(** ** The environment *)

#[export] Instance demo_platform : Platform :=
  {| malloc_ok := fun _ => true; scan_overflow := fun _ => 0;
     inet_pton6 := fun s => if strcmp0 s (str "::1") then Some loopback6 else None;
     getaddrinfo4 := fun s => if strcmp0 s (str "proxy.lan") then Some (ipv4 10 0 0 9) else None |}.

#[export] Instance demo_images : ProcessImages :=
  {| image_utf8 := fun pid => if pid =? 42 then Some (str "C:\apps\app.exe") else None |}.

Definition demo_allocs : AddAllocs := mkAllocs true true true true.

(** ** Patterns *)

Lemma parse_token_list_spec_witness :
  parse_token_list (Some (str "80; 443;8000-9000")) (str ";")
    (fun t => match_port_pattern (Some t) 8080) = true /\
  existsb (fun t => match_port_pattern (Some (skip_whitespace t)) 8080)
    (tokens (str ";") (take (Z.to_nat MAX_LIST_SIZE) (str "80; 443;8000-9000"))) = true.
Proof.
  split; [vm_compute; reflexivity|].
  rewrite <- (parse_token_list_spec (str "80; 443;8000-9000") (str ";")
                (fun t => match_port_pattern (Some t) 8080)).
  - vm_compute. reflexivity.
  - reflexivity.
  - discriminate.
  - discriminate.
Defined.

Lemma match_process_pattern_glob_witness :
  match_process_pattern (Some (str "APP*.exe")) (str "C:\apps\app64.exe") = true /\
  glob (str "APP*.exe") (process_target (str "APP*.exe") (str "C:\apps\app64.exe")).
Proof.
  split; [vm_compute; reflexivity|].
  apply match_process_pattern_glob; [discriminate|vm_compute; reflexivity].
Defined.

Definition demo_net : bytes := [0x20; 0x01; 0x0d; 0xb8; 0x40; 0; 0; 0; 0; 0; 0; 0; 0; 0; 0; 0].
Definition demo_host6 : bytes := [0x20; 0x01; 0x0d; 0xb8; 0x5f; 0; 0; 0; 0; 0; 0; 0; 0; 0; 0; 7].

Lemma match_cidr_v6_spec_witness :
  match_cidr_v6 demo_net demo_host6 35 =
    (be_value demo_host6 / 2 ^ (128 - 35) =? be_value demo_net / 2 ^ (128 - 35)) /\
  match_cidr_v6 demo_net demo_host6 35 = true /\ match_cidr_v6 demo_net demo_host6 36 = false.
Proof.
  split; [|by vm_compute].
  apply match_cidr_v6_spec; [lia|reflexivity|reflexivity|..]; repeat constructor; unfold is_octet; lia.
Defined.

Lemma match_ip_range_spec_witness :
  match_ip_pattern (Some (str "10.0.0.5-10.0.1.4")) (ipv4 10 0 0 200) = true.
Proof.
  change (str "10.0.0.5-10.0.1.4") with (print_quad 10 0 0 5 ++ c_dash :: print_quad 10 0 1 4).
  rewrite match_ip_range_spec; [by vm_compute|]. repeat constructor; unfold is_octet; lia.
Defined.

Lemma match_ip_quad_spec_witness :
  match_ip_pattern (Some (str "192.168.*.7")) (ipv4 192 168 33 7) = true.
Proof.
  change (str "192.168.*.7") with (render_octet (Some 192) ++ c_dot :: render_octet (Some 168) ++ c_dot ::
    render_octet None ++ c_dot :: render_octet (Some 7)).
  rewrite match_ip_quad_spec; [by vm_compute|]. repeat constructor; unfold octet_ok, is_octet; lia.
Defined.

(** ** Rules *)

Definition add_demo (name : string) (act : RuleAction) (s : RuleStore) : RuleStore :=
  fst (ProxyBridge_AddRule true demo_allocs s (Some (str name)) None None None RULE_PROTOCOL_BOTH act 0).

Definition three_rules : RuleStore :=
  add_demo "c.exe" RULE_ACTION_DIRECT (add_demo "b.exe" RULE_ACTION_BLOCK
    (add_demo "a.exe" RULE_ACTION_PROXY rules_init)).

Definition op_demo (name : string) (act : RuleAction) : rule_op :=
  OpAddRule demo_allocs (Some (str name)) None None None RULE_PROTOCOL_BOTH act 0.

Lemma three_rules_reach : rules_reach true 3 three_rules.
Proof.
  apply (reach_step _ 2 (add_demo "b.exe" RULE_ACTION_BLOCK (add_demo "a.exe" RULE_ACTION_PROXY rules_init))
           (op_demo "c.exe" RULE_ACTION_DIRECT)); [|exact I|reflexivity].
  apply (reach_step _ 1 (add_demo "a.exe" RULE_ACTION_PROXY rules_init)
           (op_demo "b.exe" RULE_ACTION_BLOCK)); [|exact I|reflexivity].
  apply (reach_step _ 0 rules_init (op_demo "a.exe" RULE_ACTION_PROXY)); [|exact I|reflexivity].
  apply reach_init.
Defined.

Lemma rules_reachable_wf_witness : rules_wf three_rules.
Proof. apply (rules_reachable_wf true 3 three_rules three_rules_reach). lia. Defined.

Lemma three_rules_wf : rules_wf three_rules.
Proof.
  unfold three_rules, add_demo.
  do 3 (apply add_rule_wf; [|by vm_compute]). apply rules_init_wf.
Qed.

Lemma rule_change_invalidates_witness :
  exists s', apply_rule_op true three_rules (OpMoveRule 3 1) = Some s' /\
    rs_generation s' <> rs_generation three_rules.
Proof.
  destruct (apply_rule_op true three_rules (OpMoveRule 3 1)) as [s'|] eqn:E; [|vm_compute in E; discriminate].
  exists s'. split; [reflexivity|].
  apply (rule_change_invalidates true three_rules (OpMoveRule 3 1) s' three_rules_wf); [simpl; lia|exact E|].
  vm_compute in E. injection E as <-. vm_compute. discriminate.
Defined.

Lemma move_lands_witness :
  exists s', ProxyBridge_MoveRuleToPosition three_rules 1 2 = Moved s' /\
    ProxyBridge_GetRulePosition s' 1 = 2 /\ rules_list s' ≡ₚ rules_list three_rules /\
    map rule_id (rules_list s') = [2; 1; 3].
Proof.
  destruct (ProxyBridge_MoveRuleToPosition three_rules 1 2) as [s'| |] eqn:E;
    [|vm_compute in E; discriminate..].
  exists s'. split; [reflexivity|].
  destruct (move_lands three_rules 1 2 s' three_rules_wf) as (Hp & Hl & _); [lia|by vm_compute|exact E|].
  split; [rewrite Hp; vm_compute; reflexivity|]. split; [exact Hl|].
  vm_compute in E. injection E as <-. vm_compute. reflexivity.
Defined.

Lemma move_outcomes_witness :
  ProxyBridge_MoveRuleToPosition (add_demo "a.exe" RULE_ACTION_PROXY rules_init) 1 2 = MoveCrash /\
  ProxyBridge_MoveRuleToPosition three_rules 9 2 = NotMoved.
Proof.
  split.
  - apply move_outcomes; [lia|]. split; [lia|]. split; [lia|]. eexists. split; vm_compute; reflexivity.
  - apply move_outcomes; [lia|]. right; right. repeat constructor; vm_compute; discriminate.
Defined.

Lemma add_rule_appends_witness :
  exists s' id, ProxyBridge_AddRule true demo_allocs three_rules (Some (str "d.exe")) None
      (Some (str "443")) None RULE_PROTOCOL_TCP RULE_ACTION_BLOCK 0 = (s', id) /\ id = 4 /\
    rules_list s' = rules_list three_rules ++
      [mkRule 4 (str "d.exe") (str "*") (str "443") (Some (str "*")) RULE_PROTOCOL_TCP RULE_ACTION_BLOCK 0 true].
Proof.
  destruct (ProxyBridge_AddRule true demo_allocs three_rules (Some (str "d.exe")) None
    (Some (str "443")) None RULE_PROTOCOL_TCP RULE_ACTION_BLOCK 0) as [s' id] eqn:E.
  exists s', id. split; [reflexivity|].
  assert (id = 4) as -> by (vm_compute in E; congruence). split; [reflexivity|].
  destruct (add_rule_appends true demo_allocs three_rules _ _ _ _ _ _ _ s' 4 three_rules_wf ltac:(by vm_compute) E)
    as (r & Hr & -> & _).
  rewrite Hr. reflexivity.
Defined.

(** ** Proxy configurations *)

Definition demo_store_ops : list store_op :=
  [OpAdd 1 (Some (str "proxy.lan")) 1080 None None true; OpAdd 0 (Some (str "10.0.0.8")) 8080 None None false;
   OpEdit 2 1 (Some (str "10.0.0.7")) 1081 None None true; OpDelete 1].

Lemma store_reachable_wf_witness :
  store_wf (fold_left apply_store_op demo_store_ops store_init) /\
  map config_id (g_proxy_configs (fold_left apply_store_op demo_store_ops store_init)) = [2].
Proof. split; [apply store_reachable_wf; vm_compute; reflexivity|by vm_compute]. Defined.

(** ** DNS *)

Definition demo_labels : list bytes := [str "www"; str "example"; str "com"].

Lemma demo_labels_ok : Forall label_ok demo_labels.
Proof. repeat constructor. Qed.

Definition demo_answer : bytes := a_response 7 9 demo_labels [0; 0; 1; 0] 93 184 216 34.

Lemma snoop_then_lookup_witness :
  exists s', snoop_dns_response true 1000 dns_cache_init demo_answer = Some s' /\
    dns_cache_lookup 2000 s' (ipv4 93 184 216 34) 256 = Some (str "www.example.com").
Proof.
  destruct (snoop_then_lookup 1000 2000 dns_cache_init 7 9 demo_labels [0; 0; 1; 0] 93 184 216 34)
    as (s' & Hs & Hl); [apply dns_init_wf|discriminate|apply demo_labels_ok| | |reflexivity|lia|by vm_compute|].
  - repeat constructor; vm_compute; discriminate.
  - vm_compute. lia.
  - exists s'. split; [exact Hs|exact Hl].
Defined.

Lemma demo_answer_octets : Forall is_octet demo_answer.
Proof. vm_compute. repeat constructor; discriminate. Qed.

Lemma snoop_attribution_witness :
  exists s', snoop_dns_response true 1000 dns_cache_init demo_answer = Some s' /\ dns_wf s' /\
    forall ip6, dns_cache_lookup_v6 2000 s' ip6 256 <> Some (str "www.other.com").
Proof.
  destruct (snoop_attribution true 1000 dns_cache_init demo_answer 2000 256 (str "www.other.com")
              dns_init_wf demo_answer_octets) as (s' & Hs & Hw & _ & H6).
  exists s'. split; [exact Hs|]. split; [exact Hw|]. intros ip6 Hl.
  destruct (H6 ip6 Hl) as [H|(q & off & E & Hd)].
  - rewrite dns_lookup_v6_find in H by apply dns_init_wf.
    replace (ht_find (g_dns_cache_v6 dns_cache_init) ip6) with (@None DNS_CACHE_ENTRY_V6) in H; [discriminate H|].
    unfold ht_find. cbn. unfold ht_empty. by rewrite bucket_replicate.
  - assert (dns_parse_name demo_answer 12 256 = NameOk (str "www.example.com") 29) as Hn by (vm_compute; reflexivity).
    rewrite Hn in E. injection E as <- _. vm_compute in Hd. discriminate Hd.
Defined.

Lemma dns_name_roundtrip_witness :
  dns_parse_name (replicate 12 0 ++ encode_name demo_labels ++ [0; 1] ++ pointer_to 12 ++ [])
    12 256 = NameOk (str "www.example.com") 29 /\
  dns_parse_name (replicate 12 0 ++ encode_name demo_labels ++ [0; 1] ++ pointer_to 12 ++ [])
    31 256 = NameOk (str "www.example.com") 33.
Proof.
  destruct (dns_name_roundtrip demo_labels (replicate 12 0) [0; 1] [] 256 demo_labels_ok) as [H1 H2];
    [vm_compute; reflexivity|vm_compute; reflexivity|]. split; [exact H1|exact H2].
Defined.

(** A pointer to itself: the parser gives up. *)
Lemma dns_parse_name_safe_witness : dns_parse_name [0xc0; 0] 0 256 = NameFail.
Proof.
  destruct (dns_parse_name_safe [0xc0; 0] 0 256) as [H|(dst & off & H & _)];
    [repeat constructor; unfold is_octet; lia|lia|lia|exact H|vm_compute in H; discriminate].
Defined.

(** ** Owners *)

(** The process with id 42 owns TCP port 50000, the one with id 43 UDP port 5353. *)
Definition demo_owners : Owners :=
  cache_owner_event true 1000
    (cache_owner_event true 1000 owners_init (make_v4_mapped_address (ipv4 192 168 0 2)) 50000
       (make_v4_mapped_address (ipv4 93 184 216 34)) 443 false 42 11 1)
    unspec6 5353 unspec6 0 true 43 12 1.

Lemma demo_owners_wf : owners_wf demo_owners.
Proof. apply cache_owner_event_wf, cache_owner_event_wf, owners_init_wf. Qed.

Lemma owner_event_best_witness :
  let pid := get_owner_event_pid 2000 (make_v4_mapped_address (ipv4 192 168 0 2)) 50000
               (make_v4_mapped_address (ipv4 93 184 216 34)) 443 false demo_owners in
  pid = 42 /\
  exists e h sc, 0 <= h /\ e ∈ bucket (owner_cache demo_owners) h /\
    owner_score 2000 (make_v4_mapped_address (ipv4 192 168 0 2)) 50000
      (make_v4_mapped_address (ipv4 93 184 216 34)) 443 false e = Some sc /\ oe_pid e = pid.
Proof.
  intros pid. assert (pid = 42) as Hp by (vm_compute; reflexivity).
  destruct (owner_event_best 2000 (make_v4_mapped_address (ipv4 192 168 0 2)) 50000
    (make_v4_mapped_address (ipv4 93 184 216 34)) 443 false demo_owners demo_owners_wf) as [_ Hb].
  split; [exact Hp|].
  destruct Hb as (e & h & sc & Hh & He & Hs & Hpid & _); [fold pid; rewrite Hp; discriminate|].
  exists e, h, sc. split; [exact Hh|]. split; [exact He|]. split; [exact Hs|exact Hpid].
Defined.

Definition mdns_entry : OWNER_CACHE_ENTRY :=
  mkOwner unspec6 unspec6 5353 0 true 12 1 43 1000.

Lemma endpoint_close_forgets_witness :
  let s' := remove_owner_event_endpoint demo_owners 12 1 in
  get_cached_pid 2000 s' (ipv4 192 168 0 2) 5353 true = 0 /\
  ow_generation s' <> ow_generation demo_owners.
Proof.
  destruct (endpoint_close_forgets demo_owners 12 1 mdns_entry (owner_cache_hash 5353 true) demo_owners_wf)
    as [_ Hu].
  - split; vm_compute; [discriminate|reflexivity].
  - vm_compute. reflexivity.
  - replace (bucket (owner_cache demo_owners) (owner_cache_hash 5353 true)) with [mdns_entry]
      by (vm_compute; reflexivity). left.
  - vm_compute. reflexivity.
  - destruct Hu as [Hc Hg]; [vm_compute; reflexivity|].
    split; [exact (Hc 2000 (ipv4 192 168 0 2))|exact Hg].
Defined.

(** A system whose table has grown from 20000 to 24000 bytes at the second call. *)
Definition demo_need (k : nat) : Z := match k with O => 20000 | _ => 24000 end.
Definition demo_table_call (k : nat) (room : Z) : Z * Z * list (owner_row Z) :=
  if demo_need k <=? room then (0, demo_need k, []) else (ERROR_INSUFFICIENT_BUFFER, demo_need k, []).

Lemma owner_table_fetch_safe_witness :
  exists s' r, owner_table_fetch demo_table_call (fun _ => true) scratch_init = (s', r) /\
    r <> Overrun /\ g_pidtbl_cap s' = 32768.
Proof.
  destruct (owner_table_fetch demo_table_call (fun _ => true) scratch_init) as [s' r] eqn:E.
  exists s', r. split; [reflexivity|].
  destruct (owner_table_fetch_safe demo_table_call (fun _ => true) scratch_init s' r) as (Hr & _).
  - intros k room. unfold demo_table_call. destruct k; simpl; case_match; simpl; lia.
  - split; simpl; [lia|]. split; [discriminate|lia].
  - exact E.
  - split; [exact Hr|]. vm_compute in E. injection E as <- _. reflexivity.
Defined.

Lemma owner_table_fetch_succeeds_witness :
  exists k : nat, snd (owner_table_fetch demo_table_call (fun _ => true) scratch_init) = Table [].
Proof.
  apply (owner_table_fetch_succeeds demo_table_call (fun _ => true) scratch_init demo_need (fun _ => [])).
  - intros k room. unfold demo_table_call. split; intros H.
    + rewrite (proj2 (Z.leb_le _ _) H). reflexivity.
    + rewrite (proj2 (Z.leb_gt _ _) H). reflexivity.
  - split; simpl; [lia|]. split; [discriminate|lia].
  - reflexivity.
  - vm_compute. discriminate.
  - vm_compute. reflexivity.
  - vm_compute. discriminate.
Defined.

(** An owner that an observer reports between the first and the second turn. *)
Definition demo_turns : list (Turn Z) :=
  [mkTurn [] 2000 2000 2000 None true 2000;
   mkTurn [EvCache true 2050 (make_v4_mapped_address (ipv4 192 168 0 2)) 50001
             (make_v4_mapped_address (ipv4 93 184 216 34)) 443 false 44 13 1] 2050 2050 2050 None true 2050;
   mkTurn [] 2100 2100 2100 None true 2100].

Lemma resolve_bounded_witness :
  exists s' pid,
    resolve_loop (lookup_v4 (ipv4 192 168 0 2) 50001 (ipv4 93 184 216 34) 443 false) 2100 demo_turns demo_owners =
    Resolved s' pid /\ pid = 44.
Proof.
  destruct (resolve_bounded (lookup_v4 (ipv4 192 168 0 2) 50001 (ipv4 93 184 216 34) 443 false) 2100
              demo_turns demo_owners) as (s' & pid & H & _).
  - eexists. split; [right; right; left|]. simpl. lia.
  - exists s', pid. split; [exact H|]. vm_compute in H. congruence.
Defined.

(** ** Cached direct decisions *)

Definition demo_remembered : list remembered :=
  [mkRemembered 1000 false [192; 168; 0; 2] 5000 [8; 8; 8; 8] 53 7;
   mkRemembered 2000 false [192; 168; 0; 2] 5001 [9; 9; 9; 9] 53 7].

Lemma udp_direct_sound_witness :
  exists r, r ∈ demo_remembered /\ rm_sport r = 5001 /\ 6500 < rm_now r + 5000.
Proof.
  destruct (udp_direct_sound demo_remembered 6500 7 false [192; 168; 0; 2] 5001 [9; 9; 9; 9] 53)
    as (r & Hr & E & Hn).
  - repeat constructor; vm_compute; congruence.
  - lia.
  - reflexivity.
  - reflexivity.
  - vm_compute. reflexivity.
  - exists r. split; [exact Hr|]. split; [rewrite E; reflexivity|exact Hn].
Defined.
