(* ===== verification/Witnesses.v ===== *)
(** * Concrete flows and packets

    Tables of flows and a processor state, with rules, proxies and owners, on
    which the hypotheses of the theorems about tracking and about whole packets
    hold. *)
From S2P Require Import Prelude CLib HashTable Util Types Matching ProxyConfig Dns Process Rules.
From S2P Require Import Policy ConnTrack DirectCache ConnLog PortBitmap Packet PacketSafety.
From S2P Require Import PacketPolicy PacketVerdicts Scenarios.

(** ** The environment *)

Definition isSome {A} (o : option A) : bool := match o with Some _ => true | None => false end.

(** Run a total computation without computing its result. *)
Ltac run t x E :=
  let H := fresh in
  assert (H : isSome t = true) by (vm_compute; reflexivity);
  destruct t as [x|] eqn:E; [clear H|discriminate H].

(** One rule: the program's TCP and UDP traffic goes through configuration 1. *)
Definition demo_rules : RuleStore :=
  fst (ProxyBridge_AddRule true demo_allocs rules_init (Some (str "app.exe")) None None None
         RULE_PROTOCOL_BOTH RULE_ACTION_PROXY 1).

Definition demo_proxies : ProxyStore :=
  fst (ProxyBridge_AddProxyConfig store_init 1 (Some (str "proxy.lan")) 1080 None None true).

Definition demo_policy : PolicyState :=
  mkPolicy (mkSwitches false true false 7) demo_rules (g_proxy_configs demo_proxies) dns_cache_init.

Definition demo_world : World :=
  mkWorld demo_policy demo_owners conn_init udp_direct_init bits_init log_init [] 34010 false false true.

Definition demo_turn {A} (now : Z) : Turn A := mkTurn [] now now now None true now.

Definition demo_env {A} : Env A :=
  mkEnv 2000 2000 2000 2000 [demo_turn 2000; demo_turn 2100] (Some 1) true true.

Definition demo_syn : tcp_packet Z :=
  mkTcp (ipv4 192 168 0 2) (ipv4 93 184 216 34) 50000 443 true false false false true.

Lemma demo_flags : flags_ok demo_rules.
Proof. by split; vm_compute. Qed.

Lemma demo_world_wf : world_wf demo_world.
Proof.
  split; [apply demo_owners_wf|apply conn_init_wf| |apply bits_init_wf| |apply dns_init_wf|apply demo_flags].
  - apply length_replicate.
  - by split.
Qed.

Lemma demo_env_ok {A} : env_ok demo_world (@demo_env A).
Proof.
  split; [apply lookup_empty|]. exists (demo_turn 2100). split; [right; left|]. by vm_compute.
Qed.

(** ** Decisions *)

Lemma demo_decision :
  option_map snd (check_process_rule demo_policy 2000 2000 (ipv4 192 168 0 2) 50000 (ipv4 93 184 216 34) 443
    false (e_turns demo_env) demo_owners) = Some (mkDecision RULE_ACTION_PROXY 42 1).
Proof. vm_compute. reflexivity. Qed.

Lemma check_process_rule_decided_witness :
  exists ow',
    check_process_rule demo_policy 2000 2000 (ipv4 192 168 0 2) 50000 (ipv4 93 184 216 34) 443 false
      (e_turns demo_env) demo_owners = Some (ow', mkDecision RULE_ACTION_PROXY 42 1) /\
    exists pid,
      resolve_process_owner_v4 2000 (ipv4 192 168 0 2) 50000 (ipv4 93 184 216 34) 443 false
        (e_turns demo_env) demo_owners = Resolved ow' pid /\
      decides demo_policy false (rules_v4 demo_policy 2000 (ipv4 93 184 216 34) 443 false) pid
        (mkDecision RULE_ACTION_PROXY 42 1).
Proof.
  pose proof demo_decision as Hd.
  destruct (check_process_rule demo_policy 2000 2000 (ipv4 192 168 0 2) 50000 (ipv4 93 184 216 34) 443 false
    (e_turns demo_env) demo_owners) as [[ow' d]|] eqn:E; [|discriminate].
  assert (d = mkDecision RULE_ACTION_PROXY 42 1) as -> by (simpl in Hd; congruence). clear Hd.
  exists ow'. split; [reflexivity|].
  destruct (proj1 (check_process_rule_decided demo_policy _ _ _ _ _ _ _ _ _ _ _ demo_flags) E) as [(_ & _ & Hn)|(_ & Hd)];
    [discriminate|exact Hd].
Defined.

Lemma demo_syn_decision :
  option_map snd (check_process_rule demo_policy 2000 2000 (ipv4 192 168 0 2) 50000 (ipv4 93 184 216 34) 443
    false (e_turns demo_env) (remove_cached_pid demo_owners (ipv4 192 168 0 2) 50000 false)) =
  Some (mkDecision RULE_ACTION_PROXY 42 1).
Proof. vm_compute. reflexivity. Qed.

Lemma match_rule_selects_witness :
  match_rule_inner false demo_rules dns_cache_init 0 (str "C:\apps\app.exe") (ipv4 1 2 3 4) 80 false =
    (RULE_ACTION_PROXY, 1) /\
  rule_outcome (selected_rule (fun hosts => match_ip_list (Some hosts) (ipv4 1 2 3 4)) false
    (str "C:\apps\app.exe") 80 false (dns_cache_lookup 0 dns_cache_init (ipv4 1 2 3 4) 256)
    (rules_list demo_rules)) = (RULE_ACTION_PROXY, 1).
Proof.
  split; [vm_compute; reflexivity|].
  rewrite <- (match_rule_selects false demo_rules dns_cache_init 0 (str "C:\apps\app.exe") (ipv4 1 2 3 4) 80
    false demo_flags). vm_compute. reflexivity.
Defined.

Lemma new_tcp_v4_enforced_witness :
  exists w' v, tcp_packet_v4 demo_world demo_env demo_syn = Some (w', v) /\
    v = Rewrite (mkTcp (ipv4 93 184 216 34) (ipv4 192 168 0 2) 50000 34010 true false false false false) /\
    exists c, tcp_flow w' 50000 false = Some c /\ orig_dest_ip c = ipv4 93 184 216 34 /\ orig_dest_port c = 443.
Proof.
  destruct (new_tcp_v4_enforced demo_world demo_env demo_syn demo_world_wf demo_env_ok)
    as (w' & v & Hp & Hv); try reflexivity; [by split|discriminate|].
  destruct Hv as (ow & d & Hc & Hv). exists w', v. split; [exact Hp|].
  assert (d = mkDecision RULE_ACTION_PROXY 42 1) as ->.
  { apply (f_equal (option_map snd)) in Hc.
    pose proof (eq_trans (eq_sym Hc) demo_syn_decision) as Hd. by injection Hd. }
  cbn [d_action] in Hv. destruct (proj2 Hv) as [-> Hf]; [by intros [[_ Hl]|Hb]; vm_compute in *|].
  split; [vm_compute; reflexivity|]. change (t_sport demo_syn) with 50000 in Hf.
  destruct (tcp_flow w' 50000 false) as [c|]; [|discriminate].
  exists c. destruct Hf as (-> & -> & _). split; [reflexivity|]. split; reflexivity.
Defined.

(** A SYN to the proxy server itself. *)
Definition demo_to_proxy : tcp_packet Z :=
  mkTcp (ipv4 192 168 0 2) (ipv4 10 0 0 9) 50000 1080 true false false false true.

Lemma tcp_v4_verdict_justified_witness :
  exists w1 w' v, tcp_syn_reset_v4 demo_world demo_to_proxy = Some w1 /\
    tcp_packet_v4 demo_world demo_env demo_to_proxy = Some (w', v) /\
    match v with Pass q => q = demo_to_proxy | _ => True end.
Proof.
  run (tcp_syn_reset_v4 demo_world demo_to_proxy) w1 E1.
  run (tcp_packet_v4 demo_world demo_env demo_to_proxy) r E. destruct r as [w' v].
  exists w1, w', v. split; [reflexivity|]. split; [reflexivity|].
  pose proof (tcp_v4_verdict_justified demo_world demo_env demo_to_proxy w1 w' v demo_world_wf
    eq_refl ltac:(by split) E1 E) as Hv.
  destruct v; [exact (proj1 Hv)|exact I|exact I].
Defined.

(** A datagram of the program, and an owner event that arrives while its owner
    is looked up. *)
Definition demo_datagram : udp_packet Z :=
  mkUdp (ipv4 192 168 0 2) (ipv4 8 8 8 8) 6000 4000 8 [] true.

Definition demo_race_env : Env Z :=
  mkEnv 2000 2000 2000 2000
    [mkTurn [EvCache true 2000 (make_v4_mapped_address (ipv4 192 168 0 2)) 6000 unspec6 0
               true 42 21 1] 2000 2000 2000 None true 2000; demo_turn 2100] (Some 1) true true.

(** The datagram of the program goes to the relay: it was decided so now. *)
Lemma udp_v4_verdict_justified_witness :
  exists w', udp_packet_v4 demo_world demo_race_env demo_datagram = Some (w', Rewrite (redirect_udp_v4 demo_datagram)) /\
    exists c valid, flow_checked demo_world demo_race_env demo_datagram c valid /\
      (valid = true \/ udp_decided_v4 (with_conns demo_world c) demo_race_env demo_datagram RULE_ACTION_PROXY).
Proof.
  assert (snd <$> udp_packet_v4 demo_world demo_race_env demo_datagram = Some (Rewrite (redirect_udp_v4 demo_datagram)))
    as Hc by (vm_compute; reflexivity).
  run (udp_packet_v4 demo_world demo_race_env demo_datagram) r E. destruct r as [w' v].
  pose proof (udp_v4_verdict_justified demo_world demo_race_env demo_datagram w' v demo_world_wf eq_refl E) as Hv.
  cbn [fmap option_fmap option_map snd] in Hc. injection Hc as ->. exists w'. split; [reflexivity|].
  destruct Hv as [[Hs _]|[_ Hv]]; [discriminate Hs|exact Hv].
Defined.

Lemma demo_race_env_ok : env_ok demo_world demo_race_env.
Proof.
  split; [apply lookup_empty|]. exists (demo_turn 2100). split; [right; left|]. by vm_compute.
Qed.

Lemma demo_race_decision :
  option_map (fun r => (ow_generation (fst r), snd r))
    (check_process_rule demo_policy 2000 2000 (ipv4 192 168 0 2) 6000 (ipv4 8 8 8 8) 4000 true
       (e_turns demo_race_env) demo_owners) = Some (3, mkDecision RULE_ACTION_PROXY 42 1).
Proof. vm_compute. reflexivity. Qed.

Lemma udp_decision_race_witness :
  exists w' v s, udp_decide_v4 demo_world 2 demo_race_env demo_datagram = Some (w', v) /\
    v = Rewrite (redirect_udp_v4 demo_datagram) /\
    udp_flow_validate 2500 (g_udp_generation w') (w_conns w') 6000 false
      (ipv4 192 168 0 2) [] (ipv4 8 8 8 8) [] 4000 = Some (s, false).
Proof.
  pose proof demo_race_decision as Hd.
  destruct (check_process_rule demo_policy 2000 2000 (ipv4 192 168 0 2) 6000 (ipv4 8 8 8 8) 4000 true
    (e_turns demo_race_env) demo_owners) as [[ow d]|] eqn:Ec; [|discriminate].
  simpl in Hd. injection Hd as Hg Hd.
  run (udp_decide_v4 demo_world 2 demo_race_env demo_datagram) r E. destruct r as [w' v].
  assert (v = Rewrite (redirect_udp_v4 demo_datagram)) as ->.
  { assert (snd <$> udp_decide_v4 demo_world 2 demo_race_env demo_datagram =
      Some (Rewrite (redirect_udp_v4 demo_datagram))) as Hv by (vm_compute; reflexivity).
    rewrite E in Hv. by injection Hv. }
  destruct (udp_decision_race demo_world 2 2500 demo_world_wf eq_refl) as [H _].
  destruct (H demo_race_env demo_datagram ow d w' (Rewrite (redirect_udp_v4 demo_datagram)) demo_race_env_ok Ec) as [s Hs];
    [rewrite Hg; discriminate|exact E|].
  exists w', (Rewrite (redirect_udp_v4 demo_datagram)), s. split; [reflexivity|]. split; [reflexivity|exact Hs].
Defined.

Definition demo_syn6 : tcp_packet bytes :=
  mkTcp demo_host6 demo_net 50000 443 true false false false true.

Lemma tcp_processing_safe_witness :
  (exists w' v, tcp_packet_v4 demo_world demo_env demo_syn = Some (w', v) /\ world_wf w') /\
  (exists w' v, tcp_packet_v6 demo_world demo_env demo_syn6 = Some (w', v) /\ world_wf w').
Proof.
  apply tcp_processing_safe;
    [apply demo_world_wf|apply demo_env_ok|apply demo_env_ok|by split|by split].
Defined.

(** An inbound DNS answer, and an outbound IPv6 datagram. *)
Definition demo_dns_packet : udp_packet Z :=
  mkUdp (ipv4 8 8 8 8) (ipv4 192 168 0 2) 53 6000 (Z.of_nat (length demo_answer) + 8) demo_answer false.
Definition demo_datagram6 : udp_packet bytes := mkUdp demo_host6 demo_net 6000 4000 8 [] true.

Lemma udp_processing_safe_witness :
  (exists w' v, udp_packet_v4 demo_world demo_env demo_dns_packet = Some (w', v) /\ world_wf w') /\
  (exists w' v, udp_packet_v6 demo_world demo_env demo_datagram6 = Some (w', v) /\ world_wf w').
Proof.
  destruct (udp_processing_safe demo_world demo_env demo_env demo_dns_packet demo_datagram6 demo_world_wf demo_env_ok demo_env_ok)
    as [[[(_ & _ & _ & Hl) _]|[_ H4]] [[(Ho & _) _]|[_ H6]]];
    [apply demo_answer_octets|constructor|vm_compute in Hl; discriminate Hl|vm_compute in Hl; discriminate Hl|discriminate Ho|].
  split; [exact H4|exact H6].
Defined.

Lemma switches_invalidate_witness :
  g_udp_generation (ProxyBridge_SetLocalhostViaProxy demo_world true) <> g_udp_generation demo_world /\
  port_is_decided (w_bits (ProxyBridge_SetProxyUdpDnsEnabled demo_world true)) 50000 = false.
Proof.
  destruct (switches_invalidate demo_world true 50000 demo_world_wf) as (_ & Hd & Hg).
  - split; vm_compute; [discriminate|reflexivity].
  - apply Forall_cons in Hg as [[Hg _] _]. split; [exact Hg|]. apply Hd. vm_compute. discriminate.
Defined.

(** A data packet of a connection that was blocked. *)
Definition demo_data : tcp_packet Z :=
  mkTcp (ipv4 192 168 0 2) (ipv4 93 184 216 34) 50000 443 false true false false true.

Lemma blocked_port_rechecked_witness :
  tcp_packet_v4 demo_world demo_env demo_data = tcp_decide_v4 demo_world demo_env demo_data.
Proof.
  apply (blocked_port_rechecked demo_world demo_env demo_data);
    [apply demo_world_wf|by split|reflexivity..| | |reflexivity].
  - discriminate.
  - reflexivity.
Defined.

(** ** Flows *)

(** A TCP flow of port 50000, a UDP flow of port 6000 and an IPv6 UDP flow. *)
Definition flow_tcp : option ConnTable :=
  add_connection (Some 1) 1000 7 conn_init 50000 false (ipv4 192 168 0 2) (ipv4 93 184 216 34) 443 1.
Definition flow_udp : option ConnTable :=
  s ← flow_tcp; add_connection (Some 2) 1000 7 s 6000 true (ipv4 192 168 0 2) (ipv4 8 8 8 8) 4000 1.
Definition flow_udp6 : option ConnTable :=
  s ← flow_udp; add_connection_v6 (Some 3) 1000 7 s 6001 true demo_host6 demo_net 4000 1.
Definition demo_flows : ConnTable := default conn_init flow_udp6.

Lemma demo_flows_wf : ct_wf demo_flows.
Proof.
  unfold demo_flows, flow_udp6, flow_udp.
  destruct (add_total (Some 1) 1000 7 conn_init 50000 false (ipv4 192 168 0 2) (ipv4 93 184 216 34) 443 1)
    as (s1 & E1 & H1); [apply conn_init_wf|apply lookup_empty|].
  assert (flow_tcp = Some s1) as F1 by exact E1. rewrite F1. cbn [mbind option_bind].
  destruct (add_total (Some 2) 1000 7 s1 6000 true (ipv4 192 168 0 2) (ipv4 8 8 8 8) 4000 1)
    as (s2 & E2 & H2); [done| |].
  { assert ((fun s => heap s !! 2) <$> flow_tcp = Some None) as H by (vm_compute; reflexivity).
    rewrite F1 in H. by injection H. }
  rewrite E2. cbn [mbind option_bind].
  destruct (add_v6_total (Some 3) 1000 7 s2 6001 true demo_host6 demo_net 4000 1)
    as (s3 & E3 & H3); [done| |].
  { assert (flow_udp = Some s2) as F2 by (unfold flow_udp; rewrite F1; exact E2).
    assert ((fun s => heap s !! 3) <$> flow_udp = Some None) as H by (vm_compute; reflexivity).
    rewrite F2 in H. by injection H. }
  rewrite E3. exact H3.
Qed.

Lemma add_connection_spec_witness :
  exists s', add_connection (Some 1) 1000 7 conn_init 50000 false (ipv4 192 168 0 2) (ipv4 93 184 216 34) 443 1 =
      Some s' /\ ct_wf s'.
Proof.
  destruct (add_connection_spec (Some 1) 1000 7 conn_init 50000 false (ipv4 192 168 0 2) (ipv4 93 184 216 34)
    443 1 conn_init_wf (lookup_empty 1)) as (s' & H & Hw & _).
  exists s'. split; [exact H|exact Hw].
Defined.

Lemma demo_udp_flow :
  conn_of demo_flows (6000, true, false) =
    Some (mkConn 6000 true (ipv4 192 168 0 2) (ipv4 8 8 8 8) 4000 true 0 7 1000 1 false zero16 zero16
            (rev_hash_v4 (ipv4 8 8 8 8) 4000) true).
Proof. vm_compute. reflexivity. Qed.

Lemma udp_flow_validate_spec_witness :
  exists s', udp_flow_validate 2000 7 demo_flows 6000 false (ipv4 192 168 0 2) [] (ipv4 8 8 8 8) [] 4000 =
    Some (s', true).
Proof.
  destruct (udp_flow_validate_spec 2000 7 demo_flows 6000 false (ipv4 192 168 0 2) [] (ipv4 8 8 8 8) [] 4000
    demo_flows_wf) as (s' & valid & H & _ & Hv & _).
  - lia.
  - intros c. rewrite demo_udp_flow. intros Hc. injection Hc as <-. simpl. lia.
  - exists s'. rewrite H. f_equal. f_equal. apply Hv. eexists. split; [apply demo_udp_flow|].
    simpl. repeat split; lia.
Defined.

Lemma find_v6_udp_sender_spec_witness :
  find_v6_udp_sender demo_flows demo_net 4000 = Some (Some (demo_host6, 6001)).
Proof.
  destruct (find_v6_udp_sender_spec demo_flows demo_net 4000 demo_flows_wf) as (r & H & _).
  rewrite H. rewrite <- H. vm_compute. reflexivity.
Defined.

Lemma cleanup_connections_spec_witness :
  exists s', cleanup_connections 5000000 demo_flows = Some s' /\ conn_of s' (6000, true, false) = None.
Proof.
  destruct (cleanup_connections_spec 5000000 demo_flows demo_flows_wf) as (s' & H & _ & Hk).
  exists s'. split; [exact H|]. rewrite Hk, demo_udp_flow. vm_compute. reflexivity.
Defined.

Lemma cleanup_drops_live_flow_witness :
  exists s', cleanup_connections 999 demo_flows = Some s' /\
    forall p c', heap s' !! p = Some c' -> flow_key c' <> (6000, true, false).
Proof.
  apply (cleanup_drops_live_flow 999 demo_flows (6000, true, false) _ demo_flows_wf demo_udp_flow);
    simpl; lia.
Defined.

Definition demo_flow_world : World :=
  mkWorld demo_policy demo_owners demo_flows udp_direct_init bits_init log_init [] 34010 false false true.

Lemma demo_flow_world_wf : world_wf demo_flow_world.
Proof.
  destruct demo_world_wf as [Ho _ Hd Hb Hl Hn Hf].
  split; [exact Ho|apply demo_flows_wf|exact Hd|exact Hb|exact Hl|exact Hn|exact Hf].
Qed.

Lemma demo_tcp_flow :
  tcp_flow demo_flow_world 50000 false =
    Some (mkConn 50000 false (ipv4 192 168 0 2) (ipv4 93 184 216 34) 443 true 0 7 1000 1 false zero16 zero16
            (rev_hash_v4 (ipv4 93 184 216 34) 443) true).
Proof. vm_compute. reflexivity. Qed.

Lemma tcp_v4_redirect_restore_witness :
  exists w1 w2, tcp_packet_v4 demo_flow_world demo_env demo_data =
      Some (w1, Rewrite (mkTcp (ipv4 93 184 216 34) (ipv4 192 168 0 2) 50000 34010 false true false false false)) /\
    tcp_packet_v4 w1 demo_env (mkTcp (ipv4 192 168 0 2) (ipv4 93 184 216 34) 34010 50000 false true true false true) =
      Some (w2, Rewrite (mkTcp (ipv4 93 184 216 34) (ipv4 192 168 0 2) 443 50000 false true true false false)).
Proof.
  destruct (tcp_v4_redirect_restore demo_flow_world demo_env demo_data _ demo_flow_world_wf demo_tcp_flow)
    as (w1 & q & H1 & -> & H2); try reflexivity; [by split|by split|discriminate|].
  destruct (H2 demo_env false true true false) as (w2 & H3). exists w1, w2. split; [exact H1|exact H3].
Defined.
