(* ===== verification/FlowWitnesses.v ===== *)
(** * Concrete runs of the flow table

    The flow table against its map, the clean-up beside other threads, and
    connections of both families on one port, on inputs where the hypotheses of
    their theorems hold. *)
From S2P Require Import Prelude CLib HashTable Util Types Matching ProxyConfig Dns Process Rules.
From S2P Require Import Policy ConnTrack DirectCache ConnLog FlowMap CleanupWalk PortBitmap Packet PacketSafety.
From S2P Require Import PacketPolicy PacketFamilies Scenarios Witnesses.

(** ** The table as a map *)

Definition demo_add : flow_op :=
  OpAdd (Some 1) 1000 7 50000 false (ipv4 192 168 0 2) (ipv4 93 184 216 34) 443 1.

Lemma conntrack_refines_map_witness :
  exists s, ct_run conn_init [(demo_add, RDone); (OpGetFull 1500 50000 false, RFull (Some (ipv4 93 184 216 34, 443, 1)))] s.
Proof.
  destruct (conntrack_refines_map [] conn_init (run_nil _)) as [_ H1].
  destruct (H1 demo_add) as (s1 & r1 & _ & R1); [split; [apply lookup_empty|by split]|].
  destruct (conntrack_refines_map _ s1 R1) as [_ H2].
  destruct (H2 (OpGetFull 1500 50000 false)) as (s2 & r2 & _ & R2); [by split|].
  destruct (conntrack_refines_map _ s2 R2) as [(M & Hm & _) _].
  exists s2. cbn [app] in R2, Hm. inversion Hm as [|? M1 ? ? ? ? S1 Hm1]; subst.
  inversion Hm1 as [|? M2 ? ? ? ? S2 Hm2]; subst. destruct S1 as [-> ->], S2 as [-> ->]. exact R2.
Defined.

(** ** The clean-up *)

Lemma cleanup_walk_alone_witness :
  exists s' n, cleanup_connections 5000000 demo_flows = Some s' /\
    walk_run 5000000 n (demo_flows, AtBucket 0) = Some (s', AtBucket n_chains) /\
    (n <= n_chains + 2 * size (heap demo_flows))%nat.
Proof.
  destruct (cleanup_walk_alone 5000000 demo_flows demo_flows_wf) as (s' & n & Hc & _ & Hn & Hr).
  exists s', n. split; [exact Hc|]. split; [exact Hr|exact Hn].
Defined.

Lemma walk_run_reach now k s0 n sw sw' :
  walk_reach now k s0 sw -> walk_run now n sw = Some sw' -> walk_reach now k s0 sw'.
Proof.
  revert sw. induction n as [|n IH]; intros sw Hr; cbn; [by intros [= <-]|].
  intros (sw1 & Hs & Hn)%bind_Some. eapply IH; [|exact Hn]. by eapply reach_walk.
Qed.

(** The whole walk, and then a look-up of another flow. *)
Lemma demo_walk : exists s, walk_reach 5000000 (6000, true, false) demo_flows (s, AtBucket n_chains).
Proof.
  destruct (cleanup_walk_alone 5000000 demo_flows demo_flows_wf) as (s' & n & _ & Hwf & _ & Hr).
  exists s'. eapply (reach_other _ _ _ s' _ (OpTracked 50000 false false) s'); [|done|done|discriminate|].
  - eapply walk_run_reach; [apply reach_start|exact Hr].
  - cbn [ct_exec]. by rewrite tracked_ok.
Qed.

Lemma cleanup_walk_interleaved_witness :
  exists s, ct_wf s /\ conn_of s (6000, true, false) = None.
Proof.
  destruct demo_walk as (s & Hr). exists s.
  destruct (cleanup_walk_interleaved 5000000 (6000, true, false) demo_flows s (AtBucket n_chains) demo_flows_wf Hr)
    as (Hwf & _ & He).
  split; [exact Hwf|]. rewrite (He eq_refl), demo_udp_flow. vm_compute. reflexivity.
Defined.

(** Two flows of one chain: the older one, of port 4101, behind that of port 5. *)
Definition chain_first : option ConnTable :=
  add_connection (Some 1) 1000 7 conn_init 4101 false (ipv4 192 168 0 2) (ipv4 93 184 216 34) 443 1.
Definition chain_flows : option ConnTable :=
  s ← chain_first; add_connection (Some 2) 5000000 7 s 5 false (ipv4 192 168 0 2) (ipv4 93 184 216 34) 443 1.
Definition demo_chain : ConnTable := default conn_init chain_flows.

Lemma demo_chain_wf : ct_wf demo_chain.
Proof.
  unfold demo_chain, chain_flows.
  destruct (add_total (Some 1) 1000 7 conn_init 4101 false (ipv4 192 168 0 2) (ipv4 93 184 216 34) 443 1)
    as (s1 & E1 & H1); [apply conn_init_wf|apply lookup_empty|].
  assert (chain_first = Some s1) as F1 by exact E1. rewrite F1. cbn [mbind option_bind].
  destruct (add_total (Some 2) 5000000 7 s1 5 false (ipv4 192 168 0 2) (ipv4 93 184 216 34) 443 1)
    as (s2 & E2 & H2); [done| |by rewrite E2].
  assert ((fun s => heap s !! 2) <$> chain_first = Some None) as H by (vm_compute; reflexivity).
  rewrite F1 in H. by injection H.
Qed.

Definition chain_node (port last : Z) : CONNECTION_INFO :=
  mkConn port false (ipv4 192 168 0 2) (ipv4 93 184 216 34) 443 true 0 7 last 1 false zero16 zero16
    (rev_hash_v4 (ipv4 93 184 216 34) 443) true.

Lemma demo_chain_nodes :
  bucket (connection_hash_table demo_chain) 5 = [2; 1] /\
  heap demo_chain !! 2 = Some (chain_node 5 5000000) /\ heap demo_chain !! 1 = Some (chain_node 4101 1000).
Proof. split; [|split]; vm_compute; reflexivity. Qed.

Lemma cleanup_walk_dangling_witness :
  exists s1 s2, walk_step 5000000 (demo_chain, AtBucket 5) = Some (s1, Unlinked 5 (Some 2) 1) /\
    remove_connection s1 5 false false = Some s2 /\ walk_step 5000000 (s2, Freed 5 (Some 2)) = None.
Proof.
  destruct demo_chain_nodes as (Hb & H2 & H1).
  destruct (fun Hi => cleanup_walk_dangling 5000000 demo_chain 5 [] 2 1 [] (chain_node 5 5000000)
    (chain_node 4101 1000) demo_chain_wf Hi Hb H2 H1) as (s1 & s2 & Hs & _ & Hr & _ & _ & Hf).
  - apply (bool_decide_eq_true_1 _). vm_compute. reflexivity.
  - vm_compute. reflexivity.
  - intros x c Hx Hc. apply list_elem_of_singleton in Hx. subst x. rewrite H2 in Hc. injection Hc as <-.
    vm_compute. reflexivity.
  - exists s1, s2. split; [exact Hs|]. split; [exact Hr|exact Hf].
Defined.

(** ** Connections of both families on one port *)

(** The IPv6 table of the system names the owner of the connection. *)
Definition demo_env6 : Env bytes :=
  mkEnv 2000 2000 2000 2000
    [mkTurn [] 2000 2000 2000 (Some [mkRow demo_host6 (ntohs 50000) 42]) true 2000; demo_turn 2100]
    (Some 1) true true.

Lemma demo_env6_ok : env_ok demo_world demo_env6.
Proof.
  split; [apply lookup_empty|]. exists (demo_turn 2100). split; [right; left|]. by vm_compute.
Qed.

Lemma demo_syn6_decision :
  option_map snd (check_process_rule_v6 demo_policy 2000 2000 demo_host6 50000 demo_net 443 false
    (e_turns demo_env6) demo_owners) = Some (mkDecision RULE_ACTION_PROXY 42 1).
Proof. vm_compute. reflexivity. Qed.

Lemma new_tcp_v6_enforced_witness :
  exists w' c, tcp_packet_v6 demo_world demo_env6 demo_syn6 =
      Some (w', Rewrite (mkTcp demo_net demo_host6 50000 34010 true false false false false)) /\
    tcp_flow w' 50000 true = Some c /\ orig_dest_ip6 c = demo_net /\ orig_dest_port c = 443.
Proof.
  destruct (new_tcp_v6_enforced demo_world demo_env6 demo_syn6 demo_world_wf demo_env6_ok)
    as (w' & v & Hp & Hv); try reflexivity; [by split|discriminate|].
  destruct Hv as (ow & d & Hc & Hv).
  assert (d = mkDecision RULE_ACTION_PROXY 42 1) as ->.
  { apply (f_equal (option_map snd)) in Hc.
    pose proof (eq_trans (eq_sym Hc) demo_syn6_decision) as Hd. by injection Hd. }
  cbn [d_action] in Hv. destruct (proj2 Hv) as [-> Hf]; [by intros [_ Hl]; vm_compute in Hl|].
  change (t_sport demo_syn6) with 50000 in Hf. destruct (tcp_flow w' 50000 true) as [c|] eqn:Ef; [|discriminate].
  exists w', c. split; [exact Hp|]. split; [exact Ef|]. by destruct Hf as (-> & -> & _).
Defined.

(** The engine relays an IPv6 connection from port 50000. *)
Definition demo_relayed : option ConnTable :=
  add_connection_v6 (Some 1) 1000 7 conn_init 50000 false demo_host6 demo_net 443 1.
Definition demo_world6 : World := with_conns demo_world (default conn_init demo_relayed).

Lemma demo_world6_wf : world_wf demo_world6.
Proof.
  apply with_conns_wf; [apply demo_world_wf|].
  destruct (add_v6_total (Some 1) 1000 7 conn_init 50000 false demo_host6 demo_net 443 1)
    as (s & E & Hs); [apply conn_init_wf|apply lookup_empty|]. unfold demo_relayed. by rewrite E.
Qed.

(** A connection of the same port to this host, and a packet of the relayed one. *)
Definition demo_syn_local : tcp_packet Z :=
  mkTcp (ipv4 192 168 0 2) (ipv4 127 0 0 1) 50000 80 true false false false true.
Definition demo_data6 : tcp_packet bytes := mkTcp demo_host6 demo_net 50000 443 false true false false true.

Definition demo_env_local : Env Z :=
  mkEnv 2000 2000 2000 2000
    [mkTurn [] 2000 2000 2000 (Some [mkRow (ipv4 192 168 0 2) (ntohs 50000) 42]) true 2000; demo_turn 2100]
    (Some 2) true true.

Lemma demo_local_decision :
  option_map snd (check_process_rule demo_policy 2000 2000 (ipv4 192 168 0 2) 50000 (ipv4 127 0 0 1) 80
    false (e_turns demo_env_local) (remove_cached_pid demo_owners (ipv4 192 168 0 2) 50000 false)) =
  Some (mkDecision RULE_ACTION_PROXY 42 1).
Proof. vm_compute. reflexivity. Qed.

Lemma shared_port_bypass_witness :
  exists w' w'', tcp_packet_v4 demo_world6 demo_env_local demo_syn_local = Some (w', Pass demo_syn_local) /\
    is_Some (tcp_flow w' 50000 true) /\
    tcp_packet_v6 w' demo_env demo_data6 = Some (w'', Pass demo_data6).
Proof.
  pose proof demo_local_decision as Hd.
  destruct (check_process_rule demo_policy 2000 2000 (ipv4 192 168 0 2) 50000 (ipv4 127 0 0 1) 80
    false (e_turns demo_env_local) (remove_cached_pid demo_owners (ipv4 192 168 0 2) 50000 false)) as [[ow d]|] eqn:Ec;
    [|discriminate]. cbn in Hd. injection Hd as ->.
  assert (exists c, tcp_flow demo_world6 50000 true = Some c) as [c Hc]
    by (eexists; vm_compute; reflexivity).
  destruct (shared_port_bypass demo_world6 demo_env_local demo_env demo_syn_local demo_data6 c ow
    (mkDecision RULE_ACTION_PROXY 42 1) demo_world6_wf) as (w' & w'' & H1 & H2 & H3);
    [by split|reflexivity..|discriminate|reflexivity|reflexivity|exact Ec|reflexivity|discriminate|exact Hc
    |reflexivity|reflexivity|reflexivity|].
  exists w', w''. split; [exact H1|]. split; [by exists c|exact H3].
Defined.
