(* ===== verification/RelayWitnesses.v ===== *)
(** * Concrete exchanges of the relays

    Handshakes with a proxy, requests, and datagrams relayed for the flows of
    [demo_flows], on which the hypotheses of the theorems about the SOCKS5 and
    HTTP clients and the relays hold. *)
From S2P Require Import Prelude CLib HashTable Util Types ProxyConfig Socks5 Dns Http Process Rules.
From S2P Require Import ConnTrack UdpRelay AssocHandles Workers Relay RelaySafety RelayDrain RelayPairs Handler Listeners ProxyTest Scenarios Witnesses.

(** ** SOCKS5 *)

(** The answers arrive cut in three segments, the tunnel's first bytes behind them. *)
Definition demo_segments : list bytes := [[5]; [0; 5; 0]; [0; 1; 127; 0; 0; 1; 4; 56; 72; 105]].
Definition demo_sock : Sock := mkSock demo_segments (replicate 40 7) [].

Definition demo_connect : bytes := connect_request SOCKS5_ATYP_IPV4 (ip_octets (ipv4 93 184 216 34)) 443.

Lemma demo_sock_ok n : (n <= 40)%nat -> sock_ok n demo_sock.
Proof.
  intros Hn. split; [repeat constructor; discriminate|repeat constructor; lia|].
  simpl. lia.
Qed.

Lemma connect_exchange_granted_witness :
  granted (incoming demo_sock) = Some [72; 105] /\
  let '(s', r) := connect_exchange demo_connect demo_sock in
  r = Connected /\ incoming s' = [72; 105] /\ sk_out s' = greeting ++ demo_connect.
Proof.
  split; [vm_compute; reflexivity|].
  exact (connect_exchange_granted demo_connect demo_sock (demo_sock_ok 13 ltac:(lia))).
Defined.

Lemma connect_request_roundtrip_witness :
  parse_request (connect_request SOCKS5_ATYP_DOMAIN (11 :: str "example.com") 443 ++ [1; 2]) =
    Some (DestDomain (str "example.com"), 443, [1; 2]).
Proof.
  apply (connect_request_roundtrip 0 zero16 (str "example.com") 443 [1; 2]); [lia|reflexivity|vm_compute; lia|lia].
Defined.

(** ** HTTP *)

Definition demo_http_proxy : PROXY_CONFIG :=
  mkPROXY_CONFIG 2 PROXY_TYPE_HTTP (str "proxy.lan") 8080 true 0 0 INVALID_SOCKET INVALID_SOCKET (0, 0) false.

Definition demo_http_request : bytes :=
  http_request (http_host_v4 0 dns_cache_init demo_http_proxy (ipv4 93 184 216 34)) 443.

Lemma http_request_fits_witness :
  request_in_buffer demo_http_request = Some demo_http_request.
Proof.
  apply (http_request_fits 0 dns_cache_init demo_http_proxy (ipv4 93 184 216 34) (fun a => a) zero16 443). lia.
Defined.

Lemma http_header_injection_witness :
  exists dns' rest,
    snoop_dns_response true 0 dns_cache_init
      (a_response 7 9 [str "a HTTP/1.1" ++ crlf ++ str "X-Forwarded-For: 127.0.0.1"] [0; 0; 1; 0] 93 184 216 34) =
      Some dns' /\
    http_request (http_host_v4 1000 dns' demo_http_proxy (ipv4 93 184 216 34)) 443 =
      str "CONNECT a HTTP/1.1" ++ crlf ++ str "X-Forwarded-For: 127.0.0.1" ++ rest.
Proof.
  apply (http_header_injection 0 1000 dns_cache_init demo_http_proxy); [apply dns_init_wf|reflexivity| |
    vm_compute; lia|reflexivity|lia|by vm_compute].
  vm_compute. repeat constructor; discriminate.
Defined.

Definition demo_status : bytes := str "HTTP/1.1 200 OK".

(** The status line arrives before the rest of the header: the CONNECT succeeds
    and the end of the header is handed to the application. *)
Lemma http_connect_takes_one_piece_witness :
  let '(s', r) := http_connect 0 dns_cache_init demo_http_proxy (ipv4 93 184 216 34) 443
    (mkSock [demo_status; crlf ++ crlf; [72; 105]] [Z.of_nat (length demo_http_request)] []) in
  r = HttpReturns 0 /\ incoming s' <> [72; 105].
Proof.
  pose proof (http_connect_takes_one_piece 0 dns_cache_init demo_http_proxy (ipv4 93 184 216 34) 443
    (Z.of_nat (length demo_http_request)) [] demo_status [crlf ++ crlf; [72; 105]] []
    ltac:(lia) ltac:(discriminate) ltac:(vm_compute; lia)) as H.
  cbv zeta in H. destruct (http_connect _ _ _ _ _ _) as [s' r].
  destruct H as [Hr Ht]. assert (r = HttpReturns 0) as E.
  { apply Hr. split; [reflexivity|vm_compute; reflexivity]. }
  split; [exact E|]. intros Hi.
  destruct (Ht E) as (_ & _ & Hs). specialize (Hs (demo_status ++ crlf ++ crlf) [72; 105] eq_refl).
  apply Hs in Hi. discriminate.
Defined.

(** ** UDP *)

Definition demo_assoc : PROXY_CONFIG :=
  mkPROXY_CONFIG 1 PROXY_TYPE_SOCKS5 (str "proxy.lan") 1080 true 0 1000 100 101 (ipv4 10 0 0 9, 0x3804) true.

Definition demo_relay : UdpRelay := mkUdpRelay [demo_assoc; demo_http_proxy] demo_flows true.

(** No handle is available to reconnect. *)
Definition demo_assoc_env : AssocEnv := mkAssocEnv 2000 INVALID_SOCKET ConnectError demo_sock INVALID_SOCKET.

Definition demo_query : bytes := str "hello".
Definition demo_reply : bytes := str "world".

Lemma demo_flows_old k f : conn_of demo_flows k = Some f -> last_activity f < 2000.
Proof.
  intros Hf. apply conn_of_Some in Hf as (p & Hp & _); [|apply demo_flows_wf].
  assert (bool_decide (map_Forall (fun _ c => last_activity c < 2000) (heap demo_flows)) = true) as H
    by (vm_compute; reflexivity).
  apply bool_decide_eq_true_1 in H. exact (H p f Hp).
Qed.

(** The [sendto] fails, a new association is granted and the datagram goes out
    once more, over its socket and to its address. *)
Definition demo_new_assoc : AssocEnv :=
  mkAssocEnv 2000 100 (Selected 1 false 0) (mkSock [[5; 0]; [5; 0; 0; 1; 10; 0]; [0; 9; 4; 56]] (replicate 40 7) []) 103.

Definition demo_client_flow : CONNECTION_INFO :=
  mkConn 6000 true (ipv4 192 168 0 2) (ipv4 8 8 8 8) 4000 true 0 7 1000 1 false zero16 zero16
    (rev_hash_v4 (ipv4 8 8 8 8) 4000) true.

Lemma demo_route : flow_route demo_relay 6000 false = Some (demo_client_flow, demo_assoc).
Proof. vm_compute. reflexivity. Qed.

Lemma client_datagram_forwarded_witness :
  let d := encapsulate_v4 (ipv4 8 8 8 8) 4000 demo_query in
  exists s' b out c',
    udp_from_client_v4 2000 demo_assoc_env false demo_new_assoc 6000 demo_query demo_relay = Some (s', b, out) /\
    delivers demo_assoc_env false demo_new_assoc d demo_assoc (sent_to_proxy out) c' /\
    sent_to_proxy out = [(101, (ipv4 10 0 0 9, 0x3804), d); (103, (ipv4 10 0 0 9, 0x3804), d)].
Proof.
  intros d.
  destruct (client_datagram_forwarded 2000 demo_assoc_env false demo_new_assoc 6000 demo_query demo_relay demo_flows_wf)
    as [(s' & b & out & E & _ & H) _].
  unfold client_served in H. rewrite demo_route, decide_True in H by (vm_compute; split; [reflexivity|discriminate]).
  destruct H as (i & c' & _ & _ & Hd). exists s', b, out, c'. split; [exact E|]. split; [exact Hd|].
  assert ((fun r => sent_to_proxy (snd r)) <$> udp_from_client_v4 2000 demo_assoc_env false demo_new_assoc 6000 demo_query
    demo_relay = Some [(101, (ipv4 10 0 0 9, 0x3804), d); (103, (ipv4 10 0 0 9, 0x3804), d)]) as Hc
    by (vm_compute; reflexivity).
  rewrite E in Hc. cbn [fmap option_fmap option_map snd] in Hc. by injection Hc.
Defined.

Lemma udp_relay_roundtrip_witness :
  exists s1 s2,
    udp_from_client_v4 2000 demo_assoc_env true demo_assoc_env 6000 demo_query demo_relay =
      Some (s1, false, [ToProxy 101 (ipv4 10 0 0 9, 0x3804) (encapsulate_v4 (ipv4 8 8 8 8) 4000 demo_query)]) /\
    deliver 2010 (encapsulate_v4 (ipv4 8 8 8 8) 4000 demo_reply) s1 =
      Some (s2, [ToClient (ipv4 192 168 0 2) 6000 demo_reply]).
Proof.
  destruct (udp_relay_roundtrip 2000 2010 demo_assoc_env demo_assoc_env 6000 demo_query demo_reply demo_relay demo_client_flow
    demo_assoc demo_flows_wf) as [H _]; [split; [discriminate|reflexivity]|].
  apply H; [vm_compute; reflexivity|split; [|split]; reflexivity|split; [reflexivity|discriminate]|
    split; [discriminate|reflexivity]|].
  intros k f' Hf _ _. exact (demo_flows_old k f' Hf).
Defined.

(** A client's datagram, an answer and a dead socket in one pass. *)
Definition demo_pass : pass_input :=
  Ready [None; None] (Some (Some (mkClientInput 6000 demo_query demo_assoc_env true demo_assoc_env)))
    [(0%nat, None)] None.

Ltac decided := match goal with |- ?P => apply (@bool_decide_eq_true_1 P _); vm_compute; reflexivity end.

Lemma demo_assocs_wf : assocs_wf {[100; 101; 7]} (ur_configs demo_relay).
Proof.
  split; [split; [decided|decided|by split]|]. split; [decided|].
  split; [split; [decided|decided|done]|]. split; [decided|done].
Qed.

(** A configuration without an association gets one at the start; the pass then
    finds its socket dead; all is closed at the end. *)
Definition demo_idle_proxy : PROXY_CONFIG :=
  mkPROXY_CONFIG 1 PROXY_TYPE_SOCKS5 (str "proxy.lan") 1080 true 0 0 INVALID_SOCKET INVALID_SOCKET (0, 0) false.
Definition demo_granted_env : AssocEnv :=
  mkAssocEnv 2000 100 (Selected 1 false 0) (mkSock [[5; 0]; [5; 0; 0; 1; 10; 0]; [0; 9; 4; 56]] (replicate 40 7) []) 101.
Definition demo_udp_server : UdpServerEnv := mkUdpServerEnv true 50 true 51 false.
Definition demo_udp_rounds : list udp_round :=
  [mkUdpRound (fun t => t) 2000 demo_rules (Timeout []); mkUdpRound (fun t => t) 2000 demo_rules demo_pass].

Lemma udp_relay_server_sound_witness :
  exists cfgs' t' ev1 ev2,
    udp_relay_server demo_udp_server demo_rules [demo_granted_env] demo_udp_rounds [demo_idle_proxy; demo_http_proxy]
      demo_flows = Some (cfgs', t', ev1 ++ Published true :: ev2) /\
    all_handles cfgs' = ∅ /\ own_sockets (ev1 ++ ev2) =
      [Opened 50; Opened 51; Closed 51; Opened 100; Opened 101; Used 101; Closed 100; Closed 101; Closed 50] /\
    run_handles {[7]} (own_sockets (ev1 ++ ev2)) = Running {[7]}.
Proof.
  destruct (udp_relay_server_sound demo_udp_server demo_rules [demo_granted_env] demo_udp_rounds
    [demo_idle_proxy; demo_http_proxy] demo_flows demo_flows_wf) as (cfgs' & t' & ev1 & ev2 & E & _ & _ & _ & _ & He & H);
    [do 2 (constructor; [intros t Ht; exact Ht|]); constructor|by repeat constructor|].
  exists cfgs', t', ev1, ev2. split; [exact E|]. split; [exact He|].
  assert (own_sockets (ev1 ++ ev2) =
    [Opened 50; Opened 51; Closed 51; Opened 100; Opened 101; Used 101; Closed 100; Closed 101; Closed 50]) as Ho.
  { assert ((fun r => own_sockets (snd r)) <$> udp_relay_server demo_udp_server demo_rules [demo_granted_env]
      demo_udp_rounds [demo_idle_proxy; demo_http_proxy] demo_flows =
      Some [Opened 50; Opened 51; Closed 51; Opened 100; Opened 101; Used 101; Closed 100; Closed 101; Closed 50]) as Hc
      by (vm_compute; reflexivity).
    rewrite E in Hc. cbn [fmap option_fmap option_map snd] in Hc. injection Hc as Hc. rewrite own_sockets_app. rewrite own_sockets_app in Hc.
    exact Hc. }
  split; [exact Ho|]. rewrite Ho. vm_compute. reflexivity.
Defined.

(** ** The completion-port relay *)

(** Three bytes from the client, on their way to the proxy, and one of them sent. *)
Definition demo_relay_events : list relay_event :=
  [EvStart true true true true (Some 1) 10 11; EvPost true 1 false; EvPost true 1 true;
   EvComplete IoReady (Some 100) true 1 false; EvComplete (IoRead [1; 2; 3]) None true 1 false;
   EvComplete (IoSent 1) None true 1 false].
Definition demo_relaying : RelayState :=
  match relay_run demo_relay_events relay_init with Next s => s | _ => relay_init end.

Lemma demo_relaying_runs : relay_run demo_relay_events relay_init = Next demo_relaying.
Proof. vm_compute. reflexivity. Qed.

Lemma relay_never_faults_witness : relay_wf demo_relaying.
Proof. exact (proj2 (relay_never_faults demo_relay_events) demo_relaying demo_relaying_runs). Defined.

Lemma relay_streams_exact_witness :
  exists c, g_conns demo_relaying !! 1 = Some c /\ d_sent (rc_dir0 c) = [1] /\ d_received (rc_dir0 c) = [1; 2; 3] /\
    d_sent (rc_dir0 c) `prefix_of` d_received (rc_dir0 c).
Proof.
  destruct (g_conns demo_relaying !! 1) as [c|] eqn:E; [|discriminate].
  exists c. split; [reflexivity|].
  pose proof (relay_streams_exact demo_relay_events demo_relaying 1 c false demo_relaying_runs E) as [H _].
  vm_compute in E. injection E as <-. split; [reflexivity|]. split; [reflexivity|]. exact H.
Defined.

Definition demo_aborted : RelayState := default relay_init (relay_pool_abort demo_relaying).
Definition demo_drain : list relay_event :=
  [EvComplete IoError None true 1 false; EvComplete IoError None true 1 true; EvDirEnd 1 false; EvDirEnd 1 true;
   EvRelease 1 true; EvRelease 1 false; EvUnlink 1; EvFree 1].
Definition demo_drained : RelayState :=
  match relay_run demo_drain demo_aborted with Next s => s | _ => relay_init end.

(** Nothing is left of the connection after the threads' eight steps. *)
Lemma relay_abort_drains_witness :
  g_relay_done demo_drained = true /\ g_active_relays demo_drained = 0 /\ g_open demo_drained = ∅ /\
  exists s', relay_pool_free demo_drained = Some s' /\ g_bufs s' = ∅ /\ g_relay_pool s' = [].
Proof.
  apply (relay_abort_drains demo_relay_events demo_relaying demo_aborted demo_drain demo_drained);
    [exact demo_relaying_runs|vm_compute; reflexivity|vm_compute; reflexivity|vm_compute; reflexivity].
Defined.

(** ** Connections *)

Lemma stop_wait_ends_witness :
  exists w, worker_run [WBegin; WReset 0; WCheck 0; WStop; WEnd 0; WSet 0] workers_init = Some w /\
    connection_workers_done_event w = true.
Proof.
  eexists. split; [reflexivity|].
  refine (proj2 (stop_wait_ends [WBegin; WReset 0; WCheck 0; WStop; WEnd 0; WSet 0] _ eq_refl) _ _); [reflexivity|].
  decided.
Defined.

(** Two clients connect: loopback takes up the flow of port 50000, a stranger is
    turned away. *)
Definition demo_listener : ListenerEnv := mkListenerEnv true 40 true true 41 true true.
Definition demo_rounds : list accept_round :=
  [NothingReady;
   Readable (Some (mkArrival 10 (ipv4 127 0 0 1) 50000 2000 (mkAcceptEnv true true true) (fun t => t))) None;
   Readable (Some (mkArrival 12 (ipv4 10 9 8 7) 50000 2100 (mkAcceptEnv true true true) (fun t => t))) None].

Lemma local_proxy_server_sound_witness :
  exists t' ev1 ev2 admissions,
    local_proxy_server demo_listener demo_rounds demo_flows = Some (t', ev1 ++ Published true :: ev2, admissions) /\
    balanced (own_sockets (ev1 ++ ev2)) /\ handed_over ev2 = [10] /\
    map ad_config admissions = [mkConnConfig 10 (Dest4 (ipv4 93 184 216 34)) 443 1] /\ Forall let_in admissions.
Proof.
  destruct (local_proxy_server_sound demo_listener demo_rounds demo_flows demo_flows_wf)
    as (t' & ev1 & ev2 & ad & E & _ & _ & _ & _ & _ & Hb & Hg & Ha & _); [constructor; [exact I|]; do 2 (constructor; [split; [intros t Ht; exact Ht|exact I]|]); constructor|].
  exists t', ev1, ev2, ad. split; [exact E|]. split; [exact Hb|].
  assert ((fun r => map ad_config (snd r)) <$> local_proxy_server demo_listener demo_rounds demo_flows =
    Some [mkConnConfig 10 (Dest4 (ipv4 93 184 216 34)) 443 1]) as Hc by (vm_compute; reflexivity).
  rewrite E in Hc. cbn [fmap option_fmap option_map snd] in Hc. injection Hc as Hc.
  split; [|split; [exact Hc|exact Ha]]. rewrite Hg, <- (map_map ad_config client_socket), Hc. reflexivity.
Defined.



Definition demo_handler_env : HandlerEnv := mkHandlerEnv 2000 11 true demo_sock true.

(** A connection that goes to the blocking relay. *)
Lemma connection_sockets_witness :
  exists ev handed,
    connection_handler (fun a => a) demo_handler_env dns_cache_init [demo_assoc]
      (mkConnConfig 10 (Dest4 (ipv4 93 184 216 34)) 443 1) = Some (ev, handed) /\ handed = Some (10, 11).
Proof.
  destruct (connection_sockets (fun a => a) demo_handler_env dns_cache_init [demo_assoc]
    (mkConnConfig 10 (Dest4 (ipv4 93 184 216 34)) 443 1) (mkTransferEnv false true true true true) {[10]})
    as (ev & handed & E & _); [decided|cbn; lia|].
  exists ev, handed. split; [exact E|].
  assert (snd <$> connection_handler (fun a => a) demo_handler_env dns_cache_init [demo_assoc]
    (mkConnConfig 10 (Dest4 (ipv4 93 184 216 34)) 443 1) = Some (Some (10, 11))) as Hc by (vm_compute; reflexivity).
  rewrite E in Hc. by injection Hc.
Defined.
