(* ===== verification/EngineWitnesses.v ===== *)
(** * Concrete runs of the engine

    A batch with a new connection, what the observers report, a stop with flows
    in the table, and a few steps of the whole engine, on which the hypotheses of
    the theorems about them hold. *)
From S2P Require Import Prelude CLib HashTable Util Types Matching ProxyConfig Socks5 Dns Process Observer Rules.
From S2P Require Import Policy ConnTrack UdpRelay AssocHandles Handler DirectCache ConnLog PortBitmap Packet.
From S2P Require Import PacketSafety PacketPolicy CleanupWalk Engine RelayPairs Scenarios Witnesses.

(** ** A batch *)

(** A driver that reads one octet per packet: 4 is the new connection, 17 a
    datagram, 6 something else on IPv6. *)
Definition demo_parse (outbound : bool) (b : bytes) : option (captured * nat) :=
  match b with
  | 4 :: _ => Some (CapTcp4 demo_syn, 1%nat)
  | 6 :: _ => Some (CapOther6, 1%nat)
  | 17 :: _ => Some (CapUdp4 demo_datagram, 1%nat)
  | _ => None
  end.
Definition demo_write (c : captured) (b : bytes) : bytes := b.

Lemma demo_parses_well : parses_well demo_parse.
Proof.
  intros o b c n E. destruct b as [|x b]; [discriminate|]. cbn [length].
  assert (n = 1%nat /\ captured_ok c) as [-> Hc]; [|split; [lia|exact Hc]].
  unfold demo_parse in E. repeat (case_match; try discriminate); injection E as <- <-; (split; [reflexivity|]);
    first [exact I|apply Forall_nil_2|split; vm_compute; [discriminate|reflexivity]].
Qed.

Lemma demo_writes_in_place : writes_in_place demo_write.
Proof. intros c b. reflexivity. Qed.

(** The allocator looks for a free address. *)
Definition demo_fresh_env {A} (w : World) : Env A :=
  mkEnv 2000 2000 2000 2000 [demo_turn 2000; demo_turn 2100] (Some (fresh (dom (heap (w_conns w))))) true true.
Definition demo_packet_env (w : World) : packet_env := mkPacketEnv (demo_fresh_env w) (demo_fresh_env w).

Lemma demo_env_good : env_good demo_packet_env.
Proof.
  intros w _. assert (forall A, env_ok w (@demo_fresh_env A w)) as H; [|split; apply H].
  intros A. split.
  - cbn. apply not_elem_of_dom. apply is_fresh.
  - exists (demo_turn 2100). split; [right; left|]. by vm_compute.
Qed.

Definition demo_batch : batch_input :=
  mkBatchInput [(true, demo_packet_env); (true, demo_packet_env); (true, demo_packet_env)] [4; 6; 99].

Lemma demo_batch_good : Forall (fun a => env_good (snd a)) (bi_addresses demo_batch).
Proof. do 3 (apply Forall_cons_2; [apply demo_env_good|]). apply Forall_nil_2. Qed.

Lemma demo_batch_honest : ~ reads_behind demo_parse (bi_addresses demo_batch) (bi_packets demo_batch).
Proof. cbn. tauto. Qed.

(** The connection and the packet behind it go on; the rest is not a packet. *)
Lemma batch_sends_what_passes_witness :
  exists w', packet_batch demo_parse demo_write (bi_addresses demo_batch) (bi_packets demo_batch) demo_world
    (mkBatch [] PACKET_BATCH_BUFFER_SIZE) = Some (w', mkBatch [[4]; [6]] PACKET_BATCH_BUFFER_SIZE) /\ world_wf w'.
Proof.
  destruct (batch_sends_what_passes demo_parse demo_write (bi_addresses demo_batch) (bi_packets demo_batch) demo_world
    demo_parses_well demo_writes_in_place) as [Hb Ht]; [vm_compute; discriminate|vm_compute; discriminate|].
  destruct (Ht demo_batch_good demo_world_wf) as [(w' & sent & E & Hw & _)|[_ Hr]]; [|by destruct (demo_batch_honest Hr)].
  exists w'. split; [|exact Hw].
  assert (option_map snd (passed_on demo_parse demo_write (bi_addresses demo_batch) (bi_packets demo_batch) demo_world) =
    Some [[4]; [6]]) as Hs by (vm_compute; reflexivity).
  rewrite E in Hs, Hb. injection Hs as ->. exact Hb.
Defined.

(** ** Owners *)

Definition demo_hton (words : list Z) : bytes := make_v4_mapped_address (nth 0 words 0).

Definition demo_history : list cache_change :=
  [Observed true 1000 (mkDriverEvent 3 5 [ipv4 192 168 0 2] [0] 50000 0 6 41 11);
   Observed true 1500 (mkDriverEvent 3 7 [ipv4 192 168 0 2] [0] 50000 0 6 41 11);
   Swept 1600;
   Observed true 1700 (mkDriverEvent 2 1 [ipv4 192 168 0 2] [ipv4 93 184 216 34] 50000 443 6 42 12)].

Lemma attribution_sound_witness :
  exists i alloc ts e, demo_history !! i = Some (Observed alloc ts e) /\ dv_pid e = 42 /\ dv_endpoint e = 12 /\ ts = 1700.
Proof.
  destruct (attribution_sound demo_hton demo_history 2000 (make_v4_mapped_address (ipv4 192 168 0 2)) 50000
    (make_v4_mapped_address (ipv4 93 184 216 34)) 443 false 42) as (i & alloc & ts & e & Hi & _ & Hp & _);
    [vm_compute; reflexivity|discriminate|].
  exists i, alloc, ts, e. split; [exact Hi|]. split; [exact Hp|].
  unfold demo_history in Hi. do 4 (destruct i as [|i]; [try discriminate Hi; injection Hi as <- <- <-; try discriminate Hp;
    (split; reflexivity)|]). discriminate Hi.
Defined.

(** ** Stop *)

Lemma stop_forgets_witness :
  is_Some (conn_of (w_conns demo_flow_world) (50000, false, false)) /\
  exists w', stop_tables demo_flow_world = Some w' /\ conn_of (w_conns w') (50000, false, false) = None.
Proof.
  split; [eexists; vm_compute; reflexivity|].
  destruct (stop_forgets demo_flow_world demo_flow_world_wf) as (w' & E & _ & _ & _ & Hn & _).
  exists w'. split; [exact E|apply Hn].
Defined.

(** ** The engine *)

Definition demo_event : engine_event := EnPackets demo_batch.
Definition demo_rule_call : engine_event :=
  EnRule (OpAddRule demo_allocs (Some (str "app.exe")) None None None RULE_PROTOCOL_BOTH RULE_ACTION_PROXY 1).

(** A rule is added and the clean-up has begun its walk. *)
Definition demo_engine : Engine :=
  mkEngine (bump (with_rules (world_init 7)
    (fst (ProxyBridge_AddRule true demo_allocs rules_init (Some (str "app.exe")) None None None
            RULE_PROTOCOL_BOTH RULE_ACTION_PROXY 1)))) 1 false (Some (5000, AtBucket 0)).

Lemma demo_engine_reached :
  engine_reach demo_parse demo_write demo_hton 7 2 demo_engine.
Proof.
  eapply (engine_next _ _ _ 7 1 (set_walk demo_engine None) (EnCleanBegin 5000)); [|exact I|by intros []|reflexivity].
  eapply (engine_next _ _ _ 7 0 (engine_init 7) demo_rule_call); [constructor|exact I|by intros []|].
  vm_compute. reflexivity.
Qed.

(** The batch above is processed between two sections of the clean-up, and so is
    the next section. *)
Lemma engine_never_faults_witness :
  world_wf (en_world demo_engine) /\
  is_Some (engine_step demo_parse demo_write demo_hton demo_event demo_engine) /\
  is_Some (engine_step demo_parse demo_write demo_hton EnCleanWalk demo_engine).
Proof.
  destruct (engine_never_faults demo_parse demo_write demo_hton demo_parses_well 7 2 demo_engine
    demo_event demo_engine_reached) as (Hw & _ & [(s1 & E1 & _)|Hh]);
    [lia|exact demo_batch_good| |by destruct (demo_batch_honest Hh)].
  destruct (engine_never_faults demo_parse demo_write demo_hton demo_parses_well 7 2 demo_engine
    EnCleanWalk demo_engine_reached) as (_ & _ & [(s2 & E2 & _)|Hh]); [lia|exact I| |by destruct (Hh I)].
  split; [exact Hw|]. split; [exists s1; exact E1|exists s2; exact E2].
Defined.

(** ** The blocking relay *)

Definition demo_pair_events : list pair_event :=
  [PRegister (Some 1) 10 11; PStart true 1; PShut true 1 false; POut 1 false; PStop; PAbort].
Definition demo_pairs : PairState :=
  match pair_run demo_pair_events pairs_init with PNext s => s | _ => pairs_init end.

(** The download direction still runs when Stop shuts the pair. *)
Lemma stop_shuts_every_pair_witness :
  exists c, pairs demo_pairs !! 1 = Some c /\ way1 c = Relaying /\ rp_shut c = true.
Proof.
  destruct (pairs demo_pairs !! 1) as [c|] eqn:E; [|discriminate]. exists c. split; [reflexivity|].
  assert (pair_run demo_pair_events pairs_init = PNext demo_pairs) as Hr by (vm_compute; reflexivity).
  assert (way1 c = Relaying) as Hw by (vm_compute in E; injection E as <-; reflexivity). split; [exact Hw|].
  apply (proj1 (proj2 (stop_shuts_every_pair demo_pair_events) demo_pairs Hr) eq_refl 1 c true E).
  cbn [way]. rewrite Hw. discriminate.
Defined.
